(* ===== verification/_CoqProject ===== *)
-Q . S2P
Prelude.v
Trace.v
GoStrings.v
Domain.v
Runtime.v
CircuitBreaker.v
Metrics.v
EventBus.v
GoTime.v
Dispatcher.v
DispatcherTheory.v
DispatcherProps.v
Pg.v
Store.v
StoreTheory.v
StoreProps.v
Cron.v
Scheduler.v
SchedulerTheory.v
SchedulerProps.v
Reconciler.v
Sha256.v
Json.v
Webhook.v
WebhookURL.v
Analytics.v
NaturalLanguage.v
Service.v
Wiring.v
Tenancy.v
ServiceTheory.v
ServiceProps.v
ServiceOps.v
System.v
Progress.v
Float64.v
GoDuration.v
Config.v
GoUrl.v
Http.v
HttpServer.v
Middleware.v
Api.v
ApiServer.v
ApiContract.v
Transport.v
ApiProps.v
Mcp.v
McpProps.v
Proxy.v
HttpClient.v
ProxyProps.v
Webadmin.v
WebadminForms.v
WebadminProps.v
WebadminSession.v
Site.v
SiteProps.v
Serve.v
Leader.v
Prometheus.v
PrometheusProps.v
