(* ===== verification/Prelude.v ===== *)
(** * CronLite: a verification development

    CronLite is a cron service: clients register jobs (a cron expression, a time
    zone, a webhook), a scheduler turns the activations of the expressions into
    executions in PostgreSQL, dispatchers deliver executions as signed webhooks
    with retries, and a reconciler recovers what got lost. This library models
    the Go code of the service and proves what its parts promise.

    ** Parts of the program and files

    The pipeline is: job service (jobs and manual triggers) and scheduler (fires)
    write executions to the store; in channel mode they also emit an event on the
    bus, from which the dispatcher takes it; in database mode the dispatcher
    claims executions from the store. The dispatcher asks the circuit breaker,
    sends through the webhook sender, records attempts, and settles the status of
    the execution in the store. The reconciler requeues stale claims and emits
    orphans again. Namespaces separate tenants; API keys and admin sessions
    authenticate them.

    - [Domain]: records, errors with [errors.Is], contexts, list defaults
      ([internal/domain]).
    - [CircuitBreaker]: one record per URL; [Allow], [RecordSuccess],
      [RecordFailure] ([internal/circuitbreaker/breaker.go]).
    - [EventBus]: the bounded channel ([internal/transport/channel/bus.go]).
    - [Metrics]: classification of attempts ([internal/metrics/sink.go]).
    - [Dispatcher], [DispatcherTheory], [DispatcherProps]: [Dispatch] with its
      retry loop, [Run], [drain] and [RunDBPoll]
      ([internal/dispatcher/dispatcher.go]); [Webhook]: [Send] and signatures
      ([internal/dispatcher/webhook.go]), with [Sha256].
    - [Pg]: the tables and constraints of [schema/*.sql] and every statement of
      [internal/store/postgres/queries.go]; [Store], [StoreTheory], [StoreProps]:
      every method of [internal/store/postgres/store.go].
    - [Cron]: [internal/cron/parser.go]; [Scheduler], [SchedulerTheory],
      [SchedulerProps]: [internal/scheduler/scheduler.go].
    - [Reconciler]: [internal/reconciler/reconciler.go].
    - [WebhookURL]: [internal/webhookurl/validation.go]; [Analytics]:
      [internal/analytics/redis.go].
    - [NaturalLanguage] and [Service]: [internal/service]; [ServiceTheory],
      [ServiceProps], [ServiceOps], with [Tenancy] for what one namespace can do
      to another.
    - [Wiring]: the one store behind the interfaces of all components, as
      [cmd/cronlite/main.go] passes it around; [System]: everything that the
      program does on that store, in any order; [Progress]: what polling workers
      achieve on it.
    - [Config], with [GoDuration]: [internal/config] (reading, validation,
      printing).
    - [Http], [Middleware], [Api], [ApiServer]: [internal/api]: requests and
      responses; authentication, rate limits (with [Float64], the arithmetic of
      [float64]) and CORS; the handlers ([handler_v2.go], [errors.go]); the
      generated server ([server.gen.go]) with wrappers, strict handlers, routes.
      [ApiContract]: the handlers against the job service; [ApiProps]: the chain
      that [runServe] of [cmd/cronlite/main.go] builds, on the store, with
      [Transport] for what its middlewares can touch.
    - [Mcp]: [internal/mcp]: the tools, their errors, authentication and limits;
      [McpProps]: the tools against the job service, and the handler at [/mcp] on
      the store.
    - [Proxy]: [cmd/cronlite-mcp/main.go], the tools for agents that go through the
      REST API; [HttpClient]: how its requests travel; [ProxyProps]: its calls
      against the job service.
    - [Webadmin]: [internal/webadmin] and its mount in [cmd/cronlite/main.go]:
      sessions, CSRF tokens, forms, pages, routes. [WebadminForms]: what browsers
      send back for a form; [WebadminProps]: the pages on the store;
      [WebadminSession]: cookies and sessions. [GoUrl] and [HttpServer] are the
      parts of [net/url] and [net/http] that they use.
    - [Site]: the multiplexer of the HTTP server, the handler of metrics and
      [httpMux] of [cmd/cronlite/main.go]; [SiteProps]: the server as a whole, REST,
      MCP and pages on one store.
    - [Serve]: the commands of [cmd/cronlite/main.go], the warnings about a
      configuration, and [runServe]: what it starts, waits for and stops.
    - [Leader]: [internal/leaderelection/leader.go] and [leaderRuntime] of
      [cmd/cronlite/main.go], as a step relation over many instances.
    - [Prometheus]: [internal/metrics/prometheus.go] and [noop.go]: the collectors
      and the reports as calls of the client library; [PrometheusProps]: what they
      show of a tick, a dispatch and an elector.
    - [Prelude], [Trace], [GoStrings], [GoTime], [Json], [Runtime]: results, the
      state monad, Hoare triples, machine integers and times; traces of calls; the
      [strings], [strconv] and [time.Format] functions that the source uses; what
      [encoding/json] makes of the encoded values; the clock, identifiers and
      contexts.

    ** How code becomes definitions

    A Go function is a function in the state monad [st W] over a world [W]. What
    a component is given (store, sender, sinks, emitter, clock) is a class over
    [W] with one operation per method of the Go interface, so a theorem holds for
    every implementation; [Wiring] gives the implementations by [Store], and the
    modules [Sim] give scripted ones at which the theorems are evaluated. A pair
    [(T, error)] is a [result]; the value next to an error is not modelled, as no
    caller reads it, except in the scheduler, whose caller does. Optional
    collaborators (fields that may be nil) are flags or options. A [time] is an
    integer of nanoseconds since the zero time, a [duration] a 64-bit integer;
    arithmetic that can overflow is written with [wrap64] or saturates as
    [Time.Sub] does. Loops over lists are recursions on the list; loops with a
    bound in the code recurse on that bound (four attempts, five insertions, the
    cap of fires per tick). The loop over pages of a tick has fuel: one page more
    than there are full pages is enough ([tick_visits_every_job]). The channel
    loops take the number of rounds; what a [select] picks is asked of the world.

    A statement of SQL is a function from the database to an error or to rows and
    a new database. A call of the store is one transaction: other connections may
    have changed the database before it, arbitrarily unless a theorem says
    otherwise, and it may fail before it took effect or after ([run_tx]).

    A middleware is a function from handlers to handlers; what it closes over is a
    [cell] of the world, and its mutex makes an operation on the cell one step.
    Floats are those of IEEE 754 binary64. Durations in text are parsed
    with a measure on the text ([parse_all_fuel] shows that it is enough). Leader
    election is not a program in the monad but a labelled transition system: every
    point where a goroutine, the server or the network can interfere ends a step.

    ** What the theorems show

    - Store: every sequence of calls keeps the database whole; terminal statuses
      are final; no execution is claimed twice; the outcome of dequeues, status
      updates, insertions, requeues and deletions on every branch; pages and
      listings are complete; created jobs are read back; keys and sessions.
    - System: with every activity of every component on one store, in any order and
      with any failures, the database stays whole and final statuses stay final;
      polling workers, while nothing fails, leave no execution emitted.
    - Scheduler: every activation between two ticks is offered to the store, and
      what the store took to the emitter; the insertions of a job are the activations
      of its window; a tick ends and visits every job once.
    - Dispatcher: which deliveries are made, when they stop, the single status
      update and report to the breaker, the time that waits and deadlines can take
      by the time limit of the job ([Webhook]).
    - Reconciler: what a cycle requeues and emits, and its default thresholds.
    - Breaker and bus: threshold, cooldown, probe budget, independence of URLs;
      order and bound of the channel.
    - Webhooks: what is posted and signed, and what is made of the answer; which URLs and addresses are refused.
    - Service: a request leaves other namespaces alone and reveals nothing of
      them; outcomes of creating, updating, pausing and triggering jobs; keys
      authenticate; schedules resolve to their next activations; phrases
      translate to valid expressions and back.
    - REST: a request stays in the namespace of its key from the socket to the
      tables, and without a key it reaches nothing; every operation is a request of
      the service, with its status and error; the token buckets keep their bounds
      and admit what they have, and starve clients that ask too often.
    - MCP: a call of a tool is a request of the service, and its answer the text of
      the result or the message for its error; an agent stays in the namespace of its key. The same for the proxy,
      for arguments that travel as they are.
    - Admin pages: an admin stays in the namespace of its key; nothing but sessions
      changes without a session and its token, or the installation token; the
      cookie of a session finds it, and renews it, until one of its ends; an
      unchanged form changes nothing exactly when the form can hold the job, and
      the links of a list keep its filters.
    - The server as a whole: whatever the path, a request changes the rows of the
      namespace of its key only, and none without a key or a session.
    - Serve: every run ends with an exit code that says how; the dispatcher stops
      after the scheduler, so that what that emitted can be delivered, and the
      database is closed last, when everything but the trackers of [last_used_at],
      which nobody waits for, has returned.
    - Metrics: every report is a call that the client library accepts, and the
      counters and gauges say what happened: of a tick, of a dispatch, of an elector.
    - Configuration: what validation accepts is sound; printing hides secrets; the
      numbers that are loaded are in range.
    - Leader election: of the instances that run the duties of the leader at most
      one has a living session; the lead can always be taken over, with duties unless
      they are marked as running from before; a late start does that, and leaves a
      term without duties.

    ** What is not modelled

    - Interleavings inside a transaction (row locks and isolation are taken as
      atomicity; the rows that others have locked are a parameter), connection
      pools, deadlines as clock time, log output. The workers of [RunDBPoll] take
      turns a round at a time; inside a round only the store is shared.
    - The third-party cron parser, the time zone database, [url.Parse],
      [net.ParseIP], the HTTP client, Redis, and what PostgreSQL leaves open are
      parameters; [next_of] states the documented behaviour of [Next].
    - Text outside ASCII in case mapping and trimming.
    - The JSON decoder, the bindings of path and query parameters, the text of a
      time in JSON, and redirects of the router to clean paths; the routes are
      matched on paths that are clean already. [onDemoted] is [leaderRuntime.stop],
      which does not panic, so the recovery from panics is left out.
    - The protocol library of MCP: the accessors of a call and its HTTP server are
      parameters, and [Confined] says that the server acts through the tools and
      the context function only. The schemas of the tools are left out.
    - The templates of the admin pages (a page is the name of its template with the
      fields that it is given), [uuid.Parse] and multipart bodies are parameters;
      queries with more than 10,000 parameters, which newer versions of [net/url]
      refuse, are parsed like others.
    - Of the HTTP client of the proxy, what [Bearing] and [loopback] say: it sends
      the request to the host of the base URL, with its header; the decoder of the
      API reads what the proxy encodes.
    - The Prometheus client (a parameter), usage texts and log lines, [METRICS_PATH] with a
      method, a host or wildcards, the redirects of the multiplexer to clean paths,
      [cmd/worker], and the benchmark tools. *)
From stdpp Require Export base gmap strings list sorting fin_maps.
From Stdlib Require Export ZArith Ascii Lia.

#[export] Set Default Goal Selector "!".

(** ** Scopes and hint databases *)
Declare Scope cron_scope.
Delimit Scope cron_scope with cron.

(** Lemmas that say that an operation preserves a relation between the state
    before and the state after it. *)
Create HintDb frame.
(** Equations of state-passing programs. *)
Create HintDb run.

(** ** Results of fallible calls

    A Go function with the result [(A, error)] is a function into [result E A]:
    a nil error is [Ok], any other error [Err]; the value that accompanies a
    non-nil error is never read by the callers that are modelled. *)
Inductive result (E A : Type) : Type :=
| Ok (a : A)
| Err (e : E).
Arguments Ok {E A} a.
Arguments Err {E A} e.

Definition is_ok {E A} (r : result E A) : bool :=
  match r with Ok _ => true | Err _ => false end.

Definition result_map {E A B} (f : A -> B) (r : result E A) : result E B :=
  match r with Ok a => Ok (f a) | Err e => Err e end.

(** ** State-passing programs

    [st W A] is a program over the state [W] with a value in [A]. *)
Definition st (W A : Type) : Type := W -> A * W.

#[export] Instance st_ret {W} : MRet (st W) := fun A a w => (a, w).
#[export] Instance st_bind {W} : MBind (st W) := fun A B f m w =>
  let '(a, w') := m w in f a w'.
#[export] Instance st_fmap {W} : FMap (st W) := fun A B f m w =>
  let '(a, w') := m w in (f a, w').

Definition get {W} : st W W := fun w => (w, w).
Definition put {W} (w : W) : st W unit := fun _ => (tt, w).
Definition gets {W A} (f : W -> A) : st W A := fun w => (f w, w).
Definition modify {W} (f : W -> W) : st W unit := fun w => (tt, f w).
Definition exec {W A} (m : st W A) (w : W) : W := snd (m w).
Definition eval {W A} (m : st W A) (w : W) : A := fst (m w).

(** [try x := m catch e => h in k] is Go's [x, e := m; if e != nil { return h }; k]. *)
Notation "'try' x ':=' m 'catch' e '=>' h 'in' k" :=
  (mbind (M := st _) (fun r => match r with Ok x => k | Err e => h end) m)
  (at level 200, x pattern, m at level 99, e name, h at level 99, k at level 200)
  : cron_scope.
(** [when b m] is [if b { m }]. *)
Definition when {W} (b : bool) (m : st W unit) : st W unit :=
  if b then m else mret tt.

(** *** Streams of outside events

    What the environment answers to the n-th question of a program (the clock,
    fresh identifiers, outcomes of remote calls) is a stream that the state
    carries; a read takes its head. *)
Definition stream (A : Type) : Type := nat -> A.
Definition shd {A} (s : stream A) : A := s 0.
Definition stl {A} (s : stream A) : stream A := fun n => s (S n).

(** ** Relations preserved by a program *)
Definition preserves {W A} (R : relation W) (m : st W A) : Prop :=
  forall w, R w (exec m w).

Section preserves.
  Context {W : Type} (R : relation W) `{!PreOrder R}.

Lemma preserves_ret {A} (a : A) : preserves R (mret (M := st W) a).
Proof. intros w. unfold exec; cbn. reflexivity. Qed.

Lemma preserves_bind {A B} (m : st W A) (f : A -> st W B) :
  preserves R m -> (forall a, preserves R (f a)) -> preserves R (m ≫= f).
Proof.
  intros Hm Hf w. unfold exec, mbind, st_bind.
  specialize (Hm w). unfold exec in Hm. destruct (m w) as [a w']; cbn in *.
  etrans; [exact Hm | apply Hf].
Qed.

Lemma preserves_gets {A} (f : W -> A) : preserves R (gets f).
Proof. intros w. reflexivity. Qed.

Lemma preserves_get : preserves R get.
Proof. intros w. reflexivity. Qed.

Lemma preserves_when b (m : st W unit) : preserves R m -> preserves R (when b m).
Proof. intros Hm. destruct b; [exact Hm | apply preserves_ret]. Qed.

Lemma preserves_fmap {A B} (f : A -> B) (m : st W A) :
  preserves R m -> preserves R (f <$> m).
Proof.
  intros Hm w. unfold exec, fmap, st_fmap. specialize (Hm w). unfold exec in Hm.
  by destruct (m w).
Qed.

Lemma preserves_result {E A B} (m : st W (result E A)) (h : E -> st W B) (k : A -> st W B) :
  preserves R m -> (forall e, preserves R (h e)) -> (forall a, preserves R (k a)) ->
  preserves R (m ≫= fun r => match r with Ok a => k a | Err e => h e end).
Proof. intros Hm Hh Hk. apply preserves_bind; [done |]. intros [a|e]; auto. Qed.
End preserves.

#[export] Hint Resolve preserves_ret preserves_bind preserves_gets preserves_get
  preserves_when preserves_fmap : frame.

(** Splits a goal [preserves R m] along the structure of the program [m]. *)
Ltac frame_step :=
  match goal with
  | |- preserves _ (mret _) => apply preserves_ret
  | |- preserves _ (gets _) => apply preserves_gets
  | |- preserves _ get => apply preserves_get
  | |- preserves _ (when _ _) => apply preserves_when
  | |- preserves _ (_ ≫= _) => apply preserves_bind; [| intros ?]
  | |- preserves _ (_ <$> _) => apply preserves_fmap
  | |- preserves _ (match ?x with _ => _ end) => destruct x
  end.
Ltac frame := repeat (first [solve [auto with frame nocore] | frame_step]); auto with frame.

(** ** Hoare triples *)
Definition hoare {W A} (P : W -> Prop) (m : st W A) (Q : A -> W -> Prop) : Prop :=
  forall w, P w -> Q (eval m w) (exec m w).

Section hoare.
  Context {W : Type}.
  Implicit Types P : W -> Prop.

Lemma hoare_ret {A} (a : A) (Q : A -> W -> Prop) : hoare (Q a) (mret (M := st W) a) Q.
Proof. intros w H. exact H. Qed.

Lemma hoare_bind {A B} P (m : st W A) (f : A -> st W B) (Q : A -> W -> Prop) (R : B -> W -> Prop) :
  hoare P m Q -> (forall a, hoare (Q a) (f a) R) -> hoare P (m ≫= f) R.
Proof.
  intros Hm Hf w Hw. specialize (Hm w Hw). unfold eval, exec, mbind, st_bind in *.
  destruct (m w) as [a w']; cbn in *. exact (Hf a w' Hm).
Qed.

Lemma hoare_conseq {A} P P' (m : st W A) (Q Q' : A -> W -> Prop) :
  hoare P m Q -> (forall w, P' w -> P w) -> (forall a w, Q a w -> Q' a w) -> hoare P' m Q'.
Proof. intros Hm HP HQ w Hw. apply HQ, Hm, HP, Hw. Qed.
End hoare.

(** ** Machine integers and Go's durations

    [int] and [time.Duration] are 64-bit two's-complement integers. *)
Definition wrap64 (z : Z) : Z := (z + 2 ^ 63) mod 2 ^ 64 - 2 ^ 63.
Definition int64_min : Z := - 2 ^ 63.
Definition int64_max : Z := 2 ^ 63 - 1.
Definition in_int64 (z : Z) : Prop := (int64_min <= z <= int64_max)%Z.

(** A decidable fact about small numbers, by trying them all. *)
Lemma below_all (P : N -> Prop) `{!forall n, Decision (P n)} (k : nat) :
  forallb (fun n => bool_decide (P (N.of_nat n))) (seq 0 k) = true -> forall n, (n < N.of_nat k)%N -> P n.
Proof.
  rewrite forallb_forall. intros Hall n Hn. rewrite <- (N2Nat.id n).
  assert (Hin : In (N.to_nat n) (seq 0 k)) by (apply in_seq; lia). exact (bool_decide_eq_true_1 _ (Hall _ Hin)).
Qed.

Lemma wrap64_id z : in_int64 z -> wrap64 z = z.
Proof. unfold in_int64, wrap64, int64_min, int64_max. intros. rewrite Z.mod_small; lia. Qed.

Lemma wrap64_range z : in_int64 (wrap64 z).
Proof.
  unfold in_int64, wrap64, int64_min, int64_max.
  pose proof (Z.mod_pos_bound (z + 2 ^ 63) (2 ^ 64) ltac:(lia)). lia.
Qed.

(** Times are nanoseconds since Go's zero time (January 1 of year 1, UTC): the
    instant only, since [UTC] and [In] change the location and not the instant. *)
Abbreviation time := Z (only parsing).
Abbreviation duration := Z (only parsing).

Definition Nanosecond : duration := 1.
Definition Microsecond : duration := 1000.
Definition Millisecond : duration := 1000000.
Definition Second : duration := 1000000000.
Definition Minute : duration := 60 * Second.
Definition Hour : duration := 60 * Minute.

Definition IsZero (t : time) : bool := (t =? 0)%Z.
Definition After (t u : time) : bool := (u <? t)%Z.
Definition Before (t u : time) : bool := (t <? u)%Z.
(** [Time.Add]. *)
Definition time_add (t : time) (d : duration) : time := (t + d)%Z.
(** [Time.Sub] saturates at the ends of the duration range. *)
Definition time_sub (t u : time) : duration := Z.max int64_min (Z.min int64_max (t - u)).
(** [Time.Truncate] rounds down to a multiple of [d] since the zero time. *)
Definition Truncate (t : time) (d : duration) : time :=
  if (d <=? 0)%Z then t else (t - t mod d)%Z.
(** [Duration.Milliseconds] truncates toward zero. *)
Definition Milliseconds (d : duration) : Z := Z.quot d Millisecond.

Lemma Truncate_le t d : (Truncate t d <= t)%Z.
Proof.
  unfold Truncate. destruct (Z.leb_spec d 0); [lia |].
  pose proof (Z.mod_pos_bound t d ltac:(lia)). lia.
Qed.

Lemma Truncate_gt t d : (0 < d)%Z -> (t - d < Truncate t d)%Z.
Proof.
  intros. unfold Truncate. destruct (Z.leb_spec d 0); [lia |].
  pose proof (Z.mod_pos_bound t d ltac:(lia)). lia.
Qed.

Lemma Truncate_idemp t d : Truncate (Truncate t d) d = Truncate t d.
Proof.
  unfold Truncate. destruct (Z.leb_spec d 0); [done |].
  rewrite Zminus_mod_idemp_r, Z.sub_diag, Z.mod_0_l; lia.
Qed.

Lemma Truncate_mono t u d : (t <= u)%Z -> (Truncate t d <= Truncate u d)%Z.
Proof.
  unfold Truncate. destruct (Z.leb_spec d 0); [lia |]. intros.
  rewrite (Z.mod_eq t d), (Z.mod_eq u d) by lia.
  pose proof (Z.div_le_mono t u d ltac:(lia) ltac:(lia)). nia.
Qed.
