(* ===== verification/Trace.v ===== *)
(** * Traces of calls

    A program over a state that keeps a log of the calls it made: [logs log m P]
    says that every run of [m] appends to the log a trace that is in the relation
    [P] with the value of the run.  The rules compose such statements along the
    structure of a program. *)
From S2P Require Import Prelude.

Section traces.
  Context {W Act : Type} (log : W -> list Act).

Definition logs {A} (m : st W A) (P : list Act -> A -> Prop) : Prop :=
  forall w, exists l, log (exec m w) = log w ++ l /\ P l (eval m w).

Lemma logs_ret {A} (a : A) (P : list Act -> A -> Prop) : P [] a -> logs (mret a) P.
Proof. intros HP w. exists []. by rewrite app_nil_r. Qed.

Lemma logs_conseq {A} (m : st W A) (P Q : list Act -> A -> Prop) :
  logs m P -> (forall l a, P l a -> Q l a) -> logs m Q.
Proof. intros Hm HPQ w. destruct (Hm w) as (l & Hl & HP). eauto. Qed.

Lemma logs_bind {A B} (m : st W A) (f : A -> st W B) (Q : list Act -> B -> Prop) :
  logs m (fun l1 a => logs (f a) (fun l2 b => Q (l1 ++ l2) b)) -> logs (m ≫= f) Q.
Proof.
  intros Hm w. destruct (Hm w) as (l1 & Hl1 & Hf).
  unfold exec, eval, mbind, st_bind in *. destruct (m w) as [a w']; cbn in *.
  destruct (Hf w') as (l2 & Hl2 & HQ). unfold exec, eval in *. exists (l1 ++ l2).
  rewrite Hl2, Hl1, app_assoc. done.
Qed.

(** Binding a call with a known trace. *)
Lemma logs_step {A B} (m : st W A) (f : A -> st W B) (tr : A -> list Act) (Q : list Act -> B -> Prop) :
  (forall w, log (exec m w) = log w ++ tr (eval m w)) ->
  (forall a, logs (f a) (fun l b => Q (tr a ++ l) b)) -> logs (m ≫= f) Q.
Proof.
  intros Hm Hf. apply logs_bind. intros w. exists (tr (eval m w)). split; [apply Hm | apply Hf].
Qed.

Lemma logs_silent {A B} (m : st W A) (f : A -> st W B) (Q : list Act -> B -> Prop) :
  (forall w, log (exec m w) = log w) -> (forall a, logs (f a) Q) -> logs (m ≫= f) Q.
Proof.
  intros Hm Hf. apply (logs_step m f (fun _ => [])); [|exact Hf].
  intros w. by rewrite app_nil_r.
Qed.
End traces.
Arguments logs_ret {W Act log A}.
Arguments logs_conseq {W Act log A}.
Arguments logs_bind {W Act log A B}.
Arguments logs_step {W Act log A B}.
Arguments logs_silent {W Act log A B}.

(** ** Observations of a trace

    The results of a partial function on the entries of a trace, in order. *)
Fixpoint pick {Act B} (f : Act -> option B) (l : list Act) : list B :=
  match l with
  | [] => []
  | a :: l => match f a with Some b => b :: pick f l | None => pick f l end
  end.

Lemma pick_app {Act B} (f : Act -> option B) l1 l2 : pick f (l1 ++ l2) = pick f l1 ++ pick f l2.
Proof. induction l1 as [|a l1 IH]; [done |]. cbn. destruct (f a); cbn; by rewrite IH. Qed.

Lemma pick_nil {Act B} (f : Act -> option B) l : (forall a, a ∈ l -> f a = None) -> pick f l = [].
Proof.
  induction l as [|a l IH]; intros Hl; [done |]. cbn. rewrite Hl by left.
  apply IH. intros b Hb. apply Hl. by right.
Qed.
