(* ===== verification/GoStrings.v ===== *)
(** * Byte strings as Go's [strings] and [strconv] treat them

    A Go string is a sequence of bytes, here a [string] of [ascii].  Case
    mapping and white space are those of the ASCII range; the other code points
    that [strings.ToLower] and [strings.TrimSpace] know about are left alone. *)
From stdpp Require Export pretty.
From S2P Require Import Prelude.

Definition byte_of (c : ascii) : Z := Z.of_N (N_of_ascii c).
Definition of_byte (z : Z) : ascii := ascii_of_N (Z.to_N z).

(** ['A' <= c && c <= 'Z'] and the conversion [c + 32]. *)
Definition is_upper (c : ascii) : bool := (65 <=? byte_of c)%Z && (byte_of c <=? 90)%Z.
Definition lower_byte (c : ascii) : ascii := if is_upper c then of_byte (byte_of c + 32) else c.
Definition is_digit (c : ascii) : bool := (48 <=? byte_of c)%Z && (byte_of c <=? 57)%Z.
Definition digit_val (c : ascii) : Z := (byte_of c - 48)%Z.
Definition is_space (c : ascii) : bool :=
  (byte_of c =? 32)%Z || ((9 <=? byte_of c)%Z && (byte_of c <=? 13)%Z).

Fixpoint str_map (f : ascii -> ascii) (s : string) : string :=
  match s with
  | EmptyString => EmptyString
  | String c s' => String (f c) (str_map f s')
  end.
Definition ToLower (s : string) : string := str_map lower_byte s.

Fixpoint trim_left (s : string) : string :=
  match s with
  | EmptyString => EmptyString
  | String c s' => if is_space c then trim_left s' else s
  end.
Fixpoint trim_right (s : string) : string :=
  match s with
  | EmptyString => EmptyString
  | String c s' =>
      match trim_right s' with
      | EmptyString => if is_space c then EmptyString else String c EmptyString
      | r => String c r
      end
  end.
Definition TrimSpace (s : string) : string := trim_right (trim_left s).

Definition HasPrefix (s p : string) : bool := String.prefix p s.
Fixpoint drop_bytes (n : nat) (s : string) : string :=
  match n, s with
  | S n', String _ s' => drop_bytes n' s'
  | _, _ => s
  end.
Fixpoint take_bytes (n : nat) (s : string) : string :=
  match n, s with
  | S n', String c s' => String c (take_bytes n' s')
  | _, _ => EmptyString
  end.
Definition TrimPrefix (s p : string) : string :=
  if HasPrefix s p then drop_bytes (String.length p) s else s.
Definition HasSuffix (s p : string) : bool :=
  (String.length p <=? String.length s) &&
  String.eqb (drop_bytes (String.length s - String.length p) s) p.

(** [strings.Contains]. *)
Fixpoint Contains (s p : string) : bool :=
  HasPrefix s p || match s with EmptyString => false | String _ s' => Contains s' p end.

(** [strings.Split] on a one-byte separator: always at least one piece. *)
Fixpoint Split (s : string) (sep : ascii) : list string :=
  match s with
  | EmptyString => [EmptyString]
  | String c s' =>
      if decide (c = sep) then EmptyString :: Split s' sep
      else match Split s' sep with
           | [] => [String c EmptyString]
           | p :: ps => String c p :: ps
           end
  end.
(** [strings.Cut] on a one-byte separator: the pieces around its first occurrence. *)
Fixpoint Cut (s : string) (sep : ascii) : option (string * string) :=
  match s with
  | EmptyString => None
  | String c s' =>
      if decide (c = sep) then Some (EmptyString, s')
      else match Cut s' sep with
           | None => None
           | Some (a, b) => Some (String c a, b)
           end
  end.
Fixpoint Join (l : list string) (sep : string) : string :=
  match l with
  | [] => EmptyString
  | [s] => s
  | s :: l' => s +:+ sep +:+ Join l' sep
  end.
(** [strings.EqualFold] on ASCII text. *)
Definition EqualFold (s t : string) : bool := String.eqb (ToLower s) (ToLower t).

(** [strconv.Itoa]. *)
Definition Itoa (n : Z) : string := pretty n.
(** [fmt]'s [%02d] on a natural number. *)
Definition pad2 (n : Z) : string := if (n <? 10)%Z then "0" +:+ Itoa n else Itoa n.

(** [strconv.Atoi]: [None] is its error (a syntax error or a value outside [int]). *)
Fixpoint digits_val (acc : Z) (s : string) : option Z :=
  match s with
  | EmptyString => Some acc
  | String c s' => if is_digit c then digits_val (10 * acc + digit_val c) s' else None
  end.
Definition in_int64b (z : Z) : bool := (int64_min <=? z)%Z && (z <=? int64_max)%Z.
Definition Atoi (s : string) : option Z :=
  let parse neg body :=
    match body with
    | EmptyString => None
    | _ => match digits_val 0 body with
           | Some n => let v := if neg : bool then (- n)%Z else n in
                       if in_int64b v then Some v else None
           | None => None
           end
    end in
  match s with
  | String c s' =>
      if decide (c = "-"%char) then parse true s'
      else if decide (c = "+"%char) then parse false s'
      else parse false s
  | EmptyString => None
  end.

(** [encoding/hex.EncodeToString]. *)
Definition hex_digit (n : Z) : ascii := of_byte (if (n <? 10)%Z then 48 + n else 87 + n)%Z.
Fixpoint hex_encode (bs : list Z) : string :=
  match bs with
  | [] => EmptyString
  | b :: bs' => String (hex_digit (b / 16)) (String (hex_digit (b mod 16)) (hex_encode bs'))
  end.

(** The bytes of a string, [[]byte(s)]. *)
Fixpoint bytes_of (s : string) : list Z :=
  match s with
  | EmptyString => []
  | String c s' => byte_of c :: bytes_of s'
  end.

Example ToLower_ex : ToLower "Every DAY At 9AM" = "every day at 9am".
Proof. reflexivity. Qed.
Example TrimSpace_ex : TrimSpace "  a b  " = "a b".
Proof. reflexivity. Qed.
Example Split_ex : Split "a=b,c" ","%char = ["a=b"; "c"].
Proof. reflexivity. Qed.
Example Atoi_ex : (Atoi "-42", Atoi "9223372036854775808", Atoi "", Atoi "1a") = (Some (-42)%Z, None, None, None).
Proof. vm_compute. reflexivity. Qed.
Example hex_ex : hex_encode [0; 171; 255]%Z = "00abff".
Proof. reflexivity. Qed.

(** ** Lemmas *)
Lemma str_app_cons c p t : String c p +:+ t = String c (p +:+ t).
Proof. reflexivity. Qed.

Lemma str_app_nil_l t : "" +:+ t = t.
Proof. reflexivity. Qed.

Lemma str_app_assoc a b c : (a +:+ b) +:+ c = a +:+ b +:+ c.
Proof. induction a as [|x a IH]; [done |]. by rewrite !str_app_cons, IH. Qed.
Lemma str_app_nil_r a : a +:+ "" = a.
Proof. induction a as [|x a IH]; [done |]. by rewrite str_app_cons, IH. Qed.

Lemma prefix_spec p s : String.prefix p s = true <-> exists t, s = p +:+ t.
Proof.
  revert s. induction p as [|c p IH]; intros s.
  - split; [intros _; by exists s | by destruct s].
  - destruct s as [|d s]; cbn.
    + split; [done | intros [t Ht]; rewrite str_app_cons in Ht; done].
    + setoid_rewrite str_app_cons. destruct (ascii_dec c d) as [->|Hne].
      * rewrite IH. split; intros [t Ht]; exists t; congruence.
      * split; [done |]. intros [t Ht]. congruence.
Qed.

Lemma HasPrefix_spec s p : HasPrefix s p = true <-> exists t, s = p +:+ t.
Proof. apply prefix_spec. Qed.

Lemma drop_bytes_app p t : drop_bytes (String.length p) (p +:+ t) = t.
Proof. induction p; [done |]. rewrite str_app_cons. exact IHp. Qed.

Lemma str_length_app s t : String.length (s +:+ t) = String.length s + String.length t.
Proof. induction s; [done |]. rewrite str_app_cons. cbn. congruence. Qed.

Lemma TrimPrefix_app p t : TrimPrefix (p +:+ t) p = t.
Proof.
  unfold TrimPrefix. rewrite (proj2 (HasPrefix_spec _ _)) by (by exists t).
  apply drop_bytes_app.
Qed.

Lemma Contains_spec s p : Contains s p = true <-> exists a b, s = a +:+ p +:+ b.
Proof.
  revert p. induction s as [|c s IH]; intros p; cbn [Contains].
  - rewrite orb_false_r, HasPrefix_spec. split.
    + intros [t Ht]. by exists EmptyString, t.
    + intros (a & b & Hab). destruct a; [by exists b |]. by rewrite str_app_cons in Hab.
  - rewrite orb_true_iff, HasPrefix_spec, IH. split.
    + intros [[t Ht]|(a & b & ->)]; [by exists EmptyString, t |].
      by exists (String c a), b.
    + intros (a & b & Hab). destruct a as [|d a]; [left; by exists b | right].
      rewrite str_app_cons in Hab. injection Hab as _ ->. by exists a, b.
Qed.

Lemma bytes_of_length s : length (bytes_of s) = String.length s.
Proof. induction s; cbn; congruence. Qed.

Lemma byte_of_range c : (0 <= byte_of c < 256)%Z.
Proof.
  unfold byte_of. pose proof (N_ascii_bounded c). lia.
Qed.

Lemma of_byte_of c : of_byte (byte_of c) = c.
Proof. unfold of_byte, byte_of. rewrite N2Z.id. apply ascii_N_embedding. Qed.

Lemma bytes_of_inj s t : bytes_of s = bytes_of t -> s = t.
Proof.
  revert t. induction s as [|c s IH]; intros [|d t] H; simplify_eq/=; [done|].
  f_equal; [| by apply IH]. rewrite <- (of_byte_of c), <- (of_byte_of d). congruence.
Qed.

Lemma digit_val_range c : is_digit c = true -> (0 <= digit_val c <= 9)%Z.
Proof. unfold is_digit, digit_val. rewrite andb_true_iff, !Z.leb_le. lia. Qed.
