(* ===== verification/Domain.v ===== *)
(** * The domain model: [internal/domain]

    Data types of the scheduler as records with the source's fields, the domain
    errors with Go's error chains, and the defaulting of list parameters. *)
From S2P Require Import Prelude GoStrings.

(** [uuid.UUID]: a 128-bit number, ordered as PostgreSQL orders it (bytewise,
    most significant byte first). *)
Abbreviation uuid := N (only parsing).
Definition Nil : uuid := 0%N.

(** ** Errors *)
Inductive domain_error : Type :=
| ErrJobNotFound
| ErrExecutionNotFound
| ErrAPIKeyNotFound
| ErrNamespaceRequired
| ErrNamespaceMismatch
| ErrInvalidCronExpression
| ErrInvalidTimezone
| ErrInvalidWebhookURL
| ErrJobDisabled
| ErrDuplicateExecution
| ErrDuplicateAPIKey
| ErrBootstrapAlreadyCompleted
| ErrAdminSessionNotFound
| ErrScheduleParseFailure.

#[export] Instance domain_error_eq_dec : EqDecision domain_error.
Proof. solve_decision. Defined.

Definition domain_error_text (d : domain_error) : string :=
  match d with
  | ErrJobNotFound => "job not found"
  | ErrExecutionNotFound => "execution not found"
  | ErrAPIKeyNotFound => "api key not found"
  | ErrNamespaceRequired => "namespace required"
  | ErrNamespaceMismatch => "namespace mismatch"
  | ErrInvalidCronExpression => "invalid cron expression"
  | ErrInvalidTimezone => "invalid timezone"
  | ErrInvalidWebhookURL => "invalid webhook URL"
  | ErrJobDisabled => "job is disabled"
  | ErrDuplicateExecution => "execution already exists"
  | ErrDuplicateAPIKey => "api key already exists"
  | ErrBootstrapAlreadyCompleted => "admin bootstrap already completed"
  | ErrAdminSessionNotFound => "admin session not found"
  | ErrScheduleParseFailure => "could not parse schedule description"
  end.

(** The errors that the modelled code creates, tests or passes on: sentinel
    errors of the packages, driver errors with their SQLSTATE code, and chains
    built by [fmt.Errorf] with the verb [%w]. *)
Inductive err : Type :=
| EDomain (d : domain_error)
| EStatusTransitionDenied
| ENoRows
| EPq (code msg : string)
| ECircuitOpen
| EBufferFull
| ECtx (msg : string)
| EUnauthenticated
| EOther (msg : string)
| EWrap (prefix : string) (e : err).

#[export] Instance err_eq_dec : EqDecision err.
Proof. solve_decision. Defined.

(** [errors.Is]: the target is somewhere on the chain. *)
Fixpoint errors_Is (e target : err) : bool :=
  bool_decide (e = target) ||
  match e with
  | EWrap _ e' => errors_Is e' target
  | _ => false
  end.

(** [err.Error()]. *)
Fixpoint Error (e : err) : string :=
  match e with
  | EDomain d => domain_error_text d
  | EStatusTransitionDenied =>
      "status transition denied: execution already in terminal state"
  | ENoRows => "sql: no rows in result set"
  | EPq _ msg => "pq: " +:+ msg
  | ECircuitOpen => "circuit breaker is open"
  | EBufferFull => "event buffer full"
  | ECtx msg => msg
  | EUnauthenticated => "admin authentication required"
  | EOther msg => msg
  | EWrap prefix e' => prefix +:+ ": " +:+ Error e'
  end.

(** A chain of wraps ends in one error that is not a wrap. *)
Fixpoint root_cause (e : err) : err :=
  match e with EWrap _ e' => root_cause e' | _ => e end.

Lemma errors_Is_refl e : errors_Is e e = true.
Proof. destruct e; cbn; rewrite bool_decide_true; done. Qed.

Lemma errors_Is_wrap p e t : errors_Is e t = true -> errors_Is (EWrap p e) t = true.
Proof. cbn. intros ->. apply orb_true_r. Qed.

Lemma errors_Is_domain e d : errors_Is e (EDomain d) = true <-> root_cause e = EDomain d.
Proof.
  induction e; cbn; rewrite ?orb_false_r, ?orb_true_iff, ?bool_decide_eq_true; try done.
  rewrite IHe. naive_solver.
Qed.

(** ** Namespaces and request contexts *)
Abbreviation Namespace := string (only parsing).
Definition ns_IsZero (n : Namespace) : bool := String.eqb n "".

(** A request context, as far as the program reads it: the namespace stored
    under [contextKey], if any. *)
Record context : Type := Context { ctx_namespace : option Namespace }.
Definition NamespaceFromContext (ctx : context) : Namespace :=
  match ctx_namespace ctx with Some ns => ns | None => "" end.
Definition NamespaceToContext (ctx : context) (ns : Namespace) : context :=
  {| ctx_namespace := Some ns |}.
Definition Background : context := {| ctx_namespace := None |}.

(** ** Records *)
Record Schedule : Type := mkSchedule {
  s_ID : uuid;
  s_CronExpression : string;
  s_Timezone : string;
  s_CreatedAt : time;
  s_UpdatedAt : time;
}.

Definition DeliveryTypeWebhook : string := "webhook".

Record DeliveryConfig : Type := mkDeliveryConfig {
  d_Type : string;
  d_WebhookURL : string;
  d_Secret : string;
  d_Timeout : duration;
}.

Record AnalyticsConfig : Type := mkAnalyticsConfig {
  a_Enabled : bool;
  a_RetentionSeconds : Z;
}.
Definition DefaultRetentionSeconds : Z := 86400.

Record Job : Type := mkJob {
  j_ID : uuid;
  j_Namespace : Namespace;
  j_Name : string;
  j_Enabled : bool;
  j_ScheduleID : uuid;
  j_Delivery : DeliveryConfig;
  j_Analytics : AnalyticsConfig;
  j_CreatedAt : time;
  j_UpdatedAt : time;
}.

Record JobWithSchedule : Type := mkJWS { jws_Job : Job; jws_Schedule : Schedule }.

Record Tag : Type := mkTag { t_Key : string; t_Value : string }.

Definition ExecutionStatusEmitted : string := "emitted".
Definition ExecutionStatusInProgress : string := "in_progress".
Definition ExecutionStatusDelivered : string := "delivered".
Definition ExecutionStatusFailed : string := "failed".
Definition TriggerTypeScheduled : string := "scheduled".
Definition TriggerTypeManual : string := "manual".

Record Execution : Type := mkExecution {
  e_ID : uuid;
  e_JobID : uuid;
  e_Namespace : Namespace;
  e_TriggerType : string;
  e_ScheduledAt : time;
  e_FiredAt : time;
  e_Status : string;
  e_AcknowledgedAt : option time;
  e_CreatedAt : time;
  e_ClaimedAt : option time;
}.

Record DeliveryAttempt : Type := mkAttempt {
  da_ID : uuid;
  da_ExecutionID : uuid;
  da_Attempt : Z;
  da_StatusCode : Z;
  da_Error : string;
  da_StartedAt : time;
  da_FinishedAt : time;
}.

Record TriggerEvent : Type := mkEvent {
  ev_ExecutionID : uuid;
  ev_JobID : uuid;
  ev_Namespace : Namespace;
  ev_ScheduledAt : time;
  ev_FiredAt : time;
  ev_CreatedAt : time;
}.

Record APIKey : Type := mkAPIKey {
  k_ID : uuid;
  k_Namespace : Namespace;
  k_TokenHash : string;
  k_Label : string;
  k_Enabled : bool;
  k_CreatedAt : time;
  k_LastUsedAt : option time;
}.

Record AdminSession : Type := mkSession {
  as_TokenHash : string;
  as_APIKeyID : uuid;
  as_CSRFToken : string;
  as_CreatedAt : time;
  as_LastSeenAt : time;
  as_ExpiresAt : time;
  as_AbsoluteExpiresAt : time;
}.

#[export] Instance Schedule_eq_dec : EqDecision Schedule.
Proof. solve_decision. Defined.
#[export] Instance DeliveryConfig_eq_dec : EqDecision DeliveryConfig.
Proof. solve_decision. Defined.
#[export] Instance AnalyticsConfig_eq_dec : EqDecision AnalyticsConfig.
Proof. solve_decision. Defined.
#[export] Instance Job_eq_dec : EqDecision Job.
Proof. solve_decision. Defined.
#[export] Instance Execution_eq_dec : EqDecision Execution.
Proof. solve_decision. Defined.
#[export] Instance TriggerEvent_eq_dec : EqDecision TriggerEvent.
Proof. solve_decision. Defined.

(** The Go zero values that the code returns with an error. *)
Definition zero_Job : Job :=
  {| j_ID := Nil; j_Namespace := ""; j_Name := ""; j_Enabled := false; j_ScheduleID := Nil;
     j_Delivery := {| d_Type := ""; d_WebhookURL := ""; d_Secret := ""; d_Timeout := 0 |};
     j_Analytics := {| a_Enabled := false; a_RetentionSeconds := 0 |};
     j_CreatedAt := 0; j_UpdatedAt := 0 |}.
Definition zero_Schedule : Schedule :=
  {| s_ID := Nil; s_CronExpression := ""; s_Timezone := ""; s_CreatedAt := 0; s_UpdatedAt := 0 |}.

(** A status from which no update leads away. *)
Definition terminal (status : string) : bool :=
  String.eqb status ExecutionStatusDelivered || String.eqb status ExecutionStatusFailed.

(** The event that carries an execution to the dispatcher. *)
Definition event_of_execution (e : Execution) (created : time) : TriggerEvent :=
  {| ev_ExecutionID := e_ID e; ev_JobID := e_JobID e; ev_Namespace := e_Namespace e;
     ev_ScheduledAt := e_ScheduledAt e; ev_FiredAt := e_FiredAt e; ev_CreatedAt := created |}.

(** ** List parameters and filters *)
Record ListParams : Type := mkListParams { lp_Limit : Z; lp_Offset : Z }.

Definition WithDefaults (p : ListParams) : ListParams :=
  let l := if (lp_Limit p <=? 0)%Z then 100%Z else lp_Limit p in
  let l := if (1000 <? l)%Z then 1000%Z else l in
  let o := if (lp_Offset p <? 0)%Z then 0%Z else lp_Offset p in
  {| lp_Limit := l; lp_Offset := o |}.

Record JobFilter : Type := mkJobFilter {
  jf_Namespace : Namespace;
  jf_Tags : list Tag;
  jf_Enabled : option bool;
  jf_Name : string;
  jf_ListParams : ListParams;
}.

Record ExecutionFilter : Type := mkExecFilter {
  ef_JobID : uuid;
  ef_Namespace : Namespace;
  ef_Status : option string;
  ef_TriggerType : option string;
  ef_Since : option time;
  ef_Until : option time;
  ef_ListParams : ListParams;
}.

Lemma WithDefaults_bounds p :
  (1 <= lp_Limit (WithDefaults p) <= 1000 /\ 0 <= lp_Offset (WithDefaults p))%Z.
Proof. unfold WithDefaults; cbn. repeat case_match; lia. Qed.

Lemma WithDefaults_idemp p : WithDefaults (WithDefaults p) = WithDefaults p.
Proof.
  pose proof (WithDefaults_bounds p) as H. set (q := WithDefaults p) in *. clearbody q.
  destruct q as [l o]; unfold WithDefaults; cbn in *.
  destruct (Z.leb_spec l 0), (Z.ltb_spec 1000 l), (Z.ltb_spec o 0); try lia; try done.
Qed.
