(* ===== verification/Runtime.v ===== *)
(** * What the Go runtime supplies

    The interfaces to the runtime and to the event bus that several components
    use, as classes over the state [W] of the outside world. *)
From S2P Require Import Prelude Domain.

(** What the runtime supplies: the clock, fresh identifiers with their textual
    form, the state of the caller's context, and the [select] of a timer of the
    given duration against the end of the context ([None] when the timer fires,
    the context's error otherwise). *)
Class Runtime (W : Type) : Type := {
  time_Now : st W time;
  uuid_New : st W uuid;
  uuid_String : uuid -> string;
  ctx_Err : st W (option err);
  wait : duration -> st W (option err);
}.

(** The event emitter of the scheduler, the reconciler and the job service. *)
Class EventEmitter (W : Type) : Type := { Emit : TriggerEvent -> st W (result err unit) }.
