(* ===== verification/CircuitBreaker.v ===== *)
(** * The circuit breaker: [internal/circuitbreaker]

    A breaker is a map from URLs to per-URL states; [Allow], [RecordSuccess] and
    [RecordFailure] run under one mutex, so each is one atomic step.  The clock
    readings [time.Now] and [time.Since] are an argument [now]. *)
From S2P Require Import Prelude GoStrings Domain.

(** ** Data *)
Inductive state : Type := stateClosed | stateOpen | stateHalfOpen.

#[export] Instance state_eq_dec : EqDecision state.
Proof. solve_decision. Defined.

Record urlState : Type := mkUrlState {
  us_state : state;
  us_consecutiveFailures : Z;
  us_openedAt : time;
  us_halfOpenProbes : Z;
}.

Definition DefaultHalfOpenProbes : Z := 3.

Record CircuitBreaker : Type := mkBreaker {
  cb_states : gmap string urlState;
  cb_threshold : Z;
  cb_cooldown : duration;
  cb_halfOpenProbes : Z;
}.

Definition New (threshold : Z) (cooldown : duration) : CircuitBreaker :=
  {| cb_states := ∅; cb_threshold := threshold; cb_cooldown := cooldown;
     cb_halfOpenProbes := DefaultHalfOpenProbes |}.

Definition WithHalfOpenProbes (cb : CircuitBreaker) (n : Z) : CircuitBreaker :=
  {| cb_states := cb_states cb; cb_threshold := cb_threshold cb; cb_cooldown := cb_cooldown cb;
     cb_halfOpenProbes := if (n <? 1)%Z then 1%Z else n |}.

Definition zero_urlState : urlState :=
  {| us_state := stateClosed; us_consecutiveFailures := 0; us_openedAt := 0;
     us_halfOpenProbes := 0 |}.

Definition set_url (url : string) (s : urlState) (cb : CircuitBreaker) : CircuitBreaker :=
  {| cb_states := <[url := s]> (cb_states cb); cb_threshold := cb_threshold cb;
     cb_cooldown := cb_cooldown cb; cb_halfOpenProbes := cb_halfOpenProbes cb |}.

(** ** Operations *)
Definition Allow (now : time) (url : string) : st CircuitBreaker (result err unit) := fun cb =>
  match cb_states cb !! url with
  | None => (Ok tt, cb)
  | Some s =>
      match us_state s with
      | stateClosed => (Ok tt, cb)
      | stateOpen =>
          if (cb_cooldown cb <=? time_sub now (us_openedAt s))%Z then
            (Ok tt, set_url url
               {| us_state := stateHalfOpen; us_consecutiveFailures := us_consecutiveFailures s;
                  us_openedAt := us_openedAt s; us_halfOpenProbes := 1 |} cb)
          else (Err ECircuitOpen, cb)
      | stateHalfOpen =>
          if (us_halfOpenProbes s <? cb_halfOpenProbes cb)%Z then
            (Ok tt, set_url url
               {| us_state := stateHalfOpen; us_consecutiveFailures := us_consecutiveFailures s;
                  us_openedAt := us_openedAt s;
                  us_halfOpenProbes := wrap64 (us_halfOpenProbes s + 1) |} cb)
          else (Err ECircuitOpen, cb)
      end
  end.

Definition RecordSuccess (url : string) : st CircuitBreaker unit := fun cb =>
  match cb_states cb !! url with
  | None => (tt, cb)
  | Some s =>
      (tt, set_url url
         {| us_state := stateClosed; us_consecutiveFailures := 0;
            us_openedAt := us_openedAt s; us_halfOpenProbes := 0 |} cb)
  end.

Definition RecordFailure (now : time) (url : string) : st CircuitBreaker unit := fun cb =>
  let s := default zero_urlState (cb_states cb !! url) in
  let n := wrap64 (us_consecutiveFailures s + 1) in
  if (cb_threshold cb <=? n)%Z then
    (tt, set_url url
       {| us_state := stateOpen; us_consecutiveFailures := n; us_openedAt := now;
          us_halfOpenProbes := us_halfOpenProbes s |} cb)
  else
    (tt, set_url url
       {| us_state := us_state s; us_consecutiveFailures := n; us_openedAt := us_openedAt s;
          us_halfOpenProbes := us_halfOpenProbes s |} cb).

(** ** Sequences of calls *)
Inductive op : Type :=
| OpAllow (now : time) (url : string)
| OpSuccess (url : string)
| OpFailure (now : time) (url : string).

Definition op_url (o : op) : string :=
  match o with OpAllow _ u | OpSuccess u | OpFailure _ u => u end.

(** One call; the answer of [Allow], and [None] for the others. *)
Definition step (o : op) : st CircuitBreaker (option (result err unit)) :=
  match o with
  | OpAllow now u => Some <$> Allow now u
  | OpSuccess u => RecordSuccess u ≫= fun _ => mret None
  | OpFailure now u => RecordFailure now u ≫= fun _ => mret None
  end.

Fixpoint run (ops : list op) : st CircuitBreaker (list (option (result err unit))) :=
  match ops with
  | [] => mret []
  | o :: ops' => step o ≫= fun a => run ops' ≫= fun l => mret (a :: l)
  end.

Definition probes_ok (cb : CircuitBreaker) : Prop :=
  forall u s, cb_states cb !! u = Some s ->
    us_state s = stateHalfOpen -> (1 <= us_halfOpenProbes s <= Z.max 1 (cb_halfOpenProbes cb))%Z.

(** The number of calls of [Allow] that let a request through. *)
Fixpoint admitted (l : list (option (result err unit))) : Z :=
  match l with
  | [] => 0
  | Some (Ok _) :: l' => 1 + admitted l'
  | _ :: l' => admitted l'
  end.

(** ** Lemmas *)
Definition same_config (cb cb' : CircuitBreaker) : Prop :=
  cb_threshold cb' = cb_threshold cb /\ cb_cooldown cb' = cb_cooldown cb /\
  cb_halfOpenProbes cb' = cb_halfOpenProbes cb.

#[export] Instance same_config_preorder : PreOrder same_config.
Proof. split; [done |]. intros a b c (?&?&?) (?&?&?). repeat split; congruence. Qed.

Ltac breaker_cases :=
  unfold step, Allow, RecordSuccess, RecordFailure, exec, eval, mbind, st_bind, mret, st_ret,
    fmap, st_fmap, same_config, set_url in *;
  repeat (case_match || simplify_eq/=); try done.

Lemma step_config o : preserves same_config (step o).
Proof. intros cb. destruct o; breaker_cases. Qed.

Lemma step_other o u cb : u <> op_url o -> cb_states (exec (step o) cb) !! u = cb_states cb !! u.
Proof. intros Hu. destruct o; breaker_cases; by rewrite lookup_insert_ne. Qed.

(** A call reads and writes only the entry of its URL and the configuration. *)
Lemma step_local o cb1 cb2 :
  same_config cb1 cb2 -> cb_states cb1 !! op_url o = cb_states cb2 !! op_url o ->
  eval (step o) cb1 = eval (step o) cb2 /\
  cb_states (exec (step o) cb1) !! op_url o = cb_states (exec (step o) cb2) !! op_url o.
Proof.
  destruct cb1 as [m1 t1 c1 p1], cb2 as [m2 t2 c2 p2]. intros (?&?&?) Hu; simplify_eq/=.
  destruct o; cbn in Hu;
    unfold step, Allow, RecordSuccess, RecordFailure, exec, eval, mbind, st_bind, mret, st_ret,
      fmap, st_fmap; cbn; rewrite Hu;
    repeat (case_match; simplify_eq/=); rewrite ?lookup_insert_eq; split; congruence.
Qed.

Lemma run_cons o ops cb :
  run (o :: ops) cb =
    (eval (step o) cb :: eval (run ops) (exec (step o) cb), exec (run ops) (exec (step o) cb)).
Proof.
  unfold eval, exec. cbn [run]. unfold mbind, st_bind. destruct (step o cb) as [a cb']; cbn.
  by destruct (run ops cb').
Qed.

Lemma run_config ops cb : same_config cb (exec (run ops) cb).
Proof.
  revert cb. induction ops as [|o ops IH]; intros cb; [done |].
  unfold exec. rewrite run_cons. cbn. etrans; [apply (step_config o) | apply IH].
Qed.

(** *** One URL at a time *)

(** The answers, in a run of [ops], to the calls about [u]. *)
Fixpoint answers_for {A} (u : string) (ops : list op) (l : list A) : list A :=
  match ops, l with
  | o :: ops', a :: l' =>
      if decide (op_url o = u) then a :: answers_for u ops' l' else answers_for u ops' l'
  | _, _ => []
  end.

Lemma run_project u ops : forall cb1 cb2,
  same_config cb1 cb2 -> cb_states cb1 !! u = cb_states cb2 !! u ->
  let ops_u := filter (fun o => op_url o = u) ops in
  answers_for u ops (eval (run ops) cb1) = eval (run ops_u) cb2 /\
  cb_states (exec (run ops) cb1) !! u = cb_states (exec (run ops_u) cb2) !! u.
Proof.
  induction ops as [|o ops IH]; intros cb1 cb2 Hc Hu ops_u; [done |]. subst ops_u.
  unfold exec, eval. rewrite run_cons, filter_cons. cbn [fst snd answers_for].
  pose proof (step_config o cb1) as Hs1. pose proof (step_config o cb2) as Hs2.
  destruct (decide (op_url o = u)) as [<-|Hne].
  - rewrite run_cons. cbn [fst snd]. destruct (step_local o cb1 cb2 Hc Hu) as [He Hs].
    rewrite He. destruct (IH (exec (step o) cb1) (exec (step o) cb2)) as [IHa IHs].
    + destruct Hs1 as (?&?&?), Hs2 as (?&?&?), Hc as (?&?&?). repeat split; congruence.
    + exact Hs.
    + split; [by f_equal | exact IHs].
  - apply IH.
    + destruct Hs1 as (?&?&?), Hc as (?&?&?). repeat split; congruence.
    + rewrite step_other by done. exact Hu.
Qed.

(** *** Counting failures *)
Definition failures (u : string) (ts : list time) : list op := map (fun t => OpFailure t u) ts.

(** The entry of a URL after [n] failures in a row, the last at [t]. *)
Definition after_failures (cb : CircuitBreaker) (u : string) (n : Z) (t : time) : Prop :=
  let s := default zero_urlState (cb_states cb !! u) in
  us_consecutiveFailures s = n /\
  (if (n <? cb_threshold cb)%Z then us_state s = stateClosed
   else us_state s = stateOpen /\ us_openedAt s = t).

Lemma failures_count u ts : forall cb n t,
  after_failures cb u n t -> (0 <= n)%Z -> (n + Z.of_nat (length ts) <= int64_max)%Z ->
  after_failures (exec (run (failures u ts)) cb) u (n + Z.of_nat (length ts)) (List.last ts t).
Proof.
  induction ts as [|t1 ts IH]; intros cb n t Hn Hpos Hmax.
  - cbn. by rewrite Z.add_0_r.
  - cbn [failures map]. unfold exec. rewrite run_cons. cbn [snd].
    replace (n + Z.of_nat (length (t1 :: ts)))%Z with (n + 1 + Z.of_nat (length ts))%Z
      by (cbn [length]; lia).
    replace (List.last (t1 :: ts) t) with (List.last ts t1)
      by (clear; revert t1; induction ts as [|t2 ts IH]; intros t1; [done |]; cbn in *;
          destruct ts; [done | apply IH]).
    apply IH; [| lia | cbn [length] in Hmax; lia].
    destruct Hn as [Hc Hs]. cbn [length] in Hmax.
    unfold exec, step, mbind, st_bind, RecordFailure. rewrite Hc, wrap64_id
      by (unfold in_int64, int64_max, int64_min in *; lia).
    unfold after_failures. destruct (Z.leb_spec (cb_threshold cb) (n + 1)); cbn;
      rewrite lookup_insert_eq; cbn; (split; [done |]).
    + destruct (Z.ltb_spec (n + 1) (cb_threshold cb)); [lia | done].
    + destruct (Z.ltb_spec (n + 1) (cb_threshold cb)), (Z.ltb_spec n (cb_threshold cb));
        try lia. exact Hs.
Qed.

Lemma after_success cb u t : (1 <= cb_threshold cb)%Z -> after_failures (exec (RecordSuccess u) cb) u 0 t.
Proof.
  intros Ht. unfold after_failures, exec, RecordSuccess.
  destruct (cb_states cb !! u) eqn:E; cbn; rewrite ?lookup_insert_eq, ?E; cbn;
    (split; [done |]); destruct (Z.ltb_spec 0 (cb_threshold cb)); lia || done.
Qed.

(** *** Probing *)
Definition probing (cb : CircuitBreaker) (u : string) (left_ : Z) : Prop :=
  exists s, cb_states cb !! u = Some s /\
    match us_state s with
    | stateClosed => False
    | stateOpen => left_ = Z.max 1 (cb_halfOpenProbes cb)
    | stateHalfOpen =>
        (1 <= us_halfOpenProbes s)%Z /\
        left_ = Z.max 0 (cb_halfOpenProbes cb - us_halfOpenProbes s)
    end.

Lemma probing_allow cb u n now :
  probing cb u n -> in_int64 (cb_halfOpenProbes cb) ->
  match eval (Allow now u) cb with
  | Ok _ => (1 <= n)%Z /\ probing (exec (Allow now u) cb) u (n - 1)
  | Err _ => probing (exec (Allow now u) cb) u n
  end.
Proof.
  unfold in_int64, int64_min, int64_max. intros (s & Hs & Hn) Hr.
  unfold eval, exec, Allow. rewrite Hs. destruct (us_state s) eqn:Est; [done | |].
  - destruct (cb_cooldown cb <=? _)%Z; cbn.
    + split; [lia |]. unfold probing; cbn. rewrite lookup_insert_eq. eexists. split; [done |]. cbn. lia.
    + exists s. rewrite Est. done.
  - destruct Hn as [H1 ->]. destruct (Z.ltb_spec (us_halfOpenProbes s) (cb_halfOpenProbes cb)); cbn.
    + split; [lia |]. unfold probing; cbn. rewrite lookup_insert_eq. eexists. split; [done |]. cbn.
      rewrite wrap64_id by (unfold in_int64, int64_min, int64_max; lia). lia.
    + exists s. rewrite Est. done.
Qed.

Lemma probing_budget u ts : forall cb n,
  probing cb u n -> in_int64 (cb_halfOpenProbes cb) -> (0 <= n)%Z ->
  (admitted (eval (run (map (fun t => OpAllow t u) ts)) cb) <= n)%Z.
Proof.
  induction ts as [|t ts IH]; intros cb n Hn Hr H0; [done |].
  cbn [map]. unfold eval at 1. rewrite run_cons. cbn [fst].
  pose proof (probing_allow cb u n t Hn Hr) as Ha. pose proof (step_config (OpAllow t u) cb) as Hc.
  unfold step, eval, exec, fmap, st_fmap in *. destruct (Allow t u cb) as [[[]|e] cb'];
    cbn [fst snd admitted] in *; destruct Hc as (_ & _ & Hc).
  - destruct Ha as [H1 Ha]. specialize (IH cb' (n - 1)%Z Ha). rewrite Hc in IH.
    specialize (IH Hr ltac:(lia)). unfold eval in IH. lia.
  - specialize (IH cb' n Ha). rewrite Hc in IH. specialize (IH Hr H0). unfold eval in IH. lia.
Qed.

(** ** Properties *)

(** The breaker keeps one independent automaton per URL: in a run of calls
    about any URLs, the answers given about [u] and the state kept for [u] are
    those of the run of the calls about [u] alone. *)
Lemma breaker_per_url (u : string) (ops : list op) (cb : CircuitBreaker) :
  let ops_u := filter (fun o => op_url o = u) ops in
  answers_for u ops (eval (run ops) cb) = eval (run ops_u) cb /\
  cb_states (exec (run ops) cb) !! u = cb_states (exec (run ops_u) cb) !! u.
Proof. by apply run_project. Qed.

(** C21: after a success, [Allow] lets requests through until [threshold]
    failures in a row are recorded; from then on it refuses them until the
    cooldown after the last failure has passed. *)
Theorem breaker_opens_at_threshold (cb : CircuitBreaker) (u : string) (ts : list time) (now : time) :
  (1 <= cb_threshold cb)%Z -> (Z.of_nat (length ts) <= int64_max)%Z ->
  eval (Allow now u) (exec (run (OpSuccess u :: failures u ts)) cb) =
  if (Z.of_nat (length ts) <? cb_threshold cb)%Z then Ok tt
  else if (cb_cooldown cb <=? time_sub now (List.last ts 0%Z))%Z then Ok tt
  else Err ECircuitOpen.
Proof.
  intros Ht Hlen. unfold exec at 1. rewrite run_cons. cbn [snd].
  replace (exec (step (OpSuccess u)) cb) with (exec (RecordSuccess u) cb)
    by (unfold exec, step, mbind, st_bind; by destruct (RecordSuccess u cb)).
  pose proof (after_success cb u 0%Z Ht) as H0.
  pose proof (failures_count u ts _ 0 0%Z H0 ltac:(lia) ltac:(lia)) as [_ Hs].
  assert (Hc : same_config cb (exec (run (failures u ts)) (exec (RecordSuccess u) cb))).
  { etrans; [|apply run_config]. pose proof (step_config (OpSuccess u) cb) as Hs1.
    unfold exec, step, mbind, st_bind in *. by destruct (RecordSuccess u cb). }
  set (cb' := exec (run (failures u ts)) (exec (RecordSuccess u) cb)) in *.
  destruct Hc as (Hth & Hco & _). rewrite Z.add_0_l, Hth in Hs. clearbody cb'.
  unfold eval, Allow. destruct (cb_states cb' !! u) as [s|] eqn:Es; cbn in Hs.
  - destruct (Z.of_nat (length ts) <? cb_threshold cb)%Z; [by rewrite Hs |].
    destruct Hs as [-> ->]. rewrite Hco. by case_match.
  - destruct (Z.of_nat (length ts) <? cb_threshold cb)%Z; [done |]. by destruct Hs.
Qed.

(** While a circuit is not closed and no result is recorded for its URL, at
    most [halfOpenProbes] requests (one at least) are let through, however many
    ask and whenever they ask. *)
Lemma breaker_probe_budget (cb : CircuitBreaker) (u : string) (s : urlState) (ts : list time) :
  cb_states cb !! u = Some s -> us_state s = stateOpen -> in_int64 (cb_halfOpenProbes cb) ->
  (admitted (eval (run (map (fun t => OpAllow t u) ts)) cb) <= Z.max 1 (cb_halfOpenProbes cb))%Z.
Proof.
  intros Hs Ho Hr. apply probing_budget; [| done | lia].
  exists s. by rewrite Ho.
Qed.

(** Once the probes of a half-open circuit are used up, nothing but a
    recorded result for that URL changes its state: every later request is
    refused, at whatever time it comes; there is no second cooldown. *)
Lemma breaker_half_open_has_no_timeout (cb : CircuitBreaker) (u : string) (s : urlState) (ts : list time) :
  cb_states cb !! u = Some s -> us_state s = stateHalfOpen ->
  (cb_halfOpenProbes cb <= us_halfOpenProbes s)%Z ->
  run (map (fun t => OpAllow t u) ts) cb = (map (fun _ => Some (Err ECircuitOpen)) ts, cb).
Proof.
  intros Hs Ho Hp. induction ts as [|t ts IH]; [done |].
  cbn [map]. rewrite run_cons.
  assert (Ha : Allow t u cb = (Err ECircuitOpen, cb)).
  { unfold Allow. rewrite Hs, Ho. destruct (Z.ltb_spec (us_halfOpenProbes s) (cb_halfOpenProbes cb)); [lia | done]. }
  unfold step, eval, exec, fmap, st_fmap. rewrite Ha. cbn. by rewrite IH.
Qed.

(** ** Witnesses *)
Lemma breaker_opens_at_threshold_witness :
  eval (Allow 100 "http://a") (exec (run (OpSuccess "http://a" :: failures "http://a" [1; 2; 3]%Z)) (New 3 1000)) =
  Err ECircuitOpen.
Proof.
  rewrite (breaker_opens_at_threshold (New 3 1000) "http://a" [1; 2; 3]%Z 100);
    [reflexivity | vm_compute; discriminate | vm_compute; discriminate].
Defined.

(** A breaker whose only circuit opened at time 5. *)
Definition open_breaker : CircuitBreaker :=
  exec (run (failures "http://a" [1; 3; 5]%Z)) (New 3 1000).

Lemma breaker_probe_budget_witness :
  (admitted (eval (run (map (fun t => OpAllow t "http://a") [10; 2000; 2001; 2002; 2003]%Z)) open_breaker) <= 3)%Z.
Proof.
  apply (breaker_probe_budget open_breaker "http://a"
           {| us_state := stateOpen; us_consecutiveFailures := 3; us_openedAt := 5; us_halfOpenProbes := 0 |}).
  - vm_compute. reflexivity.
  - reflexivity.
  - vm_compute. split; discriminate.
Defined.

Definition stuck_breaker : CircuitBreaker :=
  exec (run (map (fun t => OpAllow t "http://a") [2000; 2001; 2002]%Z)) open_breaker.

Lemma breaker_half_open_has_no_timeout_witness :
  eval (run (map (fun t => OpAllow t "http://a") [999999999]%Z)) stuck_breaker = [Some (Err ECircuitOpen)].
Proof.
  unfold eval.
  rewrite (breaker_half_open_has_no_timeout stuck_breaker "http://a"
           {| us_state := stateHalfOpen; us_consecutiveFailures := 3; us_openedAt := 5; us_halfOpenProbes := 3 |}).
  - reflexivity.
  - vm_compute. reflexivity.
  - reflexivity.
  - vm_compute. discriminate.
Defined.
