(* ===== verification/Metrics.v ===== *)
(** * Metric classification: [internal/metrics/sink.go]

    The status classes of delivery attempts, with the case-insensitive substring
    search they use, proved equal to a search on lowered text. *)
From S2P Require Import Prelude GoStrings Domain.

Definition OutcomeSuccess : string := "success".
Definition OutcomeFailed : string := "failed".
Definition OutcomeAbandoned : string := "abandoned".
Definition StatusClass2xx : string := "2xx".
Definition StatusClass4xx : string := "4xx".
Definition StatusClass5xx : string := "5xx".
Definition StatusClassTimeout : string := "timeout".
Definition StatusClassConnectionError : string := "connection_error".
Definition StatusClassOtherError : string := "other_error".

Definition toLower (c : ascii) : ascii :=
  if (65 <=? byte_of c)%Z && (byte_of c <=? 90)%Z then of_byte (byte_of c + 32) else c.

(** [s[i]] for an index in range. *)
Definition byte_at (s : string) (i : nat) : ascii := default "000"%char (String.get i s).

(** The loop over [j] of [equalFoldAt], from [j] on with [n] bytes to go. *)
Fixpoint equalFoldAt_from (s : string) (offset : nat) (substr : string) (j n : nat) : bool :=
  match n with
  | O => true
  | S n' =>
      let c1 := byte_at s (offset + j) in
      let c2 := byte_at substr j in
      if bool_decide (c1 <> c2) && bool_decide (toLower c1 <> toLower c2) then false
      else equalFoldAt_from s offset substr (S j) n'
  end.
Definition equalFoldAt (s : string) (offset : nat) (substr : string) : bool :=
  equalFoldAt_from s offset substr 0 (String.length substr).

(** The loop over [i] of [searchInsensitive], from [i] on with [n] rounds to go. *)
Fixpoint searchInsensitive_from (s substr : string) (i n : nat) : bool :=
  match n with
  | O => false
  | S n' => if equalFoldAt s i substr then true else searchInsensitive_from s substr (S i) n'
  end.
Definition searchInsensitive (s substr : string) : bool :=
  searchInsensitive_from s substr 0 (S (String.length s - String.length substr)).

Definition contains (s substr : string) : bool :=
  (String.length substr <=? String.length s) && searchInsensitive s substr.

Definition ClassifyStatus (statusCode : Z) (e : option err) : string :=
  match e with
  | Some e =>
      let errStr := Error e in
      if contains errStr "timeout" || contains errStr "deadline exceeded" then StatusClassTimeout
      else if contains errStr "connection refused" || contains errStr "no such host" ||
              contains errStr "network is unreachable" || contains errStr "dial"
      then StatusClassConnectionError
      else StatusClassOtherError
  | None =>
      if (200 <=? statusCode)%Z && (statusCode <? 300)%Z then StatusClass2xx
      else if (400 <=? statusCode)%Z && (statusCode <? 500)%Z then StatusClass4xx
      else if (500 <=? statusCode)%Z then StatusClass5xx
      else StatusClassOtherError
  end.

(** ** Lemmas: the index loops as recursion on the text *)
Fixpoint fold_prefix (p s : string) : bool :=
  match p, s with
  | EmptyString, _ => true
  | String c2 p', String c1 s' => bool_decide (toLower c1 = toLower c2) && fold_prefix p' s'
  | String _ _, EmptyString => false
  end.

Lemma byte_at_drop s i j : byte_at s (i + j) = byte_at (drop_bytes i s) j.
Proof.
  unfold byte_at. revert s. induction i as [|i IH]; intros s; [done |].
  destruct s as [|c s]; cbn; [by destruct j | apply IH].
Qed.

Lemma fold_bytes_eq c1 c2 :
  bool_decide (c1 <> c2) && bool_decide (toLower c1 <> toLower c2) =
  negb (bool_decide (toLower c1 = toLower c2)).
Proof. repeat case_bool_decide; naive_solver. Qed.

Lemma equalFoldAt_from_spec s off sub j n :
  n = String.length sub - j -> j <= String.length sub ->
  String.length sub <= String.length s - off ->
  equalFoldAt_from s off sub j n = fold_prefix (drop_bytes j sub) (drop_bytes (off + j) s).
Proof.
  assert (Hd : forall (t : string) k, k < String.length t ->
            drop_bytes k t = String (byte_at t k) (drop_bytes (S k) t)).
  { clear. intros t. induction t as [|c t IH]; intros k Hk; cbn in Hk; [lia |].
    destruct k as [|k]; cbn; [done |]. rewrite IH by lia. done. }
  assert (He : forall (t : string) k, String.length t <= k -> drop_bytes k t = EmptyString).
  { clear. intros t. induction t as [|c t IH]; intros k Hk; cbn in *; [by destruct k |].
    destruct k; [lia |]. apply IH. lia. }
  revert j. induction n as [|n IH]; intros j Hn Hj Hlen.
  - cbn. rewrite (He sub j) by lia. done.
  - cbn [equalFoldAt_from]. rewrite (Hd sub j), (Hd s (off + j)) by lia. cbn [fold_prefix].
    rewrite fold_bytes_eq. case_bool_decide; cbn [negb andb]; [|done].
    rewrite IH by lia. by rewrite Nat.add_succ_r.
Qed.

Lemma equalFoldAt_spec s i sub :
  String.length sub <= String.length s - i ->
  equalFoldAt s i sub = fold_prefix sub (drop_bytes i s).
Proof. intros. unfold equalFoldAt. rewrite equalFoldAt_from_spec, Nat.add_0_r by lia. done. Qed.

Lemma toLower_lower_byte c : toLower c = lower_byte c.
Proof. done. Qed.

Lemma prefix_cons c p d s :
  String.prefix (String c p) (String d s) = bool_decide (d = c) && String.prefix p s.
Proof. cbn. destruct (ascii_dec c d), (bool_decide_reflect (d = c)); cbn; congruence. Qed.

Lemma fold_prefix_lower p s : fold_prefix p s = String.prefix (ToLower p) (ToLower s).
Proof.
  revert s. induction p as [|c p IH]; intros s; [by destruct s |].
  destruct s as [|d s]; [done |]. unfold ToLower. cbn [fold_prefix str_map].
  rewrite prefix_cons, IH, !toLower_lower_byte. done.
Qed.

Lemma str_map_length f s : String.length (str_map f s) = String.length s.
Proof. induction s; cbn; congruence. Qed.

Lemma drop_bytes_length n s : String.length (drop_bytes n s) = String.length s - n.
Proof. revert s. induction n; intros [|c s]; cbn; auto. Qed.

Lemma prefix_length p s : String.prefix p s = true -> String.length p <= String.length s.
Proof. intros [t ->]%prefix_spec. rewrite str_length_app. lia. Qed.

Lemma Contains_shorter s p : String.length s < String.length p -> Contains s p = false.
Proof.
  intros H. apply not_true_is_false. intros (a & b & ->)%Contains_spec.
  rewrite !str_length_app in H. lia.
Qed.

Lemma Contains_cons c s p : Contains (String c s) p = HasPrefix (String c s) p || Contains s p.
Proof. done. Qed.

Lemma search_from_spec s sub : forall n i,
  i + n = S (String.length s - String.length sub) -> 0 < String.length sub <= String.length s ->
  searchInsensitive_from s sub i n = Contains (ToLower (drop_bytes i s)) (ToLower sub).
Proof.
  induction n as [|n IH]; intros i Hi Hle; cbn [searchInsensitive_from].
  - symmetry. apply Contains_shorter. unfold ToLower. rewrite !str_map_length, drop_bytes_length. lia.
  - rewrite equalFoldAt_spec, fold_prefix_lower, IH by lia.
    destruct (drop_bytes i s) as [|c t] eqn:E.
    + pose proof (f_equal String.length E) as El. rewrite drop_bytes_length in El. cbn in El. lia.
    + assert (drop_bytes (S i) s = t) as ->.
      { clear -E. revert i E. induction s as [|d s IHs]; intros [|i] E; cbn in *; simplify_eq; [done |].
        destruct s; [by destruct i | exact (IHs i E)]. }
      unfold ToLower. cbn [str_map]. rewrite Contains_cons. unfold HasPrefix.
      unfold orb. done.
Qed.

Lemma contains_spec s sub : contains s sub = Contains (ToLower s) (ToLower sub).
Proof.
  unfold contains. destruct (Nat.leb_spec (String.length sub) (String.length s)); cbn [andb].
  - unfold searchInsensitive. destruct sub as [|c sub].
    + unfold ToLower. cbn [str_map]. destruct s; reflexivity.
    + apply (search_from_spec s (String c sub) _ 0); cbn in *; lia.
  - symmetry. apply Contains_shorter. unfold ToLower. rewrite !str_map_length. lia.
Qed.
