(* ===== verification/EventBus.v ===== *)
(** * The in-memory event bus: [internal/transport/channel]

    A bounded FIFO channel.  [Emit] is a [select] over a send, the end of the
    caller's context and a timer: the case that fires is an argument, and a send
    can fire only when the buffer has room. *)
From S2P Require Import Prelude GoStrings Domain.

Definition DefaultEmitTimeout : duration := 5 * Second.

(** What the bus reports to its metrics sink; the saturation is the quotient of
    the two numbers. *)
Inductive bus_metric : Type :=
| BufferSizeUpdate (size : Z)
| BufferCapacitySet (capacity : Z)
| BufferSaturationUpdate (size capacity : Z)
| EmitError.

Record EventBus : Type := mkBus {
  b_ch : list TriggerEvent;
  b_capacity : nat;
  b_emitTimeout : duration;
  b_metrics : bool;
  b_reported : list bus_metric;
}.

(** [Option]s change the bus under construction. *)
Definition WithEmitTimeout (d : duration) (b : EventBus) : EventBus :=
  {| b_ch := b_ch b; b_capacity := b_capacity b; b_emitTimeout := d; b_metrics := b_metrics b;
     b_reported := b_reported b |}.
Definition WithMetrics (b : EventBus) : EventBus :=
  {| b_ch := b_ch b; b_capacity := b_capacity b; b_emitTimeout := b_emitTimeout b; b_metrics := true;
     b_reported := b_reported b |}.

Definition report (ms : list bus_metric) (b : EventBus) : EventBus :=
  if b_metrics b then
    {| b_ch := b_ch b; b_capacity := b_capacity b; b_emitTimeout := b_emitTimeout b;
       b_metrics := b_metrics b; b_reported := b_reported b ++ ms |}
  else b.

Definition NewEventBus (buffer : nat) (opts : list (EventBus -> EventBus)) : EventBus :=
  let b := {| b_ch := []; b_capacity := buffer; b_emitTimeout := DefaultEmitTimeout;
              b_metrics := false; b_reported := [] |} in
  let b := fold_left (fun b opt => opt b) opts b in
  report [BufferCapacitySet (Z.of_nat (b_capacity b))] b.

(** The case of the [select] that fires. *)
Inductive emit_case : Type :=
| CaseSend
| CaseCtxDone (e : err)
| CaseTimer.

Definition enabled (c : emit_case) (b : EventBus) : bool :=
  match c with
  | CaseSend => length (b_ch b) <? b_capacity b
  | CaseCtxDone _ | CaseTimer => true
  end.

Definition enqueue (ev : TriggerEvent) (b : EventBus) : EventBus :=
  {| b_ch := b_ch b ++ [ev]; b_capacity := b_capacity b; b_emitTimeout := b_emitTimeout b;
     b_metrics := b_metrics b; b_reported := b_reported b |}.

(** [Emit], with the case [c] firing; [None] when [c] cannot fire. *)
Definition Emit (c : emit_case) (ev : TriggerEvent) (b : EventBus) : option (result err unit * EventBus) :=
  if negb (enabled c b) then None else
  match c with
  | CaseSend =>
      let b' := enqueue ev b in
      let size := Z.of_nat (length (b_ch b')) in
      Some (Ok tt, report [BufferSizeUpdate size; BufferSaturationUpdate size (Z.of_nat (b_capacity b'))] b')
  | CaseCtxDone e => Some (Err e, b)
  | CaseTimer => Some (Err EBufferFull, report [EmitError] b)
  end.

(** A receive from [Channel()]: the oldest event, if there is one. *)
Definition Receive (b : EventBus) : option (TriggerEvent * EventBus) :=
  match b_ch b with
  | [] => None
  | ev :: rest =>
      Some (ev, {| b_ch := rest; b_capacity := b_capacity b; b_emitTimeout := b_emitTimeout b;
                   b_metrics := b_metrics b; b_reported := b_reported b |})
  end.

(** [NopEmitter.Emit]: the event is dropped, the answer is nil. *)
Definition NopEmitter_Emit (ev : TriggerEvent) : result err unit := Ok tt.

(** ** Runs *)
Inductive bus_step : EventBus -> list TriggerEvent -> list TriggerEvent -> EventBus -> Prop :=
| BusEmitted c ev b b' :
    Emit c ev b = Some (Ok tt, b') -> bus_step b [ev] [] b'
| BusRefused c ev b e b' :
    Emit c ev b = Some (Err e, b') -> bus_step b [] [] b'
| BusReceived b ev b' :
    Receive b = Some (ev, b') -> bus_step b [] [ev] b'.

(** [bus_run b acc rec b']: a run from [b] to [b'] in which the events [acc]
    were accepted and the events [rec] received, in this order. *)
Inductive bus_run : EventBus -> list TriggerEvent -> list TriggerEvent -> EventBus -> Prop :=
| BusRunNil b : bus_run b [] [] b
| BusRunCons b a1 r1 b1 a2 r2 b2 :
    bus_step b a1 r1 b1 -> bus_run b1 a2 r2 b2 -> bus_run b (a1 ++ a2) (r1 ++ r2) b2.

Lemma report_ch ms b : b_ch (report ms b) = b_ch b /\ b_capacity (report ms b) = b_capacity b.
Proof. unfold report. by destruct (b_metrics b). Qed.

Lemma Emit_cases c ev b r b' :
  Emit c ev b = Some (r, b') ->
  b_capacity b' = b_capacity b /\
  match r with
  | Ok _ => b_ch b' = b_ch b ++ [ev] /\ length (b_ch b) < b_capacity b
  | Err _ => b_ch b' = b_ch b
  end.
Proof.
  unfold Emit, enabled. destruct c.
  - destruct (Nat.ltb_spec (length (b_ch b)) (b_capacity b)); cbn; [|discriminate].
    intros [= <- <-]. unfold report; cbn. destruct (b_metrics b); cbn; auto.
  - intros [= <- <-]. done.
  - intros [= <- <-]. destruct (report_ch [EmitError] b) as [-> ->]. done.
Qed.

Lemma bus_step_inv b acc rcv b' :
  bus_step b acc rcv b' ->
  b_ch b ++ acc = rcv ++ b_ch b' /\ b_capacity b' = b_capacity b /\
  (length (b_ch b) <= b_capacity b -> length (b_ch b') <= b_capacity b').
Proof.
  intros H; destruct H as [c ev b b' H | c ev b e b' H | b ev b' H].
  - apply Emit_cases in H as (Hc & -> & Hlt). rewrite Hc, length_app. cbn. split_and!; [done..|lia].
  - apply Emit_cases in H as (Hc & Hch). rewrite Hch, Hc, app_nil_r. done.
  - unfold Receive in H. destruct (b_ch b) as [|ev' rest] eqn:E; simplify_eq/=.
    rewrite app_nil_r. split_and!; [done..|]. cbn. lia.
Qed.

Lemma bus_run_inv b0 acc rcv b1 :
  bus_run b0 acc rcv b1 ->
  b_ch b0 ++ acc = rcv ++ b_ch b1 /\ b_capacity b1 = b_capacity b0 /\
  (length (b_ch b0) <= b_capacity b0 -> length (b_ch b1) <= b_capacity b1).
Proof.
  induction 1 as [b|b a1 r1 b1 a2 r2 b2 Hs _ (He & Hc & Hl)].
  - rewrite app_nil_r. done.
  - apply bus_step_inv in Hs as (Hs & Hcs & Hls). rewrite app_assoc, Hs, <- !app_assoc, He.
    split_and!; [done | congruence | auto].
Qed.

(** The options that the package exports. *)
Definition is_option (opt : EventBus -> EventBus) : Prop :=
  opt = WithMetrics \/ exists d, opt = WithEmitTimeout d.

Lemma NewEventBus_empty buffer opts :
  Forall is_option opts ->
  b_ch (NewEventBus buffer opts) = [] /\ b_capacity (NewEventBus buffer opts) = buffer.
Proof.
  intros Hopts. unfold NewEventBus. cbn zeta. rewrite !(proj1 (report_ch _ _)), !(proj2 (report_ch _ _)).
  generalize DefaultEmitTimeout, false, (@nil bus_metric).
  induction Hopts as [|o opts [->|[d' ->]] _ IH]; intros d m l; [done | apply IH | apply IH].
Qed.

(** ** Properties *)

(** The bus is a bounded FIFO queue: whatever cases fire, the events received
    and then those still buffered are exactly the accepted ones, in the order of
    acceptance, and the buffer never holds more than its capacity. *)
Lemma bus_fifo_bounded (buffer : nat) (opts : list (EventBus -> EventBus)) (acc rcv : list TriggerEvent) (b : EventBus) :
  Forall is_option opts -> bus_run (NewEventBus buffer opts) acc rcv b ->
  acc = rcv ++ b_ch b /\ length (b_ch b) <= buffer.
Proof.
  intros Hopts (He & Hc & Hl)%bus_run_inv. destruct (NewEventBus_empty buffer opts Hopts) as [Hn1 Hn2].
  rewrite Hn1, Hn2 in *. rewrite Hc in Hl.
  split; [exact He | apply Hl; cbn; lia].
Qed.

(** ** Witnesses *)
Definition event_ex (n : N) : TriggerEvent :=
  {| ev_ExecutionID := n; ev_JobID := 7; ev_Namespace := "default"; ev_ScheduledAt := 60;
     ev_FiredAt := 61; ev_CreatedAt := 61 |}.

Lemma bus_fifo_bounded_witness :
  exists b, b_ch b = [event_ex 2] /\ [event_ex 1; event_ex 2] = [event_ex 1] ++ b_ch b /\ length (b_ch b) <= 1.
Proof.
  eexists. split; [|apply (bus_fifo_bounded 1 [WithMetrics])].
  2: repeat constructor.
  2: { eapply (BusRunCons _ [event_ex 1] []); [eapply (BusEmitted CaseSend); reflexivity|].
       eapply (BusRunCons _ [] []); [eapply (BusRefused CaseTimer (event_ex 2)); reflexivity|].
       eapply (BusRunCons _ [] [event_ex 1]); [eapply BusReceived; reflexivity|].
       eapply (BusRunCons _ [event_ex 2] []); [eapply (BusEmitted CaseSend); reflexivity|].
       apply BusRunNil. }
  reflexivity.
Defined.
