(* ===== verification/GoTime.v ===== *)
(** * Calendar formatting of instants, as Go's [time.Format] in UTC *)
From S2P Require Import Prelude GoStrings.

(** Year, month and day of the day [d], counted from January 1 of year 1, in the
    proleptic Gregorian calendar; years are counted from March inside. *)
Definition civil (d : Z) : Z * Z * Z :=
  let z := (d + 306)%Z in
  let era := (z / 146097)%Z in
  let doe := (z mod 146097)%Z in
  let yoe := ((doe - doe / 1460 + doe / 36524 - doe / 146096) / 365)%Z in
  let doy := (doe - (365 * yoe + yoe / 4 - yoe / 100))%Z in
  let mp := ((5 * doy + 2) / 153)%Z in
  let day := (doy - (153 * mp + 2) / 5 + 1)%Z in
  let month := (if mp <? 10 then mp + 3 else mp - 9)%Z in
  let year := (yoe + era * 400 + (if month <=? 2 then 1 else 0))%Z in
  (year, month, day).

Definition pad4 (n : Z) : string :=
  if (n <? 10)%Z then "000" +:+ Itoa n
  else if (n <? 100)%Z then "00" +:+ Itoa n
  else if (n <? 1000)%Z then "0" +:+ Itoa n
  else Itoa n.

Definition secs_of (t : time) : Z := (t / Second)%Z.
Definition day_of (t : time) : Z := (secs_of t / 86400)%Z.
Definition sec_of_day (t : time) : Z := (secs_of t mod 86400)%Z.

(** [t.UTC().Format(time.RFC3339)]. *)
Definition FormatRFC3339 (t : time) : string :=
  let '(y, m, d) := civil (day_of t) in
  let s := sec_of_day t in
  pad4 y +:+ "-" +:+ pad2 m +:+ "-" +:+ pad2 d +:+ "T" +:+
  pad2 (s / 3600) +:+ ":" +:+ pad2 ((s / 60) mod 60) +:+ ":" +:+ pad2 (s mod 60) +:+ "Z".

(** [t.UTC().Format("200601021504")]. *)
Definition FormatMinute (t : time) : string :=
  let '(y, m, d) := civil (day_of t) in
  let s := sec_of_day t in
  pad4 y +:+ pad2 m +:+ pad2 d +:+ pad2 (s / 3600) +:+ pad2 ((s / 60) mod 60).

(** The Unix epoch, in nanoseconds since Go's zero time. *)
Definition unix_epoch : time := 62135596800 * Second.

Example FormatRFC3339_epoch : FormatRFC3339 unix_epoch = "1970-01-01T00:00:00Z".
Proof. vm_compute. reflexivity. Qed.
Example FormatRFC3339_leap :
  FormatRFC3339 (unix_epoch + 1709210096 * Second)%Z = "2024-02-29T12:34:56Z".
Proof. vm_compute. reflexivity. Qed.
Example FormatMinute_ex : FormatMinute (unix_epoch + 1709210096 * Second)%Z = "202402291234".
Proof. vm_compute. reflexivity. Qed.
