(* ===== verification/Dispatcher.v ===== *)
(** * The dispatcher: [internal/dispatcher/dispatcher.go]

    The interfaces that the dispatcher is given (store, webhook sender,
    analytics and metrics sinks, circuit breaker), its retry loop, and the loops
    that feed it.  The interfaces are classes over the state [W] of the outside
    world; optional collaborators are flags of the dispatcher record, where the
    source tests a field for nil. *)
From S2P Require Import Prelude GoStrings GoTime Domain Runtime Metrics.
Local Open Scope cron_scope.

(** ** Constants *)
Definition defaultBackoff : list duration := [0; 30 * Second; 2 * Minute; 10 * Minute]%Z.
Definition maxAttempts : Z := 4.
Definition maxWebhookAttemptTimeout : duration := 60 * Second.
Definition DefaultDrainTimeout : duration := 30 * Second.

Definition MaxRetryDuration : duration :=
  fold_left (fun total d => wrap64 (total + d)) defaultBackoff
    (wrap64 (maxAttempts * maxWebhookAttemptTimeout)).

(** ** Requests and results *)
Record WebhookPayload : Type := mkPayload {
  p_JobID : string;
  p_JobName : string;
  p_ExecutionID : string;
  p_ScheduledAt : string;
  p_FiredAt : string;
}.

Record WebhookRequest : Type := mkRequest {
  r_URL : string;
  r_Secret : string;
  r_Timeout : duration;
  r_Payload : WebhookPayload;
  r_AttemptID : string;
}.

Record WebhookResult : Type := mkResult {
  wr_StatusCode : Z;
  wr_Error : option err;
  wr_Duration : duration;
}.
Definition zero_result : WebhookResult :=
  {| wr_StatusCode := 0; wr_Error := None; wr_Duration := 0 |}.

Definition IsSuccess (r : WebhookResult) : bool :=
  match wr_Error r with
  | None => (200 <=? wr_StatusCode r)%Z && (wr_StatusCode r <? 300)%Z
  | Some _ => false
  end.

Definition IsRetryable (r : WebhookResult) : bool :=
  match wr_Error r with
  | Some _ => true
  | None => if (wr_StatusCode r =? 429)%Z then true else (500 <=? wr_StatusCode r)%Z
  end.

(** ** Classification of attempts for metrics *)

(** The loop over [j] of [containsInsensitive], with [n] bytes to go. *)
Fixpoint matches_from (s substr : string) (i j n : nat) : bool :=
  match n with
  | O => true
  | S n' =>
      let c1 := byte_at s (i + j) in
      let c2 := byte_at substr j in
      if decide (c1 = c2) then matches_from s substr i (S j) n'
      else if decide (lower_byte c1 = lower_byte c2) then matches_from s substr i (S j) n'
      else false
  end.
(** The loop over [i], with [n] rounds to go. *)
Fixpoint search_from (s substr : string) (i n : nat) : bool :=
  match n with
  | O => false
  | S n' =>
      if matches_from s substr i 0 (String.length substr) then true
      else search_from s substr (S i) n'
  end.
Definition containsInsensitive (s substr : string) : bool :=
  if String.length s <? String.length substr then false
  else search_from s substr 0 (S (String.length s - String.length substr)).

Definition classifyStatusForMetrics (statusCode : Z) (e : option err) : string :=
  match e with
  | Some e =>
      let errStr := Error e in
      if containsInsensitive errStr "timeout" || containsInsensitive errStr "deadline exceeded"
      then "timeout"
      else if containsInsensitive errStr "connection refused" ||
              containsInsensitive errStr "no such host" ||
              containsInsensitive errStr "network is unreachable" ||
              containsInsensitive errStr "dial"
      then "connection_error"
      else "other_error"
  | None =>
      if (200 <=? statusCode)%Z && (statusCode <? 300)%Z then "2xx"
      else if (400 <=? statusCode)%Z && (statusCode <? 500)%Z then "4xx"
      else if (500 <=? statusCode)%Z then "5xx"
      else "other_error"
  end.

(** ** Interfaces *)
Inductive metric : Type :=
| DeliveryAttemptCompleted (attempt : Z) (statusClass : string) (d : duration)
| DeliveryOutcome (outcome : string)
| RetryAttempt (retryable : bool)
| EventsInFlightIncr
| EventsInFlightDecr
| ExecutionLatencyObserve (latency : duration).

Class Store (W : Type) : Type := {
  GetJobByID : uuid -> st W (result err Job);
  InsertDeliveryAttempt : DeliveryAttempt -> st W (result err unit);
  UpdateExecutionStatus : uuid -> string -> st W (result err unit);
  DequeueExecution : st W (result err (option Execution));
}.

Class WebhookSender (W : Type) : Type := { Send : WebhookRequest -> st W WebhookResult }.
Class AnalyticsSink (W : Type) : Type := { Record_ : TriggerEvent -> AnalyticsConfig -> st W unit }.
Class MetricsSink (W : Type) : Type := { observe : metric -> st W unit }.
Class Breaker (W : Type) : Type := {
  breaker_Allow : string -> st W (result err unit);
  breaker_RecordSuccess : string -> st W unit;
  breaker_RecordFailure : string -> st W unit;
}.

(** What the [select] statements of the channel loops take: in [Run] the end of
    the context or an event, in [drain] the end of its timeout, an event, the
    closed channel, or the default case. *)
Inductive run_case : Type := RunDone | RunEvent (event : TriggerEvent).
Inductive drain_case : Type := DrainTimeout | DrainEvent (event : TriggerEvent) | DrainClosed | DrainEmpty.
Class EventSource (W : Type) : Type := {
  run_select : st W run_case;
  drain_begin : duration -> st W unit;   (* [context.WithTimeout] *)
  drain_select : st W drain_case;
}.

Record Dispatcher : Type := mkDispatcher {
  d_analytics : bool;
  d_metrics : bool;
  d_breaker : bool;
  d_backoff : list duration;
  d_drainTimeout : duration;
}.

Definition New : Dispatcher :=
  {| d_analytics := false; d_metrics := false; d_breaker := false;
     d_backoff := defaultBackoff; d_drainTimeout := DefaultDrainTimeout |}.
Definition WithDrainTimeout (d : Dispatcher) (timeout : duration) : Dispatcher :=
  {| d_analytics := d_analytics d; d_metrics := d_metrics d; d_breaker := d_breaker d;
     d_backoff := d_backoff d; d_drainTimeout := timeout |}.
Definition WithAnalytics (d : Dispatcher) : Dispatcher :=
  {| d_analytics := true; d_metrics := d_metrics d; d_breaker := d_breaker d;
     d_backoff := d_backoff d; d_drainTimeout := d_drainTimeout d |}.
Definition WithMetrics (d : Dispatcher) : Dispatcher :=
  {| d_analytics := d_analytics d; d_metrics := true; d_breaker := d_breaker d;
     d_backoff := d_backoff d; d_drainTimeout := d_drainTimeout d |}.
Definition WithCircuitBreaker (d : Dispatcher) : Dispatcher :=
  {| d_analytics := d_analytics d; d_metrics := d_metrics d; d_breaker := true;
     d_backoff := d_backoff d; d_drainTimeout := d_drainTimeout d |}.

(** ** Operations *)

(** How the attempt loop ends: the function returned from inside it, or control
    fell out of it with the last result. *)
Inductive loop_exit : Type :=
| Returned (r : result err unit)
| FellOut (last : WebhookResult).

Section operations.
  Context {W : Type} `{!Store W, !WebhookSender W, !AnalyticsSink W, !MetricsSink W, !Breaker W, !Runtime W}.
  Variable d : Dispatcher.

(** A call on the metrics sink, skipped when there is none. *)
Definition record_metric (m : metric) : st W unit := when (d_metrics d) (observe m).

Definition writeAnalytics (event : TriggerEvent) (job : Job) : st W unit :=
  if negb (d_analytics d) then mret tt
  else if negb (a_Enabled (j_Analytics job)) then mret tt
  else Record_ event (j_Analytics job).

(** [d.backoff] at the index of an attempt, clipped to the last entry. *)
Definition backoff_of (attempt : Z) : duration :=
  let idx := (attempt - 1)%Z in
  let len := Z.of_nat (length (d_backoff d)) in
  let idx := if (len <=? idx)%Z then (len - 1)%Z else idx in
  default 0%Z (d_backoff d !! Z.to_nat idx).

(** The answer of a status update, with the denied transition ignored;
    [record] is the report to the breaker that follows a successful update. *)
Definition finish (event : TriggerEvent) (status : string) (record : st W unit) : st W (result err unit) :=
  UpdateExecutionStatus (ev_ExecutionID event) status ≫= fun r =>
  match r with
  | Err e => if errors_Is e EStatusTransitionDenied then mret (Ok tt) else mret (Err e)
  | Ok _ => when (d_breaker d) record ≫= fun _ => mret (Ok tt)
  end.

(** The loop body from the delivery on, once the backoff is over. *)
Definition deliver (event : TriggerEvent) (job : Job) (req : WebhookRequest) (attempt : Z) :
    st W (WebhookResult * option (result err unit)) :=
  uuid_New ≫= fun attemptID =>
  let req := {| r_URL := r_URL req; r_Secret := r_Secret req; r_Timeout := r_Timeout req;
                r_Payload := r_Payload req; r_AttemptID := uuid_String attemptID |} in
  time_Now ≫= fun startedAt =>
  Send req ≫= fun result =>
  time_Now ≫= fun finishedAt =>
  record_metric (DeliveryAttemptCompleted attempt
    (classifyStatusForMetrics (wr_StatusCode result) (wr_Error result)) (wr_Duration result)) ≫= fun _ =>
  InsertDeliveryAttempt
    {| da_ID := attemptID; da_ExecutionID := ev_ExecutionID event; da_Attempt := attempt;
       da_StatusCode := wr_StatusCode result;
       da_Error := match wr_Error result with Some e => Error e | None => "" end;
       da_StartedAt := startedAt; da_FinishedAt := finishedAt |} ≫= fun _ =>
  if IsSuccess result then
    when (d_metrics d)
      (observe (DeliveryOutcome "success") ≫= fun _ =>
       time_Now ≫= fun now =>
       observe (ExecutionLatencyObserve (time_sub now (ev_ScheduledAt event)))) ≫= fun _ =>
    finish event ExecutionStatusDelivered (breaker_RecordSuccess (d_WebhookURL (j_Delivery job))) ≫= fun r =>
    mret (result, Some r)
  else mret (result, None).

(** The attempt loop, from [attempt] on; [fuel] rounds may still start. *)
Fixpoint attempts (fuel : nat) (event : TriggerEvent) (job : Job) (req : WebhookRequest)
    (attempt : Z) (lastResult : WebhookResult) : st W loop_exit :=
  match fuel with
  | O => mret (FellOut lastResult)
  | S fuel' =>
      if negb (attempt <=? maxAttempts)%Z then mret (FellOut lastResult) else
      (if (1 <? attempt)%Z then
         record_metric (RetryAttempt (IsRetryable lastResult)) ≫= fun _ =>
         wait (backoff_of attempt)
       else mret None) ≫= fun interrupted =>
      match interrupted with
      | Some e => mret (Returned (Err e))
      | None =>
          deliver event job req attempt ≫= fun '(result, returned) =>
          match returned with
          | Some r => mret (Returned r)
          | None =>
              if negb (IsRetryable result) then mret (FellOut result)
              else attempts fuel' event job req (attempt + 1) result
          end
      end
  end.

Definition payload_of (event : TriggerEvent) (job : Job) : WebhookPayload :=
  {| p_JobID := uuid_String (ev_JobID event); p_JobName := j_Name job;
     p_ExecutionID := uuid_String (ev_ExecutionID event);
     p_ScheduledAt := FormatRFC3339 (ev_ScheduledAt event);
     p_FiredAt := FormatRFC3339 (ev_FiredAt event) |}.

(** [Dispatch] from the moment the circuit breaker has been asked. *)
Definition run_attempts (event : TriggerEvent) (job : Job) : st W (result err unit) :=
  let req := {| r_URL := d_WebhookURL (j_Delivery job); r_Secret := d_Secret (j_Delivery job);
                r_Timeout := d_Timeout (j_Delivery job); r_Payload := payload_of event job;
                r_AttemptID := "" |} in
  attempts (Z.to_nat maxAttempts) event job req 1 zero_result ≫= fun x =>
  match x with
  | Returned r => mret r
  | FellOut _ =>
      record_metric (DeliveryOutcome "failed") ≫= fun _ =>
      finish event ExecutionStatusFailed (breaker_RecordFailure (d_WebhookURL (j_Delivery job)))
  end.

(** [Dispatch] between the two updates of the in-flight gauge. *)
Definition dispatch_body (event : TriggerEvent) : st W (result err unit) :=
  try job := GetJobByID (ev_JobID event) catch e => mret (Err (EWrap "get job" e)) in
  writeAnalytics event job ≫= fun _ =>
  if String.eqb (d_WebhookURL (j_Delivery job)) "" then
    mret (Err (EOther ("job " +:+ uuid_String (ev_JobID event) +:+ ": no webhook URL")))
  else
    (if d_breaker d then breaker_Allow (d_WebhookURL (j_Delivery job)) else mret (Ok tt)) ≫= fun allowed =>
    match allowed with
    | Err _ => record_metric (DeliveryOutcome "circuit_open") ≫= fun _ => mret (Ok tt)
    | Ok _ => run_attempts event job
    end.

Definition Dispatch (event : TriggerEvent) : st W (result err unit) :=
  record_metric EventsInFlightIncr ≫= fun _ =>
  dispatch_body event ≫= fun r =>
  record_metric EventsInFlightDecr ≫= fun _ =>
  mret r.

(** *** Events from the channel *)

(** The loop of [drain], which counts the events it processed; [n] bounds the
    number of events. *)
Fixpoint drain_loop `{!EventSource W} (n : nat) (count : nat) : st W nat :=
  match n with
  | O => mret count
  | S n' =>
      drain_select ≫= fun c =>
      match c with
      | DrainTimeout | DrainClosed | DrainEmpty => mret count
      | DrainEvent event => Dispatch event ≫= fun _ => drain_loop n' (S count)
      end
  end.
Definition drain `{!EventSource W} (n : nat) : st W nat :=
  drain_begin (d_drainTimeout d) ≫= fun _ => drain_loop n 0.

(** [n] rounds of [Run], or fewer when the context ends; then the drain. *)
Fixpoint Run `{!EventSource W} (n drained : nat) : st W unit :=
  match n with
  | O => mret tt
  | S n' =>
      run_select ≫= fun c =>
      match c with
      | RunDone => drain drained ≫= fun _ => mret tt
      | RunEvent event => Dispatch event ≫= fun _ => Run n' drained
      end
  end.

(** *** Polling the database *)

(** One round of [dbPollWorker]: [true] when the worker goes on. *)
Definition dbPollWorker_round (pollInterval : duration) : st W bool :=
  let sleep := wait pollInterval ≫= fun interrupted =>
    mret (match interrupted with Some _ => false | None => true end) in
  ctx_Err ≫= fun e0 =>
  match e0 with
  | Some _ => mret false
  | None =>
      DequeueExecution ≫= fun r =>
      match r with
      | Err _ => ctx_Err ≫= fun e1 => match e1 with Some _ => mret false | None => sleep end
      | Ok None => sleep
      | Ok (Some exec) =>
          Dispatch (event_of_execution exec (e_CreatedAt exec)) ≫= fun _ => mret true
      end
  end.

(** [n] rounds of the worker, or fewer when it stops. *)
Fixpoint dbPollWorker (n : nat) (pollInterval : duration) : st W unit :=
  match n with
  | O => mret tt
  | S n' =>
      dbPollWorker_round pollInterval ≫= fun (go : bool) =>
      if go then dbPollWorker n' pollInterval else mret tt
  end.

(** The workers [live], which take turns as [schedule] says, a round at a time;
    one that stops is not called again. The result are those that still run. *)
Fixpoint run_workers (schedule : list nat) (pollInterval : duration) (live : list nat) : st W (list nat) :=
  match schedule with
  | [] => mret live
  | i :: schedule' =>
      if decide (i ∈ live) then
        dbPollWorker_round pollInterval ≫= fun (go : bool) =>
        run_workers schedule' pollInterval (if go then live else filter (fun k => k <> i) live)
      else run_workers schedule' pollInterval live
  end.
(** [RunDBPoll] waits for all of its workers: it has returned when none is left. *)
Definition RunDBPoll (schedule : list nat) (pollInterval : duration) (workers : nat) : st W (list nat) :=
  run_workers schedule pollInterval (seq 0 workers).
End operations.
