(* ===== verification/DispatcherTheory.v ===== *)
(** * What the dispatcher does to the outside world

    The laws of [DispatchLog] say that a state keeps the sequence of the calls
    that the dispatcher made on its collaborators, with their answers.  The
    trace of [Dispatch] is characterised once ([dispatch_trace]); the properties
    are read off that characterisation.  They hold for every implementation of
    the dispatcher's interfaces that keeps such a log. *)
From S2P Require Import Prelude Trace GoStrings GoTime Domain Runtime Metrics Dispatcher.
Local Open Scope cron_scope.

(** ** Calls *)
Inductive action : Type :=
| AGetJob (id : uuid) (r : result err Job)
| AAnalytics (event : TriggerEvent) (config : AnalyticsConfig)
| AAllow (url : string) (r : result err unit)
| AWait (d : duration) (r : option err)
| ASend (req : WebhookRequest) (r : WebhookResult)
| AInsert (a : DeliveryAttempt) (r : result err unit)
| AUpdate (id : uuid) (status : string) (r : result err unit)
| ASuccess (url : string)
| AFailure (url : string)
| AMetric (m : metric).

Class DispatchLog (W : Type)
    `{!Store W, !WebhookSender W, !AnalyticsSink W, !MetricsSink W, !Breaker W, !Runtime W} : Type := {
  log : W -> list action;
  log_GetJobByID id w :
    log (exec (GetJobByID id) w) = log w ++ [AGetJob id (eval (GetJobByID id) w)];
  log_InsertDeliveryAttempt a w :
    log (exec (InsertDeliveryAttempt a) w) = log w ++ [AInsert a (eval (InsertDeliveryAttempt a) w)];
  log_UpdateExecutionStatus id s w :
    log (exec (UpdateExecutionStatus id s) w) =
    log w ++ [AUpdate id s (eval (UpdateExecutionStatus id s) w)];
  log_Send req w : log (exec (Send req) w) = log w ++ [ASend req (eval (Send req) w)];
  log_Record event c w : log (exec (Record_ event c) w) = log w ++ [AAnalytics event c];
  log_observe m w : log (exec (observe m) w) = log w ++ [AMetric m];
  log_Allow u w : log (exec (breaker_Allow u) w) = log w ++ [AAllow u (eval (breaker_Allow u) w)];
  log_RecordSuccess u w : log (exec (breaker_RecordSuccess u) w) = log w ++ [ASuccess u];
  log_RecordFailure u w : log (exec (breaker_RecordFailure u) w) = log w ++ [AFailure u];
  log_wait t w : log (exec (wait t) w) = log w ++ [AWait t (eval (wait t) w)];
  log_time_Now w : log (exec time_Now w) = log w;
  log_uuid_New w : log (exec uuid_New w) = log w;
}.

(** The trace of a metric call, empty without a sink. *)
Definition mets (d : Dispatcher) (m : metric) : list action :=
  if d_metrics d then [AMetric m] else [].

Notation logs := (Trace.logs log).

Lemma logs_metric `{DispatchLog W} {B} d m (f : unit -> st W B) (Q : list action -> B -> Prop) :
  logs (f tt) (fun l b => Q (mets d m ++ l) b) -> logs (record_metric d m ≫= f) Q.
Proof.
  intros Hf. apply (logs_step _ _ (fun _ => mets d m)); [|by intros []].
  intros w. unfold record_metric, when, mets. destruct (d_metrics d); [apply log_observe |].
  by rewrite app_nil_r.
Qed.

(** ** The trace of a dispatch *)
Section spec.
  Variables (d : Dispatcher) (event : TriggerEvent) (job : Job).
Let url := d_WebhookURL (j_Delivery job).

(** A status update, and the report to the breaker that follows a successful one. *)
Inductive finish_trace (status : string) (report : action) : list action -> result err unit -> Prop :=
| FT_updated :
    finish_trace status report
      (AUpdate (ev_ExecutionID event) status (Ok tt) :: if d_breaker d then [report] else []) (Ok tt)
| FT_denied e : errors_Is e EStatusTransitionDenied = true ->
    finish_trace status report [AUpdate (ev_ExecutionID event) status (Err e)] (Ok tt)
| FT_error e : errors_Is e EStatusTransitionDenied = false ->
    finish_trace status report [AUpdate (ev_ExecutionID event) status (Err e)] (Err e).

(** One delivery with the result [res], up to the test for success. *)
Inductive delivery_trace (payload : WebhookPayload) (attempt : Z) (res : WebhookResult) : list action -> Prop :=
| DT req a r :
    r_URL req = url -> r_Secret req = d_Secret (j_Delivery job) ->
    r_Timeout req = d_Timeout (j_Delivery job) -> r_Payload req = payload ->
    da_ExecutionID a = ev_ExecutionID event -> da_Attempt a = attempt ->
    da_StatusCode a = wr_StatusCode res ->
    delivery_trace payload attempt res
      (ASend req res ::
       mets d (DeliveryAttemptCompleted attempt
                (classifyStatusForMetrics (wr_StatusCode res) (wr_Error res)) (wr_Duration res)) ++
       [AInsert a r]).

(** The wait before an attempt other than the first. *)
Definition retry_trace (attempt : Z) (last : WebhookResult) (r : option err) : list action :=
  if (1 <? attempt)%Z then
    mets d (RetryAttempt (IsRetryable last)) ++ [AWait (backoff_of d attempt) r]
  else [].

Inductive success_metrics : list action -> Prop :=
| SM_off : d_metrics d = false -> success_metrics []
| SM_on latency : d_metrics d = true ->
    success_metrics [AMetric (DeliveryOutcome "success"); AMetric (ExecutionLatencyObserve latency)].

Inductive attempts_trace (payload : WebhookPayload) : Z -> WebhookResult -> list action -> loop_exit -> Prop :=
| AT_exhausted attempt last :
    (maxAttempts < attempt)%Z -> attempts_trace payload attempt last [] (FellOut last)
| AT_interrupted attempt last e :
    (1 < attempt <= maxAttempts)%Z ->
    attempts_trace payload attempt last (retry_trace attempt last (Some e)) (Returned (Err e))
| AT_success attempt last res l sm fin r :
    (attempt <= maxAttempts)%Z -> IsSuccess res = true ->
    delivery_trace payload attempt res l -> success_metrics sm ->
    finish_trace ExecutionStatusDelivered (ASuccess url) fin r ->
    attempts_trace payload attempt last (retry_trace attempt last None ++ l ++ sm ++ fin) (Returned r)
| AT_final attempt last res l :
    (attempt <= maxAttempts)%Z -> IsSuccess res = false -> IsRetryable res = false ->
    delivery_trace payload attempt res l ->
    attempts_trace payload attempt last (retry_trace attempt last None ++ l) (FellOut res)
| AT_retry attempt last res l rest x :
    (attempt <= maxAttempts)%Z -> IsSuccess res = false -> IsRetryable res = true ->
    delivery_trace payload attempt res l ->
    attempts_trace payload (attempt + 1) res rest x ->
    attempts_trace payload attempt last (retry_trace attempt last None ++ l ++ rest) x.
End spec.

(** The trace of [dispatch_body]; [pl] is the payload of a job. *)
Inductive body_trace (d : Dispatcher) (event : TriggerEvent) (pl : Job -> WebhookPayload) : list action -> result err unit -> Prop :=
| BT_nojob e :
    body_trace d event pl [AGetJob (ev_JobID event) (Err e)] (Err (EWrap "get job" e))
| BT_nourl job an e :
    d_WebhookURL (j_Delivery job) = "" ->
    (forall a, a ∈ an -> a = AAnalytics event (j_Analytics job)) ->
    body_trace d event pl (AGetJob (ev_JobID event) (Ok job) :: an) (Err e)
| BT_open job an e :
    d_WebhookURL (j_Delivery job) <> "" -> d_breaker d = true ->
    (forall a, a ∈ an -> a = AAnalytics event (j_Analytics job)) ->
    body_trace d event pl
      (AGetJob (ev_JobID event) (Ok job) :: an ++
       AAllow (d_WebhookURL (j_Delivery job)) (Err e) :: mets d (DeliveryOutcome "circuit_open")) (Ok tt)
| BT_returned job an al l r :
    d_WebhookURL (j_Delivery job) <> "" ->
    (forall a, a ∈ an -> a = AAnalytics event (j_Analytics job)) ->
    al = (if d_breaker d then [AAllow (d_WebhookURL (j_Delivery job)) (Ok tt)] else []) ->
    attempts_trace d event job (pl job) 1 zero_result l (Returned r) ->
    body_trace d event pl (AGetJob (ev_JobID event) (Ok job) :: an ++ al ++ l) r
| BT_failed job an al l last fin r :
    d_WebhookURL (j_Delivery job) <> "" ->
    (forall a, a ∈ an -> a = AAnalytics event (j_Analytics job)) ->
    al = (if d_breaker d then [AAllow (d_WebhookURL (j_Delivery job)) (Ok tt)] else []) ->
    attempts_trace d event job (pl job) 1 zero_result l (FellOut last) ->
    finish_trace d event ExecutionStatusFailed (AFailure (d_WebhookURL (j_Delivery job))) fin r ->
    body_trace d event pl
      (AGetJob (ev_JobID event) (Ok job) :: an ++ al ++ l ++ mets d (DeliveryOutcome "failed") ++ fin) r.

Section refinement.
  Context {W : Type} `{DispatchLog W}.
  Variable d : Dispatcher.

Lemma finish_logs event status (record : st W unit) report :
  (forall w, log (exec record w) = log w ++ [report]) ->
  logs (finish d event status record) (finish_trace d event status report).
Proof.
  intros Hr. unfold finish.
  eapply (logs_step _ _ (fun r => [AUpdate (ev_ExecutionID event) status r]));
    [intros w; apply log_UpdateExecutionStatus |].
  intros [[]|e].
  - apply (logs_step _ _ (fun _ => if d_breaker d then [report] else [])).
    + intros w. unfold when. destruct (d_breaker d); [apply Hr | by rewrite app_nil_r].
    + intros []. apply logs_ret. cbn. rewrite app_nil_r. constructor.
  - destruct (errors_Is e EStatusTransitionDenied) eqn:He; apply logs_ret; by constructor.
Qed.

(** What [deliver] appends, by whether the attempt succeeded. *)
Definition deliver_post event job payload attempt (l : list action) (x : WebhookResult * option (result err unit)) : Prop :=
  exists l1, delivery_trace d event job payload attempt (fst x) l1 /\
  match snd x with
  | None => IsSuccess (fst x) = false /\ l = l1
  | Some r => IsSuccess (fst x) = true /\ exists sm fin,
      l = l1 ++ sm ++ fin /\ success_metrics d sm /\
      finish_trace d event ExecutionStatusDelivered (ASuccess (d_WebhookURL (j_Delivery job))) fin r
  end.

Lemma success_metrics_logs {B} event (f : unit -> st W B) (Q : list action -> B -> Prop) :
  (forall sm, success_metrics d sm -> logs (f tt) (fun l b => Q (sm ++ l) b)) ->
  logs (when (d_metrics d)
      (observe (DeliveryOutcome "success") ≫= fun _ =>
       time_Now ≫= fun now =>
       observe (ExecutionLatencyObserve (time_sub now (ev_ScheduledAt event)))) ≫= f) Q.
Proof.
  intros Hf. unfold when. destruct (d_metrics d) eqn:Em.
  - apply logs_bind. eapply (logs_step _ _ (fun _ => [_])); [intros w; apply log_observe |].
    intros []. apply logs_silent; [apply log_time_Now |]. intros now w.
    eexists. split; [apply log_observe |]. destruct (eval _ _). apply Hf. by constructor.
  - apply logs_bind, logs_ret. apply Hf. by constructor.
Qed.

Ltac pick_delivery :=
  match goal with
  | |- deliver_post _ _ _ _ ([ASend ?q ?res] ++ mets _ ?m ++ [AInsert ?a ?r] ++ _) _ =>
      exists (ASend q res :: mets d m ++ [AInsert a r])
  end.

Lemma deliver_logs event job req attempt :
  r_URL req = d_WebhookURL (j_Delivery job) -> r_Secret req = d_Secret (j_Delivery job) ->
  r_Timeout req = d_Timeout (j_Delivery job) ->
  logs (deliver d event job req attempt) (deliver_post event job (r_Payload req) attempt).
Proof.
  intros Hu Hs Ht. unfold deliver.
  apply logs_silent; [apply log_uuid_New |]. intros id.
  apply logs_silent; [apply log_time_Now |]. intros t1.
  eapply (logs_step _ _ (fun r => [ASend _ r])); [intros w; apply log_Send |]. intros res.
  apply logs_silent; [apply log_time_Now |]. intros t2.
  apply logs_metric.
  eapply (logs_step _ _ (fun r => [AInsert _ r])); [intros w; apply log_InsertDeliveryAttempt |].
  intros ins. destruct (IsSuccess res) eqn:Es.
  - apply success_metrics_logs. intros sm Hsm. apply logs_bind.
    eapply logs_conseq; [apply finish_logs; intros w; apply log_RecordSuccess |].
    intros fin r Hfin. apply logs_ret. rewrite app_nil_r.
    pick_delivery. split; [by econstructor |]. split; [done |]. exists sm, fin.
    split; [|done]. cbn. by rewrite <- !app_assoc.
  - apply logs_ret. pick_delivery. split; [by econstructor |]. split; [done |].
    cbn. done.
Qed.

Lemma retry_logs attempt last :
  logs (if (1 <? attempt)%Z then
          record_metric d (RetryAttempt (IsRetryable last)) ≫= fun _ => wait (backoff_of d attempt)
        else mret None)
    (fun l r => l = retry_trace d attempt last r /\ forall e, r = Some e -> (1 < attempt)%Z).
Proof.
  unfold retry_trace. destruct (Z.ltb_spec 1 attempt).
  - apply logs_metric. intros w. eexists. split; [apply log_wait |]. done.
  - by apply logs_ret.
Qed.

Lemma attempts_logs event job req fuel : forall attempt last,
  r_URL req = d_WebhookURL (j_Delivery job) -> r_Secret req = d_Secret (j_Delivery job) ->
  r_Timeout req = d_Timeout (j_Delivery job) ->
  (1 <= attempt)%Z -> (maxAttempts < attempt + Z.of_nat fuel)%Z ->
  logs (attempts d fuel event job req attempt last)
       (attempts_trace d event job (r_Payload req) attempt last).
Proof.
  induction fuel as [|fuel IH]; intros attempt last Hu Hs Ht H1 Hf; cbn [attempts].
  - apply logs_ret. constructor. lia.
  - destruct (Z.leb_spec attempt maxAttempts) as [Hle|Hgt]; cbn [negb];
      [|apply logs_ret; by constructor].
    apply logs_bind. eapply logs_conseq; [apply (retry_logs attempt last) |].
    intros l0 [e|] (-> & Hr).
    { apply logs_ret. rewrite app_nil_r. constructor. split; [by apply (Hr e) | done]. }
    apply logs_bind. eapply logs_conseq; [by apply (deliver_logs event job req attempt) |].
    intros l1 [res ret] (l2 & Hd & Hret). cbn [fst snd] in *. destruct ret as [r|].
    + destruct Hret as (Hs' & sm & fin & -> & Hsm & Hfin). apply logs_ret. rewrite app_nil_r.
      by econstructor.
    + destruct Hret as [Hs' ->]. destruct (IsRetryable res) eqn:Er; cbn [negb].
      * eapply logs_conseq; [apply IH; auto; lia |]. intros l3 x Hx. by econstructor.
      * apply logs_ret. rewrite app_nil_r. by econstructor.
Qed.

Lemma run_attempts_logs event job :
  logs (run_attempts d event job) (fun l r =>
    attempts_trace d event job (payload_of event job) 1 zero_result l (Returned r) \/
    exists l1 last fin, attempts_trace d event job (payload_of event job) 1 zero_result l1 (FellOut last) /\
      l = l1 ++ mets d (DeliveryOutcome "failed") ++ fin /\
      finish_trace d event ExecutionStatusFailed (AFailure (d_WebhookURL (j_Delivery job))) fin r).
Proof.
  unfold run_attempts. apply logs_bind.
  eapply logs_conseq; [by apply attempts_logs; cbn; [..| done] |].
  intros l [r|last] Hx.
  - apply logs_ret. left. by rewrite app_nil_r.
  - apply logs_metric. eapply logs_conseq; [apply finish_logs; intros w; apply log_RecordFailure |].
    intros fin r Hfin. right. by exists l, last, fin.
Qed.

Lemma writeAnalytics_logs event job :
  logs (writeAnalytics d event job) (fun l _ => forall a, a ∈ l -> a = AAnalytics event (j_Analytics job)).
Proof.
  unfold writeAnalytics. repeat case_match.
  - apply logs_ret. intros a Ha. by apply elem_of_nil in Ha.
  - apply logs_ret. intros a Ha. by apply elem_of_nil in Ha.
  - intros w. eexists. split; [apply log_Record |]. intros a Ha. by apply list_elem_of_singleton in Ha.
Qed.

Lemma allow_logs url :
  logs (if d_breaker d then breaker_Allow url else mret (Ok tt)) (fun l r =>
    match r with
    | Ok _ => l = if d_breaker d then [AAllow url (Ok tt)] else []
    | Err e => d_breaker d = true /\ l = [AAllow url (Err e)]
    end).
Proof.
  destruct (d_breaker d); [| by apply logs_ret].
  intros w. eexists. split; [apply log_Allow |]. by destruct (eval _ _) as [[]|].
Qed.

Lemma body_logs event : logs (dispatch_body d event) (body_trace d event (payload_of event)).
Proof.
  unfold dispatch_body. eapply (logs_step _ _ (fun r => [AGetJob _ r])); [intros w; apply log_GetJobByID |].
  intros [job|e]; [|apply logs_ret; constructor].
  apply logs_bind. eapply logs_conseq; [apply writeAnalytics_logs |]. intros an ? Han.
  destruct (String.eqb_spec (d_WebhookURL (j_Delivery job)) "") as [He|Hne].
  { apply logs_ret. rewrite app_nil_r. by constructor. }
  apply logs_bind. eapply logs_conseq; [apply (allow_logs (d_WebhookURL (j_Delivery job))) |].
  intros al allowed Hal. destruct allowed as [[]|e].
  - eapply logs_conseq; [apply run_attempts_logs |]. intros l r [Hl|(l1 & last & fin & Hl & -> & Hfin)].
    + eapply (BT_returned _ _ _ job an al l); [exact Hne | exact Han | exact Hal | exact Hl].
    + eapply (BT_failed _ _ _ job an al l1); [exact Hne | exact Han | exact Hal | exact Hl | exact Hfin].
  - destruct Hal as [Hb ->]. apply logs_metric, logs_ret. rewrite app_nil_r.
    by apply BT_open.
Qed.
End refinement.
