(* ===== verification/DispatcherProps.v ===== *)
(** * Properties of the dispatcher

    What [Dispatch] promises about the calls it makes: which deliveries are
    sent, when they stop, the one status update, the report to the breaker, and
    the time that the retries may take.  Every property is read off the trace
    of [Dispatch] ([dispatch_logs]). The module [Sim] is a scripted world at which
    they are evaluated. *)
From S2P Require Import Prelude Trace GoStrings GoTime Domain Runtime Metrics Dispatcher DispatcherTheory.
Local Open Scope cron_scope.

(** ** Observations of a trace *)
Definition sent (a : action) : option (WebhookRequest * WebhookResult) :=
  match a with ASend q r => Some (q, r) | _ => None end.
Definition inserted (a : action) : option Z :=
  match a with AInsert x _ => Some (da_Attempt x) | _ => None end.
Definition waited (a : action) : option duration :=
  match a with AWait t _ => Some t | _ => None end.
Definition updated (a : action) : option (uuid * string * result err unit) :=
  match a with AUpdate id s r => Some (id, s, r) | _ => None end.
Definition reported (a : action) : option (bool * string) :=
  match a with ASuccess u => Some (true, u) | AFailure u => Some (false, u) | _ => None end.
Definition gauge (a : action) : option Z :=
  match a with AMetric EventsInFlightIncr => Some 1%Z | AMetric EventsInFlightDecr => Some (-1)%Z | _ => None end.

Lemma pick_mets {B} (f : action -> option B) d m : f (AMetric m) = None -> pick f (mets d m) = [].
Proof. intros Hf. unfold mets. destruct (d_metrics d); [|done]. cbn. by rewrite Hf. Qed.

(** Pushes the observations through a trace. *)
Ltac observe :=
  repeat (progress (rewrite ?pick_app; cbn [pick sent inserted waited updated reported gauge app];
          repeat (rewrite pick_mets by reflexivity))); rewrite ?app_nil_r.

(** ** The pieces of a trace *)
Section pieces.
  Variables (d : Dispatcher) (event : TriggerEvent) (job : Job) (pl : WebhookPayload).
Let url := d_WebhookURL (j_Delivery job).

(** The request is the one that the job and the event call for. *)
Definition request_for (q : WebhookRequest) : Prop :=
  r_URL q = url /\ r_Secret q = d_Secret (j_Delivery job) /\
  r_Timeout q = d_Timeout (j_Delivery job) /\ r_Payload q = pl.

Lemma delivery_obs n res l :
  delivery_trace d event job pl n res l ->
  exists q, pick sent l = [(q, res)] /\ request_for q /\ pick inserted l = [n] /\
    pick waited l = [] /\ pick updated l = [] /\ pick reported l = [] /\ pick gauge l = [].
Proof.
  intros [q a r Hu Hs Ht Hp _ Ha _]. exists q. observe. subst n. repeat split; done.
Qed.

Lemma retry_obs n last r :
  pick sent (retry_trace d n last r) = [] /\ pick inserted (retry_trace d n last r) = [] /\
  pick waited (retry_trace d n last r) = (if (1 <? n)%Z then [backoff_of d n] else []) /\
  pick updated (retry_trace d n last r) = [] /\ pick reported (retry_trace d n last r) = [] /\
  pick gauge (retry_trace d n last r) = [].
Proof. unfold retry_trace. destruct (1 <? n)%Z; observe; done. Qed.

Lemma success_metrics_obs sm :
  success_metrics d sm ->
  pick sent sm = [] /\ pick inserted sm = [] /\ pick waited sm = [] /\ pick updated sm = [] /\
  pick reported sm = [] /\ pick gauge sm = [].
Proof. by intros []. Qed.

Lemma finish_obs status (b : bool) fin r :
  finish_trace d event status (if b then ASuccess url else AFailure url) fin r ->
  pick sent fin = [] /\ pick inserted fin = [] /\ pick waited fin = [] /\ pick gauge fin = [] /\
  exists u, pick updated fin = [(ev_ExecutionID event, status, u)] /\
    pick reported fin = (if is_ok u && d_breaker d then [(b, url)] else []) /\
    (is_ok u = true -> r = Ok tt) /\
    (forall e, u = Err e -> r = if errors_Is e EStatusTransitionDenied then Ok tt else Err e).
Proof.
  intros [|e He|e He].
  - destruct (d_breaker d), b; observe; split_and!; try done; eexists; split_and!; done.
  - observe. split_and!; try done. eexists; split_and!; try done. intros ? [= ->]. by rewrite He.
  - observe. split_and!; try done. eexists; split_and!; try done. intros ? [= ->]. by rewrite He.
Qed.

(** ** The attempt loop *)
Notation loop := (attempts_trace d event job pl).

Lemma loop_sends n last l x :
  loop n last l x -> (1 <= n <= 5)%Z ->
  (n + Z.of_nat (length (pick sent l)) <= 5)%Z /\
  Forall request_for (pick sent l).*1 /\
  pick inserted l = seqZ n (Z.of_nat (length (pick sent l))).
Proof.
  induction 1 as [n last Hn|n last e Hn|n last res l sm fin r Hn Hs Hd Hsm Hfin
    |n last res l Hn Hs Hr Hd|n last res l rest x Hn Hs Hr Hd Hrest IH]; intros Hb;
    unfold maxAttempts in *.
  - split; [cbn; lia | done].
  - destruct (retry_obs n last (Some e)) as (-> & -> & _). split; [cbn; lia | done].
  - observe. destruct (retry_obs n last None) as (-> & -> & _).
    destruct (delivery_obs _ _ _ Hd) as (q & -> & Hq & -> & _).
    destruct (success_metrics_obs _ Hsm) as (-> & -> & _).
    destruct (finish_obs _ true _ _ Hfin) as (-> & -> & _).
    cbn. split; [lia |]. split; [by apply Forall_singleton |]. f_equal; lia.
  - observe. destruct (retry_obs n last None) as (-> & -> & _).
    destruct (delivery_obs _ _ _ Hd) as (q & -> & Hq & -> & _).
    cbn. split; [lia |]. split; [by apply Forall_singleton |]. f_equal; lia.
  - destruct IH as (IH1 & IH2 & IH3); [lia |].
    observe. destruct (retry_obs n last None) as (-> & -> & _).
    destruct (delivery_obs _ _ _ Hd) as (q & -> & Hq & -> & _).
    cbn [app length fmap list_fmap]. split; [lia |]. split; [by constructor |].
    rewrite IH3, Nat2Z.inj_succ. rewrite (seqZ_cons n) by lia. cbn. f_equal. f_equal; lia.
Qed.

(** Every delivery that another one follows failed in a retryable way. *)
Definition retried_failures (rs : list WebhookResult) : Prop :=
  forall l1 r l2, rs = l1 ++ r :: l2 -> l2 <> [] -> IsSuccess r = false /\ IsRetryable r = true.

Lemma retried_single r : retried_failures [r].
Proof. intros [|? [|]] ? [|] [=] ?; congruence. Qed.

Lemma retried_cons r rs :
  IsSuccess r = false -> IsRetryable r = true -> retried_failures rs -> retried_failures (r :: rs).
Proof. intros Hs Hr Hrs [|? l1] ? ? [= -> ->] Hne; [done | by eapply Hrs]. Qed.

Definition loop_outcome (l : list action) (x : loop_exit) : Prop :=
  let results := (pick sent l).*2 in
  match x with
  | FellOut res => pick updated l = [] /\ pick reported l = [] /\
      list.last results = Some res /\ IsSuccess res = false
  | Returned r =>
      (exists e, r = Err e /\ pick updated l = [] /\ pick reported l = [] /\
        Forall (fun res => IsSuccess res = false) results) \/
      (exists u res, list.last results = Some res /\ IsSuccess res = true /\
        pick updated l = [(ev_ExecutionID event, ExecutionStatusDelivered, u)] /\
        pick reported l = (if is_ok u && d_breaker d then [(true, url)] else []) /\
        (is_ok u = true -> r = Ok tt) /\
        (forall e, u = Err e -> r = if errors_Is e EStatusTransitionDenied then Ok tt else Err e))
  end.

Lemma loop_outcomes n last l x :
  loop n last l x -> (1 <= n)%Z -> (n = 5%Z -> IsSuccess last = false) ->
  (n <= 5)%Z ->
  retried_failures (pick sent l).*2 /\
  (pick sent l = [] -> x = FellOut last \/ exists e, x = Returned (Err e)) /\
  (x = FellOut last /\ l = [] /\ n = 5%Z \/ loop_outcome l x).
Proof.
  induction 1 as [n last Hn|n last e Hn|n last res l sm fin r Hn Hs Hd Hsm Hfin
    |n last res l Hn Hs Hr Hd|n last res l rest x Hn Hs Hr Hd Hrest IH]; intros Hb Hlast Hb5;
    unfold maxAttempts in *.
  - split; [by intros [|] ? ? [=] |]. split; [auto |]. left. split_and!; [done | done | lia].
  - destruct (retry_obs n last (Some e)) as (Es & _ & _ & Eu & Er & _).
    unfold loop_outcome. rewrite Es, Eu, Er. split; [by intros [|] ? ? [=] |].
    split; [eauto |]. right. left. eauto.
  - destruct (retry_obs n last None) as (Es & _ & _ & Eu & Er & _).
    destruct (delivery_obs _ _ _ Hd) as (q & Es1 & _ & _ & _ & Eu1 & Er1 & _).
    destruct (success_metrics_obs _ Hsm) as (Es2 & _ & _ & Eu2 & Er2 & _).
    destruct (finish_obs _ true _ _ Hfin) as (Es3 & _ & _ & _ & u & Eu3 & Er3 & Hok & Herr).
    unfold loop_outcome. observe.
    rewrite Es, Eu, Er, Es1, Eu1, Er1, Es2, Eu2, Er2, Es3, Eu3, Er3. cbn.
    split; [apply retried_single |]. split; [done |]. right. right. exists u, res. split_and!; done.
  - destruct (retry_obs n last None) as (Es & _ & _ & Eu & Er & _).
    destruct (delivery_obs _ _ _ Hd) as (q & Es1 & _ & _ & _ & Eu1 & Er1 & _).
    unfold loop_outcome. observe. rewrite Es, Eu, Er, Es1, Eu1, Er1. cbn.
    split; [apply retried_single |]. split; [done |]. right. done.
  - destruct IH as (IH1 & IH2 & IH3); [lia | auto | lia |].
    destruct (retry_obs n last None) as (Es & _ & _ & Eu & Er' & _).
    destruct (delivery_obs _ _ _ Hd) as (q & Es1 & _ & _ & _ & Eu1 & Er1 & _).
    observe. rewrite Es, Es1. cbn [app fmap list_fmap snd].
    split; [by apply retried_cons |]. split; [done |]. right. unfold loop_outcome. observe.
    rewrite Es, Eu, Er', Es1, Eu1, Er1. cbn [app fmap list_fmap snd].
    destruct IH3 as [(-> & -> & _) | IH3]; [by cbn |].
    destruct x as [r|res']; cbn in IH3 |- *.
    + destruct IH3 as [(e & -> & -> & -> & HF) | (u & res' & Hlr & IH3)]; [left | right].
      * exists e. split_and!; auto.
      * exists u, res'. rewrite last_cons, Hlr. split_and!; try done; apply IH3.
    + destruct IH3 as (-> & -> & Hl & Hs'). rewrite last_cons, Hl. done.
Qed.

Lemma loop_gauge n last l x : loop n last l x -> pick gauge l = [].
Proof.
  induction 1 as [| |n last res l sm fin r Hn Hs Hd Hsm Hfin|n last res l Hn Hs Hr Hd|n last res l rest x Hn Hs Hr Hd _ IH];
    try pose proof (retry_obs n last None) as (_ & _ & _ & _ & _ & Eg);
    try pose proof (delivery_obs _ _ _ Hd) as (? & _ & _ & _ & _ & _ & _ & Eg1);
    observe; rewrite ?Eg, ?Eg1; try done.
  - by apply retry_obs.
  - destruct (success_metrics_obs _ Hsm) as (_ & _ & _ & _ & _ & ->).
    by destruct (finish_obs _ true _ _ Hfin) as (_ & _ & _ & -> & _).
Qed.
End pieces.

(** ** The time that retries take *)
Definition total (ts : list duration) : duration := foldr Z.add 0%Z ts.

Lemma total_app l1 l2 : total (l1 ++ l2) = (total l1 + total l2)%Z.
Proof. unfold total. induction l1; cbn; lia. Qed.

Section time.
  Variables (d : Dispatcher) (event : TriggerEvent) (job : Job) (pl : WebhookPayload).
  Hypothesis Hback : d_backoff d = defaultBackoff.

(** What the waits before the attempts from [n] on take at most. *)
Definition waits_left (n : Z) : duration :=
  (match n with 1 | 2 => 750 | 3 => 720 | 4 => 600 | _ => 0 end * Second)%Z.

Lemma waits_step n :
  (1 <= n <= 4)%Z -> total (if (1 <? n)%Z then [backoff_of d n] else []) = (waits_left n - waits_left (n + 1))%Z.
Proof.
  intros Hn. assert (n = 1 \/ n = 2 \/ n = 3 \/ n = 4)%Z as [-> | [-> | [-> | ->]]] by lia;
    unfold backoff_of; rewrite Hback; reflexivity.
Qed.

Lemma loop_waits n last l x :
  attempts_trace d event job pl n last l x -> (1 <= n <= 5)%Z -> (total (pick waited l) <= waits_left n)%Z.
Proof.
  assert (Hpos : (forall n, 0 <= waits_left n)%Z) by (intros k; unfold waits_left, Second; repeat case_match; lia).
  induction 1 as [n last Hn|n last e Hn|n last res l sm fin r Hn Hs Hd Hsm Hfin
    |n last res l Hn Hs Hr Hd|n last res l rest x Hn Hs Hr Hd Hrest IH]; intros Hb;
    unfold maxAttempts in *; pose proof (Hpos n); pose proof (Hpos (n + 1)%Z).
  - done.
  - destruct (retry_obs d n last (Some e)) as (_ & _ & -> & _). rewrite waits_step by lia. lia.
  - destruct (retry_obs d n last None) as (_ & _ & Ew & _).
    destruct (delivery_obs _ _ _ _ _ _ _ Hd) as (q & _ & _ & _ & Ew1 & _).
    destruct (success_metrics_obs _ _ Hsm) as (_ & _ & Ew2 & _).
    destruct (finish_obs _ _ _ _ true _ _ Hfin) as (_ & _ & Ew3 & _).
    observe. rewrite Ew, Ew1, Ew2, Ew3, !app_nil_r, waits_step by lia. lia.
  - destruct (retry_obs d n last None) as (_ & _ & Ew & _).
    destruct (delivery_obs _ _ _ _ _ _ _ Hd) as (q & _ & _ & _ & Ew1 & _).
    observe. rewrite Ew, Ew1, app_nil_r, waits_step by lia. lia.
  - specialize (IH ltac:(lia)). destruct (retry_obs d n last None) as (_ & _ & Ew & _).
    destruct (delivery_obs _ _ _ _ _ _ _ Hd) as (q & _ & _ & _ & Ew1 & _).
    observe. rewrite Ew, Ew1, !total_app, waits_step by lia. cbn [total foldr]. lia.
Qed.
End time.

(** ** The trace of a dispatch *)
Section dispatch.
  Context {W : Type} `{DispatchLog W}.
  Variable d : Dispatcher.

Lemma dispatch_logs event :
  logs (Dispatch d event) (fun l r =>
    exists b, l = mets d EventsInFlightIncr ++ b ++ mets d EventsInFlightDecr /\
      body_trace d event (payload_of event) b r).
Proof.
  unfold Dispatch. apply logs_metric, logs_bind.
  eapply logs_conseq; [apply body_logs |]. intros b r Hb.
  apply logs_metric, logs_ret. exists b. by rewrite app_nil_r.
Qed.
End dispatch.

(** What a trace shows when it is that of the loop between calls that the
    observation does not see. *)
Section body.
  Variables (d : Dispatcher) (event : TriggerEvent) (pl : Job -> WebhookPayload).

Lemma pick_analytics {B} (f : action -> option B) an c :
  (forall x, f (AAnalytics event x) = None) ->
  (forall a, a ∈ an -> a = AAnalytics event c) -> pick f an = [].
Proof. intros Hf Han. apply pick_nil. intros a Ha. by rewrite (Han a Ha). Qed.

Lemma pick_allow {B} (f : action -> option B) (b : bool) url r :
  f (AAllow url r) = None -> pick f (if b then [AAllow url r] else []) = [].
Proof. intros Hf. destruct b; [|done]. cbn. by rewrite Hf. Qed.

(** Either nothing is sent or updated, or the trace is that of the attempts for
    a job with a webhook, which may be followed by the update to [failed]. *)
Lemma body_shape b r :
  body_trace d event pl b r ->
  (pick sent b = [] /\ pick inserted b = [] /\ pick waited b = [] /\ pick updated b = [] /\
   pick reported b = [] /\ pick gauge b = [] /\
   ((exists e, r = Err e) \/
    r = Ok tt /\ exists url e, d_breaker d = true /\ AAllow url (Err e) ∈ b)) \/
  (exists job l x fin,
    AGetJob (ev_JobID event) (Ok job) ∈ b /\ d_WebhookURL (j_Delivery job) <> "" /\
    attempts_trace d event job (pl job) 1 zero_result l x /\
    (x = Returned r /\ fin = [] \/
     exists last, x = FellOut last /\
       finish_trace d event ExecutionStatusFailed (AFailure (d_WebhookURL (j_Delivery job))) fin r) /\
    forall B (f : action -> option B),
      (forall j, f (AGetJob (ev_JobID event) j) = None) ->
      (forall c, f (AAnalytics event c) = None) -> (forall u a, f (AAllow u a) = None) ->
      (forall s, f (AMetric (DeliveryOutcome s)) = None) ->
      pick f b = pick f l ++ pick f fin).
Proof.
  intros [e|job an e Hu Han|job an e Hu Hbr Han|job an al l r' Hu Han Hal Hl
    |job an al l last fin r' Hu Han Hal Hl Hfin].
  - left. observe. split_and!; eauto.
  - left. observe. rewrite !(pick_analytics _ an _ (fun _ => eq_refl) Han). split_and!; eauto.
  - left. observe. rewrite !(pick_analytics _ an _ (fun _ => eq_refl) Han). split_and!; try done.
    right. split; [done |]. do 2 eexists. split; [done |]. right. apply elem_of_app. right. by left.
  - right. exists job, l, (Returned r'), []. split_and!; auto; [by left |].
    intros B f HG HA HW HM. cbn. rewrite HG, !pick_app, (pick_analytics f an _ HA Han), Hal.
    rewrite pick_allow by done. cbn. by rewrite app_nil_r.
  - right. exists job, l, (FellOut last), fin. split_and!; eauto; [by left |].
    intros B f HG HA HW HM. cbn. rewrite HG, !pick_app, (pick_analytics f an _ HA Han), Hal.
    rewrite pick_allow by done. rewrite pick_mets by done. done.
Qed.
End body.

(** ** The properties *)
Section properties.
  Context {W : Type} `{DispatchLog W}.
  Variable d : Dispatcher.

(** C15: in every world, a dispatch sends at most four requests, each with the
    URL, the secret, the timeout and the payload of the job that the store
    returned, stores attempt rows numbered 1, 2, ... in that order, and goes on
    after a delivery only when it failed in a retryable way. *)
Theorem dispatch_deliveries event w :
  exists l, log (exec (Dispatch d event) w) = log w ++ l /\
    length (pick sent l) <= 4 /\
    pick inserted l = seqZ 1 (Z.of_nat (length (pick sent l))) /\
    retried_failures (pick sent l).*2 /\
    (pick sent l <> [] -> exists job,
      AGetJob (ev_JobID event) (Ok job) ∈ l /\ d_WebhookURL (j_Delivery job) <> "" /\
      Forall (request_for job (payload_of event job)) (pick sent l).*1).
Proof.
  destruct (dispatch_logs d event w) as (l & Hl & b & -> & Hb). eexists. split; [exact Hl |].
  observe. destruct (body_shape _ _ _ _ _ Hb) as
    [(-> & -> & _)|(job & l' & x & fin & Hin & Hu & Hloop & Hend & Hpick)].
  { cbn. split_and!; [lia | done | by intros [|] ? ? [=] | done]. }
  rewrite !Hpick by done.
  assert (pick sent fin = [] /\ pick inserted fin = []) as [-> ->].
  { destruct Hend as [[_ ->] | (last & _ & Hfin)]; [done |].
    by destruct (finish_obs _ _ _ _ false _ _ Hfin) as (-> & -> & _). }
  rewrite !app_nil_r.
  destruct (loop_sends _ _ _ _ _ _ _ _ Hloop) as (H1 & H2 & H3); [lia |].
  destruct (loop_outcomes _ _ _ _ _ _ _ _ Hloop) as (H4 & _ & _); [lia | done | lia |].
  split_and!; [lia | done | done |]. intros _. exists job. split_and!; [|done|done].
  rewrite !elem_of_app. auto.
Qed.

(** C14: a dispatch resolves the execution exactly once or says why not.  Either
    it returns an error and changes no status; or the breaker refused, nothing
    was sent and no status changed; or the status of this execution is updated
    exactly once, to [delivered] when the last delivery succeeded and to
    [failed] when it did not.  The breaker hears of the outcome exactly when
    that update was made, and a refused transition is not an error. *)
Theorem dispatch_resolution event w :
  let r := eval (Dispatch d event) w in
  exists l, log (exec (Dispatch d event) w) = log w ++ l /\
    ((exists e, r = Err e) /\ pick updated l = [] /\ pick reported l = [] /\
       Forall (fun res => IsSuccess res = false) (pick sent l).*2 \/
     r = Ok tt /\ pick sent l = [] /\ pick updated l = [] /\ pick reported l = [] /\
       (exists url e, d_breaker d = true /\ AAllow url (Err e) ∈ l) \/
     exists last u url, let ok := IsSuccess last in
       list.last (pick sent l).*2 = Some last /\
       pick updated l =
         [(ev_ExecutionID event, if ok then ExecutionStatusDelivered else ExecutionStatusFailed, u)] /\
       pick reported l = (if is_ok u && d_breaker d then [(ok, url)] else []) /\
       r = match u with
           | Ok _ => Ok tt
           | Err e => if errors_Is e EStatusTransitionDenied then Ok tt else Err e
           end).
Proof.
  cbn zeta. destruct (dispatch_logs d event w) as (l & Hl & b & -> & Hb).
  set (r := eval (Dispatch d event) w) in *. clearbody r.
  eexists. split; [exact Hl |]. observe. destruct (body_shape _ _ _ _ _ Hb) as
    [(-> & _ & _ & -> & -> & _ & [He|(-> & url & e & Hbr & Hin)])
    |(job & l' & x & fin & Hin & Hu & Hloop & Hend & Hpick)].
  { by left. }
  { right. left. split_and!; try done. exists url, e. split; [done |]. rewrite !elem_of_app. auto. }
  rewrite !Hpick by done.
  destruct (loop_outcomes _ _ _ _ _ _ _ _ Hloop) as (_ & Hs & Hout); [lia | done | lia |].
  destruct Hend as [[-> ->] | (last & -> & Hfin)].
  - cbn [pick]. rewrite !app_nil_r. destruct Hout as [(? & _) | [(e & -> & -> & -> & HF) | Hout]]; [done | |].
    { left. eauto. }
    destruct Hout as (u & res & Hlast & Hok & -> & -> & Hr1 & Hr2). right. right.
    exists res, u, (d_WebhookURL (j_Delivery job)). rewrite Hok. split_and!; try done.
    destruct u as [[]|e]; auto.
  - destruct (finish_obs _ _ _ _ false _ _ Hfin) as (-> & _ & _ & _ & u & -> & -> & Hr1 & Hr2).
    destruct Hout as [(_ & _ & [=]) | (-> & -> & Hlast & Hok)].
    right. right. exists last, u, (d_WebhookURL (j_Delivery job)). rewrite Hok, app_nil_r.
    split_and!; try done. destruct u as [[]|e]; auto.
Qed.

(** With the default backoff a dispatch waits for twelve and a half minutes at
    most, and makes at most four deliveries, all of them for the job that the store
    answered. *)
Lemma dispatch_time event w :
  d_backoff d = defaultBackoff ->
  exists l, log (exec (Dispatch d event) w) = log w ++ l /\
    (total (pick waited l) <= 12 * Minute + 30 * Second)%Z /\ (Z.of_nat (length (pick sent l)) <= maxAttempts)%Z /\
    (pick sent l = [] \/ exists job, AGetJob (ev_JobID event) (Ok job) ∈ l /\
       Forall (request_for job (payload_of event job)) (pick sent l).*1).
Proof.
  intros Hd. destruct (dispatch_logs d event w) as (l & Hl & b & -> & Hb).
  eexists. split; [exact Hl |]. observe.
  destruct (body_shape _ _ _ _ _ Hb) as
    [(-> & _ & -> & _)|(job & l' & x & fin & Hin & _ & Hloop & Hend & Hpick)]; [by split_and!; [| | left] |].
  rewrite !Hpick by done.
  assert (pick sent fin = [] /\ pick waited fin = []) as [-> ->].
  { destruct Hend as [[_ ->] | (last & _ & Hfin)]; [done |].
    by destruct (finish_obs _ _ _ _ false _ _ Hfin) as (-> & _ & -> & _). }
  rewrite !app_nil_r. destruct (loop_sends _ _ _ _ _ _ _ _ Hloop) as (Hn & Hf & _); [lia |].
  split_and!; [apply (loop_waits _ _ _ _ Hd _ _ _ _ Hloop); lia | unfold maxAttempts; lia |].
  right. exists job. split; [| done]. rewrite !elem_of_app. auto.
Qed.

(** With a metrics sink, every dispatch raises the in-flight gauge exactly
    once and lowers it exactly once afterwards, whatever happens in between. *)
Lemma dispatch_gauge_balanced event w :
  exists l, log (exec (Dispatch d event) w) = log w ++ l /\
    pick gauge l = if d_metrics d then [1; -1]%Z else [].
Proof.
  destruct (dispatch_logs d event w) as (l & Hl & b & -> & Hb).
  eexists. split; [exact Hl |]. rewrite !pick_app.
  assert (pick gauge b = []) as ->; [|by unfold mets; destruct (d_metrics d)].
  destruct (body_shape _ _ _ _ _ Hb) as
    [(_ & _ & _ & _ & _ & -> & _)|(job & l' & x & fin & _ & _ & Hloop & Hend & Hpick)]; [done |].
  rewrite Hpick by done.
  assert (pick gauge fin = []) as ->.
  { destruct Hend as [[_ ->] | (last & _ & Hfin)]; [done |].
    by destruct (finish_obs _ _ _ _ false _ _ Hfin) as (_ & _ & _ & -> & _). }
  rewrite app_nil_r. by eapply loop_gauge.
Qed.
End properties.

(** ** Classification of attempts *)
Section classification.

Lemma matches_from_equalFoldAt s sub i n : forall j,
  matches_from s sub i j n = equalFoldAt_from s i sub j n.
Proof.
  induction n as [|n IH]; intros j; cbn; [done |]. rewrite IH, fold_bytes_eq.
  case_decide as E1; [by rewrite E1, bool_decide_true |].
  case_decide as E2; case_bool_decide; done.
Qed.

Lemma search_from_searchInsensitive s sub n : forall i,
  search_from s sub i n = searchInsensitive_from s sub i n.
Proof.
  induction n as [|n IH]; intros i; cbn; [done |].
  unfold equalFoldAt. by rewrite matches_from_equalFoldAt, IH.
Qed.

Lemma containsInsensitive_contains s sub : containsInsensitive s sub = contains s sub.
Proof.
  unfold containsInsensitive, contains, searchInsensitive.
  destruct (Nat.ltb_spec (String.length s) (String.length sub)),
    (Nat.leb_spec (String.length sub) (String.length s)); cbn [andb]; try lia; try done.
  apply search_from_searchInsensitive.
Qed.

(** The dispatcher's own classification of attempts is that of the metrics
    package, and its byte loops decide whether the lowered text contains the
    lowered pattern. *)
Lemma classification_agrees statusCode e s sub :
  classifyStatusForMetrics statusCode e = ClassifyStatus statusCode e /\
  containsInsensitive s sub = Contains (ToLower s) (ToLower sub).
Proof.
  split; [|by rewrite containsInsensitive_contains, contains_spec].
  destruct e as [e|]; [|done]. unfold classifyStatusForMetrics, ClassifyStatus.
  by rewrite !containsInsensitive_contains.
Qed.
End classification.

(** ** A scripted world *)
Module Sim.

Record world : Type := mkWorld {
  w_log : list action;
  w_job : result err Job;
  w_answers : list WebhookResult;     (* of the deliveries, in order *)
  w_update : result err unit;         (* of the status update *)
  w_allow : result err unit;          (* of the circuit breaker *)
  w_patience : list (option err);     (* of the waits, in order; [None] when exhausted *)
  w_now : time;
  w_next : uuid;
}.

Definition note (a : action) (w : world) : world :=
  {| w_log := w_log w ++ [a]; w_job := w_job w; w_answers := w_answers w; w_update := w_update w;
     w_allow := w_allow w; w_patience := w_patience w; w_now := w_now w; w_next := w_next w |}.
Definition call {A} (f : A -> action) (answer : world -> A) (next : world -> world) : st world A :=
  fun w => (answer w, note (f (answer w)) (next w)).

#[export] Instance sim_store : Store world := {|
  GetJobByID i := call (AGetJob i) w_job (fun w => w);
  InsertDeliveryAttempt a := call (AInsert a) (fun _ => Ok tt) (fun w => w);
  UpdateExecutionStatus i s := call (AUpdate i s) w_update (fun w => w);
  DequeueExecution := mret (Ok None);
|}.
#[export] Instance sim_sender : WebhookSender world := {|
  Send q := call (ASend q) (fun w => default zero_result (head (w_answers w)))
    (fun w => {| w_log := w_log w; w_job := w_job w; w_answers := tail (w_answers w);
                 w_update := w_update w; w_allow := w_allow w; w_patience := w_patience w;
                 w_now := w_now w; w_next := w_next w |});
|}.
#[export] Instance sim_analytics : AnalyticsSink world := {|
  Record_ e c := call (fun _ => AAnalytics e c) (fun _ => tt) (fun w => w);
|}.
#[export] Instance sim_metrics : MetricsSink world := {|
  observe m := call (fun _ => AMetric m) (fun _ => tt) (fun w => w);
|}.
#[export] Instance sim_breaker : Breaker world := {|
  breaker_Allow u := call (AAllow u) w_allow (fun w => w);
  breaker_RecordSuccess u := call (fun _ => ASuccess u) (fun _ => tt) (fun w => w);
  breaker_RecordFailure u := call (fun _ => AFailure u) (fun _ => tt) (fun w => w);
|}.
#[export] Instance sim_runtime : Runtime world := {|
  time_Now := gets w_now;
  uuid_New := fun w => (w_next w,
    {| w_log := w_log w; w_job := w_job w; w_answers := w_answers w; w_update := w_update w;
       w_allow := w_allow w; w_patience := w_patience w; w_now := w_now w; w_next := N.succ (w_next w) |});
  uuid_String i := pretty i;
  ctx_Err := mret None;
  wait t := call (AWait t) (fun w => default None (head (w_patience w)))
    (fun w => {| w_log := w_log w; w_job := w_job w; w_answers := w_answers w;
                 w_update := w_update w; w_allow := w_allow w; w_patience := tail (w_patience w);
                 w_now := (w_now w + t)%Z; w_next := w_next w |});
|}.

#[export] Instance sim_log : DispatchLog world.
Proof. by refine {| log := w_log |}. Defined.

Definition job : Job :=
  {| j_ID := 7%N; j_Namespace := "prod"; j_Name := "backup"; j_Enabled := true; j_ScheduleID := 1%N;
     j_Delivery := {| d_Type := "webhook"; d_WebhookURL := "https://example.com/hook"; d_Secret := "s3cret"; d_Timeout := 30 * Second |};
     j_Analytics := {| a_Enabled := false; a_RetentionSeconds := 0 |}; j_CreatedAt := 0; j_UpdatedAt := 0 |}.
Definition status (code : Z) : WebhookResult :=
  {| wr_StatusCode := code; wr_Error := None; wr_Duration := Second |}.
Definition start (answers : list WebhookResult) : world :=
  {| w_log := []; w_job := Ok job; w_answers := answers; w_update := Ok tt; w_allow := Ok tt;
     w_patience := []; w_now := 1000 * Hour; w_next := 100%N |}.
Definition event : TriggerEvent :=
  {| ev_ExecutionID := 9%N; ev_JobID := 7%N; ev_Namespace := "prod"; ev_ScheduledAt := 999 * Hour;
     ev_FiredAt := 999 * Hour; ev_CreatedAt := 999 * Hour |}.
Definition full : Dispatcher := WithCircuitBreaker (WithMetrics New).
Definition trace (w : world) : list action := w_log (exec (Dispatch full event) w).

(** A server that answers 503 twice and then 200: three deliveries, two waits. *)
Example recovers :
  let l := trace (start [status 503; status 503; status 200]) in
  pick inserted l = [1; 2; 3]%Z /\ pick waited l = [30 * Second; 2 * Minute]%Z /\
  pick updated l = [(9%N, ExecutionStatusDelivered, Ok tt)] /\
  pick reported l = [(true, "https://example.com/hook")].
Proof. vm_compute. done. Qed.

(** A server that never answers: the execution fails after four deliveries. *)
Example gives_up :
  let l := trace (start (repeat (status 503) 9)) in
  pick inserted l = [1; 2; 3; 4]%Z /\
  pick updated l = [(9%N, ExecutionStatusFailed, Ok tt)] /\
  pick reported l = [(false, "https://example.com/hook")].
Proof. vm_compute. done. Qed.

(** A client error is not retried. *)
Example client_error :
  let l := trace (start [status 404]) in
  pick inserted l = [1]%Z /\ pick updated l = [(9%N, ExecutionStatusFailed, Ok tt)].
Proof. vm_compute. done. Qed.
End Sim.
