(* ===== verification/Pg.v ===== *)
(** * The database: [schema/*.sql] and [internal/store/postgres/queries.go]

    The tables as finite maps by primary key, with the constraints of the
    schema, and every SQL statement of [queries.go] as a function of the
    database.  A statement either fails, and then changes nothing, or gives its
    rows (or the number of rows affected) and the database after it; statements
    compose into transactions.  What PostgreSQL leaves open (the rounding of
    timestamps, the order of rows that ORDER BY does not fix, the collation,
    ILIKE) are parameters of the class [Postgres]. *)
From S2P Require Import Prelude GoStrings Domain.

(** ** Tables

    A row of [jobs] is a [Job] whose timeout counts milliseconds (the column
    [timeout_ms]). *)
Record DB : Type := mkDB {
  schedules : gmap uuid Schedule;
  jobs : gmap uuid Job;
  executions : gmap uuid Execution;
  delivery_attempts : gmap uuid DeliveryAttempt;
  tags : gmap (uuid * string) string;
  api_keys : gmap uuid APIKey;
  admin_sessions : gmap string AdminSession;
}.
Definition empty_db : DB := mkDB ∅ ∅ ∅ ∅ ∅ ∅ ∅.

Definition set_schedules (t : gmap uuid Schedule) (db : DB) : DB :=
  mkDB t (jobs db) (executions db) (delivery_attempts db) (tags db) (api_keys db) (admin_sessions db).
Definition set_jobs (t : gmap uuid Job) (db : DB) : DB :=
  mkDB (schedules db) t (executions db) (delivery_attempts db) (tags db) (api_keys db) (admin_sessions db).
Definition set_executions (t : gmap uuid Execution) (db : DB) : DB :=
  mkDB (schedules db) (jobs db) t (delivery_attempts db) (tags db) (api_keys db) (admin_sessions db).
Definition set_attempts (t : gmap uuid DeliveryAttempt) (db : DB) : DB :=
  mkDB (schedules db) (jobs db) (executions db) t (tags db) (api_keys db) (admin_sessions db).
Definition set_tags (t : gmap (uuid * string) string) (db : DB) : DB :=
  mkDB (schedules db) (jobs db) (executions db) (delivery_attempts db) t (api_keys db) (admin_sessions db).
Definition set_keys (t : gmap uuid APIKey) (db : DB) : DB :=
  mkDB (schedules db) (jobs db) (executions db) (delivery_attempts db) (tags db) t (admin_sessions db).
Definition set_sessions (t : gmap string AdminSession) (db : DB) : DB :=
  mkDB (schedules db) (jobs db) (executions db) (delivery_attempts db) (tags db) (api_keys db) t.

(** ** What PostgreSQL decides *)
Class Postgres : Type := {
  (** a timestamp as the database stores it *)
  pg_ts : time -> time;
  (** the order in which the rows of a table are met *)
  pg_order : forall A : Type, list A -> list A;
  pg_order_perm : forall A (l : list A), pg_order A l ≡ₚ l;
  (** [pg_ilike pattern text] *)
  pg_ilike : string -> string -> bool;
  (** the order of texts under the collation of the database *)
  pg_text_le : string -> string -> bool;
}.
Arguments pg_order {_ A}.

(** The state of the server while a statement runs: its clock, and the rows of
    [executions] that other transactions have locked. *)
Record env : Type := mkEnv { now : time; locked : gset uuid }.

(** ** Statements and transactions *)
Definition stmt (A : Type) : Type := env -> DB -> result err (A * DB).

#[export] Instance stmt_ret : MRet stmt := fun A a _ db => Ok (a, db).
#[export] Instance stmt_bind : MBind stmt := fun A B f s v db =>
  match s v db with Ok (a, db') => f a v db' | Err e => Err e end.
Definition fail {A} (e : err) : stmt A := fun _ _ => Err e.
Definition query {A} (f : DB -> A) : stmt A := fun _ db => Ok (f db, db).
Definition update (f : DB -> DB) : stmt unit := fun _ db => Ok (tt, f db).
Definition server : stmt env := fun v db => Ok (v, db).
Fixpoint for_each {A} (l : list A) (f : A -> stmt unit) : stmt unit :=
  match l with
  | [] => mret tt
  | a :: l' => f a ≫= fun _ => for_each l' f
  end.
(** [QueryRow]: the first row, or [sql.ErrNoRows]. *)
Definition one_row {A} (s : stmt (list A)) : stmt A :=
  s ≫= fun l => match l with [] => fail ENoRows | a :: _ => mret a end.

Definition unique_violation : err :=
  EPq "23505" "duplicate key value violates unique constraint".
Definition foreign_key_violation : err :=
  EPq "23503" "insert or update on table violates foreign key constraint".
Definition check_violation : err := EPq "23514" "new row violates check constraint".
Definition out_of_range : err := EPq "22003" "integer out of range".
(** The range of an INT column. *)
Definition in_int4 (z : Z) : bool := (- 2 ^ 31 <=? z)%Z && (z <? 2 ^ 31)%Z.
Definition negative_limit : err := EPq "2201W" "LIMIT must not be negative".
Definition negative_offset : err := EPq "2201X" "OFFSET must not be negative".

Lemma stmt_bind_Ok {A B} (s : stmt A) (f : A -> stmt B) v db a db' :
  s v db = Ok (a, db') -> (s ≫= f) v db = f a v db'.
Proof. intros E. unfold mbind, stmt_bind. by rewrite E. Qed.
Lemma stmt_bind_Err {A B} (s : stmt A) (f : A -> stmt B) v db e :
  s v db = Err e -> (s ≫= f) v db = Err e.
Proof. intros E. unfold mbind, stmt_bind. by rewrite E. Qed.

Section tables.
  Context `{!Postgres}.

Definition rows {K A} `{Countable K} (t : gmap K A) : list A := pg_order (map_to_list t).*2.
(** [ORDER BY] on a key, with the relation that the order asks for. *)
Definition by_key {A K} (le : relation K) (key : A -> K) : relation A := fun a b => le (key a) (key b).
#[global] Instance by_key_dec {A K} (le : relation K) (key : A -> K) : RelDecision le -> RelDecision (by_key le key).
Proof. intros Hle a b. exact (Hle (key a) (key b)). Defined.
Definition order_by {A K} (le : relation K) `{Hle : !RelDecision le} (key : A -> K) (l : list A) : list A :=
  merge_sort (by_key le key) l.
Definition limit {A} (n : Z) (l : list A) : stmt (list A) :=
  if (n <? 0)%Z then fail negative_limit else mret (take (Z.to_nat n) l).
Definition limit_offset {A} (n o : Z) (l : list A) : stmt (list A) :=
  if (n <? 0)%Z then fail negative_limit
  else if (o <? 0)%Z then fail negative_offset
  else mret (take (Z.to_nat n) (drop (Z.to_nat o) l)).

Definition asc : relation Z := Z.le.
Definition desc : relation Z := fun a b => (b <= a)%Z.
#[global] Instance asc_dec : RelDecision asc.
Proof. unfold asc. apply _. Defined.
#[global] Instance desc_dec : RelDecision desc.
Proof. intros a b. unfold desc. apply _. Defined.
Definition collation : relation string := fun a b => pg_text_le a b = true.
#[global] Instance collation_dec : RelDecision collation.
Proof. intros a b. unfold collation. apply _. Defined.

(** [jobs JOIN schedules ON j.schedule_id = s.id]. *)
Definition with_schedule (db : DB) (j : Job) : option (Job * Schedule) :=
  s ← schedules db !! j_ScheduleID j; Some (j, s).
Definition jobs_join_schedules (db : DB) : list (Job * Schedule) :=
  omap (with_schedule db) (rows (jobs db)).

(** The row of a job: its timestamps rounded. *)
Definition stored_job (j : Job) : Job :=
  {| j_ID := j_ID j; j_Namespace := j_Namespace j; j_Name := j_Name j; j_Enabled := j_Enabled j;
     j_ScheduleID := j_ScheduleID j; j_Delivery := j_Delivery j; j_Analytics := j_Analytics j;
     j_CreatedAt := pg_ts (j_CreatedAt j); j_UpdatedAt := pg_ts (j_UpdatedAt j) |}.
Definition stored_schedule (s : Schedule) : Schedule :=
  {| s_ID := s_ID s; s_CronExpression := s_CronExpression s; s_Timezone := s_Timezone s;
     s_CreatedAt := pg_ts (s_CreatedAt s); s_UpdatedAt := pg_ts (s_UpdatedAt s) |}.

(** *** Jobs *)
Definition queryGetEnabledJobs (n : Z) (afterID : uuid) : stmt (list (Job * Schedule)) :=
  query jobs_join_schedules ≫= fun l =>
  limit n (order_by asc (fun r => Z.of_N (j_ID r.1))
    (filter (fun r => j_Enabled r.1 = true /\ (afterID = Nil \/ (afterID < j_ID r.1)%N)) l)).

Definition queryInsertJob (j : Job) : stmt unit := fun v db =>
  if negb (in_int4 (a_RetentionSeconds (j_Analytics j))) then Err out_of_range else
  match jobs db !! j_ID j with
  | Some _ => Err unique_violation
  | None =>
      match schedules db !! j_ScheduleID j with
      | None => Err foreign_key_violation
      | Some _ => Ok (tt, set_jobs (<[j_ID j := stored_job j]> (jobs db)) db)
      end
  end.

Definition queryGetJobByID (id : uuid) : stmt (list Job) :=
  query (fun db => option_list (jobs db !! id)).

Definition queryGetJobWithSchedule (id : uuid) : stmt (list (Job * Schedule)) :=
  query (fun db => option_list (jobs db !! id ≫= with_schedule db)).

Definition queryGetJobWithScheduleScoped (id : uuid) (ns : Namespace) : stmt (list (Job * Schedule)) :=
  query (fun db => filter (fun r => j_Namespace r.1 = ns) (option_list (jobs db !! id ≫= with_schedule db))).

(** The columns that the statement sets; the row keeps the others. *)
Definition updated_job (row j : Job) : Job :=
  {| j_ID := j_ID row; j_Namespace := j_Namespace row; j_Name := j_Name j; j_Enabled := j_Enabled j;
     j_ScheduleID := j_ScheduleID row; j_Delivery := j_Delivery j; j_Analytics := j_Analytics j;
     j_CreatedAt := j_CreatedAt row; j_UpdatedAt := pg_ts (j_UpdatedAt j) |}.
Definition queryUpdateJob (j : Job) : stmt Z := fun v db =>
  if negb (in_int4 (a_RetentionSeconds (j_Analytics j))) then Err out_of_range else
  match jobs db !! j_ID j with
  | Some row =>
      if decide (j_Namespace row = j_Namespace j)
      then Ok (1%Z, set_jobs (<[j_ID j := updated_job row j]> (jobs db)) db)
      else Ok (0%Z, db)
  | None => Ok (0%Z, db)
  end.

(** The rows that are not those of the given executions, jobs, and so on: what
    the parts of the deletion leave. *)
Definition queryDeleteJob (id : uuid) (ns : Namespace) : stmt (list uuid) := fun v db =>
  match jobs db !! id with
  | Some row =>
      if decide (j_Namespace row = ns) then
        let gone := filter (fun e => e.2.(e_JobID) = id) (executions db) in
        let db' := {|
          schedules := delete (j_ScheduleID row) (schedules db);
          jobs := delete id (jobs db);
          executions := filter (fun e => e.2.(e_JobID) <> id) (executions db);
          delivery_attempts :=
            filter (fun a => gone !! a.2.(da_ExecutionID) = None) (delivery_attempts db);
          tags := filter (fun t => t.1.1 <> id) (tags db);
          api_keys := api_keys db;
          admin_sessions := admin_sessions db |} in
        if decide (map_Forall (fun _ j => j_ScheduleID j <> j_ScheduleID row) (jobs db'))
        then Ok ([id], db')
        else Err foreign_key_violation
      else Ok ([], db)
  | None => Ok ([], db)
  end.

(** The conditions that [ListJobs] and [ListJobsWithSchedules] join with AND. *)
Definition job_conditions (f : JobFilter) (db : DB) (j : Job) : Prop :=
  j_Namespace j = jf_Namespace f /\
  match jf_Enabled f with Some b => j_Enabled j = b | None => True end /\
  (jf_Name f <> "" -> pg_ilike ("%" +:+ jf_Name f +:+ "%") (j_Name j) = true) /\
  Forall (fun t => tags db !! (j_ID j, t_Key t) = Some (t_Value t)) (jf_Tags f).
#[global] Instance job_conditions_dec f db j : Decision (job_conditions f db j).
Proof. unfold job_conditions. destruct (jf_Enabled f); apply _. Defined.

Definition queryListJobs (f : JobFilter) : stmt (list Job) :=
  query (fun db => order_by desc j_CreatedAt (filter (job_conditions f db) (rows (jobs db)))) ≫=
  limit_offset (lp_Limit (jf_ListParams f)) (lp_Offset (jf_ListParams f)).

Definition queryListJobsWithSchedules (f : JobFilter) : stmt (list (Job * Schedule)) :=
  query (fun db => order_by desc (fun r => j_CreatedAt r.1)
    (filter (fun r => job_conditions f db r.1) (jobs_join_schedules db))) ≫=
  limit_offset (lp_Limit (jf_ListParams f)) (lp_Offset (jf_ListParams f)).

(** *** Schedules *)
Definition queryInsertSchedule (s : Schedule) : stmt unit := fun v db =>
  match schedules db !! s_ID s with
  | Some _ => Err unique_violation
  | None => Ok (tt, set_schedules (<[s_ID s := stored_schedule s]> (schedules db)) db)
  end.

Definition queryGetSchedule (id : uuid) : stmt (list Schedule) :=
  query (fun db => option_list (schedules db !! id)).

Definition queryUpdateSchedule (s : Schedule) : stmt Z := fun v db =>
  match schedules db !! s_ID s with
  | Some row =>
      Ok (1%Z, set_schedules (<[s_ID s :=
        {| s_ID := s_ID row; s_CronExpression := s_CronExpression s; s_Timezone := s_Timezone s;
           s_CreatedAt := s_CreatedAt row; s_UpdatedAt := pg_ts (s_UpdatedAt s) |}]> (schedules db)) db)
  | None => Ok (0%Z, db)
  end.

(** *** Executions *)
Definition stored_execution (e : Execution) : Execution :=
  {| e_ID := e_ID e; e_JobID := e_JobID e; e_Namespace := e_Namespace e;
     e_TriggerType := e_TriggerType e; e_ScheduledAt := pg_ts (e_ScheduledAt e);
     e_FiredAt := pg_ts (e_FiredAt e); e_Status := e_Status e; e_AcknowledgedAt := None;
     e_CreatedAt := pg_ts (e_CreatedAt e); e_ClaimedAt := None |}.

(** Another row with the same [(job_id, scheduled_at)]. *)
Definition same_fire (e row : Execution) : Prop :=
  e_JobID row = e_JobID e /\ e_ScheduledAt row = e_ScheduledAt e.
#[global] Instance same_fire_dec e row : Decision (same_fire e row).
Proof. unfold same_fire. apply _. Defined.

Definition queryInsertExecution (e : Execution) : stmt unit := fun v db =>
  let row := stored_execution e in
  if decide (executions db !! e_ID e = None /\
             map_Forall (fun _ other => ~ same_fire row other) (executions db)) then
    match jobs db !! e_JobID e with
    | None => Err foreign_key_violation
    | Some _ => Ok (tt, set_executions (<[e_ID e := row]> (executions db)) db)
    end
  else Err unique_violation.

(** Selects the rows that satisfy a condition, in no particular order. *)
Definition executions_where (P : Execution -> Prop) `{!forall e, Decision (P e)} : stmt (list Execution) :=
  query (fun db => filter P (rows (executions db))).

Definition queryGetLastScheduledExecution (jobID : uuid) : stmt (list time) :=
  executions_where (fun e => e_JobID e = jobID /\
    (e_TriggerType e = TriggerTypeScheduled \/ e_TriggerType e = "")) ≫= fun l =>
  limit 1 (order_by desc id (e_ScheduledAt <$> l)).

Definition queryGetExecution (i : uuid) : stmt (list Execution) :=
  query (fun db => option_list (executions db !! i)).

Definition queryGetExecutionScoped (i : uuid) (ns : Namespace) : stmt (list Execution) :=
  query (fun db => filter (fun e => e_Namespace e = ns) (option_list (executions db !! i))).

Definition queryGetRecentExecutions (jobID : uuid) (n : Z) : stmt (list Execution) :=
  executions_where (fun e => e_JobID e = jobID) ≫= fun l => limit n (order_by desc e_CreatedAt l).

Definition acked (at_ : time) (e : Execution) : Execution :=
  {| e_ID := e_ID e; e_JobID := e_JobID e; e_Namespace := e_Namespace e;
     e_TriggerType := e_TriggerType e; e_ScheduledAt := e_ScheduledAt e; e_FiredAt := e_FiredAt e;
     e_Status := e_Status e; e_AcknowledgedAt := Some at_; e_CreatedAt := e_CreatedAt e;
     e_ClaimedAt := e_ClaimedAt e |}.
Definition with_status (status : string) (claimed : option time) (e : Execution) : Execution :=
  {| e_ID := e_ID e; e_JobID := e_JobID e; e_Namespace := e_Namespace e;
     e_TriggerType := e_TriggerType e; e_ScheduledAt := e_ScheduledAt e; e_FiredAt := e_FiredAt e;
     e_Status := status; e_AcknowledgedAt := e_AcknowledgedAt e; e_CreatedAt := e_CreatedAt e;
     e_ClaimedAt := claimed |}.

(** [UPDATE executions ... WHERE id = $1 AND ...], with the number of rows. *)
Definition update_execution (i : uuid) (P : Execution -> Prop) `{!forall e, Decision (P e)}
    (f : Execution -> Execution) : stmt Z := fun v db =>
  match executions db !! i with
  | Some e =>
      if decide (P e) then Ok (1%Z, set_executions (<[i := f e]> (executions db)) db) else Ok (0%Z, db)
  | None => Ok (0%Z, db)
  end.

Definition queryAckExecution (i : uuid) (ns : Namespace) : stmt Z :=
  server ≫= fun v =>
  update_execution i
    (fun e => e_Namespace e = ns /\ e_AcknowledgedAt e = None /\ terminal (e_Status e) = true)
    (acked (now v)).

Definition queryGetExecutionStatus (i : uuid) : stmt (list string) :=
  query (fun db => option_list (e_Status <$> executions db !! i)).

Definition queryUpdateExecutionStatus (status : string) (i : uuid) : stmt Z :=
  update_execution i (fun e => terminal (e_Status e) = false)
    (fun e => with_status status (e_ClaimedAt e) e).

Definition queryGetOrphanedExecutions (olderThan : time) (n : Z) : stmt (list Execution) :=
  executions_where (fun e => e_Status e = ExecutionStatusEmitted /\ (e_CreatedAt e < pg_ts olderThan)%Z) ≫= fun l =>
  limit n (order_by asc e_CreatedAt l).

Definition queryDequeueExecution : stmt (list Execution) :=
  server ≫= fun v =>
  executions_where (fun e => e_Status e = ExecutionStatusEmitted /\ e_ID e ∉ locked v) ≫= fun l =>
  limit 1 (order_by asc e_CreatedAt l).

Definition queryClaimExecution (i : uuid) : stmt Z :=
  server ≫= fun v =>
  update_execution i (fun _ => True) (with_status ExecutionStatusInProgress (Some (now v))).

(** The claim time is earlier than the threshold; NULL compares with nothing. *)
Definition claimed_before (olderThan : time) (e : Execution) : Prop :=
  match e_ClaimedAt e with Some t => (t < olderThan)%Z | None => False end.
#[global] Instance claimed_before_dec t e : Decision (claimed_before t e).
Proof. unfold claimed_before. destruct (e_ClaimedAt e); apply _. Defined.

Definition queryRequeueStaleExecutions (olderThan : time) (n : Z) : stmt Z :=
  server ≫= fun v =>
  executions_where (fun e => e_Status e = ExecutionStatusInProgress /\
    claimed_before (pg_ts olderThan) e /\ e_ID e ∉ locked v) ≫= fun l =>
  limit n (order_by asc (fun e => default 0%Z (e_ClaimedAt e)) l) ≫= fun stale =>
  for_each stale (fun e =>
    update_execution (e_ID e) (fun _ => True) (with_status ExecutionStatusEmitted None) ≫= fun _ => mret tt) ≫= fun _ =>
  mret (Z.of_nat (length stale)).

(** The conditions of [ListExecutions]. *)
Definition execution_conditions (f : ExecutionFilter) (e : Execution) : Prop :=
  (ef_JobID f <> Nil -> e_JobID e = ef_JobID f) /\
  (ns_IsZero (ef_Namespace f) = false -> e_Namespace e = ef_Namespace f) /\
  match ef_Status f with Some s => e_Status e = s | None => True end /\
  match ef_TriggerType f with Some t => e_TriggerType e = t | None => True end /\
  match ef_Since f with Some t => (pg_ts t <= e_CreatedAt e)%Z | None => True end /\
  match ef_Until f with Some t => (e_CreatedAt e <= pg_ts t)%Z | None => True end.
#[global] Instance execution_conditions_dec f e : Decision (execution_conditions f e).
Proof.
  unfold execution_conditions. destruct (ef_Status f), (ef_TriggerType f), (ef_Since f), (ef_Until f); apply _.
Defined.

Definition queryListExecutions (f : ExecutionFilter) : stmt (list Execution) :=
  executions_where (execution_conditions f) ≫= fun l =>
  limit_offset (lp_Limit (ef_ListParams f)) (lp_Offset (ef_ListParams f)) (order_by desc e_CreatedAt l).

(** The conditions of [ListPendingAck]. *)
Definition pending_ack (ns : Namespace) (jobID : option uuid) (e : Execution) : Prop :=
  e_Namespace e = ns /\ e_AcknowledgedAt e = None /\ terminal (e_Status e) = true /\
  match jobID with Some j => j <> Nil -> e_JobID e = j | None => True end.
#[global] Instance pending_ack_dec ns j e : Decision (pending_ack ns j e).
Proof. unfold pending_ack. destruct j; apply _. Defined.

Definition queryListPendingAck (ns : Namespace) (jobID : option uuid) (n : Z) : stmt (list Execution) :=
  executions_where (pending_ack ns jobID) ≫= fun l => limit n (order_by desc e_CreatedAt l).

(** *** Delivery attempts *)
Definition queryInsertDeliveryAttempt (a : DeliveryAttempt) : stmt unit := fun v db =>
  if negb (in_int4 (da_Attempt a) && in_int4 (da_StatusCode a)) then Err out_of_range else
  match delivery_attempts db !! da_ID a with
  | Some _ => Err unique_violation
  | None =>
      match executions db !! da_ExecutionID a with
      | None => Err foreign_key_violation
      | Some _ =>
          Ok (tt, set_attempts (<[da_ID a :=
            {| da_ID := da_ID a; da_ExecutionID := da_ExecutionID a; da_Attempt := da_Attempt a;
               da_StatusCode := da_StatusCode a; da_Error := da_Error a;
               da_StartedAt := pg_ts (da_StartedAt a); da_FinishedAt := pg_ts (da_FinishedAt a) |}]>
            (delivery_attempts db)) db)
      end
  end.

Definition queryGetDeliveryAttempts (executionID : uuid) : stmt (list DeliveryAttempt) :=
  query (fun db => order_by asc da_Attempt
    (filter (fun a => da_ExecutionID a = executionID) (rows (delivery_attempts db)))).

(** *** Tags *)
Definition queryUpsertTag (jobID : uuid) (key value : string) : stmt unit := fun v db =>
  match jobs db !! jobID with
  | None => Err foreign_key_violation
  | Some _ => Ok (tt, set_tags (<[(jobID, key) := value]> (tags db)) db)
  end.

Definition queryGetTags (jobID : uuid) : stmt (list (string * string)) :=
  query (fun db => order_by collation fst
    (map (fun t => (t.1.2, t.2)) (filter (fun t => t.1.1 = jobID) (pg_order (map_to_list (tags db)))))).

Definition queryDeleteTags (jobID : uuid) : stmt unit :=
  update (fun db => set_tags (filter (fun t => t.1.1 <> jobID) (tags db)) db).

(** *** API keys *)
Definition queryInsertAPIKey (k : APIKey) : stmt unit := fun v db =>
  if decide (api_keys db !! k_ID k = None /\
             map_Forall (fun _ other => k_TokenHash other <> k_TokenHash k) (api_keys db)) then
    Ok (tt, set_keys (<[k_ID k :=
      {| k_ID := k_ID k; k_Namespace := k_Namespace k; k_TokenHash := k_TokenHash k;
         k_Label := k_Label k; k_Enabled := k_Enabled k; k_CreatedAt := pg_ts (k_CreatedAt k);
         k_LastUsedAt := None |}]> (api_keys db)) db)
  else Err unique_violation.

Definition queryGetKeyByTokenHash (hash : string) : stmt (list APIKey) :=
  query (fun db => filter (fun k => k_TokenHash k = hash /\ k_Enabled k = true) (rows (api_keys db))).

Definition queryListKeys (ns : Namespace) (n o : Z) : stmt (list APIKey) :=
  query (fun db => order_by desc k_CreatedAt (filter (fun k => k_Namespace k = ns) (rows (api_keys db)))) ≫=
  limit_offset n o.

(** Deleting a key deletes its sessions (ON DELETE CASCADE). *)
Definition queryDeleteKey (i : uuid) (ns : Namespace) : stmt Z := fun v db =>
  match api_keys db !! i with
  | Some k =>
      if decide (k_Namespace k = ns) then
        Ok (1%Z, set_sessions (filter (fun s => s.2.(as_APIKeyID) <> i) (admin_sessions db))
                   (set_keys (delete i (api_keys db)) db))
      else Ok (0%Z, db)
  | None => Ok (0%Z, db)
  end.

Definition used (at_ : time) (k : APIKey) : APIKey :=
  {| k_ID := k_ID k; k_Namespace := k_Namespace k; k_TokenHash := k_TokenHash k; k_Label := k_Label k;
     k_Enabled := k_Enabled k; k_CreatedAt := k_CreatedAt k; k_LastUsedAt := Some at_ |}.
Definition queryUpdateLastUsedAt (ids : list uuid) : stmt unit :=
  server ≫= fun v =>
  update (fun db => set_keys (map_imap (fun i k => Some (if decide (i ∈ ids) then used (now v) k else k)) (api_keys db)) db).

Definition queryHasAnyAPIKeys : stmt bool := query (fun db => bool_decide (api_keys db <> ∅)).

(** *** Admin sessions *)
Definition queryInsertAdminSession (s : AdminSession) (at_ : time) : stmt unit := fun v db =>
  let cutoff := pg_ts at_ in
  let row := {| as_TokenHash := as_TokenHash s; as_APIKeyID := as_APIKeyID s;
                as_CSRFToken := as_CSRFToken s; as_CreatedAt := pg_ts (as_CreatedAt s);
                as_LastSeenAt := pg_ts (as_LastSeenAt s); as_ExpiresAt := pg_ts (as_ExpiresAt s);
                as_AbsoluteExpiresAt := pg_ts (as_AbsoluteExpiresAt s) |} in
  if decide (as_ExpiresAt row <= as_AbsoluteExpiresAt row)%Z then
    match admin_sessions db !! as_TokenHash s, api_keys db !! as_APIKeyID s with
    | Some _, _ => Err unique_violation
    | None, None => Err foreign_key_violation
    | None, Some _ =>
        Ok (tt, set_sessions (<[as_TokenHash s := row]>
          (filter (fun r => (cutoff < r.2.(as_ExpiresAt))%Z /\ (cutoff < r.2.(as_AbsoluteExpiresAt))%Z)
             (admin_sessions db))) db)
    end
  else Err check_violation.

Definition queryGetAdminSession (hash : string) (at_ : time) : stmt (list (AdminSession * APIKey)) :=
  query (fun db => option_list (
    s ← admin_sessions db !! hash;
    k ← api_keys db !! as_APIKeyID s;
    if decide ((pg_ts at_ < as_ExpiresAt s)%Z /\ (pg_ts at_ < as_AbsoluteExpiresAt s)%Z /\ k_Enabled k = true)
    then Some (s, k) else None)).

Definition queryRefreshAdminSession (lastSeen expires : time) (hash : string) : stmt Z := fun v db =>
  match admin_sessions db !! hash with
  | Some s =>
      if decide ((pg_ts lastSeen < as_ExpiresAt s)%Z /\ (pg_ts lastSeen < as_AbsoluteExpiresAt s)%Z) then
        Ok (1%Z, set_sessions (<[hash :=
          {| as_TokenHash := as_TokenHash s; as_APIKeyID := as_APIKeyID s; as_CSRFToken := as_CSRFToken s;
             as_CreatedAt := as_CreatedAt s; as_LastSeenAt := pg_ts lastSeen;
             as_ExpiresAt := Z.min (pg_ts expires) (as_AbsoluteExpiresAt s);
             as_AbsoluteExpiresAt := as_AbsoluteExpiresAt s |}]> (admin_sessions db)) db)
      else Ok (0%Z, db)
  | None => Ok (0%Z, db)
  end.

Definition queryDeleteAdminSession (hash : string) : stmt unit :=
  update (fun db => set_sessions (delete hash (admin_sessions db)) db).
End tables.

(** ** Lemmas on rows *)
Section rows.
  Context `{!Postgres}.

Lemma elem_of_rows `{Countable K} {A} (t : gmap K A) x : x ∈ rows t <-> exists i, t !! i = Some x.
Proof.
  unfold rows. rewrite pg_order_perm, list_elem_of_fmap. split.
  - intros ([i y] & -> & Hy). exists i. by apply elem_of_map_to_list.
  - intros [i Hi]. exists (i, x). split; [done |]. by apply elem_of_map_to_list.
Qed.

Lemma order_by_perm {A K} (le : relation K) `{!RelDecision le} (key : A -> K) l : order_by le key l ≡ₚ l.
Proof. apply merge_sort_Permutation. Qed.

Lemma order_by_sorted {A} le (key : A -> Z) `{!RelDecision le} l :
  Transitive le -> Total le -> StronglySorted (by_key le key) (order_by le key l).
Proof.
  intros Htr Htot.
  assert (Transitive (by_key le key)) by (intros a b c; apply Htr).
  assert (Total (by_key le key)) by (intros a b; apply Htot).
  apply (StronglySorted_merge_sort (by_key le key)).
Qed.

#[global] Instance asc_trans : Transitive asc.
Proof. intros a b c. unfold asc. lia. Qed.
#[global] Instance asc_total : Total asc.
Proof. intros a b. unfold asc. lia. Qed.
#[global] Instance desc_trans : Transitive desc.
Proof. intros a b c. unfold desc. lia. Qed.
#[global] Instance desc_total : Total desc.
Proof. intros a b. unfold desc. lia. Qed.

(** The first row of an ordered selection is a smallest one. *)
Lemma order_by_head {A} le (key : A -> Z) `{!RelDecision le} l x l' y :
  Transitive le -> Total le -> order_by le key l = x :: l' -> y ∈ l -> y = x \/ le (key x) (key y).
Proof.
  intros Htr Htot E Hy. pose proof (order_by_sorted le key l Htr Htot) as Hs.
  rewrite <- (order_by_perm le key), E in Hy. rewrite E in Hs.
  apply elem_of_cons in Hy as [->|Hy]; [by left | right].
  inversion_clear Hs as [|? ? _ HF]. by apply (proj1 (Forall_forall _ _) HF).
Qed.

(** A selection that succeeds gives the first rows of the order. *)
Lemma limit_Ok {A} n (l : list A) v db r db' :
  limit n l v db = Ok (r, db') -> (0 <= n)%Z /\ r = take (Z.to_nat n) l /\ db' = db.
Proof. unfold limit. destruct (Z.ltb_spec n 0); intros [=]; naive_solver. Qed.

Lemma limit_offset_Ok {A} n o (l : list A) v db r db' :
  limit_offset n o l v db = Ok (r, db') ->
  (0 <= n)%Z /\ (0 <= o)%Z /\ r = take (Z.to_nat n) (drop (Z.to_nat o) l) /\ db' = db.
Proof.
  unfold limit_offset. destruct (Z.ltb_spec n 0), (Z.ltb_spec o 0); intros [=]; naive_solver.
Qed.

Lemma elem_of_select {A K} le `{!RelDecision le} (key : A -> K) n l (x : A) :
  x ∈ take n (order_by le key l) -> x ∈ l.
Proof. intros Hx. rewrite <- (order_by_perm le key l). by apply (subseteq_take n). Qed.

(** A page: the first rows of an ordered selection.  A row that is selected and
    not on the page comes after a full page. *)
Lemma page_spec {A} le (key : A -> Z) `{!RelDecision le} `{!Transitive le, !Total le} (n : nat) (l : list A) :
  let page := take n (order_by le key l) in
  (forall x, x ∈ page -> x ∈ l) /\ StronglySorted (by_key le key) page /\ length page <= n /\
  forall x, x ∈ l -> x ∉ page -> length page = n /\ forall y, y ∈ page -> le (key y) (key x).
Proof.
  intros page. assert (Hs : StronglySorted (by_key le key) (order_by le key l)) by by apply order_by_sorted.
  rewrite <- (take_drop n (order_by le key l)) in Hs. split_and!.
  - intros x. apply elem_of_select.
  - by apply StronglySorted_app_1_l in Hs.
  - unfold page. rewrite length_take. lia.
  - intros x Hx Hne. rewrite <- (order_by_perm le key), <- (take_drop n (order_by le key l)) in Hx.
    apply elem_of_app in Hx as [Hx|Hx]; [done |]. split.
    + unfold page. rewrite length_take. assert (n < length (order_by le key l)); [|lia].
      apply list_elem_of_lookup in Hx as [k Hk]. apply lookup_lt_Some in Hk. rewrite length_drop in Hk. lia.
    + intros y Hy. by eapply (StronglySorted_app_1_elem_of (by_key le key)).
Qed.
End rows.

#[global] Arguments order_by : simpl never.
#[global] Arguments rows : simpl never.
#[global] Arguments update_execution : simpl never.
