(* ===== verification/Store.v ===== *)
(** * The store: [internal/store/postgres/store.go]

    The repository of the program, one definition per method of [Store].  A
    call reaches the database through [run_tx]: other connections may have
    changed the database since the last call, the call may fail before or after
    it took effect (connection lost, deadline of the operation), and otherwise
    its statements run as one atomic transaction.  Atomicity stands for the row
    locks and the transaction that the source relies on; interleavings between
    the statements of one transaction are not modelled. *)
From S2P Require Import Prelude GoStrings Domain Metrics Pg.
Local Open Scope cron_scope.

(** One exchange with the database server. *)
Record io : Type := mkIO {
  io_others : DB -> DB;              (* what other connections did meanwhile *)
  io_fault : option (err * bool);    (* a failure, and whether the commit took place *)
  io_env : env;
}.
Record pg : Type := mkPg { pg_db : DB; pg_ios : stream io }.

(** Runs a transaction on the database. *)
Definition run_tx {A} (s : stmt A) : st pg (result err A) := fun w =>
  let i := shd (pg_ios w) in
  let db := io_others i (pg_db w) in
  let after := {| pg_db := db; pg_ios := stl (pg_ios w) |} in
  match io_fault i, s (io_env i) db with
  | Some (e, false), _ => (Err e, after)
  | Some (e, true), Ok (_, db') => (Err e, {| pg_db := db'; pg_ios := stl (pg_ios w) |})
  | Some (e, true), Err _ => (Err e, after)
  | None, Ok (a, db') => (Ok a, {| pg_db := db'; pg_ios := stl (pg_ios w) |})
  | None, Err e => (Err e, after)
  end.

(** ** Helpers *)

(** [time.Duration(timeoutMs) * time.Millisecond]. *)
Definition with_timeout_of (f : duration -> duration) (j : Job) : Job :=
  {| j_ID := j_ID j; j_Namespace := j_Namespace j; j_Name := j_Name j; j_Enabled := j_Enabled j;
     j_ScheduleID := j_ScheduleID j;
     j_Delivery := {| d_Type := d_Type (j_Delivery j); d_WebhookURL := d_WebhookURL (j_Delivery j);
                      d_Secret := d_Secret (j_Delivery j); d_Timeout := f (d_Timeout (j_Delivery j)) |};
     j_Analytics := j_Analytics j; j_CreatedAt := j_CreatedAt j; j_UpdatedAt := j_UpdatedAt j |}.
Definition scanJobRow (row : Job) : Job := with_timeout_of (fun ms => wrap64 (ms * Millisecond)) row.
(** The arguments of [queryInsertJob] and [queryUpdateJob]. *)
Definition job_args (j : Job) : Job := with_timeout_of Milliseconds j.
Definition scanJobWithScheduleRow (row : Job * Schedule) : JobWithSchedule :=
  {| jws_Job := scanJobRow row.1; jws_Schedule := row.2 |}.
(** The scanned columns leave [claimed_at] out. *)
Definition scanSingleExecution (e : Execution) : Execution :=
  {| e_ID := e_ID e; e_JobID := e_JobID e; e_Namespace := e_Namespace e;
     e_TriggerType := e_TriggerType e; e_ScheduledAt := e_ScheduledAt e; e_FiredAt := e_FiredAt e;
     e_Status := e_Status e; e_AcknowledgedAt := e_AcknowledgedAt e; e_CreatedAt := e_CreatedAt e;
     e_ClaimedAt := None |}.
Definition scanExecutionRows (l : list Execution) : list Execution := map scanSingleExecution l.

Fixpoint searchString_from (s substr : string) (i n : nat) : bool :=
  match n with
  | O => false
  | S n' =>
      if String.eqb (take_bytes (String.length substr) (drop_bytes i s)) substr then true
      else searchString_from s substr (S i) n'
  end.
Definition searchString (s substr : string) : bool :=
  searchString_from s substr 0 (S (String.length s - String.length substr)).
Definition containsSubstring (s substr : string) : bool :=
  (String.length substr <=? String.length s) && searchString s substr.

(** [errors.As(err, &pqErr)]: the first driver error of the chain. *)
Fixpoint as_pq (e : err) : option string :=
  match e with
  | EPq code _ => Some code
  | EWrap _ e' => as_pq e'
  | _ => None
  end.
Definition isDuplicateKeyError (e : err) : bool :=
  match as_pq e with
  | Some code => String.eqb code "23505"
  | None =>
      let errStr := Error e in
      containsSubstring errStr "23505" || containsSubstring errStr "unique constraint" ||
      containsSubstring errStr "duplicate key"
  end.

Section store.
  Context `{!Postgres}.

(** [if err == sql.ErrNoRows { return missing }; return err]. *)
Definition no_rows_as {A} (missing : err) (r : result err A) : result err A :=
  match r with
  | Ok a => Ok a
  | Err e => if decide (e = ENoRows) then Err missing else Err e
  end.
(** [RowsAffected() == 0] as an error. *)
Definition some_rows_or (missing : err) (r : result err Z) : result err unit :=
  match r with
  | Ok n => if (n =? 0)%Z then Err missing else Ok tt
  | Err e => Err e
  end.

(** ** Jobs *)
Definition GetEnabledJobs (n : Z) (afterID : uuid) : st pg (result err (list JobWithSchedule)) :=
  result_map (map scanJobWithScheduleRow) <$> run_tx (queryGetEnabledJobs n afterID).

Definition CreateJobAggregate (job : Job) (schedule : Schedule) (ts : list Tag) : st pg (result err unit) :=
  run_tx (
    queryInsertSchedule schedule ≫= fun _ =>
    queryInsertJob (job_args job) ≫= fun _ =>
    for_each ts (fun tag => queryUpsertTag (j_ID job) (t_Key tag) (t_Value tag))).
Definition CreateJob (job : Job) (schedule : Schedule) : st pg (result err unit) :=
  CreateJobAggregate job schedule [].
Definition InsertJob (job : Job) (schedule : Schedule) : st pg (result err unit) :=
  CreateJobAggregate job schedule [].

Definition GetJobByID (jobID : uuid) : st pg (result err Job) :=
  (fun r => no_rows_as (EDomain ErrJobNotFound) (result_map scanJobRow r)) <$>
  run_tx (one_row (queryGetJobByID jobID)).
Definition GetJob (i : uuid) : st pg (result err Job) := GetJobByID i.

Definition GetJobWithSchedule (i : uuid) : st pg (result err (Job * Schedule)) :=
  (fun r => no_rows_as (EDomain ErrJobNotFound)
     (result_map (fun row : Job * Schedule => (scanJobRow row.1, row.2)) r)) <$>
  run_tx (one_row (queryGetJobWithSchedule i)).

Definition GetJobWithScheduleScoped (i : uuid) (ns : Namespace) : st pg (result err (Job * Schedule)) :=
  (fun r => no_rows_as (EDomain ErrJobNotFound)
     (result_map (fun row : Job * Schedule => (scanJobRow row.1, row.2)) r)) <$>
  run_tx (one_row (queryGetJobWithScheduleScoped i ns)).

Definition jf_defaults (f : JobFilter) : JobFilter :=
  {| jf_Namespace := jf_Namespace f; jf_Tags := jf_Tags f; jf_Enabled := jf_Enabled f;
     jf_Name := jf_Name f; jf_ListParams := WithDefaults (jf_ListParams f) |}.

Definition ListJobs (f : JobFilter) : st pg (result err (list Job)) :=
  result_map (map scanJobRow) <$> run_tx (queryListJobs (jf_defaults f)).
Definition ListJobsWithSchedules (f : JobFilter) : st pg (result err (list JobWithSchedule)) :=
  result_map (map scanJobWithScheduleRow) <$> run_tx (queryListJobsWithSchedules (jf_defaults f)).

Definition UpdateJob (job : Job) : st pg (result err unit) :=
  some_rows_or (EDomain ErrJobNotFound) <$> run_tx (queryUpdateJob (job_args job)).

Definition UpdateJobAggregate (job : Job) (schedule : Schedule) (ts : option (list Tag)) : st pg (result err unit) :=
  run_tx (
    queryUpdateSchedule schedule ≫= fun _ =>
    queryUpdateJob (job_args job) ≫= fun n =>
    if (n =? 0)%Z then fail (EDomain ErrJobNotFound) else
    match ts with
    | None => mret tt
    | Some ts =>
        queryDeleteTags (j_ID job) ≫= fun _ =>
        for_each ts (fun tag => queryUpsertTag (j_ID job) (t_Key tag) (t_Value tag))
    end).

Definition DeleteJob (jobID : uuid) (ns : Namespace) : st pg (result err unit) :=
  (fun r => no_rows_as (EDomain ErrJobNotFound) (result_map (fun _ => tt) r)) <$>
  run_tx (one_row (queryDeleteJob jobID ns)).

(** ** Schedules *)
Definition InsertSchedule (s : Schedule) : st pg (result err unit) := run_tx (queryInsertSchedule s).
Definition GetSchedule (i : uuid) : st pg (result err Schedule) := run_tx (one_row (queryGetSchedule i)).
Definition UpdateSchedule (s : Schedule) : st pg (result err unit) :=
  result_map (fun _ => tt) <$> run_tx (queryUpdateSchedule s).

(** ** Executions *)
Definition InsertExecution (e : Execution) : st pg (result err unit) :=
  (fun r => match r with
     | Ok u => Ok u
     | Err er => if isDuplicateKeyError er then Err (EDomain ErrDuplicateExecution) else Err er
     end) <$> run_tx (queryInsertExecution e).

(** [None] stands for the answer [(zero, false, nil)]. *)
Definition GetLastScheduledExecution (jobID : uuid) : st pg (result err (option time)) :=
  (fun r => match r with
     | Ok t => Ok (Some t)
     | Err e => if decide (e = ENoRows) then Ok None else Err e
     end) <$> run_tx (one_row (queryGetLastScheduledExecution jobID)).

Definition GetExecution (i : uuid) : st pg (result err Execution) :=
  (fun r => no_rows_as (EDomain ErrExecutionNotFound) (result_map scanSingleExecution r)) <$>
  run_tx (one_row (queryGetExecution i)).
Definition GetExecutionScoped (i : uuid) (ns : Namespace) : st pg (result err Execution) :=
  (fun r => no_rows_as (EDomain ErrExecutionNotFound) (result_map scanSingleExecution r)) <$>
  run_tx (one_row (queryGetExecutionScoped i ns)).
Definition GetRecentExecutions (jobID : uuid) (n : Z) : st pg (result err (list Execution)) :=
  result_map scanExecutionRows <$> run_tx (queryGetRecentExecutions jobID n).

Definition ef_defaults (f : ExecutionFilter) : ExecutionFilter :=
  {| ef_JobID := ef_JobID f; ef_Namespace := ef_Namespace f; ef_Status := ef_Status f;
     ef_TriggerType := ef_TriggerType f; ef_Since := ef_Since f; ef_Until := ef_Until f;
     ef_ListParams := WithDefaults (ef_ListParams f) |}.
Definition ListExecutions (f : ExecutionFilter) : st pg (result err (list Execution)) :=
  result_map scanExecutionRows <$> run_tx (queryListExecutions (ef_defaults f)).
Definition ListPendingAck (ns : Namespace) (jobID : option uuid) (n : Z) : st pg (result err (list Execution)) :=
  let params := WithDefaults {| lp_Limit := n; lp_Offset := 0 |} in
  result_map scanExecutionRows <$> run_tx (queryListPendingAck ns jobID (lp_Limit params)).

Definition AckExecution (i : uuid) (ns : Namespace) : st pg (result err unit) :=
  some_rows_or (EDomain ErrExecutionNotFound) <$> run_tx (queryAckExecution i ns).

(** Two exchanges: the guarded update, then the look at why nothing changed. *)
Definition UpdateExecutionStatus (executionID : uuid) (status : string) : st pg (result err unit) :=
  try n := run_tx (queryUpdateExecutionStatus status executionID) catch e => mret (Err e) in
  if (n =? 0)%Z then
    (fun r => match r with Ok _ => Err EStatusTransitionDenied | Err e => Err e end) <$>
    run_tx (one_row (queryGetExecutionStatus executionID))
  else mret (Ok tt).

(** The transaction of [DequeueExecution]. *)
Definition dequeue_tx : stmt (option Execution) :=
  queryDequeueExecution ≫= fun l =>
  match l with
  | [] => mret None
  | row :: _ =>
      let e := scanSingleExecution row in
      queryClaimExecution (e_ID e) ≫= fun _ =>
      mret (Some (with_status ExecutionStatusInProgress None e))
  end.
Definition DequeueExecution : st pg (result err (option Execution)) := run_tx dequeue_tx.

Definition GetOrphanedExecutions (olderThan : time) (maxResults : Z) : st pg (result err (list Execution)) :=
  result_map scanExecutionRows <$> run_tx (queryGetOrphanedExecutions olderThan maxResults).
Definition RequeueStaleExecutions (olderThan : time) (n : Z) : st pg (result err Z) :=
  run_tx (queryRequeueStaleExecutions olderThan n).

(** ** Tags *)
Definition UpsertTags (jobID : uuid) (ts : list Tag) : st pg (result err unit) :=
  run_tx (for_each ts (fun tag => queryUpsertTag jobID (t_Key tag) (t_Value tag))).
Definition GetTags (jobID : uuid) : st pg (result err (list Tag)) :=
  result_map (map (fun t : string * string => {| t_Key := t.1; t_Value := t.2 |})) <$> run_tx (queryGetTags jobID).
Definition DeleteTags (jobID : uuid) : st pg (result err unit) := run_tx (queryDeleteTags jobID).

(** ** API keys *)
Definition InsertAPIKey (k : APIKey) : st pg (result err unit) :=
  (fun r => match r with
     | Ok u => Ok u
     | Err e => if isDuplicateKeyError e then Err (EDomain ErrDuplicateAPIKey) else Err e
     end) <$> run_tx (queryInsertAPIKey k).
Definition InsertFirstAPIKey (k : APIKey) : st pg (result err unit) :=
  run_tx (
    queryHasAnyAPIKeys ≫= fun (exists_ : bool) =>
    if exists_ then fail (EDomain ErrBootstrapAlreadyCompleted) else queryInsertAPIKey k).
Definition HasAnyAPIKeys : st pg (result err bool) := run_tx queryHasAnyAPIKeys.
Definition GetKeyByTokenHash (hash : string) : st pg (result err APIKey) :=
  no_rows_as (EDomain ErrAPIKeyNotFound) <$> run_tx (one_row (queryGetKeyByTokenHash hash)).
Definition ListKeys (ns : Namespace) (p : ListParams) : st pg (result err (list APIKey)) :=
  let p := WithDefaults p in run_tx (queryListKeys ns (lp_Limit p) (lp_Offset p)).
Definition DeleteKey (i : uuid) (ns : Namespace) : st pg (result err unit) :=
  some_rows_or (EDomain ErrAPIKeyNotFound) <$> run_tx (queryDeleteKey i ns).
Definition UpdateLastUsedAt (ids : list uuid) : st pg (result err unit) :=
  if (length ids =? 0)%nat then mret (Ok tt) else run_tx (queryUpdateLastUsedAt ids).

(** ** Admin sessions *)
Definition CreateAdminSession (s : AdminSession) : st pg (result err unit) :=
  run_tx (queryInsertAdminSession s (as_CreatedAt s)).
Definition GetAdminSession (hash : string) (at_ : time) : st pg (result err (AdminSession * APIKey)) :=
  no_rows_as (EDomain ErrAdminSessionNotFound) <$> run_tx (one_row (queryGetAdminSession hash at_)).
Definition RefreshAdminSession (hash : string) (lastSeenAt expiresAt : time) : st pg (result err unit) :=
  some_rows_or (EDomain ErrAdminSessionNotFound) <$> run_tx (queryRefreshAdminSession lastSeenAt expiresAt hash).
Definition DeleteAdminSession (hash : string) : st pg (result err unit) :=
  run_tx (queryDeleteAdminSession hash).

(** ** Delivery attempts *)
Definition InsertDeliveryAttempt (a : DeliveryAttempt) : st pg (result err unit) :=
  run_tx (queryInsertDeliveryAttempt a).
Definition GetAttempts (executionID : uuid) : st pg (result err (list DeliveryAttempt)) :=
  run_tx (queryGetDeliveryAttempts executionID).
End store.
