(* ===== verification/StoreTheory.v ===== *)
(** * Invariants of the store

    A calculus for database invariants ([tx_inv] for transactions, [keeps] for
    calls), the integrity of the database ([wf_db]) with its preservation by
    every statement, and every call of the store as a datatype ([call]), over
    which the sequences of calls of a process are lists. *)
From S2P Require Import Prelude GoStrings Domain Pg Store.

(** ** Invariants of transactions *)
Definition tx_inv (I : DB -> Prop) {A} (s : stmt A) : Prop :=
  forall v db a db', I db -> s v db = Ok (a, db') -> I db'.

Section tx_inv.
  Variable I : DB -> Prop.

Lemma tx_ret {A} (a : A) : tx_inv I (mret a).
Proof. by intros v db ? ? ? [= _ <-]. Qed.
Lemma tx_fail {A} e : tx_inv I (fail (A := A) e).
Proof. by intros v db ? ? ? [=]. Qed.
Lemma tx_query {A} (f : DB -> A) : tx_inv I (query f).
Proof. by intros v db ? ? ? [= _ <-]. Qed.
Lemma tx_server : tx_inv I server.
Proof. by intros v db ? ? ? [= _ <-]. Qed.
Lemma tx_update f : (forall db, I db -> I (f db)) -> tx_inv I (update f).
Proof. intros Hf v db ? ? HI [= _ <-]. auto. Qed.
Lemma tx_bind {A B} (s : stmt A) (f : A -> stmt B) :
  tx_inv I s -> (forall a, tx_inv I (f a)) -> tx_inv I (s ≫= f).
Proof.
  intros Hs Hf v db b db' HI. unfold mbind, stmt_bind. destruct (s v db) as [[a db1]|] eqn:E; [|done].
  intros E2. eapply Hf; [eapply Hs|]; eauto.
Qed.
Lemma tx_for_each {A} (l : list A) f : (forall a, tx_inv I (f a)) -> tx_inv I (for_each l f).
Proof. intros Hf. induction l; cbn; [apply tx_ret |]. apply tx_bind; auto. Qed.
Lemma tx_limit {A} n (l : list A) : tx_inv I (limit n l).
Proof. unfold limit. case_match; [apply tx_fail | apply tx_ret]. Qed.
Lemma tx_limit_offset {A} n o (l : list A) : tx_inv I (limit_offset n o l).
Proof. unfold limit_offset. repeat case_match; auto using tx_fail, tx_ret. Qed.
Lemma tx_one_row {A} (s : stmt (list A)) : tx_inv I s -> tx_inv I (one_row s).
Proof. intros Hs. apply tx_bind; [done |]. intros []; auto using tx_fail, tx_ret. Qed.
Lemma tx_if {A} (b : bool) (s t : stmt A) : tx_inv I s -> tx_inv I t -> tx_inv I (if b then s else t).
Proof. by destruct b. Qed.
End tx_inv.
Create HintDb tx.
#[export] Hint Resolve tx_ret tx_fail tx_query tx_server tx_bind tx_for_each tx_limit
  tx_limit_offset tx_one_row tx_if : tx.
(** Statements that only read keep every invariant. *)
Ltac tx_read := repeat first
  [ eassumption | apply tx_one_row | apply tx_bind; [| intros ?] | apply tx_for_each; intros ? | apply tx_query | apply tx_server | apply tx_limit
  | apply tx_limit_offset | apply tx_ret | apply tx_fail
  | match goal with |- tx_inv _ (match ?x with _ => _ end) => destruct x end ].

(** ** Invariants of calls

    The database satisfies [I], and so will what the other connections make of
    it as long as they keep [I]. *)
Definition good (I : DB -> Prop) (w : pg) : Prop :=
  I (pg_db w) /\ forall n db, I db -> I (io_others (pg_ios w n) db).
Definition keeps (I : DB -> Prop) {A} (m : st pg A) : Prop :=
  preserves (fun w w' => good I w -> good I w') m.
#[export] Instance keeps_preorder I : PreOrder (fun w w' : pg => good I w -> good I w').
Proof. split; [by intros ? | intros ? ? ?; auto]. Qed.

Lemma run_tx_keeps I {A} (s : stmt A) : tx_inv I s -> keeps I (run_tx s).
Proof.
  intros Hs w [HI Ho]. unfold exec, run_tx.
  assert (Ho' : forall n db, I db -> I (io_others (stl (pg_ios w) n) db)) by (intros n; apply (Ho (S n))).
  assert (HI' : I (io_others (shd (pg_ios w)) (pg_db w))) by by apply (Ho 0).
  destruct (io_fault (shd (pg_ios w))) as [[e []]|];
    destruct (s (io_env (shd (pg_ios w))) (io_others (shd (pg_ios w)) (pg_db w))) as [[a db']|] eqn:E; (split; cbn; [|done]); eauto.
Qed.

Lemma fmap_keeps I {A B} (f : A -> B) (m : st pg A) : keeps I m -> keeps I (f <$> m).
Proof. apply preserves_fmap. Qed.

Lemma keeps_ret I {A} (a : A) : keeps I (mret a).
Proof. intros w Hw. exact Hw. Qed.

(** ** The calls of the store *)
Inductive call : Type :=
| CGetEnabledJobs (n : Z) (afterID : uuid)
| CCreateJobAggregate (job : Job) (schedule : Schedule) (ts : list Tag)
| CGetJobByID (i : uuid)
| CGetJobWithSchedule (i : uuid)
| CGetJobWithScheduleScoped (i : uuid) (ns : Namespace)
| CListJobs (f : JobFilter)
| CListJobsWithSchedules (f : JobFilter)
| CUpdateJob (job : Job)
| CUpdateJobAggregate (job : Job) (schedule : Schedule) (ts : option (list Tag))
| CDeleteJob (i : uuid) (ns : Namespace)
| CInsertSchedule (s : Schedule)
| CGetSchedule (i : uuid)
| CUpdateSchedule (s : Schedule)
| CInsertExecution (e : Execution)
| CGetLastScheduledExecution (i : uuid)
| CGetExecution (i : uuid)
| CGetExecutionScoped (i : uuid) (ns : Namespace)
| CGetRecentExecutions (i : uuid) (n : Z)
| CListExecutions (f : ExecutionFilter)
| CListPendingAck (ns : Namespace) (i : option uuid) (n : Z)
| CAckExecution (i : uuid) (ns : Namespace)
| CUpdateExecutionStatus (i : uuid) (status : string)
| CDequeueExecution
| CGetOrphanedExecutions (t : time) (n : Z)
| CRequeueStaleExecutions (t : time) (n : Z)
| CUpsertTags (i : uuid) (ts : list Tag)
| CGetTags (i : uuid)
| CDeleteTags (i : uuid)
| CInsertAPIKey (k : APIKey)
| CInsertFirstAPIKey (k : APIKey)
| CHasAnyAPIKeys
| CGetKeyByTokenHash (h : string)
| CListKeys (ns : Namespace) (p : ListParams)
| CDeleteKey (i : uuid) (ns : Namespace)
| CUpdateLastUsedAt (ids : list uuid)
| CCreateAdminSession (s : AdminSession)
| CGetAdminSession (h : string) (t : time)
| CRefreshAdminSession (h : string) (seen expires : time)
| CDeleteAdminSession (h : string)
| CInsertDeliveryAttempt (a : DeliveryAttempt)
| CGetAttempts (i : uuid).

Definition void {W A} (m : st W A) : st W unit := (fun _ => tt) <$> m.
Definition do {P : Postgres} (c : call) : st pg unit :=
  match c with
  | CGetEnabledJobs n i => void (GetEnabledJobs n i)
  | CCreateJobAggregate j s ts => void (CreateJobAggregate j s ts)
  | CGetJobByID i => void (GetJobByID i)
  | CGetJobWithSchedule i => void (GetJobWithSchedule i)
  | CGetJobWithScheduleScoped i ns => void (GetJobWithScheduleScoped i ns)
  | CListJobs f => void (ListJobs f)
  | CListJobsWithSchedules f => void (ListJobsWithSchedules f)
  | CUpdateJob j => void (UpdateJob j)
  | CUpdateJobAggregate j s ts => void (UpdateJobAggregate j s ts)
  | CDeleteJob i ns => void (DeleteJob i ns)
  | CInsertSchedule s => void (InsertSchedule s)
  | CGetSchedule i => void (GetSchedule i)
  | CUpdateSchedule s => void (UpdateSchedule s)
  | CInsertExecution e => void (InsertExecution e)
  | CGetLastScheduledExecution i => void (GetLastScheduledExecution i)
  | CGetExecution i => void (GetExecution i)
  | CGetExecutionScoped i ns => void (GetExecutionScoped i ns)
  | CGetRecentExecutions i n => void (GetRecentExecutions i n)
  | CListExecutions f => void (ListExecutions f)
  | CListPendingAck ns i n => void (ListPendingAck ns i n)
  | CAckExecution i ns => void (AckExecution i ns)
  | CUpdateExecutionStatus i s => void (UpdateExecutionStatus i s)
  | CDequeueExecution => void DequeueExecution
  | CGetOrphanedExecutions t n => void (GetOrphanedExecutions t n)
  | CRequeueStaleExecutions t n => void (RequeueStaleExecutions t n)
  | CUpsertTags i ts => void (UpsertTags i ts)
  | CGetTags i => void (GetTags i)
  | CDeleteTags i => void (DeleteTags i)
  | CInsertAPIKey k => void (InsertAPIKey k)
  | CInsertFirstAPIKey k => void (InsertFirstAPIKey k)
  | CHasAnyAPIKeys => void HasAnyAPIKeys
  | CGetKeyByTokenHash h => void (GetKeyByTokenHash h)
  | CListKeys ns p => void (ListKeys ns p)
  | CDeleteKey i ns => void (DeleteKey i ns)
  | CUpdateLastUsedAt ids => void (UpdateLastUsedAt ids)
  | CCreateAdminSession s => void (CreateAdminSession s)
  | CGetAdminSession h t => void (GetAdminSession h t)
  | CRefreshAdminSession h a b => void (RefreshAdminSession h a b)
  | CDeleteAdminSession h => void (DeleteAdminSession h)
  | CInsertDeliveryAttempt a => void (InsertDeliveryAttempt a)
  | CGetAttempts i => void (GetAttempts i)
  end.
Fixpoint calls {P : Postgres} (l : list call) : st pg unit :=
  match l with
  | [] => mret tt
  | c :: l' => do c ≫= fun _ => calls l'
  end.

Section keeps.
  Context `{!Postgres}.
  Variable I : DB -> Prop.

(** What a call may change is what its transaction may change: an invariant of
    the transactions that write is one of every call. *)
Definition writers_keep (c : call) : Prop :=
  match c with
  | CCreateJobAggregate j s ts =>
      tx_inv I (queryInsertSchedule s) /\ tx_inv I (queryInsertJob (job_args j)) /\
      forall t, tx_inv I (queryUpsertTag (j_ID j) (t_Key t) (t_Value t))
  | CUpdateJob j => tx_inv I (queryUpdateJob (job_args j))
  | CUpdateJobAggregate j s ts =>
      tx_inv I (queryUpdateSchedule s) /\ tx_inv I (queryUpdateJob (job_args j)) /\
      tx_inv I (queryDeleteTags (j_ID j)) /\ forall t, tx_inv I (queryUpsertTag (j_ID j) (t_Key t) (t_Value t))
  | CDeleteJob i ns => tx_inv I (queryDeleteJob i ns)
  | CInsertSchedule s => tx_inv I (queryInsertSchedule s)
  | CUpdateSchedule s => tx_inv I (queryUpdateSchedule s)
  | CInsertExecution e => tx_inv I (queryInsertExecution e)
  | CAckExecution i ns => tx_inv I (queryAckExecution i ns)
  | CUpdateExecutionStatus i s => tx_inv I (queryUpdateExecutionStatus s i)
  | CDequeueExecution => keeps I DequeueExecution
  | CRequeueStaleExecutions t n => tx_inv I (queryRequeueStaleExecutions t n)
  | CUpsertTags i ts => forall t, tx_inv I (queryUpsertTag i (t_Key t) (t_Value t))
  | CDeleteTags i => tx_inv I (queryDeleteTags i)
  | CInsertAPIKey k => tx_inv I (queryInsertAPIKey k)
  | CInsertFirstAPIKey k => tx_inv I (queryInsertAPIKey k)
  | CDeleteKey i ns => tx_inv I (queryDeleteKey i ns)
  | CUpdateLastUsedAt ids => tx_inv I (queryUpdateLastUsedAt ids)
  | CCreateAdminSession s => tx_inv I (queryInsertAdminSession s (as_CreatedAt s))
  | CRefreshAdminSession h a b => tx_inv I (queryRefreshAdminSession a b h)
  | CDeleteAdminSession h => tx_inv I (queryDeleteAdminSession h)
  | CInsertDeliveryAttempt a => tx_inv I (queryInsertDeliveryAttempt a)
  | _ => True
  end.

Lemma executions_where_inv P `{!forall e, Decision (P e)} : tx_inv I (executions_where P).
Proof. apply tx_query. Qed.

Lemma do_keeps c : writers_keep c -> keeps I (do c).
Proof.
  intros Hc. destruct c; cbn [do writers_keep] in *; apply fmap_keeps.
  all: try exact Hc.
  all: try (unfold GetJob, GetEnabledJobs, GetJobByID, GetJobWithSchedule, GetJobWithScheduleScoped, ListJobs,
    ListJobsWithSchedules, GetSchedule, GetLastScheduledExecution, GetExecution, GetExecutionScoped,
    GetRecentExecutions, ListExecutions, ListPendingAck, GetOrphanedExecutions, GetTags, HasAnyAPIKeys,
    GetKeyByTokenHash, ListKeys, GetAdminSession, GetAttempts;
    try apply fmap_keeps; apply run_tx_keeps;
    (solve [tx_read] || (unfold queryGetLastScheduledExecution; solve [tx_read]))).
  all: try (destruct_and? Hc; unfold CreateJobAggregate, UpdateJob, DeleteJob, InsertSchedule, UpdateSchedule,
    InsertExecution, AckExecution, RequeueStaleExecutions, UpsertTags, DeleteTags, InsertAPIKey, DeleteKey,
    CreateAdminSession, RefreshAdminSession, DeleteAdminSession, InsertDeliveryAttempt,
    UpdateJobAggregate, InsertFirstAPIKey;
    try apply fmap_keeps; apply run_tx_keeps; solve [tx_read; eauto]).
  - unfold UpdateExecutionStatus. apply preserves_bind; [exact _ | by apply run_tx_keeps |].
    intros [n|e]; [|apply keeps_ret]. destruct (n =? 0)%Z; [|apply keeps_ret].
    apply fmap_keeps, run_tx_keeps. tx_read.
  - unfold UpdateLastUsedAt. case_match; [apply keeps_ret | by apply run_tx_keeps].
Qed.

Lemma calls_keep l : Forall writers_keep l -> keeps I (calls l).
Proof.
  induction 1 as [|c l Hc _ IH]; cbn [calls]; [apply keeps_ret |].
  apply preserves_bind; [exact _ | by apply do_keeps | done].
Qed.
End keeps.

(** ** The integrity of the database *)
Record wf_db (db : DB) : Prop := {
  wf_schedule : map_Forall (fun i s => s_ID s = i) (schedules db);
  wf_job : map_Forall (fun i j => j_ID j = i /\ is_Some (schedules db !! j_ScheduleID j)) (jobs db);
  wf_execution : map_Forall (fun i e => e_ID e = i /\ is_Some (jobs db !! e_JobID e) /\
      (e_AcknowledgedAt e <> None -> terminal (e_Status e) = true)) (executions db);
  wf_fire : forall i i' e e', executions db !! i = Some e -> executions db !! i' = Some e' ->
      same_fire e e' -> i = i';
  wf_attempt : map_Forall (fun i a => da_ID a = i /\ is_Some (executions db !! da_ExecutionID a)) (delivery_attempts db);
  wf_tag : map_Forall (fun k _ => is_Some (jobs db !! k.1)) (tags db);
  wf_key : map_Forall (fun i k => k_ID k = i) (api_keys db);
  wf_hash : forall i i' k k', api_keys db !! i = Some k -> api_keys db !! i' = Some k' ->
      k_TokenHash k = k_TokenHash k' -> i = i';
  wf_session : map_Forall (fun h s => as_TokenHash s = h /\ is_Some (api_keys db !! as_APIKeyID s) /\
      (as_ExpiresAt s <= as_AbsoluteExpiresAt s)%Z) (admin_sessions db);
}.

(** Presence of a key survives an insertion. *)
Lemma is_Some_insert `{Countable K} {A} (m : gmap K A) i j x : is_Some (m !! i) -> is_Some (<[j := x]> m !! i).
Proof. intros Hi. destruct (decide (i = j)) as [->|]; [rewrite lookup_insert_eq | rewrite lookup_insert_ne]; eauto. Qed.

Lemma map_Forall_insert_same `{Countable K} {A} (P : K -> A -> Prop) (m : gmap K A) i x :
  P i x -> map_Forall P m -> map_Forall P (<[i := x]> m).
Proof. intros. by apply map_Forall_insert_2. Qed.

Lemma map_Forall_filter_weaken `{Countable K} {A} (P : K -> A -> Prop) Q `{!forall x, Decision (Q x)} (m : gmap K A) :
  map_Forall P m -> map_Forall P (filter Q m).
Proof. intros Hm i x [Hx _]%map_lookup_filter_Some. by apply Hm. Qed.

Lemma map_Forall_strengthen `{Countable K} {A} (P P' : K -> A -> Prop) (m : gmap K A) :
  map_Forall P m -> (forall i x, m !! i = Some x -> P i x -> P' i x) -> map_Forall P' m.
Proof. intros Hm HP i x Hx. auto. Qed.

#[export] Hint Resolve is_Some_insert map_Forall_insert_same map_Forall_filter_weaken : tx.

Section wf.
  Context `{!Postgres}.

Ltac tx_cases :=
  intros v db a db' [Hs Hj He Hfi Ha Ht Hk Hh Hse] E; cbv zeta in E;
  repeat (case_match || case_decide); try discriminate; injection E as ? ?; subst;
  repeat match goal with H : negb _ = _ |- _ => clear H end.

Lemma wf_insert_schedule s : tx_inv wf_db (queryInsertSchedule s).
Proof.
  unfold queryInsertSchedule. tx_cases. constructor; cbn; auto.
  - by apply map_Forall_insert_same.
  - eapply map_Forall_strengthen; [done |]. intros i j ? [? ?]. auto with tx.
Qed.

Lemma wf_update_schedule s : tx_inv wf_db (queryUpdateSchedule s).
Proof.
  unfold queryUpdateSchedule. tx_cases; [|by constructor]. constructor; cbn; auto.
  - apply map_Forall_insert_same; [|done]. cbn. by eapply Hs.
  - eapply map_Forall_strengthen; [done |]. intros i j ? [? ?]. auto with tx.
Qed.

(** Adding or replacing the row of a job. *)
Lemma wf_put_job db j :
  wf_db db -> is_Some (schedules db !! j_ScheduleID j) -> wf_db (set_jobs (<[j_ID j := j]> (jobs db)) db).
Proof.
  intros [Hs Hj He Hfi Ha Ht Hk Hh Hse] Hsch. constructor; cbn; auto.
  - by apply map_Forall_insert_same.
  - eapply map_Forall_strengthen; [done |]. intros i e ? (? & ? & ?). auto with tx.
  - eapply map_Forall_strengthen; [done |]. intros k ? ? ?. cbn in *. auto with tx.
Qed.

Lemma wf_insert_job j : tx_inv wf_db (queryInsertJob j).
Proof.
  intros v db a db' Hwf E. unfold queryInsertJob in E. repeat case_match; try discriminate.
  injection E as ? ?; subst. apply (wf_put_job db (stored_job j)); [done | cbn; eauto].
Qed.

Lemma wf_update_job j : tx_inv wf_db (queryUpdateJob j).
Proof.
  intros v db a db' Hwf E. unfold queryUpdateJob in E. repeat (case_match || case_decide); try discriminate;
    injection E as ? ?; subst; [|done|done].
  match goal with Hr : jobs db !! _ = Some ?row |- _ =>
    destruct (wf_job _ Hwf _ _ Hr) as [Hid Hsch]; rewrite <- Hid at 1 end.
  apply (wf_put_job db (updated_job j0 j)); [done |]. exact Hsch.
Qed.

Lemma wf_delete_job i ns : tx_inv wf_db (queryDeleteJob i ns).
Proof.
  unfold queryDeleteJob. tx_cases; [|by constructor|by constructor].
  match goal with Hf : map_Forall (fun _ _ => _ <> _) _ |- _ => rename Hf into Hfree end. constructor; cbn in *; auto.
  - intros k s [? Hks]%lookup_delete_Some. by apply Hs.
  - intros k j0 Hk0. pose proof (Hfree _ _ Hk0) as Hne. apply lookup_delete_Some in Hk0 as [_ Hk0].
    destruct (Hj _ _ Hk0) as [? ?]. split; [done |]. by rewrite lookup_delete_ne.
  - intros k e [Hk0 Hne]%map_lookup_filter_Some. destruct (He _ _ Hk0) as (? & ? & ?).
    split; [done |]. split; [|done]. cbn in Hne. by rewrite lookup_delete_ne by congruence.
  - intros ? ? e e' [? _]%map_lookup_filter_Some [? _]%map_lookup_filter_Some. by eapply Hfi.
  - intros k x [Hk0 Hne]%map_lookup_filter_Some. destruct (Ha _ _ Hk0) as (? & [e Hx]).
    split; [done |]. exists e. apply map_lookup_filter_Some. split; [done |]. cbn in *. intros Hei.
    apply map_lookup_filter_None in Hne as [Hne|Hne]; [congruence | by apply (Hne e)].
  - intros k x [Hk0 Hne]%map_lookup_filter_Some. pose proof (Ht _ _ Hk0). cbn in *. by rewrite lookup_delete_ne.
Qed.

Lemma wf_insert_execution e : tx_inv wf_db (queryInsertExecution e).
Proof.
  unfold queryInsertExecution. tx_cases. destruct_and!. match goal with Hn : map_Forall (fun _ _ => ~ _) _ |- _ => rename Hn into Hnew end.
  constructor; cbn; auto.
  - apply map_Forall_insert_same; [|done]. cbn. split; [done |]. split; [eauto | done].
  - intros i i' x x'. destruct (decide (i = e_ID e)) as [->|Hi], (decide (i' = e_ID e)) as [->|Hi'];
      rewrite ?lookup_insert_eq, ?lookup_insert_ne by done; [done | | |by apply Hfi].
    + intros [= <-] Hx' Hsame. exfalso. by apply (Hnew _ _ Hx').
    + intros Hx [= <-] [? ?]. exfalso. apply (Hnew _ _ Hx). split; cbn in *; congruence.
  - eapply map_Forall_strengthen; [done |]. intros k x ? [? ?]. auto with tx.
Qed.

(** Replacing the row of an execution with one that keeps its identity. *)
Lemma wf_put_execution db i e e' :
  wf_db db -> executions db !! i = Some e ->
  e_ID e' = e_ID e -> e_JobID e' = e_JobID e -> e_ScheduledAt e' = e_ScheduledAt e ->
  (e_AcknowledgedAt e' <> None -> terminal (e_Status e') = true) ->
  wf_db (set_executions (<[i := e']> (executions db)) db).
Proof.
  intros [Hs Hj He Hfi Ha Ht Hk Hh Hse] Hi Hid Hjob Hsched Hack. destruct (He _ _ Hi) as (Hid0 & Hj0 & _).
  constructor; cbn; auto.
  - apply map_Forall_insert_same; [|done]. split; [congruence |]. by rewrite Hjob.
  - intros k k' x x'. destruct (decide (k = i)) as [->|Hk1], (decide (k' = i)) as [->|Hk2];
      rewrite ?lookup_insert_eq, ?lookup_insert_ne by done; [done | | |by apply Hfi];
      intros H1 H2 [H3 H4]; simplify_eq.
    + eapply Hfi; [exact Hi | exact H2 | split; congruence].
    + eapply Hfi; [exact H1 | exact Hi | split; congruence].
  - eapply map_Forall_strengthen; [done |]. intros k x ? [? ?]. auto with tx.
Qed.

Lemma wf_update_execution i P `{!forall e, Decision (P e)} f :
  (forall e, e_ID (f e) = e_ID e /\ e_JobID (f e) = e_JobID e /\ e_ScheduledAt (f e) = e_ScheduledAt e) ->
  (forall e, P e -> (e_AcknowledgedAt e <> None -> terminal (e_Status e) = true) ->
     e_AcknowledgedAt (f e) <> None -> terminal (e_Status (f e)) = true) ->
  tx_inv wf_db (update_execution i P f).
Proof.
  intros Hf Hack v db a db' Hwf E. unfold update_execution in E.
  repeat (case_match || case_decide); injection E as ? ?; subst; try done.
  destruct (Hf e) as (? & ? & ?). eapply wf_put_execution; eauto.
  intros Ha. apply Hack; auto. by apply (wf_execution _ Hwf i e).
Qed.

Lemma wf_ack i ns : tx_inv wf_db (queryAckExecution i ns).
Proof.
  unfold queryAckExecution. apply tx_bind; [apply tx_server |]. intros v.
  apply wf_update_execution; [done |]. intros e (_ & _ & Hter) _ _. done.
Qed.

Lemma wf_update_status s i : tx_inv wf_db (queryUpdateExecutionStatus s i).
Proof.
  unfold queryUpdateExecutionStatus. apply wf_update_execution; [done |].
  intros e Hter Hack Ha. rewrite Hack in Hter; [discriminate | done].
Qed.

Lemma wf_insert_attempt at_ : tx_inv wf_db (queryInsertDeliveryAttempt at_).
Proof.
  unfold queryInsertDeliveryAttempt. tx_cases. constructor; cbn; auto.
  apply map_Forall_insert_same; [|done]. cbn. eauto.
Qed.

Lemma wf_upsert_tag i k x : tx_inv wf_db (queryUpsertTag i k x).
Proof.
  unfold queryUpsertTag. tx_cases. constructor; cbn; auto.
  apply map_Forall_insert_same; [|done]. cbn. eauto.
Qed.

Lemma wf_delete_tags i : tx_inv wf_db (queryDeleteTags i).
Proof.
  apply tx_update. intros db [Hs Hj He Hfi Ha Ht Hk Hh Hse]. constructor; cbn; auto.
  by apply map_Forall_filter_weaken.
Qed.

Lemma wf_insert_key k : tx_inv wf_db (queryInsertAPIKey k).
Proof.
  unfold queryInsertAPIKey. tx_cases. destruct_and!. match goal with Hn : map_Forall (fun _ _ => _ <> _) _ |- _ => rename Hn into Hnew end.
  constructor; cbn; auto.
  - by apply map_Forall_insert_same.
  - intros i i' x x'. destruct (decide (i = k_ID k)) as [->|Hi], (decide (i' = k_ID k)) as [->|Hi'];
      rewrite ?lookup_insert_eq, ?lookup_insert_ne by done; [done | | |by apply Hh].
    + intros [= <-] Hx' Hsame. exfalso. by apply (Hnew _ _ Hx').
    + intros Hx [= <-] Hsame. exfalso. by apply (Hnew _ _ Hx).
  - eapply map_Forall_strengthen; [done |]. intros h s ? (? & ? & ?). auto with tx.
Qed.

Lemma wf_delete_key i ns : tx_inv wf_db (queryDeleteKey i ns).
Proof.
  unfold queryDeleteKey. tx_cases; [|by constructor|by constructor]. constructor; cbn; auto.
  - intros k x [? Hx]%lookup_delete_Some. by apply Hk.
  - intros ? ? x x' [_ ?]%lookup_delete_Some [_ ?]%lookup_delete_Some. by eapply Hh.
  - intros h s [Hh0 Hne]%map_lookup_filter_Some. destruct (Hse _ _ Hh0) as (? & ? & ?). cbn in *.
    split; [done |]. split; [|done]. by rewrite lookup_delete_ne.
Qed.

Lemma wf_last_used ids : tx_inv wf_db (queryUpdateLastUsedAt ids).
Proof.
  unfold queryUpdateLastUsedAt. apply tx_bind; [apply tx_server |]. intros v. apply tx_update.
  intros db [Hs Hj He Hfi Ha Ht Hk Hh Hse].
  assert (Hl : forall i k, map_imap (fun i k => Some (if decide (i ∈ ids) then used (now v) k else k)) (api_keys db) !! i = Some k ->
             exists k0, api_keys db !! i = Some k0 /\ k_ID k = k_ID k0 /\ k_TokenHash k = k_TokenHash k0).
  { intros i k. rewrite map_lookup_imap. intros (k0 & Hk0 & [= <-])%bind_Some. exists k0. by case_decide. }
  constructor; cbn; auto.
  - intros i k (k0 & Hk0 & -> & _)%Hl. by apply Hk.
  - intros i i' k k' (k0 & Hk0 & _ & Eh)%Hl (k0' & Hk0' & _ & Eh')%Hl E. eapply Hh; eauto. congruence.
  - eapply map_Forall_strengthen; [done |]. intros h s ? (? & [k0 Hk0] & ?). split; [done |]. split; [|done].
    rewrite map_lookup_imap, Hk0. cbn. eauto.
Qed.

Lemma wf_insert_session s t : tx_inv wf_db (queryInsertAdminSession s t).
Proof.
  unfold queryInsertAdminSession. tx_cases. constructor; cbn; auto.
  apply map_Forall_insert_same; [cbn; eauto |]. by apply map_Forall_filter_weaken.
Qed.

Lemma wf_refresh_session t u h : tx_inv wf_db (queryRefreshAdminSession t u h).
Proof.
  unfold queryRefreshAdminSession. tx_cases; [|by constructor|by constructor]. constructor; cbn; auto.
  apply map_Forall_insert_same; [|done]. match goal with Hr : admin_sessions db !! _ = Some _ |- _ => destruct (Hse _ _ Hr) as (? & ? & ?) end. cbn. split_and!; auto. lia.
Qed.

Lemma wf_delete_session h : tx_inv wf_db (queryDeleteAdminSession h).
Proof.
  apply tx_update. intros db [Hs Hj He Hfi Ha Ht Hk Hh Hse]. constructor; cbn; auto.
  intros k s [? Hx]%lookup_delete_Some. by apply Hse.
Qed.
End wf.

(** ** Claims and requeues *)
Section claims.
  Context `{!Postgres}.

(** An update whose condition holds puts the new row in place. *)
Lemma update_execution_hit i P `{!forall e, Decision (P e)} f v db e :
  executions db !! i = Some e -> P e ->
  update_execution i P f v db = Ok (1%Z, set_executions (<[i := f e]> (executions db)) db).
Proof. intros Hi HP. unfold update_execution. by rewrite Hi, decide_True. Qed.

Lemma update_execution_miss i P `{!forall e, Decision (P e)} f v db :
  (forall e, executions db !! i = Some e -> ~ P e) -> update_execution i P f v db = Ok (0%Z, db).
Proof.
  intros Hi. unfold update_execution. destruct (executions db !! i) as [e|] eqn:E; [|done].
  rewrite decide_False; auto.
Qed.

Definition claimable (v : env) (db : DB) (e : Execution) : Prop :=
  executions db !! e_ID e = Some e /\ e_Status e = ExecutionStatusEmitted /\ e_ID e ∉ locked v.

(** What the transaction of [DequeueExecution] does. *)
Lemma dequeue_tx_spec v db :
  wf_db db ->
  dequeue_tx v db = Ok (None, db) /\ (forall e, ~ claimable v db e) \/
  exists e, claimable v db e /\ (forall e', claimable v db e' -> (e_CreatedAt e <= e_CreatedAt e')%Z) /\
    dequeue_tx v db =
      Ok (Some (with_status ExecutionStatusInProgress None (scanSingleExecution e)),
          set_executions (<[e_ID e := with_status ExecutionStatusInProgress (Some (now v)) e]> (executions db)) db).
Proof.
  intros Hwf. unfold dequeue_tx, queryDequeueExecution, mbind, stmt_bind. cbn. change (Z.to_nat 1) with 1.
  set (sel := filter _ _).
  assert (Hsel : forall e, e ∈ sel <-> claimable v db e).
  { intros e. unfold sel, claimable. rewrite list_elem_of_filter, elem_of_rows. split.
    - intros [[Hs Hl] [i Hi]]. destruct (wf_execution _ Hwf _ _ Hi) as [<- _]. auto.
    - intros (Hi & Hs & Hl). eauto. }
  destruct (order_by asc e_CreatedAt sel) as [|e l] eqn:E; cbn.
  - left. split; [done |]. intros e He%Hsel.
    rewrite <- (order_by_perm asc e_CreatedAt sel), E in He. by apply elem_of_nil in He.
  - right. exists e.
    assert (He : claimable v db e).
    { apply Hsel. rewrite <- (order_by_perm asc e_CreatedAt sel), E. by left. }
    split; [done |]. split.
    + intros e' He'%Hsel. destruct (order_by_head asc e_CreatedAt sel e l e' _ _ E He') as [->|?]; [lia | done].
    + unfold queryClaimExecution, mbind, stmt_bind; cbn. destruct He as (Hi & _).
      rewrite (update_execution_hit _ _ _ _ _ e) by done. done.
Qed.

Lemma wf_dequeue : tx_inv wf_db dequeue_tx.
Proof.
  intros v db a db' Hwf E. destruct (dequeue_tx_spec v db Hwf) as [[E' _]|(e & (Hi & Hs & _) & _ & E')];
    rewrite E' in E; injection E as <- <-; [done |].
  eapply wf_put_execution; [done | exact Hi | done | done | done |]. cbn. intros Ha.
  pose proof (wf_execution _ Hwf _ _ Hi) as (_ & _ & Hack). rewrite Hs in Hack. by destruct (Hack Ha).
Qed.

(** The rows that a requeue selects. *)
Definition stale (v : env) (t : time) (db : DB) (e : Execution) : Prop :=
  executions db !! e_ID e = Some e /\ e_Status e = ExecutionStatusInProgress /\
  claimed_before (pg_ts t) e /\ e_ID e ∉ locked v.

(** Resets a list of rows. *)
Fixpoint reset_all (l : list Execution) (t : gmap uuid Execution) : gmap uuid Execution :=
  match l with
  | [] => t
  | e :: l' => reset_all l' (<[e_ID e := with_status ExecutionStatusEmitted None e]> t)
  end.

Lemma reset_all_lookup_ne l t i : i ∉ map e_ID l -> reset_all l t !! i = t !! i.
Proof.
  revert t. induction l as [|e l IH]; intros t Hi; cbn in *; [done |].
  apply not_elem_of_cons in Hi as [? Hi]. rewrite IH by done. by rewrite lookup_insert_ne.
Qed.

Lemma reset_all_lookup l t e : NoDup (map e_ID l) -> e ∈ l ->
  reset_all l t !! e_ID e = Some (with_status ExecutionStatusEmitted None e).
Proof.
  revert t. induction l as [|x l IH]; intros t Hnd He; cbn in *; [by apply elem_of_nil in He |].
  apply NoDup_cons in Hnd as [Hx Hnd]. apply elem_of_cons in He as [->|He]; [|by apply IH].
  rewrite reset_all_lookup_ne by done. apply lookup_insert_eq.
Qed.

Lemma reset_loop v l : forall db, NoDup (map e_ID l) ->
  (forall e, e ∈ l -> executions db !! e_ID e = Some e) ->
  for_each l (fun e => update_execution (e_ID e) (fun _ => True) (with_status ExecutionStatusEmitted None) ≫= fun _ => mret tt) v db
    = Ok (tt, set_executions (reset_all l (executions db)) db).
Proof.
  induction l as [|e l IH]; intros db Hnd Hl; cbn; [by destruct db |].
  apply NoDup_cons in Hnd as [Hx Hnd].
  erewrite stmt_bind_Ok; [|erewrite stmt_bind_Ok; [reflexivity |];
    apply (update_execution_hit _ _ _ _ _ e); [apply Hl; by left | done]].
  rewrite IH; [done | done |]. intros e' He'. cbn. rewrite lookup_insert_ne; [apply Hl; by right |].
  intros Heq. apply Hx. rewrite Heq. by apply list_elem_of_fmap_2.
Qed.

Lemma rows_NoDup db : wf_db db -> NoDup (map e_ID (rows (executions db))).
Proof.
  intros Hwf. unfold rows.
  assert (E : map e_ID (pg_order (map_to_list (executions db)).*2) ≡ₚ (map_to_list (executions db)).*1).
  { rewrite pg_order_perm. change (map e_ID) with (fmap (M := list) e_ID). rewrite <- list_fmap_compose.
    apply reflexive_eq. apply list_fmap_ext. intros k [i e] Hk. cbn.
    apply list_elem_of_lookup_2, elem_of_map_to_list in Hk. by destruct (wf_execution _ Hwf _ _ Hk). }
  rewrite E. apply NoDup_fst_map_to_list.
Qed.

Lemma NoDup_map_sub (l l' : list Execution) : l ⊆+ l' -> NoDup (map e_ID l') -> NoDup (map e_ID l).
Proof.
  intros (k & ->)%submseteq_Permutation Hnd. rewrite map_app in Hnd. by apply NoDup_app in Hnd as [? _].
Qed.

(** What [queryRequeueStaleExecutions] does: it resets the oldest stale rows, at
    most [n], and gives their number. *)
Lemma requeue_spec t n v db :
  wf_db db -> (0 <= n)%Z ->
  exists l, queryRequeueStaleExecutions t n v db =
      Ok (Z.of_nat (length l), set_executions (reset_all l (executions db)) db) /\
    NoDup (map e_ID l) /\ (Z.of_nat (length l) <= n)%Z /\ Forall (stale v t db) l /\
    (forall e, stale v t db e -> e ∉ l ->
       Z.of_nat (length l) = n /\
       forall e', e' ∈ l -> (default 0 (e_ClaimedAt e') <= default 0 (e_ClaimedAt e))%Z).
Proof.
  intros Hwf Hn. unfold queryRequeueStaleExecutions.
  rewrite (stmt_bind_Ok server _ v db v db eq_refl).
  erewrite stmt_bind_Ok; [|reflexivity]. cbn beta.
  set (sel := filter _ (rows (executions db))). set (key := fun e => default 0%Z (e_ClaimedAt e)).
  assert (Hsel : forall e, e ∈ sel <-> stale v t db e).
  { intros e. unfold sel, stale. rewrite list_elem_of_filter, elem_of_rows. split.
    - intros [(Hs & Hc & Hl) [i Hi]]. destruct (wf_execution _ Hwf _ _ Hi) as [<- _]. auto.
    - intros (Hi & Hs & Hc & Hl). eauto. }
  set (ord := order_by asc key sel).
  destruct (page_spec asc key (Z.to_nat n) sel) as (Hsub & _ & Hlen & Hmiss). fold ord in Hsub, Hlen, Hmiss.
  exists (take (Z.to_nat n) ord).
  assert (Hnd : NoDup (map e_ID (take (Z.to_nat n) ord))).
  { eapply NoDup_map_sub; [|apply (rows_NoDup _ Hwf)].
    etrans; [apply submseteq_take |]. unfold ord. rewrite order_by_perm. apply sublist_submseteq, sublist_filter. }
  assert (Hall : forall e, e ∈ take (Z.to_nat n) ord -> stale v t db e) by (intros e He; by apply Hsel, Hsub).
  split_and!; [|done | lia | by apply Forall_forall |].
  - erewrite stmt_bind_Ok; [|unfold limit; rewrite (proj2 (Z.ltb_ge n 0)) by lia; reflexivity].
    erewrite stmt_bind_Ok; [reflexivity |]. apply reset_loop; [done |].
    intros e He. by apply Hall.
  - intros e He%Hsel Hne. destruct (Hmiss e He Hne) as [Hl Hle]. split; [lia |]. exact Hle.
Qed.

Lemma wf_reset_all l : forall db, wf_db db -> NoDup (map e_ID l) ->
  Forall (fun e => executions db !! e_ID e = Some e /\ e_AcknowledgedAt e = None) l ->
  wf_db (set_executions (reset_all l (executions db)) db).
Proof.
  induction l as [|e l IH]; intros db Hwf Hnd Hl; [by destruct db |].
  cbn [map] in Hnd. apply NoDup_cons in Hnd as [Hx Hnd]. apply Forall_cons in Hl as [[Hi Ha] Hl].
  set (db1 := set_executions (<[e_ID e := with_status ExecutionStatusEmitted None e]> (executions db)) db).
  assert (H1 : wf_db db1) by (eapply wf_put_execution; eauto; cbn; congruence).
  refine (IH db1 H1 Hnd _). apply Forall_forall. intros e' He'.
  destruct (proj1 (Forall_forall _ _) Hl e' He') as [Hi' Ha']. split; [|done].
  cbn. rewrite lookup_insert_ne; [done |].
  intros Heq. apply Hx. rewrite Heq. by apply list_elem_of_fmap_2.
Qed.

Lemma wf_requeue t n : tx_inv wf_db (queryRequeueStaleExecutions t n).
Proof.
  intros v db a db' Hwf E. destruct (Z.ltb_spec n 0) as [Hn|Hn].
  { unfold queryRequeueStaleExecutions, limit in E. rewrite (proj2 (Z.ltb_lt n 0)) in E by done. discriminate. }
  destruct (requeue_spec t n v db Hwf Hn) as (l & E' & Hnd & _ & Hl & _). rewrite E' in E.
  injection E as _ <-. clear E' Hn.
  assert (Hl' : Forall (fun e => executions db !! e_ID e = Some e /\ e_AcknowledgedAt e = None) l).
  { eapply Forall_impl; [exact Hl |]. intros e (Hi & Hs & _). split; [done |].
    destruct (wf_execution _ Hwf _ _ Hi) as (_ & _ & Hack). rewrite Hs in Hack.
    destruct (e_AcknowledgedAt e); [|done]. by ospecialize (Hack _). }
  clear Hl. by apply wf_reset_all.
Qed.

(** Every transaction of the store keeps the database whole. *)
Lemma wf_writers c : writers_keep wf_db c.
Proof.
  destruct c; cbn; auto using wf_insert_schedule, wf_insert_job, wf_upsert_tag, wf_update_job, wf_update_schedule,
    wf_delete_tags, wf_delete_job, wf_insert_execution, wf_ack, wf_update_status, wf_requeue, wf_insert_key,
    wf_delete_key, wf_last_used, wf_insert_session, wf_refresh_session, wf_delete_session, wf_insert_attempt.
  apply run_tx_keeps, wf_dequeue.
Qed.
End claims.
