(* ===== verification/StoreProps.v ===== *)
(** * Properties of the store

    What the calls of [internal/store/postgres] promise to their callers, for
    every database that satisfies [wf_db] and every behaviour of the other
    connections that keeps it.  [PgSim] is a concrete server at which the
    properties are evaluated. *)
From S2P Require Import Prelude GoStrings Domain Pg Store StoreTheory.

(** ** A concrete server *)
Module PgSim.
(** Timestamps are truncated to microseconds, rows come in key order. *)
#[export] Instance sim_pg : Postgres.
Proof.
  refine {|
    pg_ts t := (t / Microsecond * Microsecond)%Z;
    pg_order A l := l;
    pg_ilike p s := Contains (ToLower s) (ToLower (drop_bytes 1 (take_bytes (String.length p - 1) p)));
    pg_text_le := String.leb |}.
  intros A l. reflexivity.
Defined.

(** A server that nobody else uses, whose clock advances by a second per call. *)
Definition alone (db : DB) : pg :=
  {| pg_db := db; pg_ios := fun n =>
       {| io_others := fun db => db; io_fault := None;
          io_env := {| now := Z.of_nat (S n) * Second; locked := ∅ |} |} |}.

Definition job1 : Job :=
  {| j_ID := 1; j_Namespace := "prod"; j_Name := "Backup"; j_Enabled := true; j_ScheduleID := 11;
     j_Delivery := {| d_Type := "webhook"; d_WebhookURL := "https://example.com/hook"; d_Secret := "s";
                      d_Timeout := 30 * Second |};
     j_Analytics := {| a_Enabled := false; a_RetentionSeconds := 86400 |};
     j_CreatedAt := 0; j_UpdatedAt := 0 |}.
Definition sched1 : Schedule :=
  {| s_ID := 11; s_CronExpression := "* * * * *"; s_Timezone := "UTC"; s_CreatedAt := 0; s_UpdatedAt := 0 |}.
Definition exec1 : Execution :=
  {| e_ID := 21; e_JobID := 1; e_Namespace := "prod"; e_TriggerType := TriggerTypeScheduled;
     e_ScheduledAt := 60 * Second; e_FiredAt := 60 * Second; e_Status := ExecutionStatusEmitted;
     e_AcknowledgedAt := None; e_CreatedAt := 60 * Second; e_ClaimedAt := None |}.
Definition key1 : APIKey :=
  {| k_ID := 31; k_Namespace := "prod"; k_TokenHash := "h"; k_Label := ""; k_Enabled := true;
     k_CreatedAt := 0; k_LastUsedAt := None |}.
(** One job and one execution of it. *)
Definition setup : list call :=
  [CCreateJobAggregate job1 sched1 [{| t_Key := "team"; t_Value := "ops" |}]; CInsertExecution exec1].
Definition w1 : pg := exec (calls setup) (alone empty_db).

Lemma empty_wf : wf_db empty_db.
Proof. constructor; cbn; try apply map_Forall_empty; intros ? ? ? ? E; by rewrite lookup_empty in E. Qed.
Lemma alone_good I db : I db -> good I (alone db).
Proof. split; [done |]. auto. Qed.
Lemma w1_good : good wf_db w1.
Proof.
  apply (calls_keep wf_db setup); [|by apply alone_good, empty_wf].
  apply Forall_true. intros c. apply wf_writers.
Qed.
End PgSim.

(** ** Integrity *)

(** C10: whatever sequence of store calls a process makes, and whatever the other
    connections do as long as they keep the database whole, the database keeps
    its referential integrity, the uniqueness of fires and of token hashes, the
    order of session expiries, and acknowledges terminal executions only. *)
Theorem store_integrity `{!Postgres} (l : list call) (w : pg) :
  good wf_db w -> wf_db (pg_db (exec (calls l) w)).
Proof.
  intros Hw. apply (calls_keep wf_db l); [|done].
  apply Forall_true. intros c. apply wf_writers.
Qed.

Lemma store_integrity_witness :
  let l := [CDequeueExecution; CUpdateExecutionStatus 21 ExecutionStatusDelivered; CAckExecution 21 "prod";
            CDeleteJob 1 "prod"] in
  good wf_db PgSim.w1 /\ wf_db (pg_db (exec (@calls PgSim.sim_pg l) PgSim.w1)).
Proof. split; [apply PgSim.w1_good | apply (@store_integrity PgSim.sim_pg); apply PgSim.w1_good]. Defined.

(** ** Terminal statuses *)

(** The execution has the given status, or is gone. *)
Definition settled (i : uuid) (s : string) (db : DB) : Prop :=
  forall e, executions db !! i = Some e -> e_Status e = s.
Definition not_inserting (i : uuid) (c : call) : Prop :=
  match c with CInsertExecution e => e_ID e <> i | _ => True end.

Section settled.
  Context `{!Postgres} (i : uuid) (s : string) (Hs : terminal s = true).
Let I db := wf_db db /\ settled i s db.

Lemma tx_settled {A} (q : stmt A) :
  tx_inv wf_db q -> (forall v db a db', I db -> q v db = Ok (a, db') -> settled i s db') -> tx_inv I q.
Proof. intros Hwf Hq v db a db' [H1 H2] E. split; [by eapply Hwf | by eapply (Hq v db)]. Qed.

Lemma settled_update_execution k P `{!forall e, Decision (P e)} f :
  (forall e, P e -> terminal (e_Status e) = true -> e_Status (f e) = e_Status e) ->
  forall v db a db', I db -> update_execution k P f v db = Ok (a, db') -> settled i s db'.
Proof.
  intros Hf v db a db' [_ Hi] E. unfold update_execution in E.
  repeat (case_match || case_decide); injection E as ? ?; subst; try done.
  intros x. cbn. destruct (decide (k = i)) as [->|]; [|rewrite lookup_insert_ne by done; apply Hi].
  rewrite lookup_insert_eq. intros [= <-]. rewrite Hf; auto. by rewrite (Hi e).
Qed.

Lemma not_terminal_settled db e : I db -> executions db !! e_ID e = Some e -> terminal (e_Status e) = false -> e_ID e <> i.
Proof. intros [_ Hi] He Ht <-. rewrite (Hi e He) in Ht. congruence. Qed.

Lemma settled_reset_all l : forall t, (forall e, e ∈ l -> e_ID e <> i) -> reset_all l t !! i = t !! i.
Proof.
  intros t Hl. apply reset_all_lookup_ne. intros (e & He & Hin)%list_elem_of_fmap. by apply (Hl e).
Qed.

(** A statement that leaves the executions alone. *)
Ltac same_executions :=
  apply tx_settled; [auto using wf_insert_schedule, wf_insert_job, wf_upsert_tag, wf_update_job, wf_update_schedule,
    wf_delete_tags, wf_insert_key, wf_delete_key, wf_last_used, wf_insert_session, wf_refresh_session,
    wf_delete_session, wf_insert_attempt |];
  intros v db a0 db' [_ Hi] E; revert E;
  unfold queryInsertSchedule, queryInsertJob, queryUpsertTag, queryUpdateJob, queryUpdateSchedule, queryDeleteTags,
    queryInsertAPIKey, queryDeleteKey, queryUpdateLastUsedAt, queryInsertAdminSession, queryRefreshAdminSession,
    queryDeleteAdminSession, queryInsertDeliveryAttempt, update, server, mbind, stmt_bind;
  repeat (case_match || case_decide); intros; simplify_eq; exact Hi.

Lemma settled_writers c : not_inserting i c -> writers_keep I c.
Proof.
  intros Hc. destruct c; cbn [writers_keep not_inserting] in *; try done; split_and?; try (let t := fresh in intros t; lazymatch type of t with Tag => idtac | _ => fail end); try same_executions.
  - apply tx_settled; [apply wf_delete_job |]. intros v db a0 db' [_ Hi] E. revert E. unfold queryDeleteJob.
    repeat (case_match || case_decide); intros; simplify_eq; try exact Hi.
    intros x [Hx _]%map_lookup_filter_Some. by apply Hi.
  - apply tx_settled; [apply wf_insert_execution |]. intros v db a0 db' [_ Hi] E. revert E. unfold queryInsertExecution.
    cbv zeta. repeat (case_match || case_decide); intros; simplify_eq.
    intros x. cbn. rewrite lookup_insert_ne by done. apply Hi.
  - apply tx_settled; [apply wf_ack |]. intros v db a0 db'. unfold queryAckExecution.
    rewrite (stmt_bind_Ok server _ v db v db eq_refl). by apply settled_update_execution.
  - apply tx_settled; [apply wf_update_status |]. apply settled_update_execution. congruence.
  - apply run_tx_keeps, tx_settled; [apply wf_dequeue |]. intros v db a db' [Hwf Hi] E.
    destruct (dequeue_tx_spec v db Hwf) as [[E' _]|(e & (He & Hst & _) & _ & E')]; rewrite E' in E;
      injection E as <- <-; [done |].
    intros x. cbn. rewrite lookup_insert_ne; [apply Hi |]. eapply not_terminal_settled; [by split | done |].
    by rewrite Hst.
  - apply tx_settled; [apply wf_requeue |]. intros v db a db' [Hwf Hi] E. destruct (Z.ltb_spec n 0) as [Hn|Hn].
    { unfold queryRequeueStaleExecutions, limit in E. rewrite (proj2 (Z.ltb_lt n 0)) in E by done. discriminate. }
    destruct (requeue_spec t n v db Hwf Hn) as (l & E' & _ & _ & Hl & _). rewrite E' in E. injection E as _ <-.
    intros x. cbn. rewrite settled_reset_all; [apply Hi |]. intros e He.
    destruct (proj1 (Forall_forall _ _) Hl e He) as (Hie & Hst & _).
    eapply not_terminal_settled; [by split | done |]. by rewrite Hst.
Qed.
End settled.

(** C11: an execution that is delivered or failed keeps that status: no sequence
    of store calls takes it out of it, unless the execution is deleted and a new
    one is inserted under the same identifier. *)
Theorem terminal_status_is_final `{!Postgres} (i : uuid) (s : string) (l : list call) (w : pg) :
  terminal s = true -> Forall (not_inserting i) l ->
  good (fun db => wf_db db /\ settled i s db) w ->
  settled i s (pg_db (exec (calls l) w)).
Proof.
  intros Hs Hl Hw. apply (calls_keep (fun db => wf_db db /\ settled i s db) l); [|done].
  eapply Forall_impl; [exact Hl |]. intros c. by apply settled_writers.
Qed.

Lemma terminal_status_is_final_witness :
  let w := exec (@do PgSim.sim_pg (CUpdateExecutionStatus 21 ExecutionStatusDelivered)) PgSim.w1 in
  let l := [CDequeueExecution; CUpdateExecutionStatus 21 ExecutionStatusFailed;
            CRequeueStaleExecutions (1000 * Second) 10; CAckExecution 21 "prod"] in
  executions (pg_db w) !! 21%N <> None /\
  settled 21 ExecutionStatusDelivered (pg_db (exec (@calls PgSim.sim_pg l) w)).
Proof.
  split; [vm_compute; discriminate |].
  apply (@terminal_status_is_final PgSim.sim_pg 21 ExecutionStatusDelivered); [reflexivity | repeat constructor |].
  split; [split |].
  - change (wf_db (pg_db (exec (@do PgSim.sim_pg (CUpdateExecutionStatus 21 ExecutionStatusDelivered)) PgSim.w1))).
    apply (@do_keeps PgSim.sim_pg wf_db); [apply wf_writers | apply PgSim.w1_good].
  - intros e He. vm_compute in He. injection He as <-. reflexivity.
  - intros n db Hdb. exact Hdb.
Defined.

(** ** Calls that do not fail *)

(** The next exchange with the server goes through. *)
Definition calm (w : pg) : Prop := io_fault (shd (pg_ios w)) = None.
(** What the transaction of the next call works on. *)
Definition seen (w : pg) : DB := io_others (shd (pg_ios w)) (pg_db w).
Definition env_of (w : pg) : env := io_env (shd (pg_ios w)).

Lemma run_tx_Ok {A} (s : stmt A) w a db' :
  calm w -> s (env_of w) (seen w) = Ok (a, db') ->
  run_tx s w = (Ok a, {| pg_db := db'; pg_ios := stl (pg_ios w) |}).
Proof. unfold calm, run_tx, seen, env_of. intros -> ->. done. Qed.

Lemma run_tx_Err {A} (s : stmt A) w e :
  calm w -> s (env_of w) (seen w) = Err e ->
  run_tx s w = (Err e, {| pg_db := seen w; pg_ios := stl (pg_ios w) |}).
Proof. unfold calm, run_tx, seen, env_of. intros -> ->. done. Qed.

Lemma run_tx_fmap {A B} (f : A -> B) (m : st pg A) w : (f <$> m) w = (f (m w).1, (m w).2).
Proof. unfold fmap, st_fmap. by destruct (m w). Qed.

Lemma one_row_some {A} (s : stmt (list A)) v db a l db' :
  s v db = Ok (a :: l, db') -> one_row s v db = Ok (a, db').
Proof. intros E. unfold one_row. by rewrite (stmt_bind_Ok s _ v db _ _ E). Qed.
Lemma one_row_none {A} (s : stmt (list A)) v db db' :
  s v db = Ok ([], db') -> one_row s v db = Err ENoRows.
Proof. intros E. unfold one_row. by rewrite (stmt_bind_Ok s _ v db _ _ E). Qed.

Section calls.
  Context `{!Postgres}.

(** A dequeue that reaches the database either finds no emitted execution
    that nobody has locked, and changes nothing, or claims the oldest of them:
    the row becomes [in_progress] with the server's time, and the caller gets it
    with that status. *)
Lemma dequeue_claims_oldest (w : pg) :
  calm w -> wf_db (seen w) ->
  (forall e, ~ claimable (env_of w) (seen w) e) /\
    DequeueExecution w = (Ok None, {| pg_db := seen w; pg_ios := stl (pg_ios w) |}) \/
  exists e, claimable (env_of w) (seen w) e /\
    (forall e', claimable (env_of w) (seen w) e' -> (e_CreatedAt e <= e_CreatedAt e')%Z) /\
    eval DequeueExecution w = Ok (Some (with_status ExecutionStatusInProgress None (scanSingleExecution e))) /\
    executions (pg_db (exec DequeueExecution w)) =
      <[e_ID e := with_status ExecutionStatusInProgress (Some (now (env_of w))) e]> (executions (seen w)).
Proof.
  intros Hc Hwf. unfold DequeueExecution, eval, exec.
  destruct (dequeue_tx_spec (env_of w) (seen w) Hwf) as [[E Hno] | (e & He & Hmin & E)].
  - left. split; [done |]. by apply run_tx_Ok.
  - right. exists e. rewrite (run_tx_Ok _ _ _ _ Hc E). done.
Qed.

(** C16: two dequeues in a row never give the same execution, whatever other
    connections do in between as long as they do not put a claimed execution
    back. *)
Theorem no_double_claim (w : pg) (e1 e2 : Execution) :
  let w' := exec DequeueExecution w in
  calm w -> calm w' -> wf_db (seen w) -> wf_db (seen w') ->
  (forall i e, executions (pg_db w') !! i = Some e -> e_Status e = ExecutionStatusInProgress ->
     forall e', executions (seen w') !! i = Some e' -> e_Status e' <> ExecutionStatusEmitted) ->
  eval DequeueExecution w = Ok (Some e1) -> eval DequeueExecution w' = Ok (Some e2) ->
  e_ID e1 <> e_ID e2.
Proof.
  intros w' Hc Hc' Hwf Hwf' Hkeep E1 E2. subst w'. unfold DequeueExecution, eval, exec in *.
  destruct (dequeue_tx_spec (env_of w) (seen w) Hwf) as [[E _] | (x & _ & _ & E)];
    rewrite (run_tx_Ok _ _ _ _ Hc E) in *; cbn [fst snd] in *; [discriminate |]. injection E1 as <-.
  match type of Hc' with calm ?w2 => set (w' := w2) in * end.
  destruct (dequeue_tx_spec (env_of w') _ Hwf') as [[E' _] | (y & (Hy & Hst & _) & _ & E')];
    rewrite (run_tx_Ok _ _ _ _ Hc' E') in E2; cbn [fst] in E2; [discriminate |]. injection E2 as <-.
  cbn. intros Heq. refine (Hkeep (e_ID x) _ _ _ y _ Hst); [apply lookup_insert_eq | done | by rewrite Heq].
Qed.

(** A status update whose two exchanges go through reports exactly what the
    guard of the UPDATE decided: success, with the row in the new status, for an
    execution that is not terminal; a denied transition for one that is; no rows
    for one that does not exist (nobody else touching the execution meanwhile). *)
Lemma update_status_outcome (w : pg) (i : uuid) (status : string) :
  let w' := exec (run_tx (queryUpdateExecutionStatus status i)) w in
  calm w -> calm w' -> executions (seen w') !! i = executions (pg_db w') !! i ->
  match executions (seen w) !! i with
  | None => eval (UpdateExecutionStatus i status) w = Err ENoRows /\
      pg_db (exec (UpdateExecutionStatus i status) w) = seen w'
  | Some e =>
      if terminal (e_Status e)
      then eval (UpdateExecutionStatus i status) w = Err EStatusTransitionDenied /\
           pg_db (exec (UpdateExecutionStatus i status) w) = seen w'
      else eval (UpdateExecutionStatus i status) w = Ok tt /\
           executions (pg_db (exec (UpdateExecutionStatus i status) w)) =
             <[i := with_status status (e_ClaimedAt e) e]> (executions (seen w))
  end.
Proof.
  intros w' Hc Hc' Hsame. unfold UpdateExecutionStatus, eval, exec, mbind, st_bind. subst w'. unfold exec in *.
  unfold queryUpdateExecutionStatus in *.
  destruct (executions (seen w) !! i) as [e|] eqn:Hi.
  - destruct (terminal (e_Status e)) eqn:Ht.
    + assert (E : update_execution i (fun e => terminal (e_Status e) = false)
        (fun e => with_status status (e_ClaimedAt e) e) (env_of w) (seen w) = Ok (0%Z, seen w))
        by (apply update_execution_miss; intros ? ?; congruence).
      rewrite (run_tx_Ok _ _ _ _ Hc E) in *. cbn [fst snd Z.eqb] in *.
      rewrite run_tx_fmap. erewrite run_tx_Ok; [|exact Hc' |]; [done |].
      apply (one_row_some _ _ _ (e_Status e) []). unfold queryGetExecutionStatus, query.
      rewrite Hsame. cbn. by rewrite Hi.
    + rewrite (run_tx_Ok _ _ _ _ Hc (update_execution_hit _ _ _ _ _ e Hi Ht)) in *. done.
  - assert (E : update_execution i (fun e => terminal (e_Status e) = false)
      (fun e => with_status status (e_ClaimedAt e) e) (env_of w) (seen w) = Ok (0%Z, seen w))
      by (apply update_execution_miss; intros ? ?; congruence).
    rewrite (run_tx_Ok _ _ _ _ Hc E) in *. cbn [fst snd Z.eqb] in *.
    rewrite run_tx_fmap. erewrite run_tx_Err; [|exact Hc' |]; [done |].
    eapply one_row_none. unfold queryGetExecutionStatus, query. rewrite Hsame. cbn. by rewrite Hi.
Qed.
End calls.

Lemma dequeue_claims_oldest_witness :
  let w := PgSim.w1 in let P := PgSim.sim_pg in
  calm w /\ eval (@DequeueExecution P) w = Ok (Some (with_status ExecutionStatusInProgress None PgSim.exec1)) /\
  ((forall e, ~ @claimable (env_of w) (seen w) e) /\
    @DequeueExecution P w = (Ok None, {| pg_db := seen w; pg_ios := stl (pg_ios w) |}) \/
  exists e, @claimable (env_of w) (seen w) e /\
    (forall e', @claimable (env_of w) (seen w) e' -> (e_CreatedAt e <= e_CreatedAt e')%Z) /\
    eval (@DequeueExecution P) w = Ok (Some (with_status ExecutionStatusInProgress None (scanSingleExecution e))) /\
    executions (pg_db (exec (@DequeueExecution P) w)) =
      <[e_ID e := with_status ExecutionStatusInProgress (Some (now (env_of w))) e]> (executions (seen w))).
Proof.
  split; [reflexivity |]. split; [vm_compute; reflexivity |].
  apply (@dequeue_claims_oldest PgSim.sim_pg); [reflexivity | exact (proj1 PgSim.w1_good)].
Defined.

(** A second execution of the job, to claim two. *)
Definition exec2 : Execution :=
  {| e_ID := 22; e_JobID := 1; e_Namespace := "prod"; e_TriggerType := TriggerTypeScheduled;
     e_ScheduledAt := 120 * Second; e_FiredAt := 120 * Second; e_Status := ExecutionStatusEmitted;
     e_AcknowledgedAt := None; e_CreatedAt := 120 * Second; e_ClaimedAt := None |}.
Definition w2 : pg := exec (@do PgSim.sim_pg (CInsertExecution exec2)) PgSim.w1.
Lemma w2_good : good wf_db w2.
Proof. apply (@do_keeps PgSim.sim_pg wf_db); [apply wf_writers | apply PgSim.w1_good]. Qed.

Lemma no_double_claim_witness :
  let P := PgSim.sim_pg in let w := w2 in let w' := exec (@DequeueExecution P) w in
  exists e1 e2, eval (@DequeueExecution P) w = Ok (Some e1) /\ eval (@DequeueExecution P) w' = Ok (Some e2) /\
    e_ID e1 <> e_ID e2.
Proof.
  set (w' := exec (@DequeueExecution PgSim.sim_pg) w2).
  exists (with_status ExecutionStatusInProgress None PgSim.exec1), (with_status ExecutionStatusInProgress None exec2).
  split; [vm_compute; reflexivity |]. split; [vm_compute; reflexivity |].
  apply (@no_double_claim PgSim.sim_pg w2).
  - reflexivity.
  - reflexivity.
  - exact (proj1 w2_good).
  - assert (Hg : good wf_db w') by
      (apply (run_tx_keeps wf_db); [apply (@wf_dequeue PgSim.sim_pg) | apply w2_good]).
    exact (proj1 Hg).
  - change (seen w') with (pg_db w'). intros i e E Hst e' E'. assert (e = e') as <- by (apply (inj Some); exact (eq_trans (eq_sym E) E')).
    rewrite Hst. discriminate.
  - vm_compute. reflexivity.
  - vm_compute. reflexivity.
Defined.

Lemma update_status_outcome_witness :
  let w := PgSim.w1 in
  eval (UpdateExecutionStatus 21 ExecutionStatusDelivered) w = Ok tt /\
  executions (pg_db (exec (UpdateExecutionStatus 21 ExecutionStatusDelivered) w)) =
    <[21%N := with_status ExecutionStatusDelivered None PgSim.exec1]> (executions (seen w)).
Proof.
  exact (update_status_outcome PgSim.w1 21 ExecutionStatusDelivered eq_refl eq_refl eq_refl).
Defined.

(** ** Insertions and round trips *)
Section outcomes.
  Context `{!Postgres}.

(** An insertion of an execution that goes through either stores the row,
    unclaimed and unacknowledged, or reports a duplicate exactly when the
    identifier or the pair of job and scheduled time is taken; an unknown job is
    another error. Only the first case changes the database. *)
Lemma insert_execution_outcome (w : pg) (e : Execution) :
  calm w ->
  let taken := exists i x, executions (seen w) !! i = Some x /\ (i = e_ID e \/ same_fire (stored_execution e) x) in
  (~ taken /\ is_Some (jobs (seen w) !! e_JobID e) /\
     InsertExecution e w = (Ok tt, {| pg_db := set_executions (<[e_ID e := stored_execution e]> (executions (seen w))) (seen w);
                                      pg_ios := stl (pg_ios w) |})) \/
  ((taken \/ jobs (seen w) !! e_JobID e = None) /\
   (eval (InsertExecution e) w = Err (EDomain ErrDuplicateExecution) <-> taken) /\
   (exists er, eval (InsertExecution e) w = Err er) /\ pg_db (exec (InsertExecution e) w) = seen w).
Proof.
  intros Hc taken. unfold InsertExecution, eval, exec. rewrite run_tx_fmap.
  destruct (queryInsertExecution e (env_of w) (seen w)) as [[a db']|er] eqn:E; revert E;
    unfold queryInsertExecution; cbv zeta; case_decide as Hd.
  - destruct (jobs (seen w) !! e_JobID e) eqn:Hj; [|done]. intros [= <- <-]. left.
    destruct Hd as [Hid Hfire]. split_and!; [|eauto|].
    + intros (i & x & Hx & [-> | Hs]); [congruence | by apply (Hfire i x)].
    + erewrite run_tx_Ok; [done | done |]. unfold queryInsertExecution. cbv zeta.
      rewrite decide_True by done. by rewrite Hj.
  - done.
  - destruct (jobs (seen w) !! e_JobID e) eqn:Hj; [done |]. intros [= <-]. right.
    rewrite (run_tx_Err _ _ foreign_key_violation Hc); [|unfold queryInsertExecution; cbv zeta; rewrite decide_True by done; by rewrite Hj].
    cbn [fst snd]. split_and!; [auto | | eauto | done]. split; [by vm_compute |].
    destruct Hd as [Hid Hfire]. intros (i & x & Hx & [-> | Hs]); [congruence | by destruct (Hfire i x Hx)].
  - intros [= <-]. right.
    rewrite (run_tx_Err _ _ unique_violation Hc); [|unfold queryInsertExecution; cbv zeta; by rewrite decide_False].
    assert (Ht : taken).
    { destruct (executions (seen w) !! e_ID e) as [x|] eqn:Hx; [exists (e_ID e), x; auto |].
      destruct (decide (map_Forall (fun _ other => ~ same_fire (stored_execution e) other) (executions (seen w)))) as [|Hn];
        [by destruct Hd |].
      apply map_not_Forall in Hn as (i & x & Hx' & Hs); [|apply _]. exists i, x. split; [done |]. right.
      by apply dec_stable. }
    cbn [fst snd]. split_and!; [auto | | eauto | done]. split; [done |]. intros _. by vm_compute.
Qed.

(** A job that is created with a timeout of whole milliseconds is read back
    as it was given, with the precision of the database in its timestamps, and
    so is its schedule. *)
Lemma create_then_get (w : pg) (job : Job) (s : Schedule) (ts : list Tag) (ms : Z) :
  let w' := exec (CreateJobAggregate job s ts) w in
  calm w -> calm w' -> seen w' = pg_db w' ->
  j_ScheduleID job = s_ID s -> d_Timeout (j_Delivery job) = (ms * Millisecond)%Z -> in_int64 (ms * Millisecond) ->
  eval (CreateJobAggregate job s ts) w = Ok tt ->
  eval (GetJobWithSchedule (j_ID job)) w' = Ok (stored_job job, stored_schedule s).
Proof.
  intros w' Hc Hc' Hsame Hsch Ht Hr E. subst w'. unfold CreateJobAggregate in *. set (q := _ ≫= _) in *.
  destruct (q (env_of w) (seen w)) as [[[] db']|er] eqn:Eq;
    [|unfold eval in E; by rewrite (run_tx_Err _ _ _ Hc Eq) in E].
  unfold exec in *. rewrite (run_tx_Ok _ _ _ _ Hc Eq) in *. cbn [fst snd pg_db pg_ios] in *.
  assert (Hdb : jobs db' !! j_ID job = Some (stored_job (job_args job)) /\
                schedules db' !! s_ID s = Some (stored_schedule s)).
  { clear -Eq. revert Eq. unfold q. unfold queryInsertSchedule, mbind, stmt_bind.
    destruct (schedules (seen w) !! s_ID s); [done |]. unfold queryInsertJob.
    repeat case_match; try done. intros Eq.
    eapply (tx_for_each (fun db => jobs db !! j_ID job = Some (stored_job (job_args job)) /\
        schedules db !! s_ID s = Some (stored_schedule s))); [| |exact Eq].
    - intros t v db ? db1 Hdb. unfold queryUpsertTag. destruct Hdb as [E1 E2]. rewrite E1. intros [= _ <-]. by split.
    - simplify_eq. cbn. split; apply lookup_insert_eq. }
  destruct Hdb as [Hj Hs]. unfold GetJobWithSchedule, eval. rewrite run_tx_fmap.
  erewrite run_tx_Ok; [|exact Hc' |].
  2:{ eapply one_row_some. unfold queryGetJobWithSchedule, query. rewrite Hsame. cbn [pg_db].
      rewrite Hj. cbn [mbind option_bind]. unfold with_schedule. cbn [j_ScheduleID stored_job job_args with_timeout_of].
      rewrite Hsch, Hs. reflexivity. }
  cbn. do 2 f_equal. unfold scanJobRow, with_timeout_of, stored_job, job_args. cbn. f_equal.
  destruct (j_Delivery job); cbn in *. subst. f_equal.
  unfold Milliseconds. rewrite Z.quot_mul by done. by apply wrap64_id.
Qed.

(** The execution [k] is one of the job [i]. *)
Definition execution_of (db : DB) (i k : uuid) : bool :=
  match executions db !! k with Some e => bool_decide (e_JobID e = i) | None => false end.

(** Deleting a job works in the namespace of the job only.  It fails without
    any effect when the job is not there or belongs to another namespace;
    otherwise the job, its schedule, its tags, its executions and their delivery
    attempts go, and the rows of all other jobs stay. *)
Lemma delete_job_scoped (w : pg) (i : uuid) (ns : Namespace) :
  calm w ->
  (forall k j j', jobs (seen w) !! i = Some j -> jobs (seen w) !! k = Some j' ->
     j_ScheduleID j' = j_ScheduleID j -> k = i) ->
  let db := seen w in let db' := pg_db (exec (DeleteJob i ns) w) in
  match jobs db !! i with
  | Some j =>
      if decide (j_Namespace j = ns) then
        eval (DeleteJob i ns) w = Ok tt /\
        jobs db' = delete i (jobs db) /\ schedules db' = delete (j_ScheduleID j) (schedules db) /\
        (forall k, executions db' !! k = if execution_of db i k then None else executions db !! k) /\
        (forall k a, delivery_attempts db !! k = Some a ->
           delivery_attempts db' !! k = if execution_of db i (da_ExecutionID a) then None else Some a) /\
        (forall k key, tags db' !! (k, key) = if decide (k = i) then None else tags db !! (k, key))
      else eval (DeleteJob i ns) w = Err (EDomain ErrJobNotFound) /\ db' = db
  | None => eval (DeleteJob i ns) w = Err (EDomain ErrJobNotFound) /\ db' = db
  end.
Proof.
  intros Hc Hown db db'. subst db'. unfold DeleteJob, eval, exec. rewrite run_tx_fmap.
  destruct (jobs db !! i) as [j|] eqn:Hi.
  2:{ rewrite (run_tx_Err _ _ ENoRows Hc); [done |]. eapply one_row_none. unfold queryDeleteJob. fold db. by rewrite Hi. }
  case_decide as Hns.
  2:{ rewrite (run_tx_Err _ _ ENoRows Hc); [done |]. eapply one_row_none. unfold queryDeleteJob. fold db.
      by rewrite Hi, decide_False. }
  erewrite run_tx_Ok; [|done |].
  2:{ eapply one_row_some. unfold queryDeleteJob. fold db. rewrite Hi, decide_True by done. cbv zeta.
      rewrite decide_True; [reflexivity |]. cbn. intros k j' [Hk Hj']%lookup_delete_Some Hs. destruct Hk. symmetry. by eapply (Hown k j j'). }
  cbn. split_and!; try done.
  - intros k. rewrite map_lookup_filter. unfold execution_of. fold db.
    destruct (executions db !! k) as [e|]; [|done]. cbn. case_bool_decide; case_guard; done.
  - intros k a Ha. rewrite map_lookup_filter. fold db. rewrite Ha. cbn. unfold execution_of.
    rewrite map_lookup_filter. fold db. destruct (executions db !! da_ExecutionID a) as [e|]; cbn.
    + case_bool_decide; case_guard; cbn; case_guard; done.
    + case_guard; done.
  - intros k key. rewrite map_lookup_filter. fold db. destruct (tags db !! (k, key)); cbn; [|by case_decide].
    case_decide; case_guard; done.
Qed.
End outcomes.

Lemma insert_execution_outcome_witness :
  let P := PgSim.sim_pg in let w := PgSim.w1 in let e := exec2 in
  calm w /\
  let taken := exists i x, executions (seen w) !! i = Some x /\ (i = e_ID e \/ same_fire (@stored_execution P e) x) in
  (~ taken /\ is_Some (jobs (seen w) !! e_JobID e) /\
     @InsertExecution P e w = (Ok tt, {| pg_db := set_executions (<[e_ID e := @stored_execution P e]> (executions (seen w))) (seen w);
                                      pg_ios := stl (pg_ios w) |})) \/
  ((taken \/ jobs (seen w) !! e_JobID e = None) /\
   (eval (@InsertExecution P e) w = Err (EDomain ErrDuplicateExecution) <-> taken) /\
   (exists er, eval (@InsertExecution P e) w = Err er) /\ pg_db (exec (@InsertExecution P e) w) = seen w).
Proof. split; [reflexivity |]. apply (@insert_execution_outcome PgSim.sim_pg PgSim.w1 exec2). reflexivity. Defined.

Lemma create_then_get_witness :
  let P := PgSim.sim_pg in let w := PgSim.alone empty_db in
  let w' := exec (@CreateJobAggregate P PgSim.job1 PgSim.sched1 []) w in
  eval (@GetJobWithSchedule 1) w' = Ok (PgSim.job1, PgSim.sched1).
Proof.
  exact (@create_then_get PgSim.sim_pg (PgSim.alone empty_db) PgSim.job1 PgSim.sched1 [] 30000
    eq_refl eq_refl eq_refl eq_refl eq_refl ltac:(vm_compute; split; discriminate) eq_refl).
Defined.

Lemma delete_job_scoped_witness :
  let w := PgSim.w1 in let db' := pg_db (exec (DeleteJob 1 "prod") w) in
  executions db' !! 21%N = None /\ eval (DeleteJob 1 "prod") w = Ok tt.
Proof.
  assert (Ho : forall k j j', jobs (seen PgSim.w1) !! 1%N = Some j -> jobs (seen PgSim.w1) !! k = Some j' ->
    j_ScheduleID j' = j_ScheduleID j -> k = 1%N).
  { intros k j j' _ E' _. assert (Hj : exists x, jobs (seen PgSim.w1) = {[1%N := x]}) by (eexists; reflexivity).
    destruct Hj as [x Hj]. rewrite Hj in E'. by apply lookup_singleton_Some in E' as [<- _]. }
  assert (H := delete_job_scoped PgSim.w1 1 "prod" eq_refl Ho).
  cbv zeta in H. destruct H as (H1 & _ & _ & H2 & _). split; [|exact H1]. rewrite H2. reflexivity.
Defined.

(** ** Pages *)
Section pages.
  Context `{!Postgres}.

(** A page of rows with the property [P], at most [n] of them, in the order
    [le] of the key; a row with the property that is not on it comes after. *)
Definition is_page {A} (P : A -> Prop) (le : relation Z) (key : A -> Z) (n : Z) (l : list A) : Prop :=
  Forall P l /\ StronglySorted (by_key le key) l /\ (Z.of_nat (length l) <= n)%Z /\
  forall x, P x -> x ∉ l -> Z.of_nat (length l) = n /\ Forall (fun y => le (key y) (key x)) l.

Lemma select_page {A} (P : A -> Prop) le `{!RelDecision le, !Transitive le, !Total le} (key : A -> Z) n sel :
  (0 <= n)%Z -> (forall x, x ∈ sel <-> P x) -> is_page P le key n (take (Z.to_nat n) (order_by le key sel)).
Proof.
  intros Hn Hsel. destruct (page_spec le key (Z.to_nat n) sel) as (H1 & H2 & H3 & H4). split_and!.
  - apply Forall_forall. intros x Hx. by apply Hsel, H1.
  - done.
  - lia.
  - intros x Hx%Hsel Hne. destruct (H4 x Hx Hne). split; [lia |]. by apply Forall_forall.
Qed.

(** An enabled job after [afterID] with its schedule. *)
Definition enabled_after (db : DB) (afterID : uuid) (r : Job * Schedule) : Prop :=
  jobs db !! j_ID r.1 = Some r.1 /\ schedules db !! j_ScheduleID r.1 = Some r.2 /\ j_Enabled r.1 = true /\
  (afterID = Nil \/ (afterID < j_ID r.1)%N).

Lemma elem_of_join db r :
  wf_db db -> r ∈ jobs_join_schedules db <-> jobs db !! j_ID r.1 = Some r.1 /\ schedules db !! j_ScheduleID r.1 = Some r.2.
Proof.
  intros Hwf. unfold jobs_join_schedules. rewrite list_elem_of_omap. split.
  - intros (j & [i Hi]%elem_of_rows & Hw). unfold with_schedule in Hw. apply bind_Some in Hw as (s & Hs & [= <-]).
    cbn. destruct (wf_job _ Hwf _ _ Hi) as [<- _]. auto.
  - destruct r as [j s]; cbn. intros [Hj Hs]. exists j. split; [apply elem_of_rows; eauto |].
    unfold with_schedule. by rewrite Hs.
Qed.

(** A page of enabled jobs is the first [n] enabled jobs after the given
    identifier in the order of identifiers, each with its own schedule: an
    enabled job beyond it is missing only if the page is full and comes before. *)
Lemma enabled_jobs_page (w : pg) (n : Z) (afterID : uuid) :
  calm w -> wf_db (seen w) -> (0 <= n)%Z ->
  exists l, is_page (enabled_after (seen w) afterID) asc (fun r => Z.of_N (j_ID r.1)) n l /\
    GetEnabledJobs n afterID w =
      (Ok (map scanJobWithScheduleRow l), {| pg_db := seen w; pg_ios := stl (pg_ios w) |}).
Proof.
  intros Hc Hwf Hn. set (key := fun r : Job * Schedule => Z.of_N (j_ID r.1)).
  set (sel := filter (fun r => j_Enabled r.1 = true /\ (afterID = Nil \/ (afterID < j_ID r.1)%N)) (jobs_join_schedules (seen w))).
  exists (take (Z.to_nat n) (order_by asc key sel)). split.
  - apply select_page; [exact _ | exact _ | done |]. intros r. unfold sel, enabled_after.
    rewrite list_elem_of_filter, elem_of_join by done. tauto.
  - unfold GetEnabledJobs. rewrite run_tx_fmap.
    rewrite (run_tx_Ok _ _ (take (Z.to_nat n) (order_by asc key sel)) (seen w) Hc); [done |].
    unfold queryGetEnabledJobs. erewrite stmt_bind_Ok; [|reflexivity]. fold sel key.
    unfold limit. by rewrite (proj2 (Z.ltb_ge n 0)).
Qed.

(** A row that [ListJobs] may return. *)
Definition listed (f : JobFilter) (db : DB) (j : Job) : Prop :=
  (exists i, jobs db !! i = Some j) /\ job_conditions f db j.

(** A listing of jobs without an offset is a page of the jobs of the
    filter's namespace that satisfy all its conditions, newest first; the page
    has the filter's limit, which is between one and a thousand. *)
Lemma list_jobs_page (w : pg) (f : JobFilter) :
  calm w -> (lp_Offset (jf_ListParams f) <= 0)%Z ->
  let n := lp_Limit (WithDefaults (jf_ListParams f)) in
  (1 <= n <= 1000)%Z /\
  exists l, is_page (listed f (seen w)) desc j_CreatedAt n l /\
    Forall (fun j => j_Namespace j = jf_Namespace f) l /\
    ListJobs f w = (Ok (map scanJobRow l), {| pg_db := seen w; pg_ios := stl (pg_ios w) |}).
Proof.
  intros Hc Ho n. pose proof (WithDefaults_bounds (jf_ListParams f)) as [Hn _]. fold n in Hn. split; [done |].
  set (sel := filter (job_conditions (jf_defaults f) (seen w)) (rows (jobs (seen w)))).
  exists (take (Z.to_nat n) (order_by desc j_CreatedAt sel)).
  assert (Hp : is_page (listed f (seen w)) desc j_CreatedAt n (take (Z.to_nat n) (order_by desc j_CreatedAt sel))).
  { apply select_page; [exact _ | exact _ | lia |]. intros j. unfold sel, listed.
    rewrite list_elem_of_filter, elem_of_rows. tauto. }
  split; [done |]. split.
  - destruct Hp as [Hp _]. eapply Forall_impl; [exact Hp |]. intros j (_ & Hj & _). exact Hj.
  - unfold ListJobs. rewrite run_tx_fmap.
    rewrite (run_tx_Ok _ _ (take (Z.to_nat n) (order_by desc j_CreatedAt sel)) (seen w) Hc); [done |].
    unfold queryListJobs. erewrite stmt_bind_Ok; [|reflexivity]. fold sel. unfold limit_offset.
    change (lp_Limit (jf_ListParams (jf_defaults f))) with n.
    assert (lp_Offset (jf_ListParams (jf_defaults f)) = 0%Z) as ->.
    { unfold jf_defaults, WithDefaults; cbn. destruct (Z.ltb_spec (lp_Offset (jf_ListParams f)) 0); lia. }
    by rewrite (proj2 (Z.ltb_ge n 0)) by lia.
Qed.
End pages.

(** ** Requeues, keys and sessions *)
Section rest.
  Context `{!Postgres}.

(** A requeue puts back exactly the stale claims that it selects: at most
    [n] executions that are in progress, were claimed before the threshold and
    are not locked become emitted and unclaimed, oldest claims first, the answer
    is their number, and no other execution changes. *)
Lemma requeue_resets_stale (w : pg) (t : time) (n : Z) :
  calm w -> wf_db (seen w) -> (0 <= n)%Z ->
  let db' := pg_db (exec (RequeueStaleExecutions t n) w) in
  exists l, eval (RequeueStaleExecutions t n) w = Ok (Z.of_nat (length l)) /\
    (Z.of_nat (length l) <= n)%Z /\ Forall (stale (env_of w) t (seen w)) l /\
    (forall e, stale (env_of w) t (seen w) e -> e ∉ l -> Z.of_nat (length l) = n /\
       forall e', e' ∈ l -> (default 0 (e_ClaimedAt e') <= default 0 (e_ClaimedAt e))%Z) /\
    (forall e, e ∈ l -> executions db' !! e_ID e = Some (with_status ExecutionStatusEmitted None e)) /\
    (forall i, i ∉ map e_ID l -> executions db' !! i = executions (seen w) !! i).
Proof.
  intros Hc Hwf Hn db'. destruct (requeue_spec t n (env_of w) (seen w) Hwf Hn) as (l & E & Hnd & Hlen & Hall & Hmiss).
  exists l. subst db'. unfold RequeueStaleExecutions, eval, exec. rewrite (run_tx_Ok _ _ _ _ Hc E). cbn.
  split_and!; try done.
  - intros e He. by apply reset_all_lookup.
  - intros i Hi. by apply reset_all_lookup_ne.
Qed.

(** The bootstrap key is inserted only into an installation without keys,
    and is the only key afterwards; with any key present it is refused and
    nothing changes. *)
Lemma first_key_only_once (w : pg) (k : APIKey) :
  calm w ->
  if decide (api_keys (seen w) = ∅) then
    eval (InsertFirstAPIKey k) w = Ok tt /\
    exists row, api_keys (pg_db (exec (InsertFirstAPIKey k) w)) = {[k_ID k := row]} /\
      k_TokenHash row = k_TokenHash k /\ k_Namespace row = k_Namespace k /\ k_Enabled row = k_Enabled k
  else
    eval (InsertFirstAPIKey k) w = Err (EDomain ErrBootstrapAlreadyCompleted) /\
    pg_db (exec (InsertFirstAPIKey k) w) = seen w.
Proof.
  intros Hc. unfold InsertFirstAPIKey, eval, exec. set (q := _ ≫= _).
  assert (Hq : q (env_of w) (seen w) = if decide (api_keys (seen w) = ∅) then queryInsertAPIKey k (env_of w) (seen w)
                else Err (EDomain ErrBootstrapAlreadyCompleted)).
  { unfold q, queryHasAnyAPIKeys. erewrite stmt_bind_Ok; [|reflexivity].
    case_decide as He; [rewrite bool_decide_false by auto; done | by rewrite bool_decide_true]. }
  case_decide as He.
  - unfold queryInsertAPIKey in Hq. rewrite decide_True in Hq.
    2:{ rewrite He. split; [apply lookup_empty | apply map_Forall_empty]. }
    rewrite (run_tx_Ok _ _ _ _ Hc Hq). cbn. split; [done |]. eexists. split; [rewrite He; apply insert_empty | done].
  - by rewrite (run_tx_Err _ _ _ Hc Hq).
Qed.

(** A session that is handed out belongs to an enabled key and has expired
    neither by inactivity nor absolutely; a refresh moves only an unexpired
    session, and never past its absolute end. *)
Lemma sessions_expire (w : pg) (h : string) (t u : time) :
  calm w -> wf_db (seen w) ->
  (forall s k, eval (GetAdminSession h t) w = Ok (s, k) ->
     admin_sessions (seen w) !! h = Some s /\ api_keys (seen w) !! as_APIKeyID s = Some k /\
     k_Enabled k = true /\ (pg_ts t < as_ExpiresAt s <= as_AbsoluteExpiresAt s)%Z) /\
  (forall s, admin_sessions (pg_db (exec (RefreshAdminSession h t u) w)) !! h = Some s ->
     exists s0, admin_sessions (seen w) !! h = Some s0 /\ as_AbsoluteExpiresAt s = as_AbsoluteExpiresAt s0 /\
       (as_ExpiresAt s <= as_AbsoluteExpiresAt s)%Z /\
       (eval (RefreshAdminSession h t u) w = Ok tt -> (pg_ts t < as_ExpiresAt s0)%Z /\
          as_ExpiresAt s = Z.min (pg_ts u) (as_AbsoluteExpiresAt s0)) /\
       (eval (RefreshAdminSession h t u) w <> Ok tt -> s = s0)).
Proof.
  intros Hc Hwf. split.
  - intros s k. unfold GetAdminSession, eval. rewrite run_tx_fmap.
    destruct (admin_sessions (seen w) !! h) as [s0|] eqn:Hs;
      [destruct (api_keys (seen w) !! as_APIKeyID s0) as [k0|] eqn:Hk;
        [destruct (decide ((pg_ts t < as_ExpiresAt s0)%Z /\ (pg_ts t < as_AbsoluteExpiresAt s0)%Z /\ k_Enabled k0 = true)) as [Hd|Hd] |] |].
    2,3,4: rewrite (run_tx_Err _ _ ENoRows Hc); [done |]; eapply one_row_none; unfold queryGetAdminSession, query;
      rewrite Hs; cbn; rewrite ?Hk; cbn; rewrite ?decide_False by done; reflexivity.
    rewrite (run_tx_Ok _ _ (s0, k0) (seen w) Hc); [|eapply one_row_some; unfold queryGetAdminSession, query;
      rewrite Hs; cbn; rewrite Hk; cbn; rewrite decide_True by done; reflexivity].
    cbn. intros [= <- <-]. destruct (wf_session _ Hwf _ _ Hs) as (_ & _ & Hle). destruct Hd as (? & ? & ?). auto.
  - intros s. unfold RefreshAdminSession, eval, exec. rewrite run_tx_fmap.
    destruct (queryRefreshAdminSession t u h (env_of w) (seen w)) as [[n db']|e] eqn:E;
      [rewrite (run_tx_Ok _ _ _ _ Hc E) | rewrite (run_tx_Err _ _ _ Hc E)]; revert E;
      unfold queryRefreshAdminSession; destruct (admin_sessions (seen w) !! h) as [s0|] eqn:Hs; try case_decide as Hd;
      intros [= <- <-].
    + cbn. rewrite lookup_insert_eq. intros [= <-]. exists s0. cbn. split_and!; try done; [lia | intros _; tauto].
    + cbn. rewrite Hs. intros [= <-]. exists s0. destruct (wf_session _ Hwf _ _ Hs) as (_ & _ & Hle). split_and!; done.
    + cbn. by rewrite Hs.
Qed.
End rest.

(** The state [w1] with a session of its first key. *)
Definition session1 : AdminSession :=
  {| as_TokenHash := "t"; as_APIKeyID := 31; as_CSRFToken := "c"; as_CreatedAt := 0; as_LastSeenAt := 0;
     as_ExpiresAt := 100 * Second; as_AbsoluteExpiresAt := 300 * Second |}.
Definition w3 : pg :=
  exec (@calls PgSim.sim_pg [CInsertFirstAPIKey PgSim.key1; CCreateAdminSession session1; CDequeueExecution]) PgSim.w1.
Lemma w3_good : good wf_db w3.
Proof.
  apply (@calls_keep PgSim.sim_pg wf_db); [|apply PgSim.w1_good].
  apply Forall_true. intros c. apply (@wf_writers PgSim.sim_pg).
Qed.

Lemma enabled_jobs_page_witness :
  let P := PgSim.sim_pg in let w := PgSim.w1 in
  exists l, is_page (enabled_after (seen w) Nil) asc (fun r => Z.of_N (j_ID r.1)) 100 l /\
    @GetEnabledJobs P 100 Nil w = (Ok (map scanJobWithScheduleRow l), {| pg_db := seen w; pg_ios := stl (pg_ios w) |}).
Proof.
  apply (@enabled_jobs_page PgSim.sim_pg PgSim.w1 100 Nil); [reflexivity | exact (proj1 PgSim.w1_good) | discriminate].
Defined.

Definition filter1 : JobFilter :=
  {| jf_Namespace := "prod"; jf_Tags := [{| t_Key := "team"; t_Value := "ops" |}]; jf_Enabled := Some true;
     jf_Name := "back"; jf_ListParams := {| lp_Limit := 0; lp_Offset := 0 |} |}.
Lemma list_jobs_page_witness :
  let P := PgSim.sim_pg in let w := PgSim.w1 in let f := filter1 in
  eval (@ListJobs P f) w = Ok [PgSim.job1] /\
  let n := lp_Limit (WithDefaults (jf_ListParams f)) in
  (1 <= n <= 1000)%Z /\
  exists l, is_page (@listed P f (seen w)) desc j_CreatedAt n l /\
    Forall (fun j => j_Namespace j = jf_Namespace f) l /\
    @ListJobs P f w = (Ok (map scanJobRow l), {| pg_db := seen w; pg_ios := stl (pg_ios w) |}).
Proof.
  split; [vm_compute; reflexivity |].
  apply (@list_jobs_page PgSim.sim_pg PgSim.w1 filter1); [reflexivity | discriminate].
Defined.

Lemma requeue_resets_stale_witness :
  let P := PgSim.sim_pg in let w := w3 in let t := (1000 * Second)%Z in
  let db' := pg_db (exec (@RequeueStaleExecutions P t 10) w) in
  eval (@RequeueStaleExecutions P t 10) w = Ok 1%Z /\
  exists l, eval (@RequeueStaleExecutions P t 10) w = Ok (Z.of_nat (length l)) /\
    (Z.of_nat (length l) <= 10)%Z /\ Forall (@stale P (env_of w) t (seen w)) l /\
    (forall e, @stale P (env_of w) t (seen w) e -> e ∉ l -> Z.of_nat (length l) = 10%Z /\
       forall e', e' ∈ l -> (default 0 (e_ClaimedAt e') <= default 0 (e_ClaimedAt e))%Z) /\
    (forall e, e ∈ l -> executions db' !! e_ID e = Some (with_status ExecutionStatusEmitted None e)) /\
    (forall i, i ∉ map e_ID l -> executions db' !! i = executions (seen w) !! i).
Proof.
  split; [vm_compute; reflexivity |].
  apply (@requeue_resets_stale PgSim.sim_pg w3); [reflexivity | exact (proj1 w3_good) | discriminate].
Defined.

Lemma first_key_only_once_witness :
  let P := PgSim.sim_pg in
  eval (@InsertFirstAPIKey P PgSim.key1) PgSim.w1 = Ok tt /\
  eval (@InsertFirstAPIKey P PgSim.key1) w3 = Err (EDomain ErrBootstrapAlreadyCompleted).
Proof.
  split.
  - exact (proj1 (@first_key_only_once PgSim.sim_pg PgSim.w1 PgSim.key1 eq_refl)).
  - exact (proj1 (@first_key_only_once PgSim.sim_pg w3 PgSim.key1 eq_refl)).
Defined.

Lemma sessions_expire_witness :
  let P := PgSim.sim_pg in
  eval (@GetAdminSession P "t" (50 * Second)) w3 = Ok (session1, PgSim.key1) /\
  as_ExpiresAt session1 = (100 * Second)%Z /\
  (pg_ts (Postgres := P) (50 * Second) < as_ExpiresAt session1 <= as_AbsoluteExpiresAt session1)%Z.
Proof.
  assert (E : eval (@GetAdminSession PgSim.sim_pg "t" (50 * Second)) w3 = Ok (session1, PgSim.key1))
    by (vm_compute; reflexivity).
  split; [exact E |]. split; [reflexivity |].
  destruct (@sessions_expire PgSim.sim_pg w3 "t" (50 * Second) 0 eq_refl (proj1 w3_good)) as [H _].
  apply (H _ _ E).
Defined.
