(* ===== verification/Cron.v ===== *)
(** * Cron expressions: [internal/cron/parser.go]

    The parser of the source is a composition of the third-party cron parser
    (package robfig/cron) and of the time zone database; both are parameters of
    the class [CronLibrary]. *)
From S2P Require Import Prelude Domain.
Local Open Scope cron_scope.

Class CronLibrary : Type := {
  cron_spec : Type;
  Location : Type;
  (** [cron.Parser.Parse] for five fields *)
  spec_Parse : string -> result err cron_spec;
  (** [cron.Schedule.Next] of a time in a location *)
  spec_Next : cron_spec -> Location -> time -> time;
  (** [time.LoadLocation] *)
  LoadLocation : string -> result err Location;
}.

(** The interface [Schedule] is its method [Next]. *)
Definition CronSchedule : Type := time -> time.

Section parser.
  Context `{!CronLibrary}.

Definition Next (sched : cron_spec) (loc : Location) : CronSchedule := fun after => spec_Next sched loc after.

Definition Parse (expression timezone : string) : result err CronSchedule :=
  match spec_Parse expression with
  | Err e => Err (EWrap "parse cron" e)
  | Ok sched =>
      match LoadLocation timezone with
      | Err e => Err (EWrap "load timezone" e)
      | Ok loc => Ok (Next sched loc)
      end
  end.

Lemma Parse_Ok_location expression timezone sched :
  Parse expression timezone = Ok sched -> is_ok (LoadLocation timezone) = true.
Proof. unfold Parse. destruct (spec_Parse expression), (LoadLocation timezone); naive_solver. Qed.
End parser.

(** ** The documented behaviour of [Next]

    The next activation is later than the given time and no activation lies in
    between; the zero time says that there is none in the years that the library
    looks ahead. [fires] are the activations of the schedule. *)
Definition next_of (fires : time -> Prop) (next : CronSchedule) : Prop :=
  forall t, next t = 0%Z \/
    ((t < next t)%Z /\ fires (next t) /\ forall f, fires f -> (t < f)%Z -> (next t <= f)%Z).

(** The activations after a time, as the scheduler's loop meets them: at most
    [n] that are not after [now], and the time at which the loop stops. *)
Fixpoint due (next : CronSchedule) (n : nat) (t now : time) : list time * time :=
  match n with
  | O => ([], t)
  | S n' =>
      if After t now then ([], t)
      else let '(l, t') := due next n' (next t) now in (t :: l, t')
  end.

Section due.
  Variables (fires : time -> Prop) (next : CronSchedule).
  Hypothesis Hnext : next_of fires next.
  Hypothesis Hnz : forall t, next t <> 0%Z.

Lemma due_length n : forall t now, length (due next n t now).1 <= n.
Proof.
  induction n as [|n IH]; intros t now; cbn; [lia |]. destruct (After t now); cbn; [lia |].
  specialize (IH (next t) now). destruct (due next n (next t) now); cbn in *. lia.
Qed.

(** Everything that the loop meets is an activation in the window. *)
Lemma due_sound n : forall start now,
  Forall (fun t => fires t /\ (start < t <= now)%Z) (due next n (next start) now).1.
Proof.
  induction n as [|n IH]; intros start now; cbn; [constructor |].
  destruct (Hnext start) as [E|(Hlt & Hf & _)]; [by destruct (Hnz start) |].
  unfold After. destruct (Z.ltb_spec now (next start)) as [|Hle]; [constructor |].
  specialize (IH (next start) now). destruct (due next n (next (next start)) now) as [l t']; cbn in *.
  constructor; [split; [done | lia] |]. eapply Forall_impl; [exact IH |]. cbn. intros x [? ?]. split; [done | lia].
Qed.

(** An activation of the window that the loop did not meet is not before the
    time at which it stopped. *)
Lemma due_complete n : forall start now f,
  fires f -> (start < f)%Z -> f ∈ (due next n (next start) now).1 \/ ((due next n (next start) now).2 <= f)%Z.
Proof.
  induction n as [|n IH]; intros start now f Hf Hs; cbn.
  - right. destruct (Hnext start) as [E|(_ & _ & Hmin)]; [by destruct (Hnz start) | by apply Hmin].
  - destruct (Hnext start) as [E|(_ & _ & Hmin)]; [by destruct (Hnz start) |].
    unfold After. destruct (Z.ltb_spec now (next start)) as [|Hle]; [right; cbn; by apply Hmin |].
    destruct (due next n (next (next start)) now) as [l t'] eqn:E; cbn.
    destruct (Z.eq_dec f (next start)) as [->|Hne]; [left; by left |].
    destruct (IH (next start) now f Hf) as [Hin|Hle']; [pose proof (Hmin f Hf Hs); lia | |].
    + left. right. by rewrite E in Hin.
    + right. by rewrite E in Hle'.
Qed.

(** The loop meets the activations in increasing order. *)
Lemma due_increasing n : forall start now, StronglySorted Z.lt (due next n (next start) now).1.
Proof.
  induction n as [|n IH]; intros start now; cbn; [constructor |].
  destruct (After (next start) now); [constructor |].
  pose proof (due_sound n (next start) now) as Hs. specialize (IH (next start) now).
  destruct (due next n (next (next start)) now) as [l t']; cbn in *. constructor; [done |].
  eapply Forall_impl; [exact Hs |]. cbn. intros x [_ ?]. lia.
Qed.

(** The loop stops after [now], or when it has met [n] activations. *)
Lemma due_stop n : forall t now,
  After (due next n t now).2 now = true \/ length (due next n t now).1 = n.
Proof.
  induction n as [|n IH]; intros t now; cbn; [by right |].
  destruct (After t now) eqn:E; [by left |].
  specialize (IH (next t) now). destruct (due next n (next t) now) as [l t']; cbn in *.
  destruct IH; [by left | right; lia].
Qed.

(** The time at which the loop stops is later than everything that it met. *)
Lemma due_stop_after n : forall start now,
  (start < (due next n (next start) now).2)%Z /\
  Forall (fun t => (t < (due next n (next start) now).2)%Z) (due next n (next start) now).1.
Proof.
  induction n as [|n IH]; intros start now; cbn.
  - destruct (Hnext start) as [E|(? & _)]; [by destruct (Hnz start) | by repeat constructor].
  - destruct (Hnext start) as [E|(Hlt & _)]; [by destruct (Hnz start) |].
    destruct (After (next start) now); [by repeat constructor |].
    destruct (IH (next start) now) as [H1 H2].
    destruct (due next n (next (next start)) now) as [l t']; cbn in *. split; [lia |]. by constructor.
Qed.
End due.
