(* ===== verification/Scheduler.v ===== *)
(** * The scheduler: [internal/scheduler/scheduler.go]

    One tick of the scheduler: it walks the enabled jobs page by page and, for
    every job, inserts and emits an execution for each activation of its cron
    schedule since the last tick, up to a cap.  The store, the event emitter and
    the metrics sink are classes over the state [W] of the outside world; the
    method [GetLastScheduledExecution] is optional, as the type assertion of the
    source makes it. *)
From S2P Require Import Prelude GoStrings Domain Runtime Cron.
Local Open Scope cron_scope.

Definition DefaultJobPageSize : Z := 100.

Class SchedulerStore (W : Type) : Type := {
  GetEnabledJobs : Z -> uuid -> st W (result err (list JobWithSchedule));
  InsertExecution : Execution -> st W (result err unit);
  GetLastScheduledExecution : option (uuid -> st W (result err (option time)));
}.

Inductive tick_metric : Type :=
| TickStarted
| TickCompleted (d : duration) (jobsTriggered : Z) (e : option err)
| TickDrift (drift : duration).
Class TickSink (W : Type) : Type := { tick_observe : tick_metric -> st W unit }.

Record Config : Type := mkConfig { TickInterval : duration; MaxFiresPerTick : Z }.

Record Scheduler : Type := mkScheduler {
  sc_config : Config;
  sc_metrics : bool;
  sc_lastTick : time;
}.

Record processJobResult : Type := mkJobResult {
  pr_triggered : Z;
  pr_capped : bool;
  pr_cursor : time;
}.

Definition New (config : Config) : Scheduler :=
  {| sc_config := config; sc_metrics := false; sc_lastTick := 0 |}.
Definition WithMetrics (s : Scheduler) : Scheduler :=
  {| sc_config := sc_config s; sc_metrics := true; sc_lastTick := sc_lastTick s |}.
Definition set_lastTick (s : Scheduler) (t : time) : Scheduler :=
  {| sc_config := sc_config s; sc_metrics := sc_metrics s; sc_lastTick := t |}.

Definition tickInterval (s : Scheduler) : duration :=
  if (0 <? TickInterval (sc_config s))%Z then TickInterval (sc_config s) else Minute.

(** The bound of the loop over the due times. *)
Definition maxIterations (s : Scheduler) : nat :=
  Z.to_nat (if (MaxFiresPerTick (sc_config s) <=? 0)%Z then 1000 else MaxFiresPerTick (sc_config s)).

Section operations.
  Context {W : Type} `{!CronLibrary, !SchedulerStore W, !EventEmitter W, !TickSink W, !Runtime W}.
  Variable s : Scheduler.

Definition record_tick (m : tick_metric) : st W unit := when (sc_metrics s) (tick_observe m).

Definition emitExecution (job : Job) (scheduledAt now : time) : st W (result err unit) :=
  uuid_New ≫= fun executionID =>
  InsertExecution
    {| e_ID := executionID; e_JobID := j_ID job; e_Namespace := j_Namespace job;
       e_TriggerType := TriggerTypeScheduled; e_ScheduledAt := scheduledAt; e_FiredAt := now;
       e_Status := ExecutionStatusEmitted; e_AcknowledgedAt := None; e_CreatedAt := now;
       e_ClaimedAt := None |} ≫= fun r =>
  match r with
  | Err e =>
      if errors_Is e (EDomain ErrDuplicateExecution) then mret (Ok tt)
      else mret (Err (EWrap "insert execution" e))
  | Ok _ =>
      Emit {| ev_ExecutionID := executionID; ev_JobID := j_ID job; ev_Namespace := j_Namespace job;
              ev_ScheduledAt := scheduledAt; ev_FiredAt := now; ev_CreatedAt := now |} ≫= fun r =>
      mret (match r with Ok _ => Ok tt | Err e => Err (EWrap "emit" e) end)
  end.

Definition windowStart (jws : JobWithSchedule) (lastTick now : time) : st W time :=
  if negb (IsZero lastTick) then mret lastTick else
  let cursor := j_CreatedAt (jws_Job jws) in
  let cursor := if IsZero cursor || After cursor now then time_add now (- tickInterval s) else cursor in
  match GetLastScheduledExecution with
  | None => mret cursor
  | Some lookup =>
      try found := lookup (j_ID (jws_Job jws)) catch e => mret cursor in
      mret (match found with
            | Some lastScheduledAt => if After lastScheduledAt cursor then lastScheduledAt else cursor
            | None => cursor
            end)
  end.

(** The loop over the due times, with the time at which it stops. *)
Fixpoint fire_loop (n : nat) (next : CronSchedule) (job : Job) (now t : time) (result : processJobResult) :
    st W (processJobResult * time) :=
  match n with
  | O => mret (result, t)
  | S n' =>
      if After t now then mret (result, t) else
      let scheduledAtUTC := Truncate t Minute in
      emitExecution job scheduledAtUTC now ≫= fun r =>
      let result := {|
        pr_triggered := if is_ok r then (pr_triggered result + 1)%Z else pr_triggered result;
        pr_capped := pr_capped result; pr_cursor := scheduledAtUTC |} in
      fire_loop n' next job now (next t) result
  end.

Definition zero_job_result : processJobResult := {| pr_triggered := 0; pr_capped := false; pr_cursor := 0 |}.

(** The result is given also when an error accompanies it. *)
Definition processJobWithProgress (jws : JobWithSchedule) (lastTick now : time) :
    st W (processJobResult * option err) :=
  windowStart jws lastTick now ≫= fun windowStart =>
  let tz := if String.eqb (s_Timezone (jws_Schedule jws)) "" then "UTC"%string else s_Timezone (jws_Schedule jws) in
  match LoadLocation tz with
  | Err e => mret (zero_job_result, Some (EWrap ("load tz " +:+ tz) e))
  | Ok _ =>
      match Parse (s_CronExpression (jws_Schedule jws)) tz with
      | Err e => mret (zero_job_result, Some (EWrap "parse cron" e))
      | Ok cronSched =>
          fire_loop (maxIterations s) cronSched (jws_Job jws) now (cronSched windowStart)
            {| pr_triggered := 0; pr_capped := false; pr_cursor := now |} ≫= fun '(result, t) =>
          mret ({| pr_triggered := pr_triggered result;
                   pr_capped := if negb (After t now) then true else pr_capped result;
                   pr_cursor := pr_cursor result |}, None)
      end
  end.

Definition processJob (jws : JobWithSchedule) (lastTick now : time) : st W (Z * option err) :=
  processJobWithProgress jws lastTick now ≫= fun '(result, e) => mret (pr_triggered result, e).

(** The jobs of one page, with the count and the next [lastTick] so far. *)
Fixpoint process_page (jobs : list JobWithSchedule) (now : time) (jobsTriggered : Z) (nextLastTick : time) :
    st W (Z * time) :=
  match jobs with
  | [] => mret (jobsTriggered, nextLastTick)
  | jws :: jobs' =>
      processJobWithProgress jws (sc_lastTick s) now ≫= fun '(result, jobErr) =>
      process_page jobs' now (jobsTriggered + pr_triggered result)
        (if pr_capped result && negb (IsZero (pr_cursor result)) && Before (pr_cursor result) nextLastTick
         then pr_cursor result else nextLastTick)
  end.

(** The loop over the pages; [None] when [fuel] pages were not enough. *)
Fixpoint process_pages (fuel : nat) (now : time) (afterID : uuid) (jobsTriggered : Z) (nextLastTick : time) :
    st W (option (Z * result err time)) :=
  match fuel with
  | O => mret None
  | S fuel' =>
      GetEnabledJobs DefaultJobPageSize afterID ≫= fun r =>
      match r with
      | Err e => mret (Some (jobsTriggered, Err e))
      | Ok jobs =>
          process_page jobs now jobsTriggered nextLastTick ≫= fun '(jobsTriggered, nextLastTick) =>
          if (Z.of_nat (length jobs) <? DefaultJobPageSize)%Z then mret (Some (jobsTriggered, Ok nextLastTick))
          else process_pages fuel' now (default Nil ((fun jws => j_ID (jws_Job jws)) <$> last jobs)) jobsTriggered nextLastTick
      end
  end.

(** A tick, with the scheduler after it. *)
Definition processTick (fuel : nat) : st W (option (result err unit * Scheduler)) :=
  record_tick TickStarted ≫= fun _ =>
  time_Now ≫= fun start =>
  process_pages fuel start Nil 0 start ≫= fun r =>
  match r with
  | None => mret None
  | Some (jobsTriggered, Err e) =>
      when (sc_metrics s) (time_Now ≫= fun t => tick_observe (TickCompleted (time_sub t start) jobsTriggered (Some e))) ≫= fun _ =>
      mret (Some (Err (EWrap "get jobs" e), s))
  | Some (jobsTriggered, Ok nextLastTick) =>
      when (sc_metrics s) (time_Now ≫= fun t => tick_observe (TickCompleted (time_sub t start) jobsTriggered None)) ≫= fun _ =>
      mret (Some (Ok tt, set_lastTick s nextLastTick))
  end.

(** One delivery of the ticker in [Run]: the drift is measured against the time
    at which the tick was expected, which is also moved on. *)
Definition run_tick (fuel : nat) (expectedNext tickTime : time) : st W (option (Scheduler * time)) :=
  record_tick (TickDrift (time_sub tickTime expectedNext)) ≫= fun _ =>
  let expectedNext := time_add tickTime (TickInterval (sc_config s)) in
  processTick fuel ≫= fun r =>
  mret (match r with None => None | Some (_, s') => Some (s', expectedNext) end).
End operations.
