(* ===== verification/SchedulerTheory.v ===== *)
(** * What a tick of the scheduler does

    The trace of the scheduler's calls ([SchedLog]), the loop over the due times
    as the pure function [due] of [Cron], and the window that a tick covers. *)
From S2P Require Import Prelude Trace GoStrings Domain Runtime Cron Scheduler.

Inductive sched_action : Type :=
| SGet (n : Z) (afterID : uuid) (r : result err (list JobWithSchedule))
| SLast (i : uuid) (r : result err (option time))
| SInsert (e : Execution) (r : result err unit)
| SEmit (ev : TriggerEvent) (r : result err unit)
| STick (m : tick_metric).

Class SchedLog (W : Type)
    `{!SchedulerStore W, !EventEmitter W, !TickSink W, !Runtime W} : Type := {
  slog : W -> list sched_action;
  slog_Get n i w : slog (exec (GetEnabledJobs n i) w) = slog w ++ [SGet n i (eval (GetEnabledJobs n i) w)];
  slog_Insert e w : slog (exec (InsertExecution e) w) = slog w ++ [SInsert e (eval (InsertExecution e) w)];
  slog_Last f i w : GetLastScheduledExecution = Some f -> slog (exec (f i) w) = slog w ++ [SLast i (eval (f i) w)];
  slog_Emit ev w : slog (exec (Emit ev) w) = slog w ++ [SEmit ev (eval (Emit ev) w)];
  slog_tick m w : slog (exec (tick_observe m) w) = slog w ++ [STick m];
  slog_Now w : slog (exec time_Now w) = slog w;
  slog_uuid w : slog (exec uuid_New w) = slog w;
}.

(** ** Observations *)

(** The scheduled times at which executions of the job were inserted. *)
Definition attempted (i : uuid) (a : sched_action) : option time :=
  match a with
  | SInsert e _ => if decide (e_JobID e = i) then Some (e_ScheduledAt e) else None
  | _ => None
  end.
Definition insertion (a : sched_action) : option Execution :=
  match a with SInsert e _ => Some e | _ => None end.
(** The pages of jobs that the store answered. *)
Definition page (a : sched_action) : option (list JobWithSchedule) :=
  match a with SGet _ _ (Ok jobs) => Some jobs | _ => None end.

(** What is known of every execution that a tick inserts for a job. *)
Definition execution_for (job : Job) (now : time) (e : Execution) : Prop :=
  e_JobID e = j_ID job /\ e_Namespace e = j_Namespace job /\ e_TriggerType e = TriggerTypeScheduled /\
  e_FiredAt e = now /\ e_CreatedAt e = now /\ e_Status e = ExecutionStatusEmitted /\
  e_ScheduledAt e = Truncate (e_ScheduledAt e) Minute.

(** The event that announces an execution. *)
Definition announcement (e : Execution) : TriggerEvent :=
  {| ev_ExecutionID := e_ID e; ev_JobID := e_JobID e; ev_Namespace := e_Namespace e;
     ev_ScheduledAt := e_ScheduledAt e; ev_FiredAt := e_FiredAt e; ev_CreatedAt := e_CreatedAt e |}.
(** Every execution that the store took is announced. *)
Definition announced (l : list sched_action) : Prop :=
  forall e, SInsert e (Ok tt) ∈ l -> exists r, SEmit (announcement e) r ∈ l.

(** The schedule of a job, when its time zone and its expression are valid. *)
Definition schedule_of `{!CronLibrary} (jws : JobWithSchedule) : option CronSchedule :=
  let tz := if String.eqb (s_Timezone (jws_Schedule jws)) "" then "UTC"%string else s_Timezone (jws_Schedule jws) in
  match LoadLocation tz, Parse (s_CronExpression (jws_Schedule jws)) tz with
  | Ok _, Ok next => Some next
  | _, _ => None
  end.

Section theory.
  Context {W : Type} `{!CronLibrary} `{SchedLog W}.
  Variable s : Scheduler.

Notation logs := (Trace.logs slog).

Lemma emitExecution_logs job t now :
  logs (emitExecution job t now) (fun l _ => exists e r ev,
    l = SInsert e r :: ev /\ pick insertion ev = [] /\ pick page ev = [] /\
    e_ScheduledAt e = t /\ (t = Truncate t Minute -> execution_for job now e)).
Proof.
  unfold emitExecution. apply logs_silent; [apply slog_uuid |]. intros i.
  eapply (logs_step _ _ (fun r => [SInsert _ r])); [intros w; apply slog_Insert |]. intros [[]|e].
  - eapply (logs_step _ _ (fun r => [SEmit _ r])); [intros w; apply slog_Emit |]. intros r.
    apply logs_ret. do 3 eexists. cbn. split_and!; [reflexivity | done | done | done |]. intros ?. unfold execution_for; cbn. by split_and!.
  - destruct (errors_Is e (EDomain ErrDuplicateExecution)); apply logs_ret; do 3 eexists; cbn;
      (split_and!; [reflexivity | done | done | done |]); intros ?; unfold execution_for; cbn; by split_and!.
Qed.

(** The loop over the due times inserts an execution at each of them, in order,
    whatever the store and the emitter answer. *)
Lemma fire_loop_logs n next job now : forall t result,
  logs (fire_loop n next job now t result) (fun l r =>
    let fired := (due next n t now).1 in
    e_ScheduledAt <$> pick insertion l = (fun t => Truncate t Minute) <$> fired /\
    Forall (execution_for job now) (pick insertion l) /\ pick page l = [] /\
    r.2 = (due next n t now).2 /\ pr_capped r.1 = pr_capped result /\
    pr_cursor r.1 = default (pr_cursor result) ((fun t => Truncate t Minute) <$> last fired)).
Proof.
  induction n as [|n IH]; intros t result; cbn [fire_loop due].
  - by apply logs_ret.
  - destruct (After t now); [by apply logs_ret |].
    apply logs_bind. eapply logs_conseq; [apply emitExecution_logs |].
    intros l r (e & ri & ev & -> & Hi & Hp & He & Hfor).
    eapply logs_conseq; [apply IH |]. intros l' [res t'] (H1 & H2 & H3 & H4 & H5 & H6).
    destruct (due next n (next t) now) as [fired stop]. cbn [fst snd] in *.
    cbn [app pick insertion page]. rewrite !pick_app, Hi, Hp. cbn [app].
    split_and!; [|constructor; [|done] | done | done | done |].
    + rewrite !fmap_cons, He, H1. done.
    + apply Hfor. symmetry. apply Truncate_idemp.
    + rewrite last_cons, H6. cbn. by destruct (last fired).
Qed.

(** The start of the window of a job: the last tick or, for the first tick, a
    time that depends on the job and on its last execution. *)
Lemma windowStart_logs jws lastTick now :
  logs (windowStart s jws lastTick now) (fun l ws =>
    pick insertion l = [] /\ pick page l = [] /\ (lastTick <> 0%Z -> ws = lastTick)).
Proof.
  unfold windowStart, IsZero. destruct (Z.eqb_spec lastTick 0) as [->|Hne]; cbn [negb]; [|by apply logs_ret].
  destruct GetLastScheduledExecution as [f|] eqn:E; [|by apply logs_ret].
  eapply (logs_step _ _ (fun r => [SLast _ r])); [intros w; by apply slog_Last |].
  intros [found|e]; by apply logs_ret.
Qed.

(** The executions that a job is due in the window from [ws] to now: at its
    activations, truncated to the minute, up to the cap. *)
Definition job_fires (jws : JobWithSchedule) (now ws : time) (es : list Execution) : Prop :=
  match schedule_of jws with
  | None => es = []
  | Some next => e_ScheduledAt <$> es = (fun t => Truncate t Minute) <$> (due next (maxIterations s) (next ws) now).1 /\
      Forall (execution_for (jws_Job jws) now) es
  end.

(** What one job of a page comes to; [ws] is the start of its window. *)
Definition job_done (jws : JobWithSchedule) (now ws : time) (l : list sched_action) (r : processJobResult) : Prop :=
  match schedule_of jws with
  | None => pick insertion l = [] /\ pr_capped r = false
  | Some next =>
      let '(fired, stop) := due next (maxIterations s) (next ws) now in
      e_ScheduledAt <$> pick insertion l = (fun t => Truncate t Minute) <$> fired /\
      Forall (execution_for (jws_Job jws) now) (pick insertion l) /\
      pr_capped r = negb (After stop now) /\
      pr_cursor r = default now ((fun t => Truncate t Minute) <$> last fired)
  end.

Lemma job_done_fires jws now ws l r : job_done jws now ws l r -> job_fires jws now ws (pick insertion l).
Proof.
  unfold job_done, job_fires. destruct (schedule_of jws) as [next|]; [| by intros [? _]].
  destruct (due next _ _ _) as [fired stop]. by intros (? & ? & _).
Qed.

Lemma processJob_logs jws lastTick now :
  logs (processJobWithProgress s jws lastTick now) (fun l r => exists ws,
    (lastTick <> 0%Z -> ws = lastTick) /\ pick page l = [] /\ job_done jws now ws l r.1).
Proof.
  unfold processJobWithProgress. apply logs_bind. eapply logs_conseq; [apply windowStart_logs |].
  intros l0 ws (Hi0 & Hp0 & Hws). unfold job_done, schedule_of. cbv zeta.
  set (tz := if String.eqb _ _ then _ else _).
  destruct (LoadLocation tz) as [loc|e]; [|apply logs_ret; exists ws; rewrite app_nil_r; by split_and!].
  destruct (Parse _ tz) as [next|e]; [|apply logs_ret; exists ws; rewrite app_nil_r; by split_and!].
  apply logs_bind. eapply logs_conseq; [apply fire_loop_logs |].
  intros l1 [res t] (H1 & H2 & H3 & H4 & H5 & H6). apply logs_ret. exists ws.
  rewrite !pick_app, Hi0, Hp0, app_nil_r. cbn [app fst snd] in *.
  destruct (due next (maxIterations s) (next ws) now) as [fired stop]. cbn [fst snd] in *. subst t.
  rewrite !app_nil_r. split_and!; try done. cbn. rewrite H5. by destruct (After stop now).
Qed.

(** ** Coverage *)

(** Every activation of the job after the last tick and up to [upto] has been
    inserted. *)
Definition covered (lastTick upto : time) (jws : JobWithSchedule) (l : list sched_action) : Prop :=
  forall next fires, schedule_of jws = Some next -> next_of fires next -> (forall t, next t <> 0%Z) ->
  forall f, fires f -> (lastTick < f <= upto)%Z ->
  exists e, e ∈ pick insertion l /\ e_JobID e = j_ID (jws_Job jws) /\ e_ScheduledAt e = Truncate f Minute.

Lemma covered_mono lastTick upto upto' jws l l' :
  covered lastTick upto jws l -> (upto' <= upto)%Z -> (forall e, e ∈ pick insertion l -> e ∈ pick insertion l') ->
  covered lastTick upto' jws l'.
Proof.
  intros Hc Hle Hl next fires Hs Hn Hz f Hf Hr.
  destruct (Hc next fires Hs Hn Hz f Hf) as (e & He & Hid); [lia |]. exists e. auto.
Qed.

(** The bound that a job puts on the next [lastTick]. *)
Definition bounded_by (r : processJobResult) (t : time) : time :=
  if pr_capped r && negb (IsZero (pr_cursor r)) && Before (pr_cursor r) t then pr_cursor r else t.

Lemma bounded_by_le r t : (bounded_by r t <= t)%Z.
Proof. unfold bounded_by, Before. destruct (pr_capped r), (IsZero (pr_cursor r)); cbn; repeat case_match; lia. Qed.

Lemma last_in {A} (l : list A) x : last l = Some x -> x ∈ l.
Proof. intros Hl. apply last_Some in Hl as [l' ->]. apply elem_of_app. right. by left. Qed.

(** The cap is positive, so that a capped job has met a due time. *)
Lemma maxIterations_pos : 0 < maxIterations s.
Proof. unfold maxIterations. destruct (Z.leb_spec (MaxFiresPerTick (sc_config s)) 0); lia. Qed.

Lemma job_covered jws now ws l r :
  job_done jws now ws l r -> (Minute <= ws)%Z -> covered ws (bounded_by r now) jws l.
Proof.
  intros Hd Hws next fires Hs Hnext Hnz f Hf Hr. unfold job_done in Hd. rewrite Hs in Hd.
  pose proof (due_complete fires next Hnext Hnz (maxIterations s) ws now f Hf (proj1 Hr)) as Hcomp.
  pose proof (due_sound fires next Hnext Hnz (maxIterations s) ws now) as Hsound.
  pose proof (due_stop next (maxIterations s) (next ws) now) as Hstop.
  pose proof (due_stop_after fires next Hnext Hnz (maxIterations s) ws now) as [_ Hafter].
  destruct (due next (maxIterations s) (next ws) now) as [fired stop]. cbn [fst snd] in *.
  destruct Hd as (Hins & Hfor & Hcap & Hcur).
  assert (Hin : f ∈ fired).
  { destruct Hcomp as [?|Hle]; [done | exfalso].
    destruct (After stop now) eqn:Ea.
    - unfold After in Ea. apply Z.ltb_lt in Ea. pose proof (bounded_by_le r now). lia.
    - destruct Hstop as [?|Hlen]; [done |]. pose proof maxIterations_pos as Hpos.
      destruct (last fired) as [t|] eqn:El; [|apply last_None in El; subst; cbn in Hlen; lia].
      pose proof (last_in _ _ El) as Ht.
      pose proof (proj1 (Forall_forall _ _) Hsound t Ht) as [_ Hrt]. pose proof (proj1 (Forall_forall _ _) Hafter t Ht) as Hst.
      unfold bounded_by, Before, IsZero in Hr. rewrite Hcap, Hcur in Hr. cbn in Hr.
      pose proof (Truncate_le t Minute) as Htr.
      assert (Hmin : (0 < Minute)%Z) by done. pose proof (Truncate_gt t Minute Hmin) as Htg.
      cbn [negb andb] in Hr. cbn in Hst, Hrt. clear Hmin.
       destruct (Z.eqb_spec (Truncate t Minute) 0) as [Hz|]; cbn in Hr; [|destruct (Z.ltb_spec (Truncate t Minute) now); lia].
       unfold Minute, Second in *. lia. }
  assert (He : Truncate f Minute ∈ e_ScheduledAt <$> pick insertion l)
    by (rewrite Hins; apply list_elem_of_fmap; eauto).
  apply list_elem_of_fmap in He as (e & He & Hine). exists e. split; [done |].
  split; [|done]. by apply (proj1 (Forall_forall _ _) Hfor).
Qed.
End theory.

(** ** Pages and ticks *)
Section ticks.
  Context {W : Type} `{!CronLibrary} `{SchedLog W}.
  Variable s : Scheduler.

Notation logs := (Trace.logs slog).

Lemma bounded_by_mono r t u : (t <= u)%Z -> (bounded_by r t <= bounded_by r u)%Z.
Proof.
  intros Hle. unfold bounded_by, Before. destruct (pr_capped r), (IsZero (pr_cursor r)); cbn; try lia.
  destruct (Z.ltb_spec (pr_cursor r) t), (Z.ltb_spec (pr_cursor r) u); lia.
Qed.

Lemma process_page_logs jobs now : forall n upto,
  (upto <= now)%Z ->
  logs (process_page s jobs now n upto) (fun l r =>
    (r.2 <= upto)%Z /\ pick page l = [] /\
    ((Minute <= sc_lastTick s)%Z -> forall jws, jws ∈ jobs -> covered (sc_lastTick s) r.2 jws l)).
Proof.
  induction jobs as [|jws jobs IH]; intros n upto Hle; cbn [process_page].
  - apply logs_ret. split_and!; [cbn; lia | done |]. intros _ jws Hin. by apply elem_of_nil in Hin.
  - apply logs_bind. eapply logs_conseq; [apply (processJob_logs s jws (sc_lastTick s) now) |].
    intros l1 [res e] (ws & Hws & Hp & Hd). cbn [fst] in Hd.
    pose proof (bounded_by_le res upto) as Hb.
    eapply logs_conseq; [apply IH; unfold bounded_by in Hb; lia |].
    intros l2 r (Hr & Hp2 & Hcov). fold (bounded_by res upto) in Hr.
    rewrite pick_app, Hp, Hp2. split_and!; [lia | done |].
    intros Hmin j [->|Hin]%elem_of_cons.
    + assert (ws = sc_lastTick s) as -> by (apply Hws; unfold Minute, Second in Hmin; lia).
      eapply covered_mono; [eapply job_covered; eauto | | intros x Hx; rewrite pick_app; set_solver].
      pose proof (bounded_by_mono res upto now Hle). lia.
    + eapply covered_mono; [by apply Hcov | lia | intros x Hx; rewrite pick_app; set_solver].
Qed.

Lemma process_pages_logs fuel now : forall afterID n upto,
  (upto <= now)%Z ->
  logs (process_pages s fuel now afterID n upto) (fun l r =>
    forall k last', r = Some (k, Ok last') ->
    (last' <= upto)%Z /\
    ((Minute <= sc_lastTick s)%Z -> forall jobs jws, jobs ∈ pick page l -> jws ∈ jobs ->
       covered (sc_lastTick s) last' jws l)).
Proof.
  induction fuel as [|fuel IH]; intros afterID n upto Hle; cbn [process_pages]; [by apply logs_ret |].
  eapply (logs_step _ _ (fun r => [SGet _ _ r])); [intros w; apply slog_Get |].
  intros [jobs|e]; [|by apply logs_ret].
  apply logs_bind. eapply logs_conseq; [by apply process_page_logs |].
  intros l1 [n1 upto1] (Hu & Hp & Hcov). cbn [snd] in *.
  destruct (Z.of_nat (length jobs) <? DefaultJobPageSize)%Z.
  - apply logs_ret. intros k last' [= -> ->]. split; [done |]. intros Hmin js jws Hjs Hin.
    cbn [app pick page] in Hjs. rewrite app_nil_r, Hp in Hjs.
    apply list_elem_of_singleton in Hjs as ->.
    eapply covered_mono; [by apply Hcov | lia |]. intros e He. cbn. by rewrite app_nil_r.
  - eapply logs_conseq; [apply IH; lia |]. intros l2 r Hr k last' ->.
    destruct (Hr k last' eq_refl) as [Hl Hc]. split; [lia |]. intros Hmin js jws Hjs Hin.
    cbn [app pick page] in Hjs. rewrite pick_app, Hp in Hjs. cbn [app] in Hjs.
    apply elem_of_cons in Hjs as [->|Hjs].
    + eapply covered_mono; [by apply Hcov | lia |]. intros e He. cbn. rewrite pick_app. set_solver.
    + eapply covered_mono; [by eapply Hc | lia |]. intros e He. cbn. rewrite pick_app. set_solver.
Qed.

(** ** Announcements *)

Lemma announced_app l l' : announced l -> announced l' -> announced (l ++ l').
Proof.
  intros Hl Hl' e [He|He]%elem_of_app; [destruct (Hl e He) as [r Hr] | destruct (Hl' e He) as [r Hr]];
    exists r; apply elem_of_app; auto.
Qed.
Lemma announced_none l : (forall e, SInsert e (Ok tt) ∉ l) -> announced l.
Proof. intros Hno e He. by apply Hno in He. Qed.
Lemma announced_bind {A B} (m : st W A) (f : A -> st W B) :
  logs m (fun l _ => announced l) -> (forall a, logs (f a) (fun l _ => announced l)) ->
  logs (m ≫= f) (fun l _ => announced l).
Proof.
  intros Hm Hf. apply logs_bind. eapply logs_conseq; [exact Hm |]. intros l a Hl.
  eapply logs_conseq; [apply Hf |]. intros l' b Hl'. by apply announced_app.
Qed.
Lemma announced_ret {A} (a : A) : logs (mret a) (fun l _ => announced l).
Proof. apply logs_ret, announced_none. set_solver. Qed.
Lemma announced_one {A} (m : st W A) (g : A -> sched_action) :
  (forall w, slog (exec m w) = slog w ++ [g (eval m w)]) -> (forall e a, g a <> SInsert e (Ok tt)) ->
  logs m (fun l _ => announced l).
Proof.
  intros Hm Hg w. eexists. split; [apply Hm |]. apply announced_none. intros e He%list_elem_of_singleton.
  by destruct (Hg e (eval m w)).
Qed.
Lemma announced_silent {A} (m : st W A) : (forall w, slog (exec m w) = slog w) -> logs m (fun l _ => announced l).
Proof. intros Hm w. exists []. rewrite app_nil_r. split; [apply Hm | apply announced_none; set_solver]. Qed.

Lemma emitExecution_announced job t now : logs (emitExecution job t now) (fun l _ => announced l).
Proof.
  unfold emitExecution. apply logs_silent; [apply slog_uuid |]. intros i.
  eapply (logs_step _ _ (fun r => [SInsert _ r])); [intros w; apply slog_Insert |]. intros [[]|e].
  - eapply (logs_step _ _ (fun r => [SEmit _ r])); [intros w; apply slog_Emit |]. intros r. apply logs_ret.
    intros e He. exists r. cbn in *. set_unfold in He. destruct He as [[= ->]|[He|[]]]; [|discriminate]. right. by left.
  - destruct (errors_Is e (EDomain ErrDuplicateExecution)); apply logs_ret; apply announced_none; intros e' He; cbn in He;
      set_unfold in He; destruct He as [He|[]]; discriminate.
Qed.

Lemma fire_loop_announced n next job now : forall t result, logs (fire_loop n next job now t result) (fun l _ => announced l).
Proof.
  induction n as [|n IH]; intros t result; cbn [fire_loop]; [apply announced_ret |].
  destruct (After t now); [apply announced_ret |].
  apply announced_bind; [apply emitExecution_announced | intros r; apply IH].
Qed.

Lemma windowStart_announced jws lastTick now : logs (windowStart s jws lastTick now) (fun l _ => announced l).
Proof.
  unfold windowStart. destruct (negb _); [apply announced_ret |]. cbv zeta.
  destruct GetLastScheduledExecution as [f|] eqn:E; [| apply announced_ret].
  apply announced_bind; [by apply (announced_one _ (SLast (j_ID (jws_Job jws)))); [intros w; apply slog_Last |] |].
  intros [found|e]; apply announced_ret.
Qed.

Lemma processJob_announced jws lastTick now : logs (processJobWithProgress s jws lastTick now) (fun l _ => announced l).
Proof.
  unfold processJobWithProgress. apply announced_bind; [apply windowStart_announced | intros ws]. cbv zeta.
  destruct (LoadLocation _); [| apply announced_ret]. destruct (Parse _ _); [| apply announced_ret].
  apply announced_bind; [apply fire_loop_announced | intros [res t]; apply announced_ret].
Qed.

Lemma process_page_announced jobs now : forall n upto, logs (process_page s jobs now n upto) (fun l _ => announced l).
Proof.
  induction jobs as [|jws jobs IH]; intros n upto; cbn [process_page]; [apply announced_ret |].
  apply announced_bind; [apply processJob_announced | intros [res e]; apply IH].
Qed.

Lemma process_pages_announced fuel now : forall afterID n upto,
  logs (process_pages s fuel now afterID n upto) (fun l _ => announced l).
Proof.
  induction fuel as [|fuel IH]; intros afterID n upto; cbn [process_pages]; [apply announced_ret |].
  apply announced_bind; [by apply (announced_one _ (SGet DefaultJobPageSize afterID)); [intros w; apply slog_Get |] |].
  intros [jobs|e]; [| apply announced_ret]. apply announced_bind; [apply process_page_announced |].
  intros [n1 upto1]. destruct (_ <? _)%Z; [apply announced_ret | apply IH].
Qed.

(** ** Visits *)

(** A job of a page, with the executions that its visit inserts. *)
Definition visited (now : time) (jws : JobWithSchedule) (es : list Execution) : Prop :=
  exists ws, (sc_lastTick s <> 0%Z -> ws = sc_lastTick s) /\ job_fires s jws now ws es.

Lemma process_page_visits jobs now : forall n upto,
  logs (process_page s jobs now n upto) (fun l _ =>
    pick page l = [] /\ exists ess, pick insertion l = concat ess /\ Forall2 (visited now) jobs ess).
Proof.
  induction jobs as [|jws jobs IH]; intros n upto; cbn [process_page].
  - apply logs_ret. split; [done |]. by exists [].
  - apply logs_bind. eapply logs_conseq; [apply processJob_logs |]. intros l1 [res e] (ws & Hws & Hp & Hd).
    eapply logs_conseq; [apply IH |]. intros l2 r (Hp2 & ess & Hi & Hess). rewrite !pick_app, Hp, Hp2. split; [done |].
    exists (pick insertion l1 :: ess). rewrite Hi. split; [done |]. constructor; [| done].
    exists ws. split; [done |]. by eapply job_done_fires.
Qed.

Definition tick_trace (l : list sched_action) (r : option (result err unit * Scheduler)) : Prop :=
  match r with
  | None => True
  | Some (Err _, s') => s' = s
  | Some (Ok _, s') =>
      sc_config s' = sc_config s /\
      ((Minute <= sc_lastTick s)%Z -> forall jobs jws, jobs ∈ pick page l -> jws ∈ jobs ->
         covered (sc_lastTick s) (sc_lastTick s') jws l)
  end.

Lemma record_tick_silent_for {B} (f : sched_action -> option B) (b : bool) m :
  (forall x, f (STick x) = None) -> pick f (if b then [STick m] else []) = [].
Proof. intros Hf. destruct b; [|done]. cbn. by rewrite Hf. Qed.

Lemma record_tick_logs {B} m (f : unit -> st W B) Q :
  logs (f tt) (fun l b => Q ((if sc_metrics s then [STick m] else []) ++ l) b) -> logs (record_tick s m ≫= f) Q.
Proof.
  intros Hf. apply (logs_step _ _ (fun _ => if sc_metrics s then [STick m] else [])); [|by intros []].
  intros w. unfold record_tick, when. destruct (sc_metrics s); [apply slog_tick | by rewrite app_nil_r].
Qed.

Lemma completed_logs {B} start n e (k : unit -> st W B) Q :
  (forall m, logs (k tt) (fun l b => Q ((if sc_metrics s then [STick m] else []) ++ l) b)) ->
  logs (when (sc_metrics s) (time_Now ≫= fun t => tick_observe (TickCompleted (time_sub t start) n e)) ≫= k) Q.
Proof.
  intros Hk. unfold when. destruct (sc_metrics s).
  - apply logs_bind, logs_silent; [apply slog_Now |]. intros t w.
    eexists. split; [apply slog_tick |]. destruct (eval _ _). apply Hk.
  - apply logs_bind, logs_ret. apply (Hk TickStarted).
Qed.

Lemma processTick_logs fuel : logs (processTick s fuel) tick_trace.
Proof.
  unfold processTick. apply record_tick_logs, logs_silent; [apply slog_Now |]. intros start.
  apply logs_bind. eapply logs_conseq; [apply (process_pages_logs fuel start Nil 0 start); lia |].
  intros l [[n [last'|e]]|] Hr.
  - apply completed_logs. intros m. apply logs_ret. cbn. split; [done |]. intros Hmin jobs jws Hj Hin.
    destruct (Hr n last' eq_refl) as [_ Hc]. rewrite !pick_app in Hj.
    rewrite !record_tick_silent_for in Hj by done. cbn in Hj. rewrite !app_nil_r in Hj.
    eapply covered_mono; [by eapply Hc | lia |]. intros e He. rewrite !pick_app. set_solver.
  - apply completed_logs. intros m. by apply logs_ret.
  - by apply logs_ret.
Qed.

Lemma processTick_announced fuel : logs (processTick s fuel) (fun l _ => announced l).
Proof.
  unfold processTick. apply announced_bind.
  { unfold record_tick, when. destruct (sc_metrics s); [| apply announced_ret].
    by apply (announced_one _ (fun _ => STick TickStarted)); [intros w; apply slog_tick |]. }
  intros _. apply announced_bind; [apply announced_silent, slog_Now | intros start].
  apply announced_bind; [apply process_pages_announced |].
  assert (Hend : forall n e, logs (when (sc_metrics s) (time_Now ≫= fun t => tick_observe (TickCompleted (time_sub t start) n e)))
    (fun l _ => announced l)).
  { intros n e. unfold when. destruct (sc_metrics s); [| apply announced_ret].
    apply announced_bind; [apply announced_silent, slog_Now | intros t].
    by apply (announced_one _ (fun _ => STick (TickCompleted (time_sub t start) n e))); [intros w; apply slog_tick |]. }
  intros [[n [t|e]]|]; [| | apply announced_ret]; (apply announced_bind; [apply Hend | intros _; apply announced_ret]).
Qed.

Lemma insertion_answered l e : e ∈ pick insertion l -> exists r, SInsert e r ∈ l.
Proof.
  induction l as [|a l IH]; cbn; [by intros ?%elem_of_nil |].
  assert (Hl : e ∈ pick insertion l -> exists r, SInsert e r ∈ a :: l)
    by (intros Hin; destruct (IH Hin) as [r Hr]; exists r; by right).
  destruct a; cbn; try exact Hl. intros [->|Hin]%elem_of_cons; [exists r; by left | auto].
Qed.
End ticks.
