(* ===== verification/SchedulerProps.v ===== *)
(** * Properties of the scheduler

    Which executions a tick inserts, that no activation between two ticks is
    skipped, that a tick visits every enabled job, and what happens with a cron
    expression that never fires.  [Sim] is a scripted world at which the
    properties are evaluated. *)
From S2P Require Import Prelude Trace GoStrings Domain Runtime Cron Scheduler SchedulerTheory.

(** ** A scripted world *)
Module Sim.

Record world : Type := mkWorld {
  w_log : list sched_action;
  w_jobs : result err (list JobWithSchedule);   (* enabled, in the order of identifiers *)
  w_inserts : list (result err unit);           (* answers of insertions; [Ok] when exhausted *)
  w_now : time;
  w_next : uuid;
}.
Definition note (a : sched_action) (w : world) : world :=
  {| w_log := w_log w ++ [a]; w_jobs := w_jobs w; w_inserts := w_inserts w; w_now := w_now w; w_next := w_next w |}.

(** [*/5 * * * *]-like schedules: ["*/n"] fires every [n] minutes; the expression
    ["never"] is accepted and never fires. *)
#[export] Instance sim_cron : CronLibrary := {|
  cron_spec := Z;
  Location := unit;
  spec_Parse e := if String.eqb e "*/5" then Ok (5 * Minute)%Z else if String.eqb e "never" then Ok 0%Z
                  else Err (EOther "expected exactly 5 fields");
  spec_Next n _ t := if (n =? 0)%Z then 0%Z else ((Z.max t 0 / n + 1) * n)%Z;
  LoadLocation tz := if String.eqb tz "UTC" then Ok tt else Err (EOther "unknown time zone");
|}.
#[export] Instance sim_store : SchedulerStore world := {|
  GetEnabledJobs n after := fun w =>
    let r := result_map (fun l => take (Z.to_nat n)
               (filter (fun j => after = Nil \/ (after < j_ID (jws_Job j))%N) l)) (w_jobs w) in
    (r, note (SGet n after r) w);
  InsertExecution e := fun w =>
    let r := default (Ok tt) (head (w_inserts w)) in
    (r, note (SInsert e r) {| w_log := w_log w; w_jobs := w_jobs w; w_inserts := tail (w_inserts w);
                              w_now := w_now w; w_next := w_next w |});
  GetLastScheduledExecution := Some (fun i => fun w => (Ok None, note (SLast i (Ok None)) w));
|}.
#[export] Instance sim_emitter : EventEmitter world := {|
  Emit ev := fun w => (Ok tt, note (SEmit ev (Ok tt)) w) |}.
#[export] Instance sim_ticks : TickSink world := {|
  tick_observe m := fun w => (tt, note (STick m) w) |}.
#[export] Instance sim_runtime : Runtime world := {|
  time_Now := gets w_now;
  uuid_New := fun w => (w_next w, {| w_log := w_log w; w_jobs := w_jobs w; w_inserts := w_inserts w;
                                    w_now := w_now w; w_next := N.succ (w_next w) |});
  uuid_String i := pretty i;
  ctx_Err := mret None;
  wait _ := mret None;
|}.
#[export] Instance sim_log : SchedLog world.
Proof.
  refine {| slog := w_log |}; try done.
  intros f i w [= <-]. reflexivity.
Defined.

Definition job (i : uuid) (expr : string) : JobWithSchedule :=
  {| jws_Job := {| j_ID := i; j_Namespace := "prod"; j_Name := "backup"; j_Enabled := true; j_ScheduleID := i;
       j_Delivery := {| d_Type := "webhook"; d_WebhookURL := "https://example.com/hook"; d_Secret := "s";
                        d_Timeout := 30 * Second |};
       j_Analytics := {| a_Enabled := false; a_RetentionSeconds := 0 |};
       j_CreatedAt := 60 * Minute; j_UpdatedAt := 0 |};
     jws_Schedule := {| s_ID := i; s_CronExpression := expr; s_Timezone := ""; s_CreatedAt := 0; s_UpdatedAt := 0 |} |}.
Definition start (jobs : list JobWithSchedule) (now : time) : world :=
  {| w_log := []; w_jobs := Ok jobs; w_inserts := []; w_now := now; w_next := 100%N |}.
Definition sched (cap : Z) (lastTick : time) : Scheduler :=
  set_lastTick (WithMetrics (New {| TickInterval := 30 * Second; MaxFiresPerTick := cap |})) lastTick.

Definition fires5 (t : time) : Prop := (t mod (5 * Minute) = 0 /\ 0 < t)%Z.
Definition next5 : CronSchedule := Next 300000000000%Z tt.

Lemma next5_pos t : (0 < next5 t)%Z.
Proof.
  unfold next5, Next, spec_Next; cbn. pose proof (Z.div_pos (Z.max t 0) 300000000000 ltac:(lia) ltac:(lia)). nia.
Qed.

Lemma every5 : next_of fires5 next5.
Proof.
  intros t. right. pose proof (next5_pos t) as Hpos. unfold fires5, next5, Next, spec_Next in *; cbn in *.
  assert (E : (5 * Minute = 300000000000)%Z) by done. rewrite E.
  set (u := Z.max t 0) in *. assert (Hu : (t <= u)%Z) by lia.
  pose proof (Z.mod_pos_bound u 300000000000 ltac:(lia)). pose proof (Z.div_mod u 300000000000 ltac:(lia)).
  split; [lia |]. split; [split; [by apply Z_mod_mult | done] |].
  intros f [Hf Hf0] Ht. assert (u < f)%Z by lia.
  pose proof (Z.div_mod f 300000000000 ltac:(lia)) as Hdf. rewrite Hf in Hdf.
  assert (u / 300000000000 < f / 300000000000)%Z; nia.
Qed.
End Sim.

Section properties.
  Context {W : Type} `{!CronLibrary} `{SchedLog W}.
  Variable s : Scheduler.


(** C20: for one job with a valid schedule, after the first tick, the insertions
    are at the activations in the window from the last tick to now, truncated to
    the minute, strictly increasing, at most as many as the cap; all of them
    unless the cap was reached; every execution belongs to the job and its
    namespace and is created as emitted. *)
Theorem job_fires_window (jws : JobWithSchedule) (next : CronSchedule) (fires : time -> Prop) (now : time) (w : W) :
  schedule_of jws = Some next -> next_of fires next -> (forall t, next t <> 0%Z) -> sc_lastTick s <> 0%Z ->
  exists l fired, slog (exec (processJobWithProgress s jws (sc_lastTick s) now) w) = slog w ++ l /\
    e_ScheduledAt <$> pick insertion l = (fun t => Truncate t Minute) <$> fired /\
    Forall (execution_for (jws_Job jws) now) (pick insertion l) /\
    StronglySorted Z.lt fired /\ Forall (fun t => fires t /\ (sc_lastTick s < t <= now)%Z) fired /\
    length fired <= maxIterations s /\
    let r := eval (processJobWithProgress s jws (sc_lastTick s) now) w in
    (pr_capped r.1 = false -> forall f, fires f -> (sc_lastTick s < f <= now)%Z -> f ∈ fired).
Proof.
  intros Hs Hn Hz Hlast. destruct (processJob_logs s jws (sc_lastTick s) now w) as (l & Hl & ws & Hws & _ & Hd).
  rewrite (Hws Hlast) in Hd. unfold job_done in Hd. rewrite Hs in Hd.
  pose proof (due_sound fires next Hn Hz (maxIterations s) (sc_lastTick s) now) as Hsound.
  pose proof (due_increasing fires next Hn Hz (maxIterations s) (sc_lastTick s) now) as Hinc.
  pose proof (due_length next (maxIterations s) (next (sc_lastTick s)) now) as Hlen.
  pose proof (fun f => due_complete fires next Hn Hz (maxIterations s) (sc_lastTick s) now f) as Hcomp.
  destruct (due next (maxIterations s) (next (sc_lastTick s)) now) as [fired stop]. cbn [fst snd] in *.
  destruct Hd as (Hins & Hfor & Hcap & _). exists l, fired. split_and!; try done.
  cbn zeta. rewrite Hcap. intros Hstop f Hf Hr. destruct (Hcomp f Hf ltac:(lia)) as [?|Hle]; [done |].
  exfalso. unfold After in Hstop. destruct (Z.ltb_spec now stop); [lia | done].
Qed.

(** C39: a cron expression that the parser accepts but that never fires makes the
    scheduler insert executions at the zero time: as [Next] answers the zero
    time, which is not after now, the loop runs to its cap. *)
Theorem impossible_schedule_fires_at_zero (jws : JobWithSchedule) (next : CronSchedule) (now : time) (w : W) :
  schedule_of jws = Some next -> (forall t, next t = 0%Z) -> (0 <= now)%Z ->
  exists l, slog (exec (processJobWithProgress s jws (sc_lastTick s) now) w) = slog w ++ l /\
    e_ScheduledAt <$> pick insertion l = repeat 0%Z (maxIterations s) /\
    pr_capped (eval (processJobWithProgress s jws (sc_lastTick s) now) w).1 = true.
Proof.
  intros Hs Hz Hnow. destruct (processJob_logs s jws (sc_lastTick s) now w) as (l & Hl & ws & _ & _ & Hd).
  unfold job_done in Hd. rewrite Hs, Hz in Hd.
  assert (Hdue : forall n, due next n 0 now = (repeat 0%Z n, 0%Z)).
  { induction n as [|n IH]; cbn; [done |]. unfold After. destruct (Z.ltb_spec now 0); [lia |]. by rewrite Hz, IH. }
  rewrite Hdue in Hd. destruct Hd as (Hins & _ & Hcap & _). exists l. split; [done |]. split.
  - rewrite Hins. generalize (maxIterations s); intros k; clear; induction k as [|n IH]; [done |]. cbn. by rewrite IH.
  - rewrite Hcap. unfold After. by destruct (Z.ltb_spec now 0); [lia |].
Qed.

(** *** Pages *)

(** The rows after an identifier. *)
Definition after (i : uuid) (L : list JobWithSchedule) : list JobWithSchedule :=
  filter (fun j => i = Nil \/ (i < j_ID (jws_Job j))%N) L.
Definition by_id : relation JobWithSchedule := fun a b => (j_ID (jws_Job a) < j_ID (jws_Job b))%N.

Lemma filter_all {A} (P : A -> Prop) `{!forall x, Decision (P x)} (l : list A) :
  (forall x, x ∈ l -> P x) -> filter P l = l.
Proof.
  induction l as [|x l IH]; intros Hl; [done |]. rewrite filter_cons_True by (apply Hl; by left).
  f_equal. apply IH. intros y Hy. apply Hl. by right.
Qed.

(** After the last row of a prefix come the rows that follow it. *)
Lemma after_prefix L p q x :
  StronglySorted by_id L -> Forall (fun j => j_ID (jws_Job j) <> Nil) L ->
  L = p ++ q -> last p = Some x -> after (j_ID (jws_Job x)) L = q.
Proof.
  intros Hs Hnil -> Hx. apply last_Some in Hx as [p' ->]. unfold after. rewrite filter_app.
  rewrite <- app_assoc in Hs, Hnil. cbn in Hs, Hnil.
  assert (Hxn : j_ID (jws_Job x) <> Nil).
  { apply (proj1 (Forall_forall _ _) Hnil x), elem_of_app. right. by left. }
  assert (E1 : filter (fun j => j_ID (jws_Job x) = Nil \/ (j_ID (jws_Job x) < j_ID (jws_Job j))%N) (p' ++ [x]) = []).
  { apply elem_of_nil_inv. intros y [[?|Hlt] Hy]%list_elem_of_filter; [done |].
    apply elem_of_app in Hy as [Hy|Hy%list_elem_of_singleton]; [|subst; lia].
    pose proof (StronglySorted_app_1_elem_of by_id p' (x :: q) y x Hs Hy ltac:(by left)) as Hyx.
    unfold by_id in Hyx. lia. }
  rewrite E1. cbn. apply filter_all. intros y Hy. right.
  apply (StronglySorted_app_1_elem_of by_id (p' ++ [x]) q x y); [by rewrite <- app_assoc | | done].
  apply elem_of_app. right. by left.
Qed.

Lemma process_pages_complete L fuel now : forall rest upto n afterID w,
  (forall w n i, eval (GetEnabledJobs n i) w = Ok (take (Z.to_nat n) (after i L))) ->
  StronglySorted by_id L -> Forall (fun j => j_ID (jws_Job j) <> Nil) L ->
  (exists p, L = p ++ rest) -> after afterID L = rest -> length rest / 100 < fuel ->
  exists l k t, slog (exec (process_pages s fuel now afterID n upto) w) = slog w ++ l /\
    eval (process_pages s fuel now afterID n upto) w = Some (k, Ok t) /\ concat (pick page l) = rest /\
    exists ess, pick insertion l = concat ess /\ Forall2 (visited s now) rest ess.
Proof.
  induction fuel as [|fuel IH]; intros rest upto n afterID w Hget Hs Hnil [p HL] Hafter Hfuel; [lia |].
  cbn [process_pages]. unfold exec, eval, mbind, st_bind.
  pose proof (slog_Get DefaultJobPageSize afterID w) as Hlog. specialize (Hget w DefaultJobPageSize afterID) as Hg.
  unfold exec, eval in Hlog, Hg. destruct (GetEnabledJobs DefaultJobPageSize afterID w) as [r w1]. cbn in Hlog, Hg. subst r.
  rewrite Hafter in *. change (Z.to_nat DefaultJobPageSize) with 100 in *.
  assert (Hpage : exists l1 n1 u1 w2, process_page s (take 100 rest) now n upto w1 = ((n1, u1), w2) /\
    slog w2 = slog w1 ++ l1 /\ pick page l1 = [] /\
    exists ess, pick insertion l1 = concat ess /\ Forall2 (visited s now) (take 100 rest) ess).
  { destruct (process_page_visits s (take 100 rest) now n upto w1) as (l1 & Hl1 & Hv). exists l1.
    unfold exec in Hl1. destruct (process_page _ _ _ _ _ _) as [[n1 u1] w2]. cbn in Hl1. by exists n1, u1, w2. }
  destruct Hpage as (l1 & n1 & u1 & w2 & -> & Hl1 & Hp1 & ess1 & Hi1 & Hess1).
  rewrite length_take. destruct (Z.ltb_spec (Z.of_nat (100 `min` length rest)) DefaultJobPageSize) as [Hlt|Hge];
    unfold DefaultJobPageSize in *.
  - exists (SGet 100 afterID (Ok (take 100 rest)) :: l1), n1, u1. split; [|split; [done |]].
    + cbn. rewrite Hl1, Hlog, <- app_assoc. done.
    + cbn. rewrite take_ge in * by lia. rewrite Hp1. cbn. rewrite app_nil_r. split; [done |]. by exists ess1.
  - destruct (last (take 100 rest)) as [x|] eqn:Ex.
    2:{ apply last_None in Ex. pose proof (length_take rest 100) as Hlen. rewrite Ex in Hlen. cbn [length] in Hlen. lia. }
    cbn [fmap option_fmap option_map default from_option].
    edestruct (IH (drop 100 rest) u1 n1 (j_ID (jws_Job x)) w2 Hget Hs Hnil) as (l2 & k & t & Hl2 & He & Hc & ess2 & Hi2 & Hess2).
    + exists (p ++ take 100 rest). by rewrite <- app_assoc, take_drop.
    + eapply (after_prefix L (p ++ take 100 rest)); [done | done | by rewrite <- app_assoc, take_drop |].
      rewrite last_app, Ex. done.
    + rewrite length_drop.
      assert (Hd : length rest / 100 = (length rest - 100) / 100 + 1)
        by (rewrite <- Nat.div_add by lia; f_equal; lia). lia.
    + exists (SGet 100 afterID (Ok (take 100 rest)) :: l1 ++ l2), k, t. unfold exec, eval in Hl2, He.
      split; [|split; [exact He |]].
      * cbn. rewrite Hl2, Hl1, Hlog, <- !app_assoc. done.
      * cbn. rewrite !pick_app, Hp1. cbn. rewrite Hc. split; [apply take_drop |].
        exists (ess1 ++ ess2). rewrite Hi1, Hi2, concat_app. split; [done |].
        rewrite <- (take_drop 100 rest). by apply Forall2_app.
Qed.

(** C34: against a store that answers pages of a fixed list of enabled jobs in
    the order of their identifiers, a tick ends after one page more than there
    are full pages and succeeds, and it has processed every job of the list once,
    in order: the pages that it read are the list, and the executions that it
    offered to the store are, job by job, those that the job is due at the time of
    the tick: none without a valid schedule, otherwise one for each activation in
    its window up to the cap. *)
Theorem tick_visits_every_job (L : list JobWithSchedule) (fuel : nat) (w : W) :
  (forall w n i, eval (GetEnabledJobs n i) w = Ok (take (Z.to_nat n) (after i L))) ->
  StronglySorted by_id L -> Forall (fun j => j_ID (jws_Job j) <> Nil) L -> length L / 100 < fuel ->
  exists l s', slog (exec (processTick s fuel) w) = slog w ++ l /\
    eval (processTick s fuel) w = Some (Ok tt, s') /\ concat (pick page l) = L /\
    let now := eval time_Now (exec (record_tick s TickStarted) w) in
    exists ess, pick insertion l = concat ess /\ Forall2 (visited s now) L ess.
Proof.
  intros Hget Hs Hnil Hfuel. unfold processTick, record_tick.
  set (tr := fun m => if sc_metrics s then [STick m] else []).
  assert (Hm : forall m w, exists w', when (sc_metrics s) (tick_observe m) w = (tt, w') /\ slog w' = slog w ++ tr m).
  { intros m w0. unfold when, tr. destruct (sc_metrics s); [|exists w0; by rewrite app_nil_r].
    pose proof (slog_tick m w0) as Hl. unfold exec in Hl. destruct (tick_observe m w0) as [[] w']. eauto. }
  unfold exec, eval, mbind, st_bind. destruct (Hm TickStarted w) as (w1 & -> & H1). cbn [snd].
  pose proof (slog_Now w1) as H2. unfold exec in H2. destruct (time_Now w1) as [start w2]. cbn in H2.
  destruct (process_pages_complete L fuel start L start 0 Nil w2 Hget Hs Hnil) as (l & k & t & Hl & He & Hc & Hv);
    [by exists [] | apply filter_all; by left | done |].
  unfold exec, eval in Hl, He. destruct (process_pages s fuel start Nil 0 start w2) as [r w3]. cbn in Hl, He. subst r.
  assert (Hend : exists w4 m, when (sc_metrics s) (fun w => let '(a, w') := time_Now w in
      tick_observe (TickCompleted (time_sub a start) k None) w') w3 = (tt, w4) /\ slog w4 = slog w3 ++ tr m).
  { pose proof (slog_Now w3) as H4. unfold exec in H4. unfold when, tr. destruct (sc_metrics s); [|exists w3, TickStarted; by rewrite app_nil_r].
    destruct (time_Now w3) as [a w']. cbn in H4. pose proof (slog_tick (TickCompleted (time_sub a start) k None) w') as H5.
    unfold exec in H5. destruct (tick_observe _ w') as [[] w'']. cbn in H5. rewrite H4 in H5. eauto. }
  destruct Hend as (w4 & m & -> & H4). exists (tr TickStarted ++ l ++ tr m), (set_lastTick s t). split_and!; [|done| |].
  - cbn. rewrite H4, Hl, H2, H1, <- !app_assoc. done.
  - unfold tr. rewrite !pick_app, !record_tick_silent_for by done. cbn. by rewrite app_nil_r.
  - unfold tr. rewrite !pick_app, !record_tick_silent_for by done. cbn. rewrite app_nil_r. exact Hv.
Qed.
End properties.

(** ** Witnesses *)
Import Sim.

Definition jobs2 : list JobWithSchedule := [Sim.job 3 "*/5"; Sim.job 7 "*/5"].

(** Two jobs, a tick at 12 minutes after one at 3 minutes: both fire at 5 and 10. *)
Example tick_ex :
  let r := processTick (Sim.sched 0 (63 * Minute)) 1 (Sim.start jobs2 (72 * Minute)) in
  e_ScheduledAt <$> pick insertion (slog r.2) = [65 * Minute; 70 * Minute; 65 * Minute; 70 * Minute]%Z /\
  (sc_lastTick <$> (snd <$> r.1)) = Some (72 * Minute)%Z.
Proof. vm_compute. done. Qed.

(** With a cap of one the tick leaves [lastTick] at the activation it handled. *)
Example tick_capped :
  let r := processTick (Sim.sched 1 (63 * Minute)) 1 (Sim.start jobs2 (72 * Minute)) in
  e_ScheduledAt <$> pick insertion (slog r.2) = [65 * Minute; 65 * Minute]%Z /\
  (sc_lastTick <$> (snd <$> r.1)) = Some (65 * Minute)%Z.
Proof. vm_compute. done. Qed.


Lemma job_fires_window_witness :
  let s := Sim.sched 0 (63 * Minute) in let jws := Sim.job 3 "*/5" in let now := (72 * Minute)%Z in
  let w := Sim.start jobs2 now in
  exists l fired, slog (exec (processJobWithProgress s jws (sc_lastTick s) now) w) = slog w ++ l /\
    e_ScheduledAt <$> pick insertion l = (fun t => Truncate t Minute) <$> fired /\
    Forall (execution_for (jws_Job jws) now) (pick insertion l) /\
    StronglySorted Z.lt fired /\ Forall (fun t => Sim.fires5 t /\ (sc_lastTick s < t <= now)%Z) fired /\
    length fired <= maxIterations s /\
    let r := eval (processJobWithProgress s jws (sc_lastTick s) now) w in
    (pr_capped r.1 = false -> forall f, Sim.fires5 f -> (sc_lastTick s < f <= now)%Z -> f ∈ fired).
Proof.
  apply (job_fires_window (Sim.sched 0 (63 * Minute)) (Sim.job 3 "*/5") Sim.next5 Sim.fires5).
  - reflexivity.
  - apply Sim.every5.
  - intros t. pose proof (Sim.next5_pos t). lia.
  - discriminate.
Defined.

Lemma impossible_schedule_fires_at_zero_witness :
  let s := Sim.sched 2 (63 * Minute) in let jws := Sim.job 3 "never" in let now := (72 * Minute)%Z in
  let w := Sim.start [jws] now in
  exists l, slog (exec (processJobWithProgress s jws (sc_lastTick s) now) w) = slog w ++ l /\
    e_ScheduledAt <$> pick insertion l = repeat 0%Z (maxIterations s) /\
    pr_capped (eval (processJobWithProgress s jws (sc_lastTick s) now) w).1 = true.
Proof.
  apply (impossible_schedule_fires_at_zero (Sim.sched 2 (63 * Minute)) (Sim.job 3 "never") (@Next Sim.sim_cron 0%Z tt));
    [reflexivity | reflexivity | discriminate].
Defined.

(** A store whose enabled jobs never change. *)
Definition fixed_store : SchedulerStore Sim.world := {|
  GetEnabledJobs n i := fun w =>
    let r := Ok (take (Z.to_nat n) (after i jobs2)) in (r, Sim.note (SGet n i r) w);
  InsertExecution := @InsertExecution _ Sim.sim_store;
  GetLastScheduledExecution := @GetLastScheduledExecution _ Sim.sim_store;
|}.
Definition fixed_log : @SchedLog Sim.world fixed_store Sim.sim_emitter Sim.sim_ticks Sim.sim_runtime.
Proof.
  refine {| slog := Sim.w_log |}; try done.
  intros f i w [= <-]. reflexivity.
Defined.

Lemma tick_visits_every_job_witness :
  let s := Sim.sched 0 (63 * Minute) in let w := Sim.start jobs2 (72 * Minute) in
  let tick := @processTick Sim.world Sim.sim_cron fixed_store Sim.sim_emitter Sim.sim_ticks Sim.sim_runtime s 1 in
  let log := @slog Sim.world fixed_store Sim.sim_emitter Sim.sim_ticks Sim.sim_runtime fixed_log in
  exists l s', log (exec tick w) = log w ++ l /\ eval tick w = Some (Ok tt, s') /\
    concat (pick page l) = jobs2 /\
    exists ess, pick insertion l = concat ess /\ Forall2 (@visited Sim.sim_cron s (72 * Minute)) jobs2 ess.
Proof.
  apply (@tick_visits_every_job Sim.world Sim.sim_cron fixed_store Sim.sim_emitter Sim.sim_ticks Sim.sim_runtime fixed_log
    (Sim.sched 0 (63 * Minute)) jobs2 1).
  - reflexivity.
  - repeat constructor.
  - repeat constructor; discriminate.
  - vm_compute. repeat constructor.
Defined.
