(* ===== verification/Reconciler.v ===== *)
(** * The reconciler: [internal/reconciler/reconciler.go]

    One cycle: stale claims go back to the queue, then executions that have been
    emitted for too long are emitted again. *)
From S2P Require Import Prelude Trace GoStrings Domain Runtime Dispatcher.
Local Open Scope cron_scope.

Definition SafetyMargin : duration := 150 * Second.

Class ReconcilerStore (W : Type) : Type := {
  GetOrphanedExecutions : time -> Z -> st W (result err (list Execution));
  RequeueStaleExecutions : time -> Z -> st W (result err Z);
}.
Class OrphanSink (W : Type) : Type := { OrphanedExecutionsUpdate : Z -> st W unit }.

Record Config : Type := mkConfig {
  Interval : duration;
  Threshold : duration;
  RequeueThreshold : duration;
  BatchSize : Z;
}.

Definition DefaultRequeueThreshold : duration := wrap64 (MaxRetryDuration + SafetyMargin).
Definition DefaultConfig : Config :=
  {| Interval := 5 * Minute; Threshold := wrap64 (MaxRetryDuration + SafetyMargin);
     RequeueThreshold := DefaultRequeueThreshold; BatchSize := 100 |}.

Record Reconciler : Type := mkReconciler { rc_config : Config; rc_metrics : bool }.
Definition New (config : Config) : Reconciler := {| rc_config := config; rc_metrics := false |}.
Definition WithMetrics (r : Reconciler) : Reconciler := {| rc_config := rc_config r; rc_metrics := true |}.

Section operations.
  Context {W : Type} `{!ReconcilerStore W, !EventEmitter W, !OrphanSink W, !Runtime W}.
  Variable r : Reconciler.

(** The loop over the orphans, with the numbers of emitted and failed ones. *)
Fixpoint re_emit (now : time) (orphans : list Execution) (emitted failed : Z) : st W (Z * Z) :=
  match orphans with
  | [] => mret (emitted, failed)
  | exec :: orphans' =>
      ctx_Err ≫= fun interrupted =>
      match interrupted with
      | Some _ => mret (emitted, failed)
      | None =>
          Emit (event_of_execution exec now) ≫= fun r =>
          match r with
          | Err _ => re_emit now orphans' emitted (failed + 1)
          | Ok _ => re_emit now orphans' (emitted + 1) failed
          end
      end
  end.

Definition requeueCutoff (now : time) : time :=
  let requeueThreshold := RequeueThreshold (rc_config r) in
  let requeueThreshold := if (requeueThreshold =? 0)%Z then Threshold (rc_config r) else requeueThreshold in
  time_add now (- requeueThreshold).
Definition orphanCutoff (now : time) : time := time_add now (- Threshold (rc_config r)).

Definition runCycle : st W unit :=
  time_Now ≫= fun now =>
  RequeueStaleExecutions (requeueCutoff now) (BatchSize (rc_config r)) ≫= fun _ =>
  try orphans := GetOrphanedExecutions (orphanCutoff now) (BatchSize (rc_config r)) catch e => mret tt in
  when (rc_metrics r) (OrphanedExecutionsUpdate (Z.of_nat (length orphans))) ≫= fun _ =>
  if (Z.of_nat (length orphans) =? 0)%Z then mret tt else
  re_emit now orphans 0 0 ≫= fun _ => mret tt.

(** [Run]: a cycle at once, then one per tick of the ticker until the context
    ends; [n] ticks. *)
Fixpoint Run_ticks (n : nat) : st W unit :=
  match n with
  | O => mret tt
  | S n' =>
      wait (Interval (rc_config r)) ≫= fun interrupted =>
      match interrupted with
      | Some _ => mret tt
      | None => runCycle ≫= fun _ => Run_ticks n'
      end
  end.
Definition Run (n : nat) : st W unit := runCycle ≫= fun _ => Run_ticks n.
End operations.

(** ** What a cycle does *)
Inductive recon_action : Type :=
| RRequeue (cutoff : time) (n : Z) (r : result err Z)
| ROrphans (cutoff : time) (n : Z) (r : result err (list Execution))
| RCount (n : Z)
| RCtx (r : option err)
| REmit (ev : TriggerEvent) (r : result err unit).

Class ReconLog (W : Type) `{!ReconcilerStore W, !EventEmitter W, !OrphanSink W, !Runtime W} : Type := {
  rlog : W -> list recon_action;
  rlog_requeue t n w :
    rlog (exec (RequeueStaleExecutions t n) w) = rlog w ++ [RRequeue t n (eval (RequeueStaleExecutions t n) w)];
  rlog_orphans t n w :
    rlog (exec (GetOrphanedExecutions t n) w) = rlog w ++ [ROrphans t n (eval (GetOrphanedExecutions t n) w)];
  rlog_count n w : rlog (exec (OrphanedExecutionsUpdate n) w) = rlog w ++ [RCount n];
  rlog_ctx w : rlog (exec ctx_Err w) = rlog w ++ [RCtx (eval ctx_Err w)];
  rlog_emit ev w : rlog (exec (Emit ev) w) = rlog w ++ [REmit ev (eval (Emit ev) w)];
  rlog_now w : rlog (exec time_Now w) = rlog w;
}.

Definition re_emitted (a : recon_action) : option TriggerEvent :=
  match a with REmit ev _ => Some ev | _ => None end.
Definition interruption (a : recon_action) : option err :=
  match a with RCtx r => r | _ => None end.

Section theory.
  Context {W : Type} `{ReconLog W}.
  Variable r : Reconciler.
Notation logs := (Trace.logs rlog).

(** The loop emits the orphans in order, every one of them unless the context
    ended, and counts each once. *)
Lemma re_emit_logs now orphans : forall emitted failed,
  logs (re_emit now orphans emitted failed) (fun l r =>
    exists done left_, orphans = done ++ left_ /\
      pick re_emitted l = map (fun e => event_of_execution e now) done /\
      (r.1 + r.2 = emitted + failed + Z.of_nat (length done))%Z /\
      (pick interruption l = [] -> left_ = [])).
Proof.
  induction orphans as [|e orphans IH]; intros emitted failed; cbn [re_emit].
  - apply logs_ret. exists [], []. split_and!; try done. cbn. lia.
  - eapply (logs_step _ _ (fun r => [RCtx r])); [intros w; apply rlog_ctx |]. intros [er|].
    + apply logs_ret. exists [], (e :: orphans). split_and!; try done. cbn. lia.
    + eapply (logs_step _ _ (fun r => [REmit _ r])); [intros w; apply rlog_emit |]. intros res.
      assert (Hnext : forall a b, (a + b = emitted + failed + 1)%Z ->
        logs (re_emit now orphans a b) (fun l x => exists done left_, e :: orphans = done ++ left_ /\
          pick re_emitted ([RCtx None] ++ [REmit (event_of_execution e now) res] ++ l) =
            map (fun e => event_of_execution e now) done /\
          (x.1 + x.2 = emitted + failed + Z.of_nat (length done))%Z /\
          (pick interruption ([RCtx None] ++ [REmit (event_of_execution e now) res] ++ l) = [] -> left_ = []))).
      { intros a b Hab. eapply logs_conseq; [apply IH |]. intros l x (done_ & left_ & -> & Hp & Hn & Hi).
        exists (e :: done_), left_. cbn in *. rewrite Hp. split_and!; try done. lia. }
      destruct res; apply Hnext; lia.
Qed.

(** C22: a cycle first asks for stale claims to be requeued and then for orphans,
    each with the batch size and with its own cutoff before the time of the cycle
    (the requeue threshold defaults to the orphan threshold); every orphan that
    the store answers is emitted again under its own execution identifier, in
    order and once, up to the first interruption; if the store fails, none is. *)
Theorem cycle_re_emits_orphans (w : W) :
  exists now l, eval time_Now w = now /\ rlog (exec (runCycle r) w) = rlog w ++ l /\
    exists rq ro rest, l = RRequeue (requeueCutoff r now) (BatchSize (rc_config r)) rq ::
                           ROrphans (orphanCutoff r now) (BatchSize (rc_config r)) ro :: rest /\
    match ro with
    | Err _ => rest = []
    | Ok orphans =>
        exists done left_, orphans = done ++ left_ /\
          pick re_emitted rest = map (fun e => event_of_execution e now) done /\
          (pick interruption rest = [] -> left_ = [])
    end.
Proof.
  unfold runCycle. set (now := eval time_Now w). exists now.
  assert (Hrun : logs (RequeueStaleExecutions (requeueCutoff r now) (BatchSize (rc_config r)) ≫= fun _ =>
      GetOrphanedExecutions (orphanCutoff r now) (BatchSize (rc_config r)) ≫= fun ro =>
      match ro with
      | Ok orphans =>
          when (rc_metrics r) (OrphanedExecutionsUpdate (Z.of_nat (length orphans))) ≫= fun _ =>
          if (Z.of_nat (length orphans) =? 0)%Z then mret tt else re_emit now orphans 0 0 ≫= fun _ => mret tt
      | Err e => mret tt
      end) (fun l _ => exists rq ro rest, l = RRequeue (requeueCutoff r now) (BatchSize (rc_config r)) rq ::
                           ROrphans (orphanCutoff r now) (BatchSize (rc_config r)) ro :: rest /\
    match ro with
    | Err _ => rest = []
    | Ok orphans =>
        exists done left_, orphans = done ++ left_ /\
          pick re_emitted rest = map (fun e => event_of_execution e now) done /\
          (pick interruption rest = [] -> left_ = [])
    end)).
  { eapply (logs_step _ _ (fun x => [RRequeue _ _ x])); [intros w'; apply rlog_requeue |]. intros rq.
    eapply (logs_step _ _ (fun x => [ROrphans _ _ x])); [intros w'; apply rlog_orphans |]. intros [orphans|e].
    - apply (logs_step _ _ (fun _ => if rc_metrics r then [RCount (Z.of_nat (length orphans))] else [])).
      { intros w'. unfold when. destruct (rc_metrics r); [apply rlog_count | by rewrite app_nil_r]. }
      intros _. destruct (Z.eqb_spec (Z.of_nat (length orphans)) 0) as [E|_].
      + apply logs_ret. do 3 eexists. split; [reflexivity |]. destruct orphans; [|cbn in E; lia].
        exists [], []. split_and!; try done. by destruct (rc_metrics r).
      + apply logs_bind. eapply logs_conseq; [apply re_emit_logs |].
        intros l x (done_ & left_ & -> & Hp & _ & Hi). apply logs_ret. do 3 eexists. split; [reflexivity |].
        exists done_, left_. rewrite app_nil_r, !pick_app.
        assert (pick re_emitted (if rc_metrics r then [RCount (Z.of_nat (length (done_ ++ left_)))] else []) = []) as ->
          by by destruct (rc_metrics r).
        assert (pick interruption (if rc_metrics r then [RCount (Z.of_nat (length (done_ ++ left_)))] else []) = []) as ->
          by by destruct (rc_metrics r).
        done.
    - apply logs_ret. do 3 eexists. by split. }
  destruct (Hrun (exec time_Now w)) as (l & Hl & Hp). exists l. split; [done |].
  unfold exec, eval in *. unfold mbind at 1, st_bind at 1.
  pose proof (rlog_now w) as Hn. unfold exec in Hn. unfold now, eval in *.
  destruct (time_Now w) as [t w1]. cbn [fst snd] in *. rewrite Hn in Hl. split; [exact Hl | exact Hp].
Qed.
End theory.

(** With the default configuration both cutoffs lie the safety margin beyond
    the longest time that a dispatch may still be retrying, and the thresholds
    are nineteen minutes. *)
Lemma default_thresholds_exceed_retries (now : time) :
  (orphanCutoff (New DefaultConfig) now = now - MaxRetryDuration - SafetyMargin)%Z /\
  requeueCutoff (New DefaultConfig) now = orphanCutoff (New DefaultConfig) now /\
  Threshold DefaultConfig = (19 * Minute)%Z.
Proof.
  unfold orphanCutoff, requeueCutoff, New, time_add. cbn [rc_config].
  assert (H1 : Threshold DefaultConfig = (MaxRetryDuration + SafetyMargin)%Z) by reflexivity.
  assert (H2 : RequeueThreshold DefaultConfig = Threshold DefaultConfig) by reflexivity.
  assert (H3 : Threshold DefaultConfig = (19 * Minute)%Z) by reflexivity.
  rewrite H2. split; [lia |]. split; [|done]. by destruct (Threshold DefaultConfig =? 0)%Z.
Qed.
