(* ===== verification/Sha256.v ===== *)
(** * SHA-256 and HMAC

    The hash functions of Go's [crypto/sha256] and [crypto/hmac] that the source
    uses for webhook signatures and for the tokens of API keys and sessions, as
    FIPS 180-4 and RFC 2104 define them, on lists of bytes. *)
From S2P Require Import Prelude GoStrings.
Local Open Scope Z_scope.

Definition word (x : Z) : Z := x mod 2 ^ 32.
Definition rotr (n x : Z) : Z := Z.lor (Z.shiftr x n) (word (Z.shiftl x (32 - n))).
Definition add32 (x y : Z) : Z := word (x + y).
Definition not32 (x : Z) : Z := Z.lxor x (2 ^ 32 - 1).

Definition Ch (x y z : Z) : Z := Z.lxor (Z.land x y) (Z.land (not32 x) z).
Definition Maj (x y z : Z) : Z := Z.lxor (Z.lxor (Z.land x y) (Z.land x z)) (Z.land y z).
Definition Sigma0 (x : Z) : Z := Z.lxor (Z.lxor (rotr 2 x) (rotr 13 x)) (rotr 22 x).
Definition Sigma1 (x : Z) : Z := Z.lxor (Z.lxor (rotr 6 x) (rotr 11 x)) (rotr 25 x).
Definition sigma0 (x : Z) : Z := Z.lxor (Z.lxor (rotr 7 x) (rotr 18 x)) (Z.shiftr x 3).
Definition sigma1 (x : Z) : Z := Z.lxor (Z.lxor (rotr 17 x) (rotr 19 x)) (Z.shiftr x 10).

(** The constants of FIPS 180-4, as it defines them: the first 32 bits of the
    fractional parts of the cube roots of the first 64 primes, and of the square
    roots of the first eight. *)
Definition is_prime (n : nat) : bool :=
  (2 <=? n)%nat && forallb (fun d => negb (n mod d =? 0)%nat) (seq 2 (n - 2)).
Definition primes (n : nat) : list Z := take n (Z.of_nat <$> List.filter is_prime (seq 2 310)).
(** The largest number with a cube of at most [x], bit by bit from the top. *)
Fixpoint cube_root (bits : nat) (x r : Z) : Z :=
  match bits with
  | O => r
  | S bits' =>
      let r' := r + 2 ^ Z.of_nat bits' in
      cube_root bits' x (if r' ^ 3 <=? x then r' else r)
  end.
Definition K256 : list Z :=
  Eval vm_compute in (fun p => word (cube_root 40 (p * 2 ^ 96) 0)) <$> primes 64.
Definition H0 : list Z := Eval vm_compute in (fun p => word (Z.sqrt (p * 2 ^ 64))) <$> primes 8.

(** Bytes of a big-endian number, [n] of them. *)
Fixpoint be_bytes (n : nat) (x : Z) : list Z :=
  match n with
  | O => []
  | S n' => Z.shiftr x (8 * Z.of_nat n') mod 256 :: be_bytes n' x
  end.

(** Padding: a one bit, zeros, and the length in bits in 64 bits. *)
Definition pad (msg : list Z) : list Z :=
  let len := Z.of_nat (length msg) in
  msg ++ 0x80 :: replicate (Z.to_nat ((55 - len) mod 64)) 0 ++ be_bytes 8 (8 * len).

Fixpoint words_of (bs : list Z) : list Z :=
  match bs with
  | a :: b :: c :: d :: bs' => a * 2 ^ 24 + b * 2 ^ 16 + c * 2 ^ 8 + d :: words_of bs'
  | _ => []
  end.

(** The message schedule, built backwards: the last sixteen words first. *)
Fixpoint schedule (n : nat) (window : list Z) : list Z :=
  match n with
  | O => []
  | S n' =>
      match window with
      | w0 :: w1 :: _ =>
          let new := add32 (add32 (add32 (sigma1 (nth 14 window 0)) (nth 9 window 0)) (sigma0 w1)) w0 in
          w0 :: schedule n' (tail window ++ [new])
      | _ => []
      end
  end.

Definition round (h : list Z) (kw : Z * Z) : list Z :=
  match h with
  | [a; b; c; d; e; f; g; h0] =>
      let t1 := add32 (add32 (add32 (add32 h0 (Sigma1 e)) (Ch e f g)) (fst kw)) (snd kw) in
      let t2 := add32 (Sigma0 a) (Maj a b c) in
      [add32 t1 t2; a; b; c; add32 d t1; e; f; g]
  | _ => h
  end.

Definition block (h : list Z) (ws : list Z) : list Z :=
  zip_with add32 h (fold_left round (combine K256 (schedule 64 ws)) h).

(** The blocks of sixteen words; [n] bounds their number. *)
Fixpoint blocks (n : nat) (h : list Z) (ws : list Z) : list Z :=
  match n, ws with
  | S n', _ :: _ => blocks n' (block h (take 16 ws)) (drop 16 ws)
  | _, _ => h
  end.

Definition sha256 (msg : list Z) : list Z :=
  let ws := words_of (pad msg) in
  flat_map (be_bytes 4) (blocks (length ws) H0 ws).

(** RFC 2104 with the block size of 64 bytes. *)
Definition hmac_sha256 (key msg : list Z) : list Z :=
  let key := if (64 <? length key)%nat then sha256 key else key in
  let key := key ++ replicate (64 - length key) 0 in
  sha256 (map (Z.lxor 0x5c) key ++ sha256 (map (Z.lxor 0x36) key ++ msg)).

(** ** Test vectors *)
Example sha256_abc :
  hex_encode (sha256 (bytes_of "abc")) =
  "ba7816bf8f01cfea414140de5dae2223b00361a396177a9cb410ff61f20015ad".
Proof. vm_compute. reflexivity. Qed.

Example sha256_two_blocks :
  hex_encode (sha256 (bytes_of "abcdbcdecdefdefgefghfghighijhijkijkljklmklmnlmnomnopnopq")) =
  "248d6a61d20638b8e5c026930c3e6039a33ce45964ff2167f6ecedd419db06c1".
Proof. vm_compute. reflexivity. Qed.

Example hmac_rfc4231_case2 :
  hex_encode (hmac_sha256 (bytes_of "Jefe") (bytes_of "what do ya want for nothing?")) =
  "5bdcc146bf60754e6a042426089575c75a003f089d2739839dec58b964ec3843".
Proof. vm_compute. reflexivity. Qed.

(** ** Lengths *)
Lemma be_bytes_length n x : length (be_bytes n x) = n.
Proof. induction n; cbn; congruence. Qed.

Lemma round_length h kw : length h = 8%nat -> length (round h kw) = 8%nat.
Proof. destruct h as [|? [|? [|? [|? [|? [|? [|? [|? [|? ?]]]]]]]]]; try discriminate; reflexivity. Qed.

Lemma block_length h ws : length h = 8%nat -> length (block h ws) = 8%nat.
Proof.
  intros Hh. unfold block. rewrite length_zip_with.
  assert (Hr : forall l h, length h = 8%nat -> length (fold_left round l h) = 8%nat).
  { induction l as [|x l IH]; intros h' Hh'; cbn; [done |]. apply IH, round_length, Hh'. }
  rewrite Hr by done. rewrite Hh. reflexivity.
Qed.

Lemma blocks_length n : forall h ws, length h = 8%nat -> length (blocks n h ws) = 8%nat.
Proof. induction n as [|n IH]; intros h [|w ws] Hh; cbn [blocks]; try done. apply IH, block_length, Hh. Qed.

Lemma sha256_length msg : length (sha256 msg) = 32%nat.
Proof.
  unfold sha256. set (h := blocks _ _ _).
  assert (Hh : length h = 8%nat) by by apply blocks_length.
  destruct h as [|? [|? [|? [|? [|? [|? [|? [|? [|? ?]]]]]]]]]; try discriminate. reflexivity.
Qed.

Lemma hmac_length key msg : length (hmac_sha256 key msg) = 32%nat.
Proof. apply sha256_length. Qed.
