(* ===== verification/Json.v ===== *)
(** * JSON: what the program encodes

    [encoding/json] on structures of texts, numbers and flags. *)
From S2P Require Import Prelude GoStrings.

(** ** Objects of texts

    [json.Marshal] of a structure of strings: the fields in order, each text
    quoted. The encoder escapes the control characters, the quote, the backslash,
    the characters that are special in HTML, and U+2028 and U+2029; the other
    characters of UTF-8 are copied, and a byte that begins none of them becomes the
    escape of U+FFFD. *)
Definition hex4 (b : Z) : string :=
  "\u00" +:+ String (hex_digit (b / 16)) (String (hex_digit (b mod 16)) EmptyString).
Definition json_byte (c : ascii) : string :=
  let b := byte_of c in
  if (b =? 34)%Z then String "\" (String c EmptyString)
  else if (b =? 92)%Z then "\\"
  else if (b =? 8)%Z then "\b"
  else if (b =? 12)%Z then "\f"
  else if (b =? 10)%Z then "\n"
  else if (b =? 13)%Z then "\r"
  else if (b =? 9)%Z then "\t"
  else if (b <? 32)%Z || (b =? 38)%Z || (b =? 60)%Z || (b =? 62)%Z then hex4 b
  else String c EmptyString.

(** [utf8.DecodeRuneInString]: which sequences of two, three and four bytes are a
    character. *)
Definition within (lo hi : Z) (c : ascii) : bool := (lo <=? byte_of c)%Z && (byte_of c <=? hi)%Z.
Definition continues : ascii -> bool := within 128 191.
Definition rune2 (c c1 : ascii) : bool := within 194 223 c && continues c1.
Definition rune3 (c c1 c2 : ascii) : bool :=
  (within 224 224 c && within 160 191 c1 || within 237 237 c && within 128 159 c1 ||
   (within 225 236 c || within 238 239 c) && continues c1) && continues c2.
Definition rune4 (c c1 c2 c3 : ascii) : bool :=
  (within 240 240 c && within 144 191 c1 || within 241 243 c && continues c1 || within 244 244 c && within 128 143 c1) &&
  continues c2 && continues c3.
(** A character of three bytes: U+2028 and U+2029 end a line in JavaScript. *)
Definition json_rune3 (c c1 c2 : ascii) : string :=
  if within 226 226 c && within 128 128 c1 && within 168 169 c2
  then "\u202" +:+ String (hex_digit (byte_of c2 - 160)) EmptyString
  else String c (String c1 (String c2 EmptyString)).

Fixpoint json_escape (s : string) : string :=
  match s with
  | EmptyString => EmptyString
  | String c s' =>
      let invalid := "\ufffd" +:+ json_escape s' in
      if (byte_of c <? 128)%Z then json_byte c +:+ json_escape s' else
      match s' with
      | EmptyString => invalid
      | String c1 s1 =>
          if rune2 c c1 then String c (String c1 (json_escape s1)) else
          match s1 with
          | EmptyString => invalid
          | String c2 s2 =>
              if rune3 c c1 c2 then json_rune3 c c1 c2 +:+ json_escape s2 else
              match s2 with
              | EmptyString => invalid
              | String c3 s3 =>
                  if rune4 c c1 c2 c3 then String c (String c1 (String c2 (String c3 (json_escape s3)))) else invalid
              end
          end
      end
  end.
Definition quote : string := String (of_byte 34) EmptyString.
Definition json_string (s : string) : string := quote +:+ json_escape s +:+ quote.
Definition json_object (fields : list (string * string)) : string :=
  "{" +:+ Join (map (fun f => json_string f.1 +:+ ":" +:+ json_string f.2) fields) "," +:+ "}".

Example escape_ex :
  json_escape "a<b\" = "a\u003cb\\".
Proof. vm_compute. reflexivity. Qed.
Definition text (bs : list Z) : string := foldr (fun b s => String (of_byte b) s) EmptyString bs.
(** U+00E9, U+20AC and U+1F600; U+2028; a surrogate, and a byte alone. *)
Example escape_utf8 :
  (forall s, s ∈ [text [195; 169]; text [226; 130; 172]; text [240; 159; 152; 128]]%Z -> json_escape s = s) /\
  json_escape (text [226; 128; 168]%Z) = "\u2028" /\
  json_escape (text [237; 160; 128; 97; 255]%Z) = "\ufffd\ufffd\ufffda\ufffd".
Proof.
  split; [| split; vm_compute; reflexivity]. intros s Hs.
  repeat (apply elem_of_cons in Hs as [->|Hs]; [vm_compute; reflexivity |]). by apply elem_of_nil in Hs.
Qed.

(** ** Values

    The values that the program encodes, objects with their fields in order. *)
Inductive json : Type :=
| JString (s : string)
| JInt (n : Z)
| JBool (b : bool)
| JArray (l : list json)
| JObject (l : list (string * json)).

(** [json.Marshal]. *)
Fixpoint json_text (v : json) : string :=
  match v with
  | JString s => json_string s
  | JInt n => Itoa n
  | JBool b => if b then "true" else "false"
  | JArray l => "[" +:+ Join (map json_text l) "," +:+ "]"
  | JObject l => "{" +:+ Join (map (fun f => json_string f.1 +:+ ":" +:+ json_text f.2) l) "," +:+ "}"
  end.

(** A field that is a pointer with the tag [omitempty]. *)
Definition opt {A} (name : string) (o : option A) (f : A -> json) : list (string * json) :=
  match o with Some a => [(name, f a)] | None => [] end.

(** The entries of a map in the order of their keys, as the encoder writes them. *)
Definition key_le (p q : string * string) : Prop := String.leb p.1 q.1 = true.
#[export] Instance key_le_dec p q : Decision (key_le p q) := decide (_ = true).
Definition json_map (m : gmap string string) : json :=
  JObject (map (fun p => (p.1, JString p.2)) (merge_sort key_le (map_to_list m))).

(** A field of a structure of texts, numbers and flags; one tagged [omitempty] is
    left out when empty. *)
Record field : Type := mkField { f_name : string; f_omitempty : bool; f_value : json }.
Definition is_empty (v : json) : bool :=
  match v with
  | JString s => String.eqb s ""
  | JInt n => (n =? 0)%Z
  | JBool b => negb b
  | JArray l => (length l =? 0)%nat
  | JObject _ => false
  end.
Definition kept (f : field) : bool := negb (f_omitempty f && is_empty (f_value f)).

Definition nl : string := String (of_byte 10) EmptyString.
(** [json.MarshalIndent(v, "", "  ")] of such a structure, when it has a field left. *)
Definition marshal_indent (l : list field) : string :=
  "{" +:+ nl +:+
  Join (map (fun f => "  " +:+ json_string (f_name f) +:+ ": " +:+ json_text (f_value f)) (List.filter kept l)) ("," +:+ nl) +:+
  nl +:+ "}".

Example json_text_ex :
  json_text (JObject [("tags", json_map {["b" := "1"; "a" := "2"]}); ("l", JArray [JInt 1; JBool true])]) =
  "{" +:+ json_string "tags" +:+ ":{" +:+ json_string "a" +:+ ":" +:+ json_string "2" +:+ "," +:+ json_string "b" +:+ ":" +:+ json_string "1" +:+
  "}," +:+ json_string "l" +:+ ":[1,true]}".
Proof. vm_compute. reflexivity. Qed.
Example marshal_indent_ex :
  marshal_indent [mkField "a" false (JInt 1); mkField "b" true (JString ""); mkField "c" false (JBool true)] =
  "{" +:+ nl +:+ "  " +:+ json_string "a" +:+ ": 1," +:+ nl +:+ "  " +:+ json_string "c" +:+ ": true" +:+ nl +:+ "}".
Proof. vm_compute. reflexivity. Qed.
