(* ===== verification/Webhook.v ===== *)
(** * The webhook sender: [internal/dispatcher/webhook.go]

    The request that is sent for a delivery, its signature, and its timeout. The
    HTTP client is a class over the state of the outside world. The theorems say
    what [Send] does with the client, and what the deliveries of a dispatch may
    take with the deadlines that they get. *)
From S2P Require Import Prelude Trace GoStrings Json Domain Runtime Sha256 Dispatcher DispatcherTheory DispatcherProps.
Local Open Scope cron_scope.

(** ** The payload *)

(** The field tags of [WebhookPayload]. *)
Definition marshal_payload (p : WebhookPayload) : string :=
  json_object [("job_id", p_JobID p); ("job_name", p_JobName p); ("execution_id", p_ExecutionID p);
               ("scheduled_at", p_ScheduledAt p); ("fired_at", p_FiredAt p)].

(** ** Signatures *)
Definition computeSignature (secret : string) (body : string) : string :=
  hex_encode (hmac_sha256 (bytes_of secret) (bytes_of body)).
(** [hmac.Equal] is the equality of bytes, in constant time. *)
Definition VerifySignature (secret body signature : string) : bool :=
  bool_decide (bytes_of (computeSignature secret body) = bytes_of signature).

(** ** The sender *)
Record HTTPRequest : Type := mkHTTPRequest {
  h_Method : string;
  h_URL : string;
  h_Header : list (string * string);
  h_Body : string;
  h_Deadline : duration;      (* of the context, from the time of the call *)
}.
(** The limits of [http.Transport] that the sender sets; the client itself has no
    deadline. *)
Record Transport : Type := mkTransport {
  MaxIdleConns : Z;
  MaxIdleConnsPerHost : Z;
  IdleConnTimeout : duration;
  TLSHandshakeTimeout : duration;
  ResponseHeaderTimeout : duration;
  ExpectContinueTimeout : duration;
}.
Record HTTPWebhookSender : Type := mkSender { hs_Transport : Transport; hs_Timeout : option duration }.
Definition NewHTTPWebhookSender : HTTPWebhookSender :=
  {| hs_Transport :=
       {| MaxIdleConns := 100; MaxIdleConnsPerHost := 10; IdleConnTimeout := 90 * Second; TLSHandshakeTimeout := 10 * Second;
          ResponseHeaderTimeout := 30 * Second; ExpectContinueTimeout := 1 * Second |};
     hs_Timeout := None |}.

Class HTTPClient (W : Type) : Type := {
  (** the check of method and URL in [http.NewRequestWithContext] *)
  new_request : string -> string -> result err unit;
  (** [client.Do] of a client with these settings: the status code of the response *)
  client_Do : HTTPWebhookSender -> HTTPRequest -> st W (result err Z);
}.

Section sender.
  Context {W : Type} `{!HTTPClient W, !Runtime W}.
  Variable s : HTTPWebhookSender.

Definition request_of (req : WebhookRequest) : HTTPRequest :=
  let body := marshal_payload (r_Payload req) in
  {| h_Method := "POST"; h_URL := r_URL req;
     h_Header := [("Content-Type", "application/json"); ("X-CronLite-Event-ID", r_AttemptID req);
                  ("X-CronLite-Execution-ID", p_ExecutionID (r_Payload req));
                  ("X-CronLite-Signature", computeSignature (r_Secret req) body)];
     h_Body := body;
     h_Deadline := if (r_Timeout req =? 0)%Z then 30 * Second else r_Timeout req |}.

(** [Send]; encoding a structure of strings does not fail. *)
Definition Send (req : WebhookRequest) : st W WebhookResult :=
  time_Now ≫= fun start =>
  match new_request "POST" (r_URL req) with
  | Err e =>
      time_Now ≫= fun now =>
      mret {| wr_StatusCode := 0; wr_Error := Some (EWrap "create request" e); wr_Duration := time_sub now start |}
  | Ok _ =>
      client_Do s (request_of req) ≫= fun resp =>
      time_Now ≫= fun now =>
      mret (match resp with
            | Err e => {| wr_StatusCode := 0; wr_Error := Some (EWrap "send" e); wr_Duration := time_sub now start |}
            | Ok code => {| wr_StatusCode := code; wr_Error := None; wr_Duration := time_sub now start |}
            end)
  end.
End sender.

#[export] Instance http_sender {W} `{!HTTPClient W, !Runtime W} : WebhookSender W := {| Dispatcher.Send := Send NewHTTPWebhookSender |}.

(** ** Properties *)
Lemma hex_encode_length bs : String.length (hex_encode bs) = 2 * length bs.
Proof. induction bs; cbn; lia. Qed.

(** A signature verifies exactly when it is the one that the sender computes
    for the same secret and body, and is 64 hexadecimal digits. *)
Lemma signature_verifies (secret body signature : string) :
  (VerifySignature secret body signature = true <-> signature = computeSignature secret body) /\
  String.length (computeSignature secret body) = 64.
Proof.
  split.
  - unfold VerifySignature. rewrite bool_decide_eq_true. split; [intros E; symmetry; by apply bytes_of_inj | by intros ->].
  - unfold computeSignature. by rewrite hex_encode_length, hmac_length.
Qed.

(** ** The trace of the client *)
Inductive client_action : Type :=
| Clock (t : time)
| Posted (h : HTTPRequest) (answer : result err Z).
Class ClientLog (W : Type) `{!HTTPClient W, !Runtime W} : Type := {
  client_log : W -> list client_action;
  log_Do s h w : client_log (exec (client_Do s h) w) = client_log w ++ [Posted h (eval (client_Do s h) w)];
  log_Clock w : client_log (exec time_Now w) = client_log w ++ [Clock (eval time_Now w)];
}.

Section properties.
  Context {W : Type} `{ClientLog W}.

(** C38: a delivery posts once, and what is posted is right. When the client library
    refuses the URL, nothing is posted and the error says so. Otherwise exactly one
    request is posted, between two readings of the clock: with the method POST, to
    the URL of the delivery; its body is the JSON object of the five fields of the
    payload; its headers are the content type, the identifiers of the attempt and
    of the execution, and a signature that verifies for this body under the job's
    secret; and its deadline is the job's time limit, or 30 seconds. The result is
    the answer: its status, a success exactly from 200 to 299 and to be retried exactly
    for 429 and from 500 on; or the error of the client, which is always to be retried. The
    duration is the time between the readings. *)
Theorem send_posts_signed_payload (s : HTTPWebhookSender) (req : WebhookRequest) :
  Trace.logs client_log (Send s req) (fun l res =>
    exists t0 t1, wr_Duration res = time_sub t1 t0 /\
    match new_request "POST" (r_URL req) with
    | Err e => l = [Clock t0; Clock t1] /\ wr_StatusCode res = 0%Z /\ wr_Error res = Some (EWrap "create request" e)
    | Ok _ => exists h answer signature, l = [Clock t0; Posted h answer; Clock t1] /\
        h_Method h = "POST"%string /\ h_URL h = r_URL req /\
        h_Body h = json_text (JObject [("job_id", JString (p_JobID (r_Payload req))); ("job_name", JString (p_JobName (r_Payload req)));
          ("execution_id", JString (p_ExecutionID (r_Payload req))); ("scheduled_at", JString (p_ScheduledAt (r_Payload req)));
          ("fired_at", JString (p_FiredAt (r_Payload req)))]) /\
        h_Header h = [("Content-Type", "application/json"); ("X-CronLite-Event-ID", r_AttemptID req);
          ("X-CronLite-Execution-ID", p_ExecutionID (r_Payload req)); ("X-CronLite-Signature", signature)] /\
        VerifySignature (r_Secret req) (h_Body h) signature = true /\
        h_Deadline h = (if r_Timeout req =? 0 then 30 * Second else r_Timeout req)%Z /\
        match answer with
        | Ok code => wr_StatusCode res = code /\ wr_Error res = None /\
            (IsSuccess res = true <-> 200 <= code < 300)%Z /\ (IsRetryable res = true <-> code = 429 \/ 500 <= code)%Z
        | Err e => wr_StatusCode res = 0%Z /\ wr_Error res = Some (EWrap "send" e) /\ IsSuccess res = false /\ IsRetryable res = true
        end
    end).
Proof.
  unfold Send. apply (logs_step _ _ (fun t => [Clock t])); [apply log_Clock |]. intros t0.
  destruct (new_request "POST" (r_URL req)) as [[]|e].
  - apply (logs_step _ _ (fun r => [Posted (request_of req) r])); [apply log_Do |]. intros answer.
    apply (logs_step _ _ (fun t => [Clock t])); [apply log_Clock |]. intros t1. apply logs_ret. exists t0, t1.
    split; [by destruct answer |]. exists (request_of req), answer, (computeSignature (r_Secret req) (marshal_payload (r_Payload req))).
    do 5 (split; [reflexivity |]). split; [by apply signature_verifies |]. split; [reflexivity |].
    destruct answer as [code|e]; [| done]. unfold IsSuccess, IsRetryable; cbn. rewrite andb_true_iff, Z.leb_le, Z.ltb_lt.
    split_and!; try done. destruct (Z.eqb_spec code 429); [| rewrite Z.leb_le]; split; auto; lia.
  - apply (logs_step _ _ (fun t => [Clock t])); [apply log_Clock |]. intros t1. apply logs_ret. by exists t0, t1.
Qed.
End properties.

(** ** The time of a dispatch *)
Section time.
  Context {W : Type} `{DispatchLog W}.
  Variable d : Dispatcher.

Lemma total_deadlines (limit : duration) (qs : list WebhookRequest) (n : nat) :
  length qs <= n -> Forall (fun q => h_Deadline (request_of q) = limit) qs ->
  (total ((fun q => h_Deadline (request_of q)) <$> qs) <= Z.of_nat n * Z.max 0 limit)%Z.
Proof.
  intros Hn Hq. revert n Hn. induction Hq as [|q qs Hq _ IH]; intros n Hn; cbn [fmap list_fmap total foldr length] in *; [lia |].
  destruct n as [|n]; [lia |]. specialize (IH n ltac:(lia)). unfold total in IH. lia.
Qed.

(** C28: the time of a dispatch with the default backoff is bounded by the time limit of
    its job. The waits before retries take at most twelve and a half minutes, and there are
    at most four deliveries, each with the deadline of the job that the store
    answered: its time limit, or 30 seconds. Waits and deadlines together are
    therefore within the sum of both, and within [MaxRetryDuration], which is
    sixteen and a half minutes, for every job whose deadline is not longer than
    [maxWebhookAttemptTimeout]. *)
Theorem dispatch_within_retry_budget event w :
  d_backoff d = defaultBackoff ->
  exists l, log (exec (Dispatch d event) w) = log w ++ l /\
    let waits := total (pick waited l) in
    let deadlines := (fun q => h_Deadline (request_of q)) <$> (pick sent l).*1 in
    (waits <= 12 * Minute + 30 * Second)%Z /\ length deadlines <= 4 /\
    MaxRetryDuration = (16 * Minute + 30 * Second)%Z /\
    (deadlines = [] \/ exists job, AGetJob (ev_JobID event) (Ok job) ∈ l /\
       let limit := if (d_Timeout (j_Delivery job) =? 0)%Z then (30 * Second)%Z else d_Timeout (j_Delivery job) in
       Forall (fun t => t = limit) deadlines /\
       (waits + total deadlines <= 12 * Minute + 30 * Second + 4 * Z.max 0 limit)%Z /\
       ((limit <= maxWebhookAttemptTimeout)%Z -> (waits + total deadlines <= MaxRetryDuration)%Z)).
Proof.
  intros Hd. destruct (dispatch_time d event w Hd) as (l & Hl & Hw & Hn & Hj). exists l. split; [exact Hl |]. cbv zeta.
  unfold maxAttempts in Hn. split; [exact Hw |]. split; [rewrite !length_fmap; lia |]. split; [reflexivity |].
  destruct Hj as [->|(job & Hin & Hf)]; [by left |]. right. exists job. split; [exact Hin |].
  set (limit := if (d_Timeout (j_Delivery job) =? 0)%Z then (30 * Second)%Z else d_Timeout (j_Delivery job)).
  assert (Hlim : Forall (fun q => h_Deadline (request_of q) = limit) (pick sent l).*1).
  { eapply Forall_impl; [exact Hf |]. intros q (_ & _ & Ht & _). cbn. unfold limit. by rewrite Ht. }
  pose proof (total_deadlines limit (pick sent l).*1 4 ltac:(rewrite length_fmap; lia) Hlim) as Htot.
  split; [by apply Forall_fmap |]. split; [lia |]. intros H60.
  assert (E : MaxRetryDuration = (12 * Minute + 30 * Second + 4 * maxWebhookAttemptTimeout)%Z) by reflexivity.
  assert (Hpos : (0 <= maxWebhookAttemptTimeout)%Z) by done. lia.
Qed.
End time.

(** ** A concrete client *)
Module Sim.
(** A client with one answer, a clock that stands still, and the library's check
    of the method. *)
Record world : Type := mkWorld { w_log : list client_action; w_answer : result err Z }.
Definition note (a : client_action) (w : world) : world := {| w_log := w_log w ++ [a]; w_answer := w_answer w |}.
#[export] Instance client : HTTPClient world := {|
  new_request m u := if String.eqb u "" then Err (EOther "net/http: no URL") else Ok tt;
  client_Do _ h := fun w => (w_answer w, note (Posted h (w_answer w)) w);
|}.
#[export] Instance runtime : Runtime world := {|
  time_Now := fun w => (Second, note (Clock Second) w); uuid_New := mret 0%N; uuid_String i := pretty i;
  ctx_Err := mret None; wait _ := mret None |}.
#[export] Instance logged : ClientLog world.
Proof. by refine {| client_log := w_log |}. Defined.
Definition request (url : string) : WebhookRequest :=
  {| r_URL := url; r_Secret := "key"; r_Timeout := 0; r_Payload := mkPayload "7" "a" "9" "t0" "t1"; r_AttemptID := "5" |}.
Definition outcome (url : string) (answer : result err Z) : WebhookResult * list Z :=
  let r := Send NewHTTPWebhookSender (request url) (mkWorld [] answer) in
  (r.1, pick (fun a => match a with Posted h _ => Some (h_Deadline h) | Clock _ => None end) (w_log r.2)).
Example send_outcomes :
  outcome "http://a" (Ok 204%Z) = ({| wr_StatusCode := 204; wr_Error := None; wr_Duration := 0 |}, [30 * Second]%Z) /\
  outcome "http://a" (Err (EOther "EOF")) =
    ({| wr_StatusCode := 0; wr_Error := Some (EWrap "send" (EOther "EOF")); wr_Duration := 0 |}, [30 * Second]%Z) /\
  (outcome "" (Ok 204%Z)).2 = [].
Proof. vm_compute. done. Qed.
End Sim.

(** A job that asks for five minutes, and a server that does not answer: the retry window
    is not kept, as nothing limits what a job may ask for. *)
Import DispatcherProps.Sim.
Definition patient (timeout : duration) : DispatcherProps.Sim.world :=
  let w := start (repeat (status 503) 9) in
  {| w_log := w_log w;
     w_job := Ok (mkJob (j_ID job) (j_Namespace job) (j_Name job) (j_Enabled job) (j_ScheduleID job)
       (mkDeliveryConfig DeliveryTypeWebhook (d_WebhookURL (j_Delivery job)) "s3cret" timeout) (j_Analytics job)
       (j_CreatedAt job) (j_UpdatedAt job));
     w_answers := w_answers w; w_update := w_update w; w_allow := w_allow w; w_patience := w_patience w; w_now := w_now w; w_next := w_next w |}.
Definition spent (timeout : duration) : duration * duration :=
  let l := DispatcherProps.Sim.w_log (exec (Dispatch full event) (patient timeout)) in
  (total (pick waited l), total ((fun q => h_Deadline (request_of q)) <$> (pick sent l).*1)).
Example window :
  spent (60 * Second) = (12 * Minute + 30 * Second, 4 * Minute)%Z /\ spent 0 = (12 * Minute + 30 * Second, 2 * Minute)%Z /\
  spent (5 * Minute) = (12 * Minute + 30 * Second, 20 * Minute)%Z.
Proof. lazy. done. Qed.

Lemma dispatch_within_retry_budget_witness :
  let w := patient (60 * Second) in
  d_backoff full = defaultBackoff /\
  exists l, log (exec (Dispatch full event) w) = log w ++ l /\
    (total (pick waited l) + total ((fun q => h_Deadline (request_of q)) <$> (pick sent l).*1) <= MaxRetryDuration)%Z.
Proof.
  intros w. split; [reflexivity |]. destruct (dispatch_within_retry_budget full event w eq_refl) as (l & Hl & _ & _ & _ & Hj).
  exists l. split; [exact Hl |]. assert (El : l = log (exec (Dispatch full event) w)) by (rewrite Hl; reflexivity).
  destruct Hj as [Hno|(job & Hin & _ & _ & H60)]; [apply (f_equal length) in Hno; rewrite !length_fmap, El in Hno; lazy in Hno; discriminate Hno |].
  assert (Hall : Forall (fun a => match a with AGetJob _ (Ok j) => d_Timeout (j_Delivery j) = (60 * Second)%Z | _ => True end) l)
    by (rewrite El; lazy; repeat constructor).
  apply (proj1 (Forall_forall _ _) Hall) in Hin. apply H60. rewrite Hin. discriminate.
Defined.
