(* ===== verification/WebhookURL.v ===== *)
(** * Webhook destinations: [internal/webhookurl/validation.go]

    The check that keeps webhooks away from local and private destinations.  The
    URL parser and the IP parser of Go's library are parameters; the predicates
    on addresses are written out on the sixteen bytes of [net.IP]. *)
From S2P Require Import Prelude GoStrings Domain.

(** What the check reads of a parsed URL; [u_Hostname] is [u.Hostname()]. *)
Record URL : Type := mkURL { u_Scheme : string; u_Host : string; u_Hostname : string }.

(** A [net.IP] of sixteen bytes. *)
Abbreviation IP := (list Z) (only parsing).

Class NetLibrary : Type := {
  url_Parse : string -> result err URL;
  (** the address in sixteen bytes, or nil *)
  ParseIP : string -> option IP;
}.

(** ** Predicates of [net.IP] *)
Definition byte (ip : IP) (i : nat) : Z := nth i ip 0%Z.
Definition v4InV6Prefix : list Z := [0; 0; 0; 0; 0; 0; 0; 0; 0; 0; 255; 255]%Z.
(** The four bytes of an IPv4 address. *)
Definition To4 (ip : IP) : option IP :=
  if bool_decide (take 12 ip = v4InV6Prefix) then Some (drop 12 ip) else None.
Definition IPv4zero : IP := v4InV6Prefix ++ [0; 0; 0; 0]%Z.
Definition IPv6unspecified : IP := replicate 16 0%Z.
Definition IPv6loopback : IP := replicate 15 0%Z ++ [1%Z].

Definition IsUnspecified (ip : IP) : bool :=
  bool_decide (ip = IPv4zero) || bool_decide (ip = IPv6unspecified).
Definition IsLoopback (ip : IP) : bool :=
  match To4 ip with
  | Some ip4 => (byte ip4 0 =? 127)%Z
  | None => bool_decide (ip = IPv6loopback)
  end.
Definition IsPrivate (ip : IP) : bool :=
  match To4 ip with
  | Some ip4 =>
      (byte ip4 0 =? 10)%Z ||
      ((byte ip4 0 =? 172)%Z && (Z.land (byte ip4 1) 0xf0 =? 16)%Z) ||
      ((byte ip4 0 =? 192)%Z && (byte ip4 1 =? 168)%Z)
  | None => (Z.land (byte ip 0) 0xfe =? 0xfc)%Z
  end.
Definition IsLinkLocalUnicast (ip : IP) : bool :=
  match To4 ip with
  | Some ip4 => (byte ip4 0 =? 169)%Z && (byte ip4 1 =? 254)%Z
  | None => (byte ip 0 =? 0xfe)%Z && (Z.land (byte ip 1) 0xc0 =? 0x80)%Z
  end.
Definition IsLinkLocalMulticast (ip : IP) : bool :=
  match To4 ip with
  | Some ip4 => (byte ip4 0 =? 224)%Z && (byte ip4 1 =? 0)%Z && (byte ip4 2 =? 0)%Z
  | None => (byte ip 0 =? 0xff)%Z && (Z.land (byte ip 1) 0x0f =? 0x02)%Z
  end.
Definition IsMulticast (ip : IP) : bool :=
  match To4 ip with
  | Some ip4 => (Z.land (byte ip4 0) 0xf0 =? 0xe0)%Z
  | None => (byte ip 0 =? 0xff)%Z
  end.

(** ** The check *)
Definition isForbiddenIP (ip : IP) : bool :=
  IsUnspecified ip || IsLoopback ip || IsPrivate ip || IsLinkLocalUnicast ip ||
  IsLinkLocalMulticast ip || IsMulticast ip.

Definition isForbiddenHostname (host : string) : bool :=
  String.eqb host "localhost" || HasSuffix host ".localhost" || String.eqb host "metadata.google.internal".

(** [strings.LastIndex(host, "%")], and the part before it. *)
Fixpoint before_last_percent (host : string) : option string :=
  match host with
  | EmptyString => None
  | String c host' =>
      match before_last_percent host' with
      | Some p => Some (String c p)
      | None => if decide (c = "%"%char) then Some EmptyString else None
      end
  end.
Definition stripIPv6Zone (host : string) : string := default host (before_last_percent host).

Section validate.
  Context `{!NetLibrary}.

Definition Validate (rawURL : string) : result err unit :=
  match url_Parse rawURL with
  | Err e => Err e
  | Ok u =>
      if negb (String.eqb (u_Scheme u) "http") && negb (String.eqb (u_Scheme u) "https")
      then Err (EOther "scheme must be http or https")
      else if String.eqb (u_Host u) "" then Err (EOther "host is required")
      else
        let host := ToLower (u_Hostname u) in
        if isForbiddenHostname host then Err (EOther "forbidden host")
        else match ParseIP (stripIPv6Zone host) with
             | Some ip => if isForbiddenIP ip then Err (EOther "forbidden ip") else Ok tt
             | None => Ok tt
             end
  end.
End validate.

(** ** The forbidden networks

    A network is a prefix: its bits, and their number. *)
Definition Network : Type := list Z * Z.
(** The number with the given bytes, most significant first. *)
Definition number (bs : list Z) : Z := fold_left (fun acc b => acc * 256 + b)%Z bs 0%Z.
Definition in_network (bs : list Z) (n : Network) : Prop :=
  let width := (8 * Z.of_nat (length bs))%Z in
  Z.shiftr (number bs) (width - n.2) = Z.shiftr (number n.1) (width - n.2).
#[export] Instance in_network_dec bs n : Decision (in_network bs n).
Proof. unfold in_network. apply _. Defined.

Definition forbidden_v4 : list Network :=
  [([0; 0; 0; 0], 32); ([127; 0; 0; 0], 8); ([10; 0; 0; 0], 8); ([172; 16; 0; 0], 12);
   ([192; 168; 0; 0], 16); ([169; 254; 0; 0], 16); ([224; 0; 0; 0], 4)]%Z.
Definition forbidden_v6 : list Network :=
  [(replicate 16 0, 128); (replicate 15 0 ++ [1], 128); (0xfc :: replicate 15 0, 7);
   ([0xfe; 0x80] ++ replicate 14 0, 10); (0xff :: replicate 15 0, 8)]%Z.

Definition is_bytes (bs : list Z) : Prop := Forall (fun b => (0 <= b < 256)%Z) bs.

(** ** Lemmas *)
Lemma number_from acc bs :
  (fold_left (fun acc b => acc * 256 + b) bs acc = acc * 256 ^ Z.of_nat (length bs) + number bs)%Z.
Proof.
  unfold number. revert acc. induction bs as [|b bs IH]; intros acc; cbn [fold_left length]; [lia |].
  rewrite (IH (acc * 256 + b)%Z), (IH (0 * 256 + b)%Z), Nat2Z.inj_succ, Z.pow_succ_r by lia. lia.
Qed.

Lemma number_app p r : (number (p ++ r) = number p * 256 ^ Z.of_nat (length r) + number r)%Z.
Proof. unfold number at 1. rewrite fold_left_app. apply number_from. Qed.

Lemma number_range bs : is_bytes bs -> (0 <= number bs < 256 ^ Z.of_nat (length bs))%Z.
Proof.
  induction 1 as [|b bs Hb _ IH]; [done |].
  change (b :: bs) with ([b] ++ bs). rewrite number_app, length_app, Nat2Z.inj_add, Z.pow_add_r by lia.
  change (number [b]) with b. change (256 ^ Z.of_nat (length [b]))%Z with 256%Z. nia.
Qed.

(** The leading bits of an address are those of its first bytes. *)
Lemma shiftr_number p r k :
  is_bytes r -> (0 <= k)%Z ->
  Z.shiftr (number (p ++ r)) (k + 8 * Z.of_nat (length r)) = Z.shiftr (number p) k.
Proof.
  intros Hr Hk. pose proof (number_range r Hr) as Hn.
  rewrite Z.add_comm, <- Z.shiftr_shiftr by lia. f_equal.
  rewrite number_app, Z.shiftr_div_pow2 by lia. rewrite (Z.pow_mul_r 2 8) by lia. change (2 ^ 8)%Z with 256%Z.
  rewrite Z.div_add_l by lia. rewrite Z.div_small by lia. lia.
Qed.

Lemma number_inj bs bs' :
  is_bytes bs -> is_bytes bs' -> length bs = length bs' -> number bs = number bs' -> bs = bs'.
Proof.
  intros Hb. revert bs'. induction Hb as [|b bs Hb Hbs IH]; intros [|b' bs'] Hb' Hl Hn; cbn in Hl; try lia; [done |].
  apply Forall_cons in Hb' as [Hb' Hbs'].
  change (b :: bs) with ([b] ++ bs) in Hn. change (b' :: bs') with ([b'] ++ bs') in Hn. rewrite !number_app in Hn.
  assert (Hl' : length bs = length bs') by lia. rewrite Hl' in Hn.
  change (number [b]) with b in Hn. change (number [b']) with b' in Hn.
  pose proof (number_range bs Hbs) as H1. pose proof (number_range bs' Hbs') as H2. rewrite Hl' in H1.
  assert (b = b') as -> by nia. f_equal. apply IH; [done | done | lia].
Qed.

(** A boolean fact about a byte, checked for every byte. *)
Lemma byte_forall (P : Z -> bool) : forallb P (seqZ 0 256) = true -> forall b, (0 <= b < 256)%Z -> P b = true.
Proof.
  intros Hall b Hb. rewrite forallb_forall in Hall. apply Hall.
  apply list_elem_of_In, elem_of_seqZ. lia.
Qed.

Section addresses.
Lemma land_f0 b : (0 <= b < 256)%Z -> Z.land b 0xf0 = (Z.shiftr b 4 * 16)%Z.
Proof. intros Hb. apply Z.eqb_eq. apply (byte_forall (fun b => Z.land b 0xf0 =? Z.shiftr b 4 * 16)%Z); [vm_compute; reflexivity | done]. Qed.
Lemma land_c0 b : (0 <= b < 256)%Z -> Z.land b 0xc0 = (Z.shiftr b 6 * 64)%Z.
Proof. intros Hb. apply Z.eqb_eq. apply (byte_forall (fun b => Z.land b 0xc0 =? Z.shiftr b 6 * 64)%Z); [vm_compute; reflexivity | done]. Qed.
Lemma land_fe b : (0 <= b < 256)%Z -> Z.land b 0xfe = (Z.shiftr b 1 * 2)%Z.
Proof. intros Hb. apply Z.eqb_eq. apply (byte_forall (fun b => Z.land b 0xfe =? Z.shiftr b 1 * 2)%Z); [vm_compute; reflexivity | done]. Qed.

(** The address belongs to a network whose prefix ends [k] bits before the end
    of the bytes [p]. *)
Lemma in_network_prefix p r q s k :
  is_bytes r -> is_bytes s -> length p = length q -> length r = length s -> (0 <= k)%Z ->
  in_network (p ++ r) (q ++ s, 8 * Z.of_nat (length p) - k)%Z <-> Z.shiftr (number p) k = Z.shiftr (number q) k.
Proof.
  intros Hr Hs Hl Hl' Hk. unfold in_network. cbn [fst snd]. rewrite length_app.
  replace (8 * Z.of_nat (length p + length r) - (8 * Z.of_nat (length p) - k))%Z with (k + 8 * Z.of_nat (length r))%Z by lia.
  rewrite shiftr_number by done. rewrite Hl'. by rewrite shiftr_number.
Qed.
End addresses.

(** For an IPv4 address, the check forbids exactly the unspecified address
    and the networks for loopback, private use, link-local use and multicast. *)
Lemma forbidden_ipv4 (a b c d : Z) :
  is_bytes [a; b; c; d] ->
  isForbiddenIP (v4InV6Prefix ++ [a; b; c; d]) = true <-> Exists (in_network [a; b; c; d]) forbidden_v4.
Proof.
  intros Hb. pose proof Hb as Hb0. unfold is_bytes in Hb0. rewrite !Forall_cons in Hb0. destruct Hb0 as (Ha & Hb1 & Hc & Hd & _).
  assert (E4 : To4 (v4InV6Prefix ++ [a; b; c; d]) = Some [a; b; c; d]) by reflexivity.
  unfold isForbiddenIP, IsLoopback, IsPrivate, IsLinkLocalUnicast, IsLinkLocalMulticast, IsMulticast, IsUnspecified.
  rewrite E4. cbn [byte nth]. unfold forbidden_v4. rewrite !Exists_cons, Exists_nil.
  assert (Hbytes : forall l, Forall (fun x => (0 <= x < 256)%Z) l -> is_bytes l) by done.
  assert (N0 : in_network [a; b; c; d] ([0; 0; 0; 0], 32)%Z <-> [a; b; c; d] = [0; 0; 0; 0]%Z).
  { pose proof (in_network_prefix [a; b; c; d] [] [0; 0; 0; 0]%Z [] 0 ltac:(constructor) ltac:(constructor) eq_refl eq_refl ltac:(lia)) as Hn.
    cbn in Hn. rewrite !Z.shiftr_0_r in Hn. rewrite Hn. split; [|intros [= -> -> -> ->]; done].
    intros E. apply number_inj; [done | repeat constructor; lia | done | exact E]. }
  assert (N8 : forall x, in_network [a; b; c; d] ([x; 0; 0; 0], 8)%Z <-> a = x).
  { intros x. pose proof (in_network_prefix [a] [b; c; d] [x] [0; 0; 0]%Z 0 ltac:(repeat constructor; lia) ltac:(repeat constructor; lia) eq_refl eq_refl ltac:(lia)) as Hn.
    cbn in Hn. by rewrite !Z.shiftr_0_r in Hn. }
  assert (N16 : forall x y, (0 <= x < 256)%Z -> (0 <= y < 256)%Z -> in_network [a; b; c; d] ([x; y; 0; 0], 16)%Z <-> a = x /\ b = y).
  { intros x y Hx Hy. pose proof (in_network_prefix [a; b] [c; d] [x; y] [0; 0]%Z 0 ltac:(repeat constructor; lia) ltac:(repeat constructor; lia) eq_refl eq_refl ltac:(lia)) as Hn.
    cbn in Hn. rewrite !Z.shiftr_0_r in Hn. rewrite Hn. unfold number; cbn. lia. }
  assert (N12 : in_network [a; b; c; d] ([172; 16; 0; 0], 12)%Z <-> a = 172%Z /\ Z.shiftr b 4 = 1%Z).
  { pose proof (in_network_prefix [a; b] [c; d] [172; 16]%Z [0; 0]%Z 4 ltac:(repeat constructor; lia) ltac:(repeat constructor; lia) eq_refl eq_refl ltac:(lia)) as Hn.
    change (8 * Z.of_nat (length [a; b]) - 4)%Z with 12%Z in Hn. rewrite Hn.
    rewrite !Z.shiftr_div_pow2 by lia. change (number [172; 16]%Z / 2 ^ 4)%Z with 2753%Z.
    assert (Hdiv : (number [a; b] / 2 ^ 4 = a * 16 + b / 2 ^ 4)%Z).
    { unfold number; cbn [fold_left]. rewrite <- Z.div_add_l by lia. f_equal. lia. }
    rewrite Hdiv. assert (0 <= b / 2 ^ 4 < 16)%Z; [|lia].
    split; [apply Z.div_pos | apply Z.div_lt_upper_bound]; lia. }
  assert (N4 : in_network [a; b; c; d] ([224; 0; 0; 0], 4)%Z <-> Z.shiftr a 4 = 14%Z).
  { pose proof (in_network_prefix [a] [b; c; d] [224]%Z [0; 0; 0]%Z 4 ltac:(repeat constructor; lia) ltac:(repeat constructor; lia) eq_refl eq_refl ltac:(lia)) as Hn.
    change (8 * Z.of_nat (length [a]) - 4)%Z with 4%Z in Hn. rewrite Hn. done. }
  rewrite N0, !N8, !N16, N12, N4 by lia. rewrite !land_f0 by lia.
  rewrite !orb_true_iff, !andb_true_iff, !bool_decide_eq_true, !Z.eqb_eq.
  assert (E0 : v4InV6Prefix ++ [a; b; c; d] = IPv4zero <-> [a; b; c; d] = [0; 0; 0; 0]%Z).
  { unfold IPv4zero. split; [by intros ?%app_inv_head | by intros ->]. }
  assert (E6 : v4InV6Prefix ++ [a; b; c; d] = IPv6unspecified <-> False) by (split; [discriminate | done]).
  rewrite E0, E6. assert (Hm : a = 224%Z -> Z.shiftr a 4 = 14%Z) by (by intros ->).
  clear -Hm. generalize (Z.shiftr a 4) (Z.shiftr b 4) ([a; b; c; d] = [0; 0; 0; 0]%Z) Hm. clear Hm. intros x y P Hm.
  intuition lia.
Qed.

(** For an IPv6 address, the check forbids exactly the unspecified and the
    loopback address and the networks for unique local, link-local and multicast
    use. *)
Lemma forbidden_ipv6 (ip : IP) :
  length ip = 16 -> is_bytes ip -> To4 ip = None ->
  isForbiddenIP ip = true <-> Exists (in_network ip) forbidden_v6.
Proof.
  intros Hlen Hb E4. unfold isForbiddenIP, IsLoopback, IsPrivate, IsLinkLocalUnicast, IsLinkLocalMulticast, IsMulticast, IsUnspecified.
  rewrite E4. destruct ip as [|x [|y r]]; try discriminate. cbn [byte nth].
  assert (Hlr : length r = 14) by (cbn in Hlen; lia).
  pose proof Hb as Hb0. unfold is_bytes in Hb0. rewrite !Forall_cons in Hb0. destruct Hb0 as (Hx & Hy & Hr).
  unfold forbidden_v6. rewrite !Exists_cons, Exists_nil.
  assert (Hz : forall n, is_bytes (replicate n 0%Z)) by (intros n; apply Forall_replicate; lia).
  assert (Hyr : is_bytes (y :: r)) by by constructor.
  assert (N128 : forall q, length q = 16 -> is_bytes q -> in_network (x :: y :: r) (q, 128)%Z <-> x :: y :: r = q).
  { intros q Hq Hqb.
    pose proof (in_network_prefix (x :: y :: r) [] q [] 0 ltac:(constructor) ltac:(constructor) ltac:(congruence) eq_refl ltac:(lia)) as Hn.
    rewrite !app_nil_r, !Z.shiftr_0_r, Hlen in Hn. change (8 * Z.of_nat 16 - 0)%Z with 128%Z in Hn.
    rewrite Hn. split; [|intros E; by rewrite E].
    apply number_inj; [done | done | congruence]. }
  assert (N8 : forall q k, (0 <= k)%Z -> in_network (x :: y :: r) (q :: replicate 15 0, 8 - k)%Z <-> Z.shiftr x k = Z.shiftr q k).
  { intros q k Hk. pose proof (in_network_prefix [x] (y :: r) [q] (replicate 15 0%Z) k Hyr (Hz 15) eq_refl ltac:(cbn in *; lia) Hk) as Hn.
    exact Hn. }
  assert (N10 : in_network (x :: y :: r) ([0xfe; 0x80] ++ replicate 14 0, 10)%Z <-> x = 0xfe%Z /\ Z.shiftr y 6 = 2%Z).
  { pose proof (in_network_prefix [x; y] r [0xfe; 0x80]%Z (replicate 14 0%Z) 6 Hr (Hz 14) eq_refl ltac:(rewrite Hlr; done) ltac:(lia)) as Hn.
    change (8 * Z.of_nat (length [x; y]) - 6)%Z with 10%Z in Hn. change ([x; y] ++ r) with (x :: y :: r) in Hn. rewrite Hn.
    rewrite !Z.shiftr_div_pow2 by lia. change (number [0xfe; 0x80]%Z / 2 ^ 6)%Z with 1018%Z.
    assert (Hdiv : (number [x; y] / 2 ^ 6 = x * 4 + y / 2 ^ 6)%Z).
    { unfold number; cbn [fold_left]. rewrite <- Z.div_add_l by lia. f_equal. lia. }
    rewrite Hdiv. assert (0 <= y / 2 ^ 6 < 4)%Z; [|lia].
    split; [apply Z.div_pos | apply Z.div_lt_upper_bound]; lia. }
  rewrite N128; [|done|apply Hz]. rewrite N128; [|done|repeat constructor; lia].
  rewrite (N8 0xfc%Z 1%Z), N10, (N8 0xff%Z 0%Z) by lia.
  rewrite !Z.shiftr_0_r. rewrite land_fe, land_c0 by lia.
  rewrite !orb_true_iff, !andb_true_iff, !bool_decide_eq_true, !Z.eqb_eq.
  assert (E0 : x :: y :: r = IPv4zero <-> False).
  { split; [|done]. intros E. rewrite E in E4. discriminate. }
  rewrite E0. change (Z.shiftr 0xfc 1) with 126%Z. unfold IPv6unspecified, IPv6loopback.
  generalize (Z.shiftr x 1) (Z.shiftr y 6) (x :: y :: r = replicate 16 0%Z) (x :: y :: r = replicate 15 0%Z ++ [1%Z]) (Z.land y 15).
  intros. intuition lia.
Qed.

(** C36: the check forbids exactly these addresses: among the IPv4 addresses (also
    those written as IPv6) the unspecified one and the networks for loopback,
    private use, link-local use and multicast, among the IPv6 addresses the
    unspecified and the loopback address and the networks for unique local,
    link-local and multicast use. *)
Theorem forbidden_networks (ip : IP) :
  length ip = 16 -> is_bytes ip ->
  isForbiddenIP ip = true <->
  match To4 ip with
  | Some ip4 => Exists (in_network ip4) forbidden_v4
  | None => Exists (in_network ip) forbidden_v6
  end.
Proof.
  intros Hl Hb. destruct (To4 ip) as [q|] eqn:E; [|by apply forbidden_ipv6].
  unfold To4 in E. case_bool_decide as Hp; [|done]. injection E as <-.
  assert (Hq : is_bytes (drop 12 ip)) by by apply Forall_drop.
  assert (Hlq : length (drop 12 ip) = 4) by (rewrite length_drop; lia).
  assert (E : ip = v4InV6Prefix ++ drop 12 ip) by (by rewrite <- Hp, take_drop).
  rewrite E at 1. clear E. destruct (drop 12 ip) as [|a [|b [|c [|d [|? ?]]]]]; try discriminate. by apply forbidden_ipv4.
Qed.

(** C35: a URL that is accepted parses, has the scheme http or https and a host,
    its host name is none of the local names in any case, and if the name is an
    address, without its zone, the address is not forbidden. *)
Theorem validate_accepts `{!NetLibrary} (rawURL : string) :
  Validate rawURL = Ok tt <->
  exists u, url_Parse rawURL = Ok u /\ (u_Scheme u = "http" \/ u_Scheme u = "https")%string /\ u_Host u <> ""%string /\
    let host := ToLower (u_Hostname u) in
    host <> "localhost"%string /\ HasSuffix host ".localhost" = false /\ host <> "metadata.google.internal"%string /\
    forall ip, ParseIP (stripIPv6Zone host) = Some ip -> isForbiddenIP ip = false.
Proof.
  unfold Validate. destruct (url_Parse rawURL) as [u|e]; [|split; [done | by intros (u & [=] & _)]].
  split.
  - repeat (case_match; try discriminate); intros _; exists u; split; [done | | done |];
      repeat match goal with
      | H : negb _ && negb _ = false |- _ => apply andb_false_iff in H; rewrite !negb_false_iff, !String.eqb_eq in H
      | H : String.eqb _ _ = false |- _ => apply String.eqb_neq in H
      | H : isForbiddenHostname _ = false |- _ => unfold isForbiddenHostname in H; rewrite !orb_false_iff, !String.eqb_neq in H; destruct_and! H
      end; cbv zeta; split_and!; try done; intros ip Hip; congruence.
  - intros (u' & [= <-] & Hs & Hh & H1 & H2 & H3 & Hip).
    assert (negb (String.eqb (u_Scheme u) "http") && negb (String.eqb (u_Scheme u) "https") = false) as ->
      by (apply andb_false_iff; rewrite !negb_false_iff, !String.eqb_eq; exact Hs).
    apply String.eqb_neq in Hh as ->. cbv zeta.
    assert (isForbiddenHostname (ToLower (u_Hostname u)) = false) as ->.
    { unfold isForbiddenHostname. apply String.eqb_neq in H1 as ->. apply String.eqb_neq in H3 as ->. by rewrite H2. }
    destruct (ParseIP _) as [ip|] eqn:E; [|done]. by rewrite (Hip ip).
Qed.

(** ** Witnesses *)
Lemma forbidden_networks_witness :
  (isForbiddenIP (v4InV6Prefix ++ [172; 31; 255; 1]%Z) = true <-> Exists (in_network [172; 31; 255; 1]%Z) forbidden_v4) /\
  (isForbiddenIP ([0xfe; 0xbf] ++ replicate 14 0)%Z = true <-> Exists (in_network ([0xfe; 0xbf] ++ replicate 14 0)%Z) forbidden_v6).
Proof.
  split.
  - apply (forbidden_networks (v4InV6Prefix ++ [172; 31; 255; 1]%Z)); [reflexivity | repeat constructor; lia].
  - apply (forbidden_networks ([0xfe; 0xbf] ++ replicate 14 0)%Z); [reflexivity | repeat constructor; lia].
Defined.

Example forbidden_ex :
  map (fun q => isForbiddenIP (v4InV6Prefix ++ q)) [[172; 31; 255; 1]; [172; 32; 0; 1]; [8; 8; 8; 8]; [169; 254; 169; 254]]%Z
  = [true; false; false; true].
Proof. reflexivity. Qed.

Module Sim.
(** A parser for ["http://" host], and one known address. *)
#[export] Instance sim_net : NetLibrary := {|
  url_Parse s := if HasPrefix s "http://" then
                   Ok {| u_Scheme := "http"; u_Host := TrimPrefix s "http://"; u_Hostname := TrimPrefix s "http://" |}
                 else Err (EOther "parse");
  ParseIP h := if String.eqb h "10.0.0.1" then Some (v4InV6Prefix ++ [10; 0; 0; 1]%Z) else None;
|}.
Example validate_ex :
  map (fun u => is_ok (Validate u))
    ["http://example.com"; "http://LocalHost"; "http://a.localhost"; "http://10.0.0.1"; "http://10.0.0.1%eth0"; "ftp://x"; "http://"]%string
  = [true; false; false; false; false; false; false].
Proof. reflexivity. Qed.

(** The absolute form of a local name passes. *)
Example trailing_dot : Validate "http://localhost." = Ok tt.
Proof. reflexivity. Qed.
End Sim.
