(* ===== verification/Analytics.v ===== *)
(** * Analytics: [internal/analytics/redis.go]

    The counter of executions per job and minute, with its time to live. The
    Redis pipeline is a class over the state of the outside world. *)
From S2P Require Import Prelude GoStrings GoTime Domain Runtime Dispatcher.

(** One pipeline: the commands that it executes together. *)
Inductive redis_command : Type :=
| Incr (key : string)
| Expire (key : string) (ttl : duration).
Class Redis (W : Type) : Type := { pipeline_Exec : list redis_command -> st W (result err unit) }.

Definition buildKey (namespace jobID : string) (scheduledAt : time) : string :=
  "ns:" +:+ namespace +:+ ":j:" +:+ jobID +:+ ":exec:" +:+ FormatMinute scheduledAt.

Definition resolveTTL (retentionSeconds : Z) : duration :=
  if (retentionSeconds <=? 0)%Z then wrap64 (DefaultRetentionSeconds * Second)
  else wrap64 (retentionSeconds * Second).

Definition Record_ {W} `{!Redis W, !Runtime W} (event : TriggerEvent) (config : AnalyticsConfig) : st W unit :=
  if negb (a_Enabled config) then mret tt else
  let key := buildKey (ev_Namespace event) (uuid_String (ev_JobID event)) (ev_ScheduledAt event) in
  let ttl := resolveTTL (a_RetentionSeconds config) in
  pipeline_Exec [Incr key; Expire key ttl] ≫= fun _ => mret tt.

#[export] Instance redis_sink {W} `{!Redis W, !Runtime W} : AnalyticsSink W := {| Dispatcher.Record_ := Record_ |}.

Lemma resolveTTL_positive n : (n <= int64_max / Second)%Z -> (0 < resolveTTL n)%Z.
Proof.
  intros Hn. unfold resolveTTL. destruct (Z.leb_spec n 0); [done |].
  assert (Hb : (int64_max / Second = 9223372036)%Z) by done.
  rewrite wrap64_id; unfold Second in *; [lia |]. unfold in_int64, int64_min, int64_max in *. lia.
Qed.

(** The minute bucket of a key depends on the minute of the scheduled time only. *)
Lemma minute_bucket t u : (t / Minute = u / Minute)%Z -> FormatMinute t = FormatMinute u.
Proof.
  intros E. unfold FormatMinute, day_of, sec_of_day, secs_of in *.
  assert (Hm : forall x, (x / Minute = x / Second / 60)%Z) by (intros x; unfold Minute; rewrite Z.mul_comm, Z.div_div; done).
  rewrite !Hm in E. set (a := (t / Second)%Z) in *. set (b := (u / Second)%Z) in *.
  assert (Hd : (a / 86400 = b / 86400)%Z).
  { change 86400%Z with (60 * 1440)%Z. rewrite <- !Z.div_div by lia. by rewrite E. }
  assert (Hh : forall x, ((x mod 86400) / 60 = (x / 60) mod 1440)%Z).
  { intros x. change 86400%Z with (60 * 1440)%Z. rewrite Z.rem_mul_r by lia.
    rewrite Z.mul_comm, Z.add_comm, Z.div_add_l, (Z.div_small (x mod 60)) by (try apply Z.mod_pos_bound; lia). lia. }
  rewrite Hd. destruct (civil (b / 86400)) as [[y m] d].
  rewrite !Hh, E. do 3 f_equal.
  assert (H3 : forall x, ((x mod 86400) / 3600 = (x mod 86400) / 60 / 60)%Z) by (intros x; rewrite Z.div_div; done).
  f_equal. rewrite !H3, !Hh, E. done.
Qed.

(** Events of a job in the same minute count under the same key, which is
    tagged with the namespace and expires after the retention of the job, a day
    by default; nothing is written for a job without analytics. *)
Lemma analytics_buckets {W} `{!Redis W, !Runtime W} (ev ev' : TriggerEvent) (c : AnalyticsConfig) (w : W) :
  ev_Namespace ev = ev_Namespace ev' -> ev_JobID ev = ev_JobID ev' ->
  (ev_ScheduledAt ev / Minute = ev_ScheduledAt ev' / Minute)%Z ->
  Record_ ev c = Record_ (W := W) ev' c /\
  (a_Enabled c = false -> exec (Record_ ev c) w = w) /\
  ((a_RetentionSeconds c <= int64_max / Second)%Z -> (0 < resolveTTL (a_RetentionSeconds c))%Z).
Proof.
  intros Hns Hj Hm. split_and!.
  - unfold Record_, buildKey. by rewrite Hns, Hj, (minute_bucket _ _ Hm).
  - intros E. unfold Record_. by rewrite E.
  - apply resolveTTL_positive.
Qed.

Module Sim.
(** A Redis that keeps the commands. *)
#[export] Instance sim_redis : Redis (list redis_command) := {|
  pipeline_Exec cs := fun w => (Ok tt, w ++ cs) |}.
#[export] Instance sim_runtime : Runtime (list redis_command) := {|
  time_Now := mret 0%Z; uuid_New := mret 1%N; uuid_String i := pretty i; ctx_Err := mret None; wait _ := mret None |}.
Definition event (t : time) : TriggerEvent :=
  {| ev_ExecutionID := 9; ev_JobID := 7; ev_Namespace := "prod"; ev_ScheduledAt := t; ev_FiredAt := t; ev_CreatedAt := t |}.
Definition config : AnalyticsConfig := {| a_Enabled := true; a_RetentionSeconds := 3600 |}.
Example record_ex :
  exec (Record_ (event (unix_epoch + 1709210096 * Second)) config) [] =
    [Incr "ns:prod:j:7:exec:202402291234"; Expire "ns:prod:j:7:exec:202402291234" Hour].
Proof. vm_compute. reflexivity. Qed.
End Sim.
Import Sim.

Lemma analytics_buckets_witness :
  let ev := Sim.event (60 * Second) in let ev' := Sim.event (61 * Second) in
  Record_ ev Sim.config = Record_ (W := list redis_command) ev' Sim.config /\
  (a_Enabled Sim.config = false -> exec (Record_ ev Sim.config) [] = []) /\
  ((a_RetentionSeconds Sim.config <= int64_max / Second)%Z -> (0 < resolveTTL (a_RetentionSeconds Sim.config))%Z).
Proof. apply (analytics_buckets (Sim.event (60 * Second)) (Sim.event (61 * Second)) Sim.config []); reflexivity. Defined.
