(* ===== verification/NaturalLanguage.v ===== *)
(** * Natural-language schedules: [parseNaturalLanguage] in [internal/service/jobs.go]

    The regular expressions of the source as matchers on the rest of a text.
    The classes they repeat ([\s] and [\d]) are disjoint from what follows, so
    that a match never backtracks. *)
From S2P Require Import Prelude GoStrings Domain.

(** ** Matchers *)

(** [\s] is a blank of these five, [\d] an ASCII digit. *)
Definition is_blank (c : ascii) : bool :=
  let b := byte_of c in (b =? 32)%Z || (b =? 9)%Z || (b =? 10)%Z || (b =? 12)%Z || (b =? 13)%Z.

(** A literal. *)
Definition lit (p : string) (s : string) : option string :=
  if HasPrefix s p then Some (drop_bytes (String.length p) s) else None.
(** [\s*] and [\s+]. *)
Fixpoint blanks (s : string) : string :=
  match s with
  | String c s' => if is_blank c then blanks s' else s
  | EmptyString => s
  end.
Definition blanks1 (s : string) : option string :=
  match s with
  | String c s' => if is_blank c then Some (blanks s') else None
  | EmptyString => None
  end.
(** [\d+], with the digits. *)
Fixpoint digits (s : string) : string * string :=
  match s with
  | String c s' => if is_digit c then let '(d, r) := digits s' in (String c d, r) else (EmptyString, s)
  | EmptyString => (EmptyString, s)
  end.
Definition digits1 (s : string) : option (string * string) :=
  match digits s with (EmptyString, _) => None | (d, r) => Some (d, r) end.
(** [\d{1,2}]. *)
Definition digits12 (s : string) : option (string * string) :=
  match s with
  | String c s' =>
      if is_digit c then
        match s' with
        | String c' s'' =>
            if is_digit c' then Some (String c (String c' EmptyString), s'') else Some (String c EmptyString, s')
        | EmptyString => Some (String c EmptyString, s')
        end
      else None
  | EmptyString => None
  end.
(** [(?::(\d{2}))?]: the digits, or the empty text. *)
Definition minutes_opt (s : string) : string * string :=
  match s with
  | String ":" (String c (String c' r)) =>
      if is_digit c && is_digit c' then (String c (String c' EmptyString), r) else (EmptyString, s)
  | _ => (EmptyString, s)
  end.
(** [(am|pm)?$]. *)
Definition ampm_end (s : string) : option string :=
  if String.eqb s "" then Some ""%string
  else if String.eqb s "am" then Some "am"%string
  else if String.eqb s "pm" then Some "pm"%string
  else None.
(** [at\s+(\d{1,2})(?::(\d{2}))?\s*(am|pm)?$]. *)
Definition at_time (s : string) : option (string * string * string) :=
  s ← lit "at" s; s ← blanks1 s;
  '(h, s) ← digits12 s;
  let '(m, s) := minutes_opt s in
  ap ← ampm_end (blanks s); Some (h, m, ap).

(** [^every\s+(\d+)\s+units?$]. *)
Definition every_n (unit : string) (s : string) : option string :=
  s ← lit "every" s; s ← blanks1 s;
  '(n, s) ← digits1 s;
  s ← blanks1 s; s ← lit unit s;
  if String.eqb s "" || String.eqb s "s" then Some n else None.
Definition reEveryNMinutes : string -> option string := every_n "minute".
Definition reEveryNHours : string -> option string := every_n "hour".
Definition reEveryHour (s : string) : bool :=
  match s ← lit "every" s; blanks1 s with Some s => String.eqb s "hour" | None => false end.
Definition reHourly (s : string) : bool := String.eqb s "hourly".
(** [^(?:every\s+day|daily)\s+at...]. *)
Definition reDailyAt (s : string) : option (string * string * string) :=
  s ← match s' ← lit "every" s; s' ← blanks1 s'; lit "day" s' with
      | Some s' => Some s'
      | None => lit "daily" s
      end;
  s ← blanks1 s; at_time s.
Definition reEveryWeekdayAt (s : string) : option (string * string * string) :=
  s ← lit "every" s; s ← blanks1 s; s ← lit "weekday" s; s ← blanks1 s; at_time s.

Definition dayMap : list (string * Z) :=
  [("sunday", 0); ("monday", 1); ("tuesday", 2); ("wednesday", 3); ("thursday", 4); ("friday", 5);
   ("saturday", 6)]%Z.
(** The alternatives, in the order of the expression. *)
Fixpoint first_day (days : list string) (s : string) : option (string * string) :=
  match days with
  | [] => None
  | d :: days' => match lit d s with Some r => Some (d, r) | None => first_day days' s end
  end.
Definition reDayOfWeekAt (s : string) : option (string * (string * string * string)) :=
  s ← lit "every" s; s ← blanks1 s;
  '(day, s) ← first_day ["monday"; "tuesday"; "wednesday"; "thursday"; "friday"; "saturday"; "sunday"]%string s;
  s ← blanks1 s; t ← at_time s; Some (day, t).

(** ** Operations *)

(** Hour and minute, the hour being [-1] on error. *)
Definition parseTime (hourStr minuteStr ampm : string) : Z * Z :=
  match Atoi hourStr with
  | None => (-1, 0)%Z
  | Some hour =>
      match (if String.eqb minuteStr "" then Some 0%Z else Atoi minuteStr) with
      | None => (-1, 0)%Z
      | Some minute =>
          let hour :=
            if String.eqb ampm "" then hour else
            let ampm := ToLower ampm in
            let hour := if String.eqb ampm "pm" && negb (hour =? 12)%Z then (hour + 12)%Z else hour in
            if String.eqb ampm "am" && (hour =? 12)%Z then 0%Z else hour in
          if ((hour <? 0) || (23 <? hour) || (minute <? 0) || (59 <? minute))%Z then (-1, 0)%Z
          else (hour, minute)
      end
  end.

(** The number that [strconv.Atoi] gives for a text of digits: the largest
    integer when the text is out of range, as the error is ignored. *)
Definition atoi_value (s : string) : Z := default int64_max (Atoi s).

Definition failure {A} : result err A := Err (EDomain ErrScheduleParseFailure).

(** Expression and description. *)
Definition parseNaturalLanguage (input : string) : result err (string * string) :=
  let lower := ToLower (TrimSpace input) in
  match reEveryNMinutes lower with
  | Some m =>
      let n := atoi_value m in
      if (n <? 1)%Z || (59 <? n)%Z then failure
      else Ok ("*/" +:+ Itoa n +:+ " * * * *", "every " +:+ Itoa n +:+ " minutes")
  | None =>
  match reEveryNHours lower with
  | Some m =>
      let n := atoi_value m in
      if (n <? 1)%Z || (23 <? n)%Z then failure
      else Ok ("0 */" +:+ Itoa n +:+ " * * *", "every " +:+ Itoa n +:+ " hours")
  | None =>
  if reEveryHour lower || reHourly lower then Ok ("0 * * * *", "every hour")%string else
  match reDailyAt lower with
  | Some (h, m, ap) =>
      let '(hour, minute) := parseTime h m ap in
      if (hour <? 0)%Z then failure
      else Ok (Itoa minute +:+ " " +:+ Itoa hour +:+ " * * *", "daily at " +:+ pad2 hour +:+ ":" +:+ pad2 minute)
  | None =>
  match reEveryWeekdayAt lower with
  | Some (h, m, ap) =>
      let '(hour, minute) := parseTime h m ap in
      if (hour <? 0)%Z then failure
      else Ok (Itoa minute +:+ " " +:+ Itoa hour +:+ " * * 1-5", "every weekday at " +:+ pad2 hour +:+ ":" +:+ pad2 minute)
  | None =>
  match reDayOfWeekAt lower with
  | Some (day, (h, m, ap)) =>
      let dayNum := default 0%Z (snd <$> List.find (fun d => String.eqb d.1 day) dayMap) in
      let '(hour, minute) := parseTime h m ap in
      if (hour <? 0)%Z then failure
      else Ok (Itoa minute +:+ " " +:+ Itoa hour +:+ " * * " +:+ Itoa dayNum,
               "every " +:+ day +:+ " at " +:+ pad2 hour +:+ ":" +:+ pad2 minute)
  | None => failure
  end end end end end.

(** ** Examples *)
Example nl_ex :
  map parseNaturalLanguage ["  Every 15 Minutes "; "every 1 hour"; "Hourly"; "daily at 9am"; "every day at 12:30 pm";
    "every weekday at 08:05"; "every Friday at 5pm"; "every 90 minutes"; "every day at 25:00"; "whenever"]%string =
  [Ok ("*/15 * * * *", "every 15 minutes"); Ok ("0 */1 * * *", "every 1 hours"); Ok ("0 * * * *", "every hour");
   Ok ("0 9 * * *", "daily at 09:00"); Ok ("30 12 * * *", "daily at 12:30"); Ok ("5 8 * * 1-5", "every weekday at 08:05");
   Ok ("0 17 * * 5", "every friday at 17:00"); failure; failure; failure]%string.
Proof. vm_compute. reflexivity. Qed.

(** ** The schedules behind the phrases

    What a phrase means: the cron expression and the description of a schedule
    are functions of one of these. *)
Inductive plan : Type :=
| EveryMinutes (n : Z)
| EveryHours (n : Z)
| EveryHour
| Daily (hour minute : Z)
| Weekdays (hour minute : Z)
| Weekly (day : string * Z) (hour minute : Z).

Definition valid_time (hour minute : Z) : Prop := (0 <= hour <= 23)%Z /\ (0 <= minute <= 59)%Z.
Definition valid (p : plan) : Prop :=
  match p with
  | EveryMinutes n => (1 <= n <= 59)%Z
  | EveryHours n => (1 <= n <= 23)%Z
  | EveryHour => True
  | Daily h m | Weekdays h m => valid_time h m
  | Weekly d h m => d ∈ dayMap /\ valid_time h m
  end.
Definition expression (p : plan) : string :=
  match p with
  | EveryMinutes n => "*/" +:+ Itoa n +:+ " * * * *"
  | EveryHours n => "0 */" +:+ Itoa n +:+ " * * *"
  | EveryHour => "0 * * * *"
  | Daily h m => Itoa m +:+ " " +:+ Itoa h +:+ " * * *"
  | Weekdays h m => Itoa m +:+ " " +:+ Itoa h +:+ " * * 1-5"
  | Weekly d h m => Itoa m +:+ " " +:+ Itoa h +:+ " * * " +:+ Itoa d.2
  end.
Definition clock (h m : Z) : string := pad2 h +:+ ":" +:+ pad2 m.
Definition description (p : plan) : string :=
  match p with
  | EveryMinutes n => "every " +:+ Itoa n +:+ " minutes"
  | EveryHours n => "every " +:+ Itoa n +:+ " hours"
  | EveryHour => "every hour"
  | Daily h m => "daily at " +:+ clock h m
  | Weekdays h m => "every weekday at " +:+ clock h m
  | Weekly d h m => "every " +:+ d.1 +:+ " at " +:+ clock h m
  end.

(** The finitely many valid schedules. *)
Definition range (a b : Z) : list Z := Z.add a <$> (Z.of_nat <$> seq 0 (Z.to_nat (b - a + 1))).
Lemma elem_of_range a b n : (a <= n <= b)%Z -> n ∈ range a b.
Proof.
  intros H. unfold range. rewrite <- list_fmap_compose. apply list_elem_of_fmap.
  exists (Z.to_nat (n - a)). rewrite elem_of_seq. cbn. lia.
Qed.

Definition times : list (Z * Z) := range 0 23 ≫= fun h => (h,.) <$> range 0 59.
Lemma elem_of_times h m : valid_time h m -> (h, m) ∈ times.
Proof.
  intros [Hh Hm]. unfold times. apply list_elem_of_bind. exists h.
  split; [apply list_elem_of_fmap; exists m; split; [done |] |]; by apply elem_of_range.
Qed.
Definition plans : list plan :=
  (EveryMinutes <$> range 1 59) ++ (EveryHours <$> range 1 23) ++ [EveryHour] ++
  ((fun t : Z * Z => Daily t.1 t.2) <$> times) ++ ((fun t : Z * Z => Weekdays t.1 t.2) <$> times) ++
  (dayMap ≫= fun d => (fun t : Z * Z => Weekly d t.1 t.2) <$> times).

Lemma elem_of_plans p : valid p -> p ∈ plans.
Proof.
  unfold plans. rewrite !elem_of_app. destruct p as [n|n| |h m|h m|d h m]; cbn [valid].
  - intros. left. by apply list_elem_of_fmap_2, elem_of_range.
  - intros. right; left. by apply list_elem_of_fmap_2, elem_of_range.
  - intros. do 2 right; left. by left.
  - intros. do 3 right; left. apply list_elem_of_fmap. exists (h, m). split; [done | by apply elem_of_times].
  - intros. do 4 right; left. apply list_elem_of_fmap. exists (h, m). split; [done | by apply elem_of_times].
  - intros [Hd Ht]. do 5 right. apply list_elem_of_bind. exists d. split; [| done].
    apply list_elem_of_fmap. exists (h, m). split; [done | by apply elem_of_times].
Qed.

#[local] Instance pair_result_eq_dec : EqDecision (result err (string * string)).
Proof. solve_decision. Defined.

(** Every valid schedule is read back from its description. *)
Definition reads_back (p : plan) : bool :=
  bool_decide (parseNaturalLanguage (description p) = Ok (expression p, description p)).
Lemma plans_read_back : forallb reads_back plans = true.
Proof. vm_compute. reflexivity. Qed.
Lemma description_reads_back p :
  valid p -> parseNaturalLanguage (description p) = Ok (expression p, description p).
Proof.
  intros Hp. apply elem_of_plans, list_elem_of_In in Hp. pose proof plans_read_back as H.
  rewrite forallb_forall in H. by apply H, bool_decide_eq_true in Hp.
Qed.

(** The hour and the minute that [parseTime] gives are in range, or the hour is
    negative. *)
Lemma parseTime_range h m ap hour minute :
  parseTime h m ap = (hour, minute) -> (hour <? 0)%Z = false -> valid_time hour minute.
Proof.
  unfold parseTime, valid_time. repeat case_match; intros [= <- <-]; try done.
  all: repeat match goal with H : (_ || _)%bool = false |- _ => apply orb_false_iff in H as [? ?] end; lia.
Qed.

Lemma first_day_in days s d r : first_day days s = Some (d, r) -> d ∈ days.
Proof.
  induction days as [|x days IH]; cbn; [done |].
  destruct (lit x s); [intros [= -> ->]; by left | intros; right; auto].
Qed.

Lemma dayMap_lookup d :
  d ∈ ["monday"; "tuesday"; "wednesday"; "thursday"; "friday"; "saturday"; "sunday"]%string ->
  exists n, snd <$> List.find (fun x => String.eqb x.1 d) dayMap = Some n /\ (d, n) ∈ dayMap.
Proof.
  intros H. assert (Hf : forallb (fun d => match snd <$> List.find (fun x => String.eqb x.1 d) dayMap with
      Some n => bool_decide ((d, n) ∈ dayMap) | None => false end)
      ["monday"; "tuesday"; "wednesday"; "thursday"; "friday"; "saturday"; "sunday"]%string = true)
    by by vm_compute.
  rewrite forallb_forall in Hf. apply list_elem_of_In, Hf in H.
  destruct (snd <$> _) as [n|]; [| done]. exists n. split; [done | by apply bool_decide_eq_true in H].
Qed.

Lemma reDayOfWeekAt_day s day t :
  reDayOfWeekAt s = Some (day, t) ->
  day ∈ ["monday"; "tuesday"; "wednesday"; "thursday"; "friday"; "saturday"; "sunday"]%string.
Proof.
  unfold reDayOfWeekAt. intros H.
  apply bind_Some in H as (s1 & _ & H). apply bind_Some in H as (s2 & _ & H).
  apply bind_Some in H as ([d s3] & Hd & H).
  apply bind_Some in H as (s4 & _ & H). apply bind_Some in H as (t' & _ & [= -> ->]).
  by eapply first_day_in.
Qed.

(** Every answer is the expression and the description of a valid schedule. *)
Lemma parse_sound input expr desc :
  parseNaturalLanguage input = Ok (expr, desc) ->
  exists p, valid p /\ expr = expression p /\ desc = description p.
Proof.
  unfold parseNaturalLanguage. set (lower := ToLower (TrimSpace input)). clearbody lower.
  destruct (reEveryNMinutes lower) as [m|].
  { destruct ((atoi_value m <? 1) || (59 <? atoi_value m))%Z eqn:E; [done |]. intros [= <- <-].
    apply orb_false_iff in E as [? ?]. exists (EveryMinutes (atoi_value m)). cbn. split; [lia | done]. }
  destruct (reEveryNHours lower) as [m|].
  { destruct ((atoi_value m <? 1) || (23 <? atoi_value m))%Z eqn:E; [done |]. intros [= <- <-].
    apply orb_false_iff in E as [? ?]. exists (EveryHours (atoi_value m)). cbn. split; [lia | done]. }
  destruct (reEveryHour lower || reHourly lower); [intros [= <- <-]; by exists EveryHour |].
  destruct (reDailyAt lower) as [[[h m] ap]|].
  { destruct (parseTime h m ap) as [hour minute] eqn:E, (hour <? 0)%Z eqn:E0; [done |]. intros [= <- <-].
    exists (Daily hour minute). split; [by eapply parseTime_range | done]. }
  destruct (reEveryWeekdayAt lower) as [[[h m] ap]|].
  { destruct (parseTime h m ap) as [hour minute] eqn:E, (hour <? 0)%Z eqn:E0; [done |]. intros [= <- <-].
    exists (Weekdays hour minute). split; [by eapply parseTime_range | done]. }
  destruct (reDayOfWeekAt lower) as [[day [[h m] ap]]|] eqn:Ed; [| done].
  destruct (parseTime h m ap) as [hour minute] eqn:E, (hour <? 0)%Z eqn:E0; [done |].
  assert (Hd : day ∈ ["monday"; "tuesday"; "wednesday"; "thursday"; "friday"; "saturday"; "sunday"]%string).
  { by eapply reDayOfWeekAt_day. }
  apply dayMap_lookup in Hd as (n & -> & Hn). intros [= <- <-].
  exists (Weekly (day, n) hour minute). split; [split; [done | by eapply parseTime_range] | done].
Qed.

(** C37: Whatever text the resolver understands, it answers with the cron
    expression of a valid schedule (a step of 1 to 59 minutes or of 1 to 23
    hours, the full hour, or a time of day between 00:00 and 23:59 on every day,
    on Mondays to Fridays or on one named day), and the description that goes
    with it is understood again, with the same expression and the same
    description. *)
Theorem resolved_schedules_valid (input expr desc : string) :
  parseNaturalLanguage input = Ok (expr, desc) ->
  (exists p, valid p /\ expr = expression p /\ desc = description p) /\
  parseNaturalLanguage desc = Ok (expr, desc).
Proof.
  intros H. apply parse_sound in H as (p & Hp & -> & ->).
  split; [by exists p | by apply description_reads_back].
Qed.

Lemma resolved_schedules_valid_witness :
  parseNaturalLanguage " Every Friday  at 5:30PM" = Ok ("30 17 * * 5", "every friday at 17:30")%string /\
  parseNaturalLanguage "every friday at 17:30" = Ok ("30 17 * * 5", "every friday at 17:30")%string.
Proof.
  split; [vm_compute; reflexivity |].
  exact (proj2 (resolved_schedules_valid " Every Friday  at 5:30PM" _ _ ltac:(vm_compute; reflexivity))).
Defined.

(** ** Times of day *)
Definition meridian_ok (pm : bool) (h m : Z) : bool :=
  bool_decide (parseTime (Itoa h) (pad2 m) (if pm then "pm" else "am") = (h mod 12 + (if pm then 12 else 0), m)%Z).
Definition plain_ok (h m : Z) : bool :=
  bool_decide (parseTime (Itoa h) (pad2 m) "" =
    if (h <=? 23)%Z && (m <=? 59)%Z then (h, m) else (-1, 0)%Z).
(** A check of all the hours and minutes of two ranges. *)
Definition all_times (ok : Z -> Z -> bool) (a b c d : Z) : bool :=
  forallb (fun h => forallb (ok h) (range c d)) (range a b).
Lemma all_times_spec ok a b c d h m :
  all_times ok a b c d = true -> (a <= h <= b)%Z -> (c <= m <= d)%Z -> ok h m = true.
Proof.
  unfold all_times. rewrite forallb_forall. intros H Hh Hm.
  apply elem_of_range, list_elem_of_In, H in Hh. rewrite forallb_forall in Hh.
  by apply elem_of_range, list_elem_of_In, Hh in Hm.
Qed.
Lemma meridian_all : forallb (fun pm => all_times (meridian_ok pm) 1 12 0 59) [true; false] = true.
Proof. vm_compute. reflexivity. Qed.
Lemma plain_all : all_times plain_ok 0 99 0 99 = true.
Proof. vm_compute. reflexivity. Qed.

(** Times on the 12-hour clock are converted as the clock is read: 12 am is
    midnight, 12 pm is noon, and the other hours of the afternoon are twelve
    later. A time without am or pm is taken as it is when the day has such a
    time, and refused otherwise. *)
Lemma time_of_day (h m : Z) :
  ((1 <= h <= 12)%Z -> (0 <= m <= 59)%Z -> forall pm : bool,
    parseTime (Itoa h) (pad2 m) (if pm then "pm" else "am") = (h mod 12 + (if pm then 12 else 0), m)%Z) /\
  ((0 <= h <= 99)%Z -> (0 <= m <= 99)%Z ->
    parseTime (Itoa h) (pad2 m) "" = if (h <=? 23)%Z && (m <=? 59)%Z then (h, m) else (-1, 0)%Z).
Proof.
  split; intros Hh Hm.
  - intros pm. pose proof meridian_all as H. rewrite forallb_forall in H.
    assert (Hpm : In pm [true; false]) by (destruct pm; cbn; auto).
    apply H, (all_times_spec _ _ _ _ _ h m) in Hpm; [| done | done]. by apply bool_decide_eq_true in Hpm.
  - pose proof (all_times_spec _ _ _ _ _ h m plain_all Hh Hm) as H. by apply bool_decide_eq_true in H.
Qed.

Lemma time_of_day_witness : parseTime "12" "05" "am" = (0, 5)%Z /\ parseTime "24" "05" "" = (-1, 0)%Z.
Proof.
  split.
  - exact (proj1 (time_of_day 12 5) ltac:(lia) ltac:(lia) false).
  - exact (proj2 (time_of_day 24 5) ltac:(lia) ltac:(lia)).
Defined.
