(* ===== verification/Service.v ===== *)
(** * The job service: [internal/service]

    The operations behind the REST interface, the MCP tools and the admin pages:
    [jobs.go], [executions.go], [apikeys.go] and [service.go].  The repositories
    of [internal/domain/interfaces.go] are classes over the state [W] of the
    outside world; a projection [jobs_ListJobs] is the method call
    [s.jobs.ListJobs], and the methods that the source reaches by a type
    assertion are optional. Every operation gets its namespace from the context. *)
From S2P Require Import Prelude GoStrings Domain Runtime Cron WebhookURL NaturalLanguage Sha256.
Local Open Scope cron_scope.

(** ** The repositories *)
Class JobRepository (W : Type) : Type := {
  jobs_CreateJobAggregate : Job -> Schedule -> list Tag -> st W (result err unit);
  jobs_GetJobWithScheduleScoped : uuid -> Namespace -> st W (result err (Job * Schedule));
  jobs_ListJobs : JobFilter -> st W (result err (list Job));
  jobs_ListJobsWithSchedules : option (JobFilter -> st W (result err (list JobWithSchedule)));
  jobs_UpdateJob : Job -> st W (result err unit);
  jobs_UpdateJobAggregate : Job -> Schedule -> option (list Tag) -> st W (result err unit);
  jobs_DeleteJob : uuid -> Namespace -> st W (result err unit);
}.
Class ExecutionRepository (W : Type) : Type := {
  executions_InsertExecution : Execution -> st W (result err unit);
  executions_GetRecentExecutions : uuid -> Z -> st W (result err (list Execution));
  executions_ListExecutions : ExecutionFilter -> st W (result err (list Execution));
  executions_ListPendingAck : Namespace -> option uuid -> Z -> st W (result err (list Execution));
  executions_AckExecution : uuid -> Namespace -> st W (result err unit);
  executions_GetExecutionScoped : uuid -> Namespace -> st W (result err Execution);
}.
Class TagRepository (W : Type) : Type := { tags_GetTags : uuid -> st W (result err (list Tag)) }.
Class DeliveryAttemptRepository (W : Type) : Type := {
  attempts_GetAttempts : uuid -> st W (result err (list DeliveryAttempt)) }.
Class APIKeyRepository (W : Type) : Type := {
  apiKeys_InsertAPIKey : APIKey -> st W (result err unit);
  apiKeys_ListKeys : Namespace -> ListParams -> st W (result err (list APIKey));
  apiKeys_DeleteKey : uuid -> Namespace -> st W (result err unit);
  (** [InsertFirstAPIKey] and [HasAnyAPIKeys] *)
  apiKeys_bootstrap : option ((APIKey -> st W (result err unit)) * st W (result err bool));
}.
(** [crypto/rand]. *)
Class Random (W : Type) : Type := { rand_Read : nat -> st W (result err (list Z)) }.

(** ** Inputs and results *)
Record CreateJobInput : Type := mkCreateJobInput {
  ci_Name : string;
  ci_CronExpression : string;
  ci_Timezone : string;
  ci_WebhookURL : string;
  ci_Secret : string;
  ci_Timeout : duration;
  ci_Tags : list Tag;
}.
Record UpdateJobInput : Type := mkUpdateJobInput {
  ui_Name : option string;
  ui_CronExpression : option string;
  ui_Timezone : option string;
  ui_WebhookURL : option string;
  ui_Secret : option string;
  ui_Timeout : option duration;
  ui_Tags : option (list Tag);
}.
Record ResolveResult : Type := mkResolveResult {
  rr_CronExpression : string;
  rr_Description : string;
  rr_Timezone : string;
  rr_NextRuns : list time;
}.
Record CreateAPIKeyInput : Type := mkCreateAPIKeyInput { ki_Label : string }.
Record CreateAPIKeyResult : Type := mkCreateAPIKeyResult { kr_PlaintextToken : string; kr_Key : APIKey }.

(** The emitter of the service is optional. *)
Record JobService : Type := mkJobService { js_emitter : bool }.
Definition NewJobService : JobService := {| js_emitter := false |}.
Definition WithEmitter (s : JobService) : JobService := {| js_emitter := true |}.

Definition no_namespace : err := EDomain ErrNamespaceRequired.

Definition with_name (n : string) (j : Job) : Job :=
  mkJob (j_ID j) (j_Namespace j) n (j_Enabled j) (j_ScheduleID j) (j_Delivery j) (j_Analytics j)
    (j_CreatedAt j) (j_UpdatedAt j).
Definition with_delivery (d : DeliveryConfig) (j : Job) : Job :=
  mkJob (j_ID j) (j_Namespace j) (j_Name j) (j_Enabled j) (j_ScheduleID j) d (j_Analytics j)
    (j_CreatedAt j) (j_UpdatedAt j).
Definition with_enabled (b : bool) (j : Job) : Job :=
  mkJob (j_ID j) (j_Namespace j) (j_Name j) b (j_ScheduleID j) (j_Delivery j) (j_Analytics j)
    (j_CreatedAt j) (j_UpdatedAt j).
Definition with_updated (t : time) (j : Job) : Job :=
  mkJob (j_ID j) (j_Namespace j) (j_Name j) (j_Enabled j) (j_ScheduleID j) (j_Delivery j) (j_Analytics j)
    (j_CreatedAt j) t.
Definition with_url (u : string) (d : DeliveryConfig) : DeliveryConfig :=
  mkDeliveryConfig (d_Type d) u (d_Secret d) (d_Timeout d).
Definition with_secret (x : string) (d : DeliveryConfig) : DeliveryConfig :=
  mkDeliveryConfig (d_Type d) (d_WebhookURL d) x (d_Timeout d).
Definition with_timeout (t : duration) (d : DeliveryConfig) : DeliveryConfig :=
  mkDeliveryConfig (d_Type d) (d_WebhookURL d) (d_Secret d) t.
(** [if input.F != nil { ... }]. *)
Definition if_given {A B} (o : option A) (f : A -> B -> B) (b : B) : B :=
  match o with Some a => f a b | None => b end.

Definition zero_Execution : Execution :=
  mkExecution Nil Nil "" "" 0 0 "" None 0 None.

Definition set_filter_namespace (ns : Namespace) (f : JobFilter) : JobFilter :=
  {| jf_Namespace := ns; jf_Tags := jf_Tags f; jf_Enabled := jf_Enabled f; jf_Name := jf_Name f;
     jf_ListParams := WithDefaults (jf_ListParams f) |}.
Definition set_efilter_namespace (ns : Namespace) (f : ExecutionFilter) : ExecutionFilter :=
  {| ef_JobID := ef_JobID f; ef_Namespace := ns; ef_Status := ef_Status f; ef_TriggerType := ef_TriggerType f;
     ef_Since := ef_Since f; ef_Until := ef_Until f; ef_ListParams := WithDefaults (ef_ListParams f) |}.

Definition HashToken (plaintext : string) : string := hex_encode (sha256 (bytes_of plaintext)).

(** The next [n] activations, each counted from the one before. *)
Fixpoint next_runs (n : nat) (sched : CronSchedule) (cursor : time) : list time :=
  match n with
  | O => []
  | S n' => let next := sched cursor in next :: next_runs n' sched next
  end.

Section service.
  Context {W : Type} `{!JobRepository W, !ExecutionRepository W, !TagRepository W, !DeliveryAttemptRepository W,
    !APIKeyRepository W, !Random W, !Runtime W, !EventEmitter W, !CronLibrary, !NetLibrary}.
  Variables (s : JobService) (ctx : context).
Let ns : Namespace := NamespaceFromContext ctx.

Definition validateWebhookURL (rawURL : string) : result err unit := Validate rawURL.

(** ** Jobs *)
Definition CreateJob (input : CreateJobInput) : st W (result err (Job * Schedule)) :=
  if ns_IsZero ns then mret (Err no_namespace) else
  match Parse (ci_CronExpression input) (ci_Timezone input) with
  | Err _ => mret (Err (EDomain ErrInvalidCronExpression))
  | Ok _ =>
  match LoadLocation (ci_Timezone input) with
  | Err _ => mret (Err (EDomain ErrInvalidTimezone))
  | Ok _ =>
  match validateWebhookURL (ci_WebhookURL input) with
  | Err _ => mret (Err (EDomain ErrInvalidWebhookURL))
  | Ok _ =>
      let timeout := if (ci_Timeout input =? 0)%Z then (30 * Second)%Z else ci_Timeout input in
      time_Now ≫= fun now =>
      uuid_New ≫= fun scheduleID =>
      uuid_New ≫= fun jobID =>
      let schedule := {|
        s_ID := scheduleID; s_CronExpression := ci_CronExpression input; s_Timezone := ci_Timezone input;
        s_CreatedAt := now; s_UpdatedAt := now |} in
      let job := {|
        j_ID := jobID; j_Namespace := ns; j_Name := ci_Name input; j_Enabled := true; j_ScheduleID := scheduleID;
        j_Delivery := {| d_Type := DeliveryTypeWebhook; d_WebhookURL := ci_WebhookURL input;
                         d_Secret := ci_Secret input; d_Timeout := timeout |};
        j_Analytics := {| a_Enabled := false; a_RetentionSeconds := 0 |};
        j_CreatedAt := now; j_UpdatedAt := now |} in
      try _ := jobs_CreateJobAggregate job schedule (ci_Tags input) catch e => mret (Err (EWrap "create job" e)) in
      mret (Ok (job, schedule))
  end end end.

Definition GetJob (i : uuid) : st W (result err (Job * Schedule * list Tag * list Execution)) :=
  if ns_IsZero ns then mret (Err no_namespace) else
  try (job, schedule) := jobs_GetJobWithScheduleScoped i ns catch e => mret (Err (EDomain ErrJobNotFound)) in
  try tags := tags_GetTags i catch e => mret (Err (EWrap "get tags" e)) in
  try executions := executions_GetRecentExecutions i 5 catch e => mret (Err (EWrap "get recent executions" e)) in
  mret (Ok (job, schedule, tags, executions)).

Definition ListJobs (filter : JobFilter) : st W (result err (list Job)) :=
  if ns_IsZero ns then mret (Err no_namespace) else jobs_ListJobs (set_filter_namespace ns filter).

Definition ListJobsWithSchedules (filter : JobFilter) : st W (result err (list JobWithSchedule)) :=
  if ns_IsZero ns then mret (Err no_namespace) else
  match jobs_ListJobsWithSchedules with
  | None => mret (Err (EOther "job repository does not support scheduled job lists"))
  | Some list_ => list_ (set_filter_namespace ns filter)
  end.

Definition UpdateJob (i : uuid) (input : UpdateJobInput) : st W (result err (Job * Schedule)) :=
  if ns_IsZero ns then mret (Err no_namespace) else
  try (job, schedule) := jobs_GetJobWithScheduleScoped i ns catch e => mret (Err (EDomain ErrJobNotFound)) in
  time_Now ≫= fun now =>
  let job := if_given (ui_Name input) with_name job in
  match (match ui_WebhookURL input with Some u => validateWebhookURL u | None => Ok tt end) with
  | Err _ => mret (Err (EDomain ErrInvalidWebhookURL))
  | Ok _ =>
  let delivery := if_given (ui_WebhookURL input) with_url (j_Delivery job) in
  let delivery := if_given (ui_Secret input) with_secret delivery in
  let delivery := if_given (ui_Timeout input) with_timeout delivery in
  let job := with_delivery delivery job in
  let cronExpr := default (s_CronExpression schedule) (ui_CronExpression input) in
  let tz := default (s_Timezone schedule) (ui_Timezone input) in
  let scheduleChanged := bool_decide (is_Some (ui_CronExpression input)) || bool_decide (is_Some (ui_Timezone input)) in
  match (if scheduleChanged then
           match Parse cronExpr tz with
           | Err _ => Err (EDomain ErrInvalidCronExpression)
           | Ok _ =>
               match LoadLocation tz with
               | Err _ => Err (EDomain ErrInvalidTimezone)
               | Ok _ => Ok (mkSchedule (s_ID schedule) cronExpr tz (s_CreatedAt schedule) now)
               end
           end
         else Ok schedule) with
  | Err e => mret (Err e)
  | Ok schedule =>
      let job := with_updated now job in
      try _ := jobs_UpdateJobAggregate job schedule (ui_Tags input) catch e =>
        mret (Err (EWrap "update job aggregate" e)) in
      mret (Ok (job, schedule))
  end end.

Definition DeleteJob (i : uuid) : st W (result err unit) :=
  if ns_IsZero ns then mret (Err no_namespace) else jobs_DeleteJob i ns.

(** [PauseJob] and [ResumeJob] differ in the flag. *)
Definition set_enabled (b : bool) (i : uuid) : st W (result err Job) :=
  if ns_IsZero ns then mret (Err no_namespace) else
  try (job, _) := jobs_GetJobWithScheduleScoped i ns catch e => mret (Err (EDomain ErrJobNotFound)) in
  time_Now ≫= fun now =>
  let job := with_updated now (with_enabled b job) in
  try _ := jobs_UpdateJob job catch e => mret (Err (EWrap "update job" e)) in
  mret (Ok job).
Definition PauseJob : uuid -> st W (result err Job) := set_enabled false.
Definition ResumeJob : uuid -> st W (result err Job) := set_enabled true.

Definition maxInsertAttempts : nat := 5.
(** A manual execution; [scheduled_at] and [fired_at] are the same. *)
Definition manual_execution (i jobID : uuid) (now : time) : Execution :=
  {| e_ID := i; e_JobID := jobID; e_Namespace := ns; e_TriggerType := TriggerTypeManual;
     e_ScheduledAt := now; e_FiredAt := now; e_Status := ExecutionStatusEmitted;
     e_AcknowledgedAt := None; e_CreatedAt := now; e_ClaimedAt := None |}.
(** The time of the next attempt: never the same as the last one. *)
Definition attempt_time (lastTimestamp clock : time) : time :=
  let now := Truncate clock Microsecond in
  if negb (IsZero lastTimestamp) && negb (After now lastTimestamp)
  then time_add lastTimestamp Microsecond else now.
(** The insertion loop with [n] attempts to go; the error is that of the last
    attempt. *)
Fixpoint insert_attempts (n : nat) (jobID : uuid) (lastTimestamp : time) (exec : Execution) (insertErr : option err) :
    st W (result err Execution) :=
  match n with
  | O => mret (match insertErr with Some e => Err (EWrap "insert execution" e) | None => Ok exec end)
  | S n' =>
      time_Now ≫= fun clock =>
      let now := attempt_time lastTimestamp clock in
      uuid_New ≫= fun i =>
      let exec := manual_execution i jobID now in
      executions_InsertExecution exec ≫= fun r =>
      match r with
      | Ok _ => mret (Ok exec)
      | Err e =>
          if errors_Is e (EDomain ErrDuplicateExecution) then insert_attempts n' jobID now exec (Some e)
          else mret (Err (EWrap "insert execution" e))
      end
  end.

Definition TriggerNow (jobID : uuid) : st W (result err Execution) :=
  if ns_IsZero ns then mret (Err no_namespace) else
  try (job, _) := jobs_GetJobWithScheduleScoped jobID ns catch e => mret (Err (EDomain ErrJobNotFound)) in
  if negb (j_Enabled job) then mret (Err (EDomain ErrJobDisabled)) else
  try exec := insert_attempts maxInsertAttempts jobID 0 zero_Execution None catch e => mret (Err e) in
  when (js_emitter s) (Emit (event_of_execution exec (e_CreatedAt exec)) ≫= fun _ => mret tt) ≫= fun _ =>
  mret (Ok exec).

Definition GetNextRunTime (jobID : uuid) : st W (result err (time * list time * Schedule)) :=
  if ns_IsZero ns then mret (Err no_namespace) else
  try (job, schedule) := jobs_GetJobWithScheduleScoped jobID ns catch e => mret (Err (EDomain ErrJobNotFound)) in
  if negb (j_Enabled job) then mret (Err (EDomain ErrJobDisabled)) else
  match Parse (s_CronExpression schedule) (s_Timezone schedule) with
  | Err _ => mret (Err (EDomain ErrInvalidCronExpression))
  | Ok sched =>
      time_Now ≫= fun cursor =>
      let runs := next_runs 5 sched cursor in
      mret (Ok (default 0%Z (head runs), runs, schedule))
  end.

Definition computeNextRuns (sched : CronSchedule) (n : nat) : st W (list time) :=
  time_Now ≫= fun cursor => mret (next_runs n sched cursor).

Definition ResolveSchedule (description timezone : string) : st W (result err ResolveResult) :=
  match LoadLocation timezone with
  | Err _ => mret (Err (EDomain ErrInvalidTimezone))
  | Ok _ =>
  match Parse description timezone with
  | Ok sched =>
      computeNextRuns sched 5 ≫= fun runs =>
      mret (Ok {| rr_CronExpression := description; rr_Description := description; rr_Timezone := timezone;
                  rr_NextRuns := runs |})
  | Err _ =>
  match parseNaturalLanguage description with
  | Err e => mret (Err e)
  | Ok (cronExpr, desc) =>
  match Parse cronExpr timezone with
  | Err _ => mret (Err (EDomain ErrScheduleParseFailure))
  | Ok sched =>
      computeNextRuns sched 5 ≫= fun runs =>
      mret (Ok {| rr_CronExpression := cronExpr; rr_Description := desc; rr_Timezone := timezone;
                  rr_NextRuns := runs |})
  end end end end.

(** ** Executions *)
Definition ListExecutions (filter : ExecutionFilter) : st W (result err (list Execution)) :=
  if ns_IsZero ns then mret (Err no_namespace) else executions_ListExecutions (set_efilter_namespace ns filter).

Definition ListPendingAck (jobID : option uuid) (n : Z) : st W (result err (list Execution)) :=
  if ns_IsZero ns then mret (Err no_namespace) else
  let params := WithDefaults {| lp_Limit := n; lp_Offset := 0 |} in
  executions_ListPendingAck ns jobID (lp_Limit params).

Definition AckExecution (i : uuid) : st W (result err unit) :=
  if ns_IsZero ns then mret (Err no_namespace) else executions_AckExecution i ns.

Definition GetExecution (i : uuid) : st W (result err (Execution * list DeliveryAttempt)) :=
  if ns_IsZero ns then mret (Err no_namespace) else
  try exec := executions_GetExecutionScoped i ns catch e => mret (Err (EDomain ErrExecutionNotFound)) in
  try attempts := attempts_GetAttempts i catch e => mret (Err (EWrap "get delivery attempts" e)) in
  mret (Ok (exec, attempts)).

(** ** API keys *)
Definition newAPIKey (ns : Namespace) (label : string) : st W (result err CreateAPIKeyResult) :=
  try raw := rand_Read 32 catch e => mret (Err (EWrap "generate token" e)) in
  let plaintext := "ec_" +:+ hex_encode raw in
  let tokenHash := HashToken plaintext in
  time_Now ≫= fun now =>
  uuid_New ≫= fun i =>
  mret (Ok {| kr_PlaintextToken := plaintext;
              kr_Key := {| k_ID := i; k_Namespace := ns; k_TokenHash := tokenHash; k_Label := label;
                           k_Enabled := true; k_CreatedAt := now; k_LastUsedAt := None |} |}).

Definition CreateAPIKey (input : CreateAPIKeyInput) : st W (result err CreateAPIKeyResult) :=
  if ns_IsZero ns then mret (Err no_namespace) else
  try result := newAPIKey ns (ki_Label input) catch e => mret (Err e) in
  try _ := apiKeys_InsertAPIKey (kr_Key result) catch e => mret (Err (EWrap "insert api key" e)) in
  mret (Ok result).

Definition BootstrapFirstAPIKey (namespace label : string) : st W (result err CreateAPIKeyResult) :=
  if ns_IsZero namespace then mret (Err no_namespace) else
  try result := newAPIKey namespace label catch e => mret (Err e) in
  match apiKeys_bootstrap with
  | None => mret (Err (EOther "api key repository does not support bootstrap"))
  | Some (insert_first, _) =>
      try _ := insert_first (kr_Key result) catch e => mret (Err (EWrap "insert first api key" e)) in
      mret (Ok result)
  end.

Definition HasAnyAPIKeys : st W (result err bool) :=
  match apiKeys_bootstrap with
  | None => mret (Err (EOther "api key repository does not support bootstrap"))
  | Some (_, has_any) => has_any
  end.

Definition ListAPIKeys (params : ListParams) : st W (result err (list APIKey)) :=
  if ns_IsZero ns then mret (Err no_namespace) else apiKeys_ListKeys ns (WithDefaults params).

Definition DeleteAPIKey (i : uuid) : st W (result err unit) :=
  if ns_IsZero ns then mret (Err no_namespace) else apiKeys_DeleteKey i ns.
End service.
