(* ===== verification/Wiring.v ===== *)
(** * The store behind the components: [cmd/cronlite/main.go]

    The program hands one PostgreSQL store to every component.  A world [W]
    that contains the connection to the database ([Database]) carries every
    method of the store, and so implements the store interfaces of the
    scheduler, the dispatcher, the reconciler and the job service. *)
From S2P Require Import Prelude GoStrings Domain Pg Store StoreTheory.
From S2P Require Runtime Dispatcher Scheduler Reconciler Service.

(** ** A world with a database *)
Class Database (W : Type) : Type := {
  db_get : W -> pg;
  db_put : pg -> W -> W;
  db_get_put p w : db_get (db_put p w) = p;
  db_put_get w : db_put (db_get w) w = w;
  db_put_put p q w : db_put p (db_put q w) = db_put p w;
}.

(** A call of the store in that world. *)
Definition lift {W} `{!Database W} {A} (m : st pg A) : st W A := fun w =>
  (eval m (db_get w), db_put (exec m (db_get w)) w).

(** The world of the store alone. *)
#[export] Instance pg_database : Database pg := {|
  db_get w := w; db_put p _ := p;
  db_get_put _ _ := eq_refl; db_put_get _ := eq_refl; db_put_put _ _ _ := eq_refl;
|}.

Section lift.
  Context {W : Type} `{!Database W}.

Lemma eval_lift {A} (m : st pg A) w : eval (lift m) w = eval m (db_get w).
Proof. done. Qed.
Lemma exec_lift {A} (m : st pg A) w : db_get (exec (lift m) w) = exec m (db_get w).
Proof. apply db_get_put. Qed.

(** The database of the world satisfies the invariant, and so does what the
    other connections make of it. *)
Definition db_good (I : DB -> Prop) (w : W) : Prop := good I (db_get w).
(** A program that keeps an invariant of the database. *)
Definition maintains (I : DB -> Prop) {A} (m : st W A) : Prop :=
  preserves (fun w w' => db_good I w -> db_good I w') m.
#[global] Instance maintains_preorder I : PreOrder (fun w w' : W => db_good I w -> db_good I w').
Proof. split; [by intros ? | intros ? ? ?; auto]. Qed.

Lemma lift_maintains I {A} (m : st pg A) : keeps I m -> maintains I (lift m).
Proof. intros Hm w Hw. unfold db_good. rewrite exec_lift. by apply Hm. Qed.
End lift.

(** ** The components on the store *)
Section instances.
  Context {W : Type} `{!Database W, !Postgres}.

#[export] Instance scheduler_store : Scheduler.SchedulerStore W := {|
  Scheduler.GetEnabledJobs n i := lift (GetEnabledJobs n i);
  Scheduler.InsertExecution e := lift (InsertExecution e);
  Scheduler.GetLastScheduledExecution := Some (fun i => lift (GetLastScheduledExecution i));
|}.

#[export] Instance dispatcher_store : Dispatcher.Store W := {|
  Dispatcher.GetJobByID i := lift (GetJobByID i);
  Dispatcher.InsertDeliveryAttempt a := lift (InsertDeliveryAttempt a);
  Dispatcher.UpdateExecutionStatus i s := lift (UpdateExecutionStatus i s);
  Dispatcher.DequeueExecution := lift DequeueExecution;
|}.

#[export] Instance reconciler_store : Reconciler.ReconcilerStore W := {|
  Reconciler.GetOrphanedExecutions t n := lift (GetOrphanedExecutions t n);
  Reconciler.RequeueStaleExecutions t n := lift (RequeueStaleExecutions t n);
|}.

#[export] Instance job_repository : Service.JobRepository W := {|
  Service.jobs_CreateJobAggregate j s ts := lift (CreateJobAggregate j s ts);
  Service.jobs_GetJobWithScheduleScoped i ns := lift (GetJobWithScheduleScoped i ns);
  Service.jobs_ListJobs f := lift (ListJobs f);
  Service.jobs_ListJobsWithSchedules := Some (fun f => lift (ListJobsWithSchedules f));
  Service.jobs_UpdateJob j := lift (UpdateJob j);
  Service.jobs_UpdateJobAggregate j s ts := lift (UpdateJobAggregate j s ts);
  Service.jobs_DeleteJob i ns := lift (DeleteJob i ns);
|}.

#[export] Instance execution_repository : Service.ExecutionRepository W := {|
  Service.executions_InsertExecution e := lift (InsertExecution e);
  Service.executions_GetRecentExecutions i n := lift (GetRecentExecutions i n);
  Service.executions_ListExecutions f := lift (ListExecutions f);
  Service.executions_ListPendingAck ns i n := lift (ListPendingAck ns i n);
  Service.executions_AckExecution i ns := lift (AckExecution i ns);
  Service.executions_GetExecutionScoped i ns := lift (GetExecutionScoped i ns);
|}.

#[export] Instance tag_repository : Service.TagRepository W := {| Service.tags_GetTags i := lift (GetTags i) |}.
#[export] Instance attempt_repository : Service.DeliveryAttemptRepository W := {|
  Service.attempts_GetAttempts i := lift (GetAttempts i) |}.
#[export] Instance key_repository : Service.APIKeyRepository W := {|
  Service.apiKeys_InsertAPIKey k := lift (InsertAPIKey k);
  Service.apiKeys_ListKeys ns p := lift (ListKeys ns p);
  Service.apiKeys_DeleteKey i ns := lift (DeleteKey i ns);
  Service.apiKeys_bootstrap := Some (fun k => lift (InsertFirstAPIKey k), lift HasAnyAPIKeys);
|}.
End instances.
