(* ===== verification/Tenancy.v ===== *)
(** * Namespaces: what a request of one tenant can do to the others

    [undisturbed ns db0 db] says that the data of every namespace but [ns] is in
    [db] what it is in [db0].  Every transaction that the job service runs for
    [ns] keeps this, in a database where executions carry the namespace of their
    job and no two jobs share a schedule ([tenancy]). *)
From S2P Require Import Prelude GoStrings Domain Pg Store StoreTheory Wiring.

Record tenancy (db : DB) : Prop := {
  ten_execution i e : executions db !! i = Some e ->
    exists j, jobs db !! e_JobID e = Some j /\ j_Namespace j = e_Namespace e;
  ten_schedule i i' j j' : jobs db !! i = Some j -> jobs db !! i' = Some j' ->
    j_ScheduleID j = j_ScheduleID j' -> i = i';
}.

Record undisturbed (ns : Namespace) (db0 db : DB) : Prop := {
  und_job i j : j_Namespace j <> ns -> jobs db0 !! i = Some j <-> jobs db !! i = Some j;
  und_schedule i j : jobs db0 !! i = Some j -> j_Namespace j <> ns ->
    schedules db !! j_ScheduleID j = schedules db0 !! j_ScheduleID j;
  und_tag i j k : jobs db0 !! i = Some j -> j_Namespace j <> ns -> tags db !! (i, k) = tags db0 !! (i, k);
  und_execution i e : e_Namespace e <> ns -> executions db0 !! i = Some e <-> executions db !! i = Some e;
  und_attempt i a e : executions db0 !! da_ExecutionID a = Some e -> e_Namespace e <> ns ->
    delivery_attempts db0 !! i = Some a <-> delivery_attempts db !! i = Some a;
  und_key i k : k_Namespace k <> ns -> api_keys db0 !! i = Some k <-> api_keys db !! i = Some k;
  und_session h s k : api_keys db0 !! as_APIKeyID s = Some k -> k_Namespace k <> ns ->
    admin_sessions db0 !! h = Some s <-> admin_sessions db !! h = Some s;
}.

Section tenancy.
  Context `{!Postgres} (ns : Namespace) (db0 : DB).

(** The invariant of the requests of [ns]. *)
Record quarantine (db : DB) : Prop := {
  q_wf : wf_db db;
  q_tenancy : tenancy db;
  q_und : undisturbed ns db0 db;
}.

(** No other namespace has a job under the identifier, or uses the schedule. *)
Definition own_job (i : uuid) : Prop := forall j, jobs db0 !! i = Some j -> j_Namespace j = ns.
Definition own_schedule (x : uuid) : Prop :=
  forall i j, jobs db0 !! i = Some j -> j_ScheduleID j = x -> j_Namespace j = ns.

Lemma own_job_seen db i j : quarantine db -> jobs db !! i = Some j -> j_Namespace j = ns -> own_job i.
Proof.
  intros [_ _ Hu] Hj Hns j0 Hj0. apply dec_stable. intros Hne.
  apply (und_job _ _ _ Hu) in Hj0; [| done]. congruence.
Qed.

Lemma own_job_free db i : quarantine db -> jobs db !! i = None -> own_job i.
Proof.
  intros [_ _ Hu] Hj j0 Hj0. apply dec_stable. intros Hne.
  apply (und_job _ _ _ Hu) in Hj0; [| done]. congruence.
Qed.

Lemma own_job_in db i j : quarantine db -> own_job i -> jobs db !! i = Some j -> j_Namespace j = ns.
Proof.
  intros [_ _ Hu] Ho Hj. apply dec_stable. intros Hne. apply Hne, Ho.
  by apply (und_job _ _ _ Hu).
Qed.

Lemma own_schedule_seen db i j :
  quarantine db -> jobs db !! i = Some j -> j_Namespace j = ns -> own_schedule (j_ScheduleID j).
Proof.
  intros [_ Ht Hu] Hj Hns i0 j0 Hj0 Es. apply dec_stable. intros Hne.
  apply (und_job _ _ _ Hu) in Hj0; [| done].
  rewrite (ten_schedule _ Ht _ _ _ _ Hj0 Hj Es) in Hj0. congruence.
Qed.

(** Foreign jobs and their schedules exist. *)
Lemma foreign_schedule db i j :
  quarantine db -> jobs db0 !! i = Some j -> j_Namespace j <> ns -> is_Some (schedules db !! j_ScheduleID j).
Proof.
  intros [Hwf _ Hu] Hj Hne. apply (und_job _ _ _ Hu) in Hj; [| done]. by apply (wf_job _ Hwf _ _ Hj).
Qed.

(** A foreign execution belongs to a foreign job. *)
Lemma foreign_execution db i e :
  quarantine db -> executions db !! i = Some e -> e_Namespace e <> ns ->
  exists j, jobs db !! e_JobID e = Some j /\ j_Namespace j <> ns.
Proof.
  intros [_ Ht _] He Hne. destruct (ten_execution _ Ht _ _ He) as (j & Hj & E). exists j. split; [done | congruence].
Qed.

Lemma q_update_schedule s : own_schedule (s_ID s) -> tx_inv quarantine (queryUpdateSchedule s).
Proof.
  intros Ho v db a db' Hq E. pose proof (wf_update_schedule s v db a db' (q_wf _ Hq) E) as Hwf.
  revert E. unfold queryUpdateSchedule. destruct (schedules db !! s_ID s) as [row|]; intros [= <- <-]; [| done].
  destruct Hq as [_ [Ht1 Ht2] [H1 H2 H3 H4 H5 H6 H7]]. split; [done | by split |]. split; cbn; try done.
  intros i j Hj Hne. rewrite lookup_insert_ne; [by eapply H2 |]. intros E. by eapply Hne, Ho.
Qed.

Lemma q_update_job j : j_Namespace j = ns -> tx_inv quarantine (queryUpdateJob j).
Proof.
  intros Hns v db a db' Hq E. pose proof (wf_update_job j v db a db' (q_wf _ Hq) E) as Hwf.
  revert E. unfold queryUpdateJob. case_match; [done |].
  destruct (jobs db !! j_ID j) as [row|] eqn:Hrow; [case_decide as Hrn |]; intros [= <- <-]; try done.
  destruct Hq as [_ [Ht1 Ht2] [H1 H2 H3 H4 H5 H6 H7]]. split; [done | |].
  - split; cbn.
    + intros i e He. destruct (Ht1 _ _ He) as (j0 & Hj0 & E). destruct (decide (e_JobID e = j_ID j)) as [Ei|].
      * rewrite Ei, lookup_insert_eq in *. eexists. split; [done |]. cbn. congruence.
      * rewrite lookup_insert_ne by done. eauto.
    + intros i i' x x'. destruct (decide (i = j_ID j)) as [->|], (decide (i' = j_ID j)) as [->|];
        rewrite ?lookup_insert_eq, ?lookup_insert_ne by done; [done | | | apply Ht2];
        intros ? ? Es; simplify_eq; cbn in Es; [by eapply (Ht2 (j_ID j) i') | by eapply (Ht2 i (j_ID j))].
  - split; cbn; try done. intros i x Hx. rewrite (H1 i x Hx).
    destruct (decide (i = j_ID j)) as [->|]; [| by rewrite lookup_insert_ne].
    rewrite lookup_insert_eq, Hrow. split; intros [= <-]; cbn in *; congruence.
Qed.

Lemma q_upsert_tag i k x : own_job i -> tx_inv quarantine (queryUpsertTag i k x).
Proof.
  intros Ho v db a db' Hq E. pose proof (wf_upsert_tag i k x v db a db' (q_wf _ Hq) E) as Hwf.
  revert E. unfold queryUpsertTag. destruct (jobs db !! i) as [row|]; intros [= <- <-].
  destruct Hq as [_ [Ht1 Ht2] [H1 H2 H3 H4 H5 H6 H7]]. split; [done | by split |]. split; cbn; try done.
  intros i0 j k0 Hj Hne. rewrite lookup_insert_ne; [by eapply H3 |]. intros [= <- <-]. by apply Hne, Ho.
Qed.

Lemma q_delete_tags i : own_job i -> tx_inv quarantine (queryDeleteTags i).
Proof.
  intros Ho v db a db' Hq E. pose proof (wf_delete_tags i v db a db' (q_wf _ Hq) E) as Hwf.
  injection E as _ <-. destruct Hq as [_ [Ht1 Ht2] [H1 H2 H3 H4 H5 H6 H7]]. split; [done | by split |].
  split; cbn; try done. intros i0 j k Hj Hne. rewrite map_lookup_filter.
  rewrite (H3 i0 j k Hj Hne). destruct (tags db0 !! (i0, k)); cbn; [| done].
  rewrite option_guard_True; [done |]. cbn. intros ->. by apply Hne, Ho.
Qed.

(** A new job with a new schedule. *)
Lemma q_create_job j s ts :
  j_Namespace j = ns -> j_ScheduleID j = s_ID s ->
  tx_inv quarantine (queryInsertSchedule s ≫= fun _ => queryInsertJob j ≫= fun _ =>
    for_each ts (fun t => queryUpsertTag (j_ID j) (t_Key t) (t_Value t))).
Proof.
  intros Hns Hsch v db a db' Hq. unfold mbind, stmt_bind.
  destruct (queryInsertSchedule s v db) as [[[] db1]|] eqn:E1; [| done].
  destruct (queryInsertJob j v db1) as [[[] db2]|] eqn:E2; [| done]. intros E3.
  pose proof (wf_insert_schedule s v db _ _ (q_wf _ Hq) E1) as Hwf1.
  pose proof (wf_insert_job j v db1 _ _ Hwf1 E2) as Hwf2.
  cut (quarantine db2 /\ own_job (j_ID j)).
  { intros [Hq2 Ho]. eapply (tx_for_each quarantine); [| done | exact E3]. intros t. by apply q_upsert_tag. }
  unfold queryInsertSchedule in E1. destruct (schedules db !! s_ID s) eqn:Hs; [done |]. injection E1 as <-.
  unfold queryInsertJob in E2. case_match; [done |]. cbn in E2.
  destruct (jobs db !! j_ID j) eqn:Hj; [done |]. rewrite Hsch, lookup_insert_eq in E2. injection E2 as <-.
  assert (Hfree : forall i j', jobs db !! i = Some j' -> j_ScheduleID j' <> s_ID s).
  { intros i j' Hj' E. destruct (wf_job _ (q_wf _ Hq) _ _ Hj') as [_ [x Hx]]. congruence. }
  assert (Ho : own_job (j_ID j)) by by eapply own_job_free.
  split; [| done]. destruct Hq as [Hwf [Ht1 Ht2] [H1 H2 H3 H4 H5 H6 H7]]. split; [done | |].
  - split; cbn.
    + intros i e He. destruct (Ht1 _ _ He) as (j0 & Hj0 & E). exists j0. split; [| done].
      rewrite lookup_insert_ne; [done | congruence].
    + intros i i' x x'. destruct (decide (i = j_ID j)) as [->|], (decide (i' = j_ID j)) as [->|];
        rewrite ?lookup_insert_eq, ?lookup_insert_ne by done; [done | | | apply Ht2];
        intros Hx Hx' Es; simplify_eq; cbn in Es; exfalso;
        [eapply (Hfree _ _ Hx') | eapply (Hfree _ _ Hx)]; congruence.
  - split; cbn; try done.
    + intros i x Hx. rewrite (H1 i x Hx). destruct (decide (i = j_ID j)) as [->|]; [| by rewrite lookup_insert_ne].
      rewrite lookup_insert_eq, Hj. split; [done |]. intros [= <-]. cbn in Hx. done.
    + intros i x Hx Hne. rewrite lookup_insert_ne; [by eapply H2 |].
      apply H1 in Hx; [| done]. by apply not_eq_sym, (Hfree i).
Qed.

Lemma q_delete_job i : tx_inv quarantine (queryDeleteJob i ns).
Proof.
  intros v db a db' Hq E. pose proof (wf_delete_job i ns v db a db' (q_wf _ Hq) E) as Hwf.
  revert E. unfold queryDeleteJob. destruct (jobs db !! i) as [row|] eqn:Hrow; [| by intros [= _ <-]].
  case_decide as Hns; [| by intros [= _ <-]]. cbv zeta. case_decide as Hfree; [| done]. intros [= _ <-].
  assert (Hfs : forall k j, jobs db0 !! k = Some j -> j_Namespace j <> ns -> j_ScheduleID j <> j_ScheduleID row).
  { intros k j Hj Hne Es. by eapply Hne, (own_schedule_seen db i row). }
  assert (Hfe : forall k e, executions db !! k = Some e -> e_Namespace e <> ns -> e_JobID e <> i).
  { intros k e He Hne Ei. destruct (foreign_execution _ _ _ Hq He Hne) as (j & Hj & Hjne). congruence. }
  destruct Hq as [_ [Ht1 Ht2] [H1 H2 H3 H4 H5 H6 H7]]. split; [done | |]; cbn in *.
  - split; cbn.
    + intros k e [He Hne]%map_lookup_filter_Some. destruct (Ht1 _ _ He) as (j & Hj & E). exists j.
      split; [| done]. by rewrite lookup_delete_ne.
    + intros k k' j j' [_ Hj]%lookup_delete_Some [_ Hj']%lookup_delete_Some. by apply Ht2.
  - split; cbn; try done.
    + intros k j Hj. rewrite (H1 k j Hj), lookup_delete_Some. split; [| tauto].
      intros Hk. split; [intros ->; congruence | done].
    + intros k j Hj Hne. rewrite lookup_delete_ne; [by eapply H2 | by apply not_eq_sym, (Hfs k)].
    + intros k j x Hj Hne. rewrite map_lookup_filter, (H3 k j x Hj Hne).
      destruct (tags db0 !! (k, x)); cbn; [| done]. rewrite option_guard_True; [done |]. cbn. intros ->.
      apply H1 in Hj; [congruence | done].
    + intros k e Hne. rewrite (H4 k e Hne), map_lookup_filter_Some. cbn. split; [| tauto].
      intros He. split; [done | by eapply Hfe].
    + intros k x e He Hne. rewrite (H5 k x e He Hne), map_lookup_filter_Some. cbn. split; [| tauto].
      intros Hx. split; [done |]. apply map_lookup_filter_None. right. intros e' He'. cbn.
      apply H4 in He; [| done]. replace e' with e by congruence. by eapply Hfe.
Qed.

Lemma q_insert_execution e :
  e_Namespace e = ns -> own_job (e_JobID e) -> tx_inv quarantine (queryInsertExecution e).
Proof.
  intros Hns Ho v db a db' Hq E. pose proof (wf_insert_execution e v db a db' (q_wf _ Hq) E) as Hwf.
  revert E. unfold queryInsertExecution. cbv zeta. case_decide as Hd; [| done].
  destruct (jobs db !! e_JobID e) as [j|] eqn:Hj; [| done]. intros [= _ <-].
  pose proof (own_job_in _ _ _ Hq Ho Hj) as Hjns. destruct Hd as [Hid _].
  destruct Hq as [_ [Ht1 Ht2] [H1 H2 H3 H4 H5 H6 H7]]. split; [done | |].
  - split; cbn; [| done]. intros k x. destruct (decide (k = e_ID e)) as [->|].
    + rewrite lookup_insert_eq. intros [= <-]. exists j. cbn. split; [done | congruence].
    + rewrite lookup_insert_ne by done. apply Ht1.
  - split; cbn; try done. intros k x Hne. rewrite (H4 k x Hne).
    destruct (decide (k = e_ID e)) as [->|]; [| by rewrite lookup_insert_ne].
    rewrite lookup_insert_eq, Hid. split; [done |]. intros [= <-]. cbn in Hne. done.
Qed.

Lemma q_ack i : tx_inv quarantine (queryAckExecution i ns).
Proof.
  intros v db a db' Hq E. pose proof (wf_ack i ns v db a db' (q_wf _ Hq) E) as Hwf.
  revert E. unfold queryAckExecution. rewrite (stmt_bind_Ok server _ v db v db eq_refl).
  unfold update_execution. destruct (executions db !! i) as [row|] eqn:Hrow; [| by intros [= _ <-]].
  case_decide as Hc; intros [= _ <-]; [| done]. destruct Hc as [Hns _].
  destruct Hq as [_ [Ht1 Ht2] [H1 H2 H3 H4 H5 H6 H7]]. split; [done | |].
  - split; cbn; [| done]. intros k x. destruct (decide (k = i)) as [->|].
    + rewrite lookup_insert_eq. intros [= <-]. cbn. by apply (Ht1 i row).
    + rewrite lookup_insert_ne by done. apply Ht1.
  - split; cbn; try done. intros k x Hne. rewrite (H4 k x Hne).
    destruct (decide (k = i)) as [->|]; [| by rewrite lookup_insert_ne].
    rewrite lookup_insert_eq, Hrow. split; intros [= <-]; cbn in Hne; done.
Qed.

Lemma q_insert_key k : k_Namespace k = ns -> tx_inv quarantine (queryInsertAPIKey k).
Proof.
  intros Hns v db a db' Hq E. pose proof (wf_insert_key k v db a db' (q_wf _ Hq) E) as Hwf.
  revert E. unfold queryInsertAPIKey. case_decide as Hd; [| done]. intros [= _ <-]. destruct Hd as [Hid _].
  destruct Hq as [_ [Ht1 Ht2] [H1 H2 H3 H4 H5 H6 H7]]. split; [done | by split |]. split; cbn; try done.
  intros i x Hne. rewrite (H6 i x Hne). destruct (decide (i = k_ID k)) as [->|]; [| by rewrite lookup_insert_ne].
  rewrite lookup_insert_eq, Hid. split; [done |]. intros [= <-]. done.
Qed.

Lemma q_delete_key i : tx_inv quarantine (queryDeleteKey i ns).
Proof.
  intros v db a db' Hq E. pose proof (wf_delete_key i ns v db a db' (q_wf _ Hq) E) as Hwf.
  revert E. unfold queryDeleteKey. destruct (api_keys db !! i) as [row|] eqn:Hrow; [| by intros [= _ <-]].
  case_decide as Hns; intros [= _ <-]; [| done].
  destruct Hq as [_ [Ht1 Ht2] [H1 H2 H3 H4 H5 H6 H7]]. split; [done | by split |]. split; cbn; try done.
  - intros k x Hne. rewrite (H6 k x Hne), lookup_delete_Some. split; [| tauto].
    intros Hk. split; [intros ->; congruence | done].
  - intros h x k Hk Hne. rewrite (H7 h x k Hk Hne), map_lookup_filter_Some. cbn. split; [| tauto].
    intros Hh. split; [done |]. intros <-. apply H6 in Hk; [| done]. congruence.
Qed.
End tenancy.
