(* ===== verification/ServiceTheory.v ===== *)
(** * Reasoning about the job service

    [safe I m Q]: the program [m] keeps the invariant [I] of the database, and
    its value satisfies [Q].  The rules follow the structure of a program; a
    call of the store is a transaction that keeps [I]. [serve] runs a request of
    the service, with the data that it hands out. *)
From S2P Require Import Prelude GoStrings Domain Runtime Cron WebhookURL Pg Store StoreTheory Wiring Tenancy.
From S2P Require Service.
Import Service (mkJobService).

(** What the runtime and the emitter supply does not touch the database. *)
Class Quiet (W : Type) `{!Database W, !Runtime W, !EventEmitter W, !Service.Random W} : Prop := {
  quiet_now w : db_get (exec time_Now w) = db_get w;
  quiet_uuid w : db_get (exec uuid_New w) = db_get w;
  quiet_rand n w : db_get (exec (Service.rand_Read n) w) = db_get w;
  quiet_emit ev w : db_get (exec (Emit ev) w) = db_get w;
}.

Lemma run_tx_fst {A B} (f : A -> B) (m : st pg A) w : ((f <$> m) w).1 = f (m w).1.
Proof. unfold fmap, st_fmap. by destruct (m w). Qed.

(** A transaction fails, or gives an answer on a database with the invariant. *)
Lemma run_tx_answer (I : DB -> Prop) {A} (s : stmt A) (w : pg) :
  good I w ->
  (exists e, (run_tx s w).1 = Err e) \/
  (exists a v db db', I db /\ s v db = Ok (a, db') /\ (run_tx s w).1 = Ok a).
Proof.
  intros [HI Hoth]. unfold run_tx. set (i := shd (pg_ios w)).
  assert (HI' : I (io_others i (pg_db w))) by by apply (Hoth 0).
  destruct (io_fault i) as [[e []]|], (s (io_env i) (io_others i (pg_db w))) as [[a db']|] eqn:E; cbn; eauto 10.
Qed.

Section safe.
  Context {W : Type} `{!Database W, !Postgres} (I : DB -> Prop).

Definition safe {A} (m : st W A) (Q : A -> Prop) : Prop :=
  forall w, db_good I w -> db_good I (exec m w) /\ Q (eval m w).

Lemma safe_ret {A} (a : A) (Q : A -> Prop) : Q a -> safe (mret a) Q.
Proof. by intros HQ w Hw. Qed.

Lemma safe_bind {A B} (m : st W A) (f : A -> st W B) (P : A -> Prop) (Q : B -> Prop) :
  safe m P -> (forall a, P a -> safe (f a) Q) -> safe (m ≫= f) Q.
Proof.
  intros Hm Hf w Hw. destruct (Hm w Hw) as [Hg HP]. unfold exec, eval, mbind, st_bind in *.
  destruct (m w) as [a w']; cbn in *. exact (Hf a HP w' Hg).
Qed.

Lemma safe_weaken {A} (m : st W A) (P Q : A -> Prop) : safe m P -> (forall a, P a -> Q a) -> safe m Q.
Proof. intros Hm HPQ w Hw. destruct (Hm w Hw); auto. Qed.

(** [try a := m catch e => h in k]. *)
Lemma safe_try {A B E} (m : st W (result E A)) (h : E -> st W B) (k : A -> st W B) (P : A -> Prop) (Q : B -> Prop) :
  safe m (fun r => match r with Ok a => P a | Err _ => True end) ->
  (forall e, safe (h e) Q) -> (forall a, P a -> safe (k a) Q) ->
  safe (m ≫= fun r => match r with Ok a => k a | Err e => h e end) Q.
Proof. intros Hm Hh Hk. eapply safe_bind; [exact Hm |]. intros [a|e] HP; auto. Qed.

Lemma safe_fmap {A B} (f : A -> B) (m : st W A) (Q : B -> Prop) :
  safe m (fun a => Q (f a)) -> safe (f <$> m) Q.
Proof.
  intros Hm w Hw. destruct (Hm w Hw) as [Hg HQ]. unfold exec, eval, fmap, st_fmap in *. by destruct (m w).
Qed.

(** A call that leaves the database alone. *)
Lemma safe_quiet {A} (m : st W A) : (forall w, db_get (exec m w) = db_get w) -> safe m (fun _ => True).
Proof. intros Hm w Hw. split; [| done]. unfold db_good. by rewrite Hm. Qed.

(** A call of the store: a transaction that keeps the invariant, whose answer on
    success is one that the transaction gives on a database with the invariant. *)
Lemma safe_tx {A B} (s : stmt A) (f : result err A -> B) (Q : B -> Prop) :
  tx_inv I s -> (forall e, Q (f (Err e))) ->
  (forall v db a db', I db -> s v db = Ok (a, db') -> Q (f (Ok a))) ->
  safe (lift (f <$> run_tx s)) Q.
Proof.
  intros Hs He Ho w Hw. split.
  - unfold db_good. rewrite exec_lift. apply (fmap_keeps I f (run_tx s)); [by apply run_tx_keeps | exact Hw].
  - rewrite eval_lift. unfold eval. rewrite run_tx_fst. destruct (run_tx_answer I s (db_get w) Hw) as [[e ->]|(a & v & db & db' & HI & E & ->)]; eauto.
Qed.

Lemma safe_tx_id {A} (s : stmt A) (Q : result err A -> Prop) :
  tx_inv I s -> (forall e, Q (Err e)) ->
  (forall v db a db', I db -> s v db = Ok (a, db') -> Q (Ok a)) -> safe (lift (run_tx s)) Q.
Proof.
  intros Hs He Ho w Hw. destruct (safe_tx s id Q Hs He Ho w Hw) as [H1 H2].
  assert (E : lift (id <$> run_tx s) w = lift (run_tx s) w).
  { unfold lift, eval, exec, fmap, st_fmap. by destruct (run_tx s (db_get w)). }
  unfold eval, exec in *. by rewrite E in H1, H2.
Qed.

(** A call of which only the effect matters. *)
Lemma call_write {A} (m : st pg A) : keeps I m -> safe (lift m) (fun _ => True).
Proof. intros Hm w Hw. split; [by apply lift_maintains | done]. Qed.
End safe.

(** ** Requests *)
Inductive request : Type :=
| RCreateJob (input : Service.CreateJobInput)
| RGetJob (i : uuid)
| RListJobs (f : JobFilter)
| RListJobsWithSchedules (f : JobFilter)
| RUpdateJob (i : uuid) (input : Service.UpdateJobInput)
| RDeleteJob (i : uuid)
| RPauseJob (i : uuid)
| RResumeJob (i : uuid)
| RTriggerNow (i : uuid)
| RGetNextRunTime (i : uuid)
| RResolveSchedule (description timezone : string)
| RListExecutions (f : ExecutionFilter)
| RListPendingAck (i : option uuid) (n : Z)
| RAckExecution (i : uuid)
| RGetExecution (i : uuid)
| RCreateAPIKey (input : Service.CreateAPIKeyInput)
| RBootstrapFirstAPIKey (namespace label : string)
| RHasAnyAPIKeys
| RListAPIKeys (p : ListParams)
| RDeleteAPIKey (i : uuid).

(** The rows with a namespace that an answer hands out. *)
Record answer : Type := mkAnswer {
  an_jobs : list Job;
  an_executions : list Execution;
  an_keys : list APIKey;
}.
Definition nothing : answer := mkAnswer [] [] [].
Definition answers {W A} (f : A -> answer) (m : st W (result err A)) : st W (result err answer) :=
  result_map f <$> m.
Definition job_answer (r : Job * Schedule) : answer := mkAnswer [r.1] [] [].

(** The namespace that a request acts in. *)
Definition acting (ctx : context) (r : request) : Namespace :=
  match r with
  | RBootstrapFirstAPIKey namespace _ => namespace
  | _ => NamespaceFromContext ctx
  end.

Section serve.
  Context {W : Type} `{!Service.JobRepository W, !Service.ExecutionRepository W, !Service.TagRepository W,
    !Service.DeliveryAttemptRepository W, !Service.APIKeyRepository W, !Service.Random W, !Runtime W,
    !EventEmitter W, !CronLibrary, !NetLibrary}.
  Variables (s : Service.JobService) (ctx : context).

Definition serve (r : request) : st W (result err answer) :=
  match r with
  | RCreateJob input => answers job_answer (Service.CreateJob ctx input)
  | RGetJob i => answers (fun x => let '(j, _, _, es) := x in mkAnswer [j] es []) (Service.GetJob ctx i)
  | RListJobs f => answers (fun l => mkAnswer l [] []) (Service.ListJobs ctx f)
  | RListJobsWithSchedules f => answers (fun l => mkAnswer (map jws_Job l) [] []) (Service.ListJobsWithSchedules ctx f)
  | RUpdateJob i input => answers job_answer (Service.UpdateJob ctx i input)
  | RDeleteJob i => answers (fun _ => nothing) (Service.DeleteJob ctx i)
  | RPauseJob i => answers (fun j => mkAnswer [j] [] []) (Service.PauseJob ctx i)
  | RResumeJob i => answers (fun j => mkAnswer [j] [] []) (Service.ResumeJob ctx i)
  | RTriggerNow i => answers (fun e => mkAnswer [] [e] []) (Service.TriggerNow s ctx i)
  | RGetNextRunTime i => answers (fun _ => nothing) (Service.GetNextRunTime ctx i)
  | RResolveSchedule d tz => answers (fun _ => nothing) (Service.ResolveSchedule d tz)
  | RListExecutions f => answers (fun l => mkAnswer [] l []) (Service.ListExecutions ctx f)
  | RListPendingAck i n => answers (fun l => mkAnswer [] l []) (Service.ListPendingAck ctx i n)
  | RAckExecution i => answers (fun _ => nothing) (Service.AckExecution ctx i)
  | RGetExecution i => answers (fun x => mkAnswer [] [x.1] []) (Service.GetExecution ctx i)
  | RCreateAPIKey input => answers (fun k => mkAnswer [] [] [Service.kr_Key k]) (Service.CreateAPIKey ctx input)
  | RBootstrapFirstAPIKey n l => answers (fun k => mkAnswer [] [] [Service.kr_Key k]) (Service.BootstrapFirstAPIKey n l)
  | RHasAnyAPIKeys => answers (fun _ => nothing) Service.HasAnyAPIKeys
  | RListAPIKeys p => answers (fun l => mkAnswer [] [] l) (Service.ListAPIKeys ctx p)
  | RDeleteAPIKey i => answers (fun _ => nothing) (Service.DeleteAPIKey ctx i)
  end.
End serve.
