(* ===== verification/ServiceProps.v ===== *)
(** * Properties of the job service

    Tenant isolation of every request of the service. [Sim] is a world with a
    database that nobody else uses, at which requests are evaluated. *)
From S2P Require Import Prelude GoStrings Domain Runtime Cron WebhookURL Pg Store StoreTheory StoreProps Wiring Tenancy ServiceTheory.
From S2P Require Service.
Local Open Scope cron_scope.

(** Everything that an answer hands out belongs to the namespace. *)
Record answer_in (ns : Namespace) (a : answer) : Prop := {
  ai_jobs : Forall (fun j => j_Namespace j = ns) (an_jobs a);
  ai_executions : Forall (fun e => e_Namespace e = ns) (an_executions a);
  ai_keys : Forall (fun k => k_Namespace k = ns) (an_keys a);
}.

(** ** The calls of the store under quarantine *)
Section calls.
  Context {W : Type} `{!Database W, !Postgres} (ns : Namespace) (db0 : DB).
Notation I := (quarantine ns db0).

Lemma one_row_inv {A} (s : stmt (list A)) v db a db' :
  one_row s v db = Ok (a, db') -> exists l, s v db = Ok (a :: l, db').
Proof.
  unfold one_row, mbind, stmt_bind. destruct (s v db) as [[[|x l] db1]|]; try done. intros [= <- <-]. by exists l.
Qed.

Lemma call_scoped (i : uuid) :
  safe (W := W) I (lift (GetJobWithScheduleScoped i ns)) (fun r => match r with
    | Ok (j, s) => j_ID j = i /\ j_Namespace j = ns /\ own_job ns db0 i /\ own_schedule ns db0 (s_ID s)
    | Err _ => True end).
Proof.
  apply safe_tx; [tx_read | by intros [] |]. intros v db [row s] db' Hq (l & E)%one_row_inv.
  unfold queryGetJobWithScheduleScoped, query in E. injection E as E _. cbn.
  assert (Hin : (row, s) ∈ filter (fun r => j_Namespace r.1 = ns) (option_list (jobs db !! i ≫= with_schedule db)))
    by (rewrite E; by left).
  apply list_elem_of_filter in Hin as [Hns Hin]. cbn in Hns.
  destruct (jobs db !! i) as [j|] eqn:Hj; cbn in Hin; [| by apply elem_of_nil in Hin].
  unfold with_schedule in Hin. destruct (schedules db !! j_ScheduleID j) as [x|] eqn:Hs; cbn in Hin;
    [| by apply elem_of_nil in Hin].
  apply list_elem_of_singleton in Hin as [= -> ->].
  destruct (wf_job _ (q_wf _ _ _ Hq) _ _ Hj) as [Hid _]. rewrite (wf_schedule _ (q_wf _ _ _ Hq) _ _ Hs).
  split_and!; [done | done | by eapply own_job_seen | by eapply own_schedule_seen].
Qed.

(** Rows selected by a condition that asks for the namespace. *)
Lemma scanned_in_namespace (l : list Execution) :
  (forall e, e ∈ l -> e_Namespace e = ns) -> Forall (fun e => e_Namespace e = ns) (scanExecutionRows l).
Proof.
  intros Hl. apply Forall_forall. intros e (x & -> & Hx)%list_elem_of_fmap. cbn. by apply Hl.
Qed.

Lemma call_recent (i : uuid) n :
  own_job ns db0 i ->
  safe (W := W) I (lift (GetRecentExecutions i n)) (fun r => match r with
    | Ok l => Forall (fun e => e_Namespace e = ns) l | Err _ => True end).
Proof.
  intros Ho. apply safe_tx; [unfold queryGetRecentExecutions; tx_read | done |].
  intros v db l db' Hq E. cbn. apply scanned_in_namespace. intros e He.
  unfold queryGetRecentExecutions, executions_where, query, mbind, stmt_bind in E.
  apply limit_Ok in E as (_ & -> & _). apply elem_of_select in He.
  apply list_elem_of_filter in He as [Hi [k Hk]%elem_of_rows].
  destruct (ten_execution _ (q_tenancy _ _ _ Hq) _ _ Hk) as (j & Hj & <-). rewrite Hi in Hj.
  by eapply own_job_in.
Qed.

Lemma call_list_executions f :
  ns_IsZero ns = false -> ef_Namespace f = ns ->
  safe (W := W) I (lift (ListExecutions f)) (fun r => match r with
    | Ok l => Forall (fun e => e_Namespace e = ns) l | Err _ => True end).
Proof.
  intros Hz Hf. apply safe_tx; [unfold queryListExecutions; tx_read | done |].
  intros v db l db' _ E. cbn. apply scanned_in_namespace. intros e He.
  unfold queryListExecutions, executions_where, query, mbind, stmt_bind in E.
  apply limit_offset_Ok in E as (_ & _ & -> & _). apply (subseteq_take _) in He. apply (subseteq_drop _) in He.
  rewrite (order_by_perm desc e_CreatedAt) in He. apply list_elem_of_filter in He as [(_ & Hn & _) _].
  rewrite <- Hf in Hz. specialize (Hn Hz). cbn in Hn. congruence.
Qed.

Lemma call_pending i n :
  safe (W := W) I (lift (ListPendingAck ns i n)) (fun r => match r with
    | Ok l => Forall (fun e => e_Namespace e = ns) l | Err _ => True end).
Proof.
  apply safe_tx; [unfold queryListPendingAck; tx_read | done |].
  intros v db l db' _ E. cbn. apply scanned_in_namespace. intros e He.
  unfold queryListPendingAck, executions_where, query, mbind, stmt_bind in E.
  apply limit_Ok in E as (_ & -> & _). apply elem_of_select in He.
  by apply list_elem_of_filter in He as [(Hn & _) _].
Qed.

Lemma call_get_execution i :
  safe (W := W) I (lift (GetExecutionScoped i ns)) (fun r => match r with
    | Ok e => e_Namespace e = ns | Err _ => True end).
Proof.
  apply safe_tx; [tx_read | by intros [] |]. intros v db e db' _ (l & E)%one_row_inv.
  unfold queryGetExecutionScoped, query in E. injection E as E _. cbn.
  assert (He : e ∈ filter (fun e => e_Namespace e = ns) (option_list (executions db !! i))) by (rewrite E; by left).
  by apply list_elem_of_filter in He as [Hn _].
Qed.

Lemma call_list_jobs f :
  jf_Namespace f = ns ->
  safe (W := W) I (lift (ListJobs f)) (fun r => match r with
    | Ok l => Forall (fun j => j_Namespace j = ns) l | Err _ => True end).
Proof.
  intros Hf. apply safe_tx; [unfold queryListJobs; tx_read | done |].
  intros v db l db' _ E. cbn. apply Forall_forall. intros j (x & -> & Hx)%list_elem_of_fmap. cbn.
  unfold queryListJobs, query, mbind, stmt_bind in E.
  apply limit_offset_Ok in E as (_ & _ & -> & _). apply (subseteq_take _) in Hx. apply (subseteq_drop _) in Hx.
  rewrite (order_by_perm desc j_CreatedAt) in Hx. apply list_elem_of_filter in Hx as [(Hn & _) _]. cbn in Hn. congruence.
Qed.

Lemma call_list_jobs_with_schedules f :
  jf_Namespace f = ns ->
  safe (W := W) I (lift (ListJobsWithSchedules f)) (fun r => match r with
    | Ok l => Forall (fun x => j_Namespace (jws_Job x) = ns) l | Err _ => True end).
Proof.
  intros Hf. apply safe_tx; [unfold queryListJobsWithSchedules; tx_read | done |].
  intros v db l db' _ E. cbn. apply Forall_forall. intros j ([x sx] & -> & Hx)%list_elem_of_fmap. cbn.
  unfold queryListJobsWithSchedules, query, mbind, stmt_bind in E.
  apply limit_offset_Ok in E as (_ & _ & -> & _). apply (subseteq_take _) in Hx. apply (subseteq_drop _) in Hx.
  rewrite (order_by_perm desc (fun r : Job * Schedule => j_CreatedAt r.1)) in Hx.
  apply list_elem_of_filter in Hx as [(Hn & _) _]. cbn in Hn. congruence.
Qed.

Lemma call_list_keys p :
  safe (W := W) I (lift (ListKeys ns p)) (fun r => match r with
    | Ok l => Forall (fun k => k_Namespace k = ns) l | Err _ => True end).
Proof.
  apply safe_tx_id; [unfold queryListKeys; tx_read | done |].
  intros v db l db' _ E. apply Forall_forall. intros k Hk.
  unfold queryListKeys, query, mbind, stmt_bind in E.
  apply limit_offset_Ok in E as (_ & _ & -> & _). apply (subseteq_take _) in Hk. apply (subseteq_drop _) in Hk.
  rewrite (order_by_perm desc k_CreatedAt) in Hk. by apply list_elem_of_filter in Hk as [Hn _].
Qed.
End calls.

(** ** Every request under quarantine *)
Section requests.
  Context {W : Type} `{!Database W, !Postgres, !Runtime W, !EventEmitter W, !Service.Random W, !CronLibrary, !NetLibrary,
    !Quiet W}.
  Variables (s : Service.JobService) (ctx : context) (db0 : DB).
Let ns : Namespace := NamespaceFromContext ctx.
Notation I := (quarantine ns db0).

(** The postcondition of an operation. *)
Definition on_ok {A} (Q : A -> Prop) (r : result err A) : Prop := match r with Ok a => Q a | Err _ => True end.

Lemma safe_now : safe I time_Now (fun _ => True).
Proof. apply safe_quiet, quiet_now. Qed.
Lemma safe_uuid : safe I uuid_New (fun _ => True).
Proof. apply safe_quiet, quiet_uuid. Qed.

(** Steps over the operations: results, early returns, and calls of the runtime. *)
Ltac quiet_step :=
  first [ apply safe_ret; exact Logic.I
        | eapply safe_bind; [apply safe_now | intros ? _]
        | eapply safe_bind; [apply safe_uuid | intros ? _] ].
Ltac early := match goal with |- safe _ (if ?b then _ else _) _ => destruct b eqn:?; [apply safe_ret; exact Logic.I |] end.

Lemma create_job_keeps j x ts :
  j_Namespace j = ns -> j_ScheduleID j = s_ID x -> keeps I (CreateJobAggregate j x ts).
Proof. intros Hns Hs. apply run_tx_keeps. exact (q_create_job ns db0 (job_args j) x ts Hns Hs). Qed.

Lemma create_job_safe input : safe I (Service.CreateJob ctx input) (on_ok (fun r => j_Namespace r.1 = ns)).
Proof.
  unfold Service.CreateJob. early.
  repeat (case_match; [| apply safe_ret; exact Logic.I]). cbv zeta. do 3 quiet_step.
  eapply safe_try with (P := fun _ => True).
  - eapply safe_weaken; [apply call_write | by intros []].
    by apply create_job_keeps.
  - intros e. quiet_step.
  - intros _ _. by apply safe_ret.
Qed.

Lemma get_job_safe i : safe I (Service.GetJob ctx i)
  (on_ok (fun x => let '(j, _, _, es) := x in j_Namespace j = ns /\ Forall (fun e => e_Namespace e = ns) es)).
Proof.
  unfold Service.GetJob. early. eapply safe_try; [apply call_scoped | intros; quiet_step |].
  intros [j x] (_ & Hns & Ho & _). eapply safe_try with (P := fun _ => True).
  { eapply safe_weaken; [apply call_write; apply fmap_keeps, run_tx_keeps; tx_read | by intros []]. }
  { intros; quiet_step. }
  intros ts _. eapply safe_try; [by apply call_recent | intros; quiet_step |]. intros es Hes. by apply safe_ret.
Qed.

Lemma update_job_keeps j x ts :
  j_Namespace j = ns -> own_job ns db0 (j_ID j) -> own_schedule ns db0 (s_ID x) ->
  keeps I (UpdateJobAggregate j x ts).
Proof.
  intros Hns Ho Hs. apply run_tx_keeps. apply tx_bind; [by apply q_update_schedule |]. intros _.
  apply tx_bind; [by apply q_update_job |]. intros n. destruct (n =? 0)%Z; [apply tx_fail |].
  destruct ts as [ts|]; [| apply tx_ret]. apply tx_bind; [by apply q_delete_tags |]. intros _.
  apply tx_for_each. intros t. by apply q_upsert_tag.
Qed.

Lemma update_job_safe i input : safe I (Service.UpdateJob ctx i input) (on_ok (fun r => j_Namespace r.1 = ns)).
Proof.
  unfold Service.UpdateJob. early. eapply safe_try; [apply call_scoped | intros; quiet_step |].
  intros [j x] (Hid & Hns & Ho & Hs). quiet_step. cbv zeta.
  destruct (match Service.ui_WebhookURL input with Some _ => _ | None => _ end); [| quiet_step].
  match goal with |- safe _ (match ?m with Ok _ => _ | Err _ => _ end) _ => destruct m as [x'|] eqn:Ex end; [| quiet_step].
  assert (Hx' : s_ID x' = s_ID x) by (revert Ex; repeat case_match; by intros [= <-]).
  eapply safe_try with (P := fun _ => True); [| intros; quiet_step | intros _ _; apply safe_ret; destruct (Service.ui_Name input); exact Hns].
  eapply safe_weaken; [apply call_write, update_job_keeps | by intros []].
  - destruct (Service.ui_Name input); exact Hns.
  - destruct (Service.ui_Name input); cbn; by rewrite Hid.
  - by rewrite Hx'.
Qed.

Lemma set_enabled_safe b i : safe I (Service.set_enabled ctx b i) (on_ok (fun j => j_Namespace j = ns)).
Proof.
  unfold Service.set_enabled. early. eapply safe_try; [apply call_scoped | intros; quiet_step |].
  intros [j x] (Hid & Hns & Ho & Hs). quiet_step. cbv zeta.
  eapply safe_try with (P := fun _ => True); [| intros; quiet_step | intros _ _; by apply safe_ret].
  eapply safe_weaken; [apply call_write, fmap_keeps, run_tx_keeps; by apply q_update_job | by intros []].
Qed.

Lemma insert_attempts_safe n : forall i t e o,
  own_job ns db0 i -> (n = 0 -> o = None -> e_Namespace e = ns) ->
  safe I (Service.insert_attempts ctx n i t e o) (on_ok (fun e => e_Namespace e = ns)).
Proof.
  induction n as [|n IH]; intros i t e o Ho He; cbn [Service.insert_attempts].
  - destruct o; apply safe_ret; [done | by apply He].
  - do 2 quiet_step. cbv zeta. eapply safe_bind with (P := fun _ => True).
    + apply call_write, fmap_keeps, run_tx_keeps. by apply q_insert_execution.
    + intros [|er] _; [by apply safe_ret |]. destruct (errors_Is _ _); [by apply IH | quiet_step].
Qed.

Lemma trigger_now_safe i : safe I (Service.TriggerNow s ctx i) (on_ok (fun e => e_Namespace e = ns)).
Proof.
  unfold Service.TriggerNow. early. eapply safe_try; [apply call_scoped | intros; quiet_step |].
  intros [j x] (Hid & Hns & Ho & Hs). early.
  eapply safe_try; [by apply insert_attempts_safe | intros; quiet_step |]. intros e He.
  eapply safe_bind with (P := fun _ => True); [| intros _ _; by apply safe_ret].
  unfold when. case_match; [| by apply safe_ret].
  eapply safe_bind; [apply safe_quiet, quiet_emit | intros ? _; by apply safe_ret].
Qed.

Lemma next_run_time_safe i : safe I (Service.GetNextRunTime ctx i) (on_ok (fun _ => True)).
Proof.
  unfold Service.GetNextRunTime. early. eapply safe_try; [apply call_scoped | intros; quiet_step |].
  intros [j x] _. early. case_match; [| quiet_step]. quiet_step. by apply safe_ret.
Qed.

Lemma compute_next_runs_safe sched n : safe I (Service.computeNextRuns sched n) (fun _ => True).
Proof. unfold Service.computeNextRuns. quiet_step. by apply safe_ret. Qed.

Lemma resolve_safe d tz : safe I (Service.ResolveSchedule d tz) (on_ok (fun _ => True)).
Proof.
  unfold Service.ResolveSchedule. repeat (case_match; try quiet_step).
  all: eapply safe_bind; [apply compute_next_runs_safe | intros ? _; by apply safe_ret].
Qed.

Lemma new_key_safe n l : safe I (Service.newAPIKey n l) (on_ok (fun r => k_Namespace (Service.kr_Key r) = n)).
Proof.
  unfold Service.newAPIKey. eapply safe_try with (P := fun _ => True).
  - eapply safe_weaken; [apply safe_quiet, quiet_rand | by intros []].
  - intros; quiet_step.
  - intros raw _. cbv zeta. do 2 quiet_step. by apply safe_ret.
Qed.

Lemma create_key_safe input : safe I (Service.CreateAPIKey ctx input) (on_ok (fun r => k_Namespace (Service.kr_Key r) = ns)).
Proof.
  unfold Service.CreateAPIKey. early. eapply safe_try; [apply new_key_safe | intros; quiet_step |]. intros r Hr.
  eapply safe_try with (P := fun _ => True); [| intros; quiet_step | intros _ _; by apply safe_ret].
  eapply safe_weaken; [apply call_write, fmap_keeps, run_tx_keeps; by apply q_insert_key | by intros []].
Qed.
End requests.

Section isolation.
  Context {W : Type} `{!Database W, !Postgres, !Runtime W, !EventEmitter W, !Service.Random W, !CronLibrary, !NetLibrary,
    !Quiet W}.
  Variables (s : Service.JobService) (db0 : DB).

(** The bootstrap acts in the namespace that it is given. *)
Lemma bootstrap_safe n l : safe (quarantine n db0) (Service.BootstrapFirstAPIKey n l) (on_ok (fun r => k_Namespace (Service.kr_Key r) = n)).
Proof.
  unfold Service.BootstrapFirstAPIKey. destruct (ns_IsZero n); [by apply safe_ret |].
  eapply safe_try; [apply (new_key_safe {| ctx_namespace := Some n |}) | intros; by apply safe_ret |]. intros r Hr. cbn.
  eapply safe_try with (P := fun _ => True); [| intros; by apply safe_ret | intros _ _; by apply safe_ret].
  eapply safe_weaken; [apply call_write, run_tx_keeps | by intros []].
  unfold queryHasAnyAPIKeys. apply tx_bind; [apply tx_query |]. intros []; [apply tx_fail | by apply q_insert_key].
Qed.

Lemma answers_safe {A} I (f : A -> answer) (m : st W (result err A)) (Q : A -> Prop) n :
  safe I m (on_ok Q) -> (forall a, Q a -> answer_in n (f a)) -> safe I (answers f m) (on_ok (answer_in n)).
Proof.
  intros Hm Hf. apply safe_fmap. eapply safe_weaken; [exact Hm |]. intros [a|e]; cbn; auto.
Qed.

Lemma answer_job n j : j_Namespace j = n -> answer_in n (mkAnswer [j] [] []).
Proof. intros Hj. split; cbn; auto. Qed.
Lemma answer_execution n e : e_Namespace e = n -> answer_in n (mkAnswer [] [e] []).
Proof. intros He. split; cbn; auto. Qed.
Lemma answer_key n k : k_Namespace k = n -> answer_in n (mkAnswer [] [] [k]).
Proof. intros Hk. split; cbn; auto. Qed.
Lemma answer_nothing n : answer_in n nothing.
Proof. split; constructor. Qed.

(** A call of which only the effect matters, in the form of [safe_try]. *)
Lemma call_effect {A} I (m : st pg (result err A)) : keeps I m -> safe (W := W) I (lift m) (on_ok (fun _ => True)).
Proof. intros Hm. eapply safe_weaken; [by apply call_write | by intros []]. Qed.

(** An operation that needs a namespace, and then is one call. *)
Lemma needs_namespace {A} I (n : Namespace) (m : st W (result err A)) (Q : A -> Prop) :
  (ns_IsZero n = false -> safe I m (on_ok Q)) ->
  safe I (if ns_IsZero n then mret (Err Service.no_namespace) else m) (on_ok Q).
Proof. intros Hm. destruct (ns_IsZero n); [by apply safe_ret | by apply Hm]. Qed.

Lemma serve_safe ctx r :
  let ns := acting ctx r in safe (quarantine ns db0) (serve s ctx r) (on_ok (answer_in ns)).
Proof.
  destruct r; cbn [serve acting]; cbv zeta.
  - eapply answers_safe; [apply create_job_safe | intros; by apply answer_job].
  - eapply answers_safe; [apply get_job_safe |]. intros [[[j x] ts] es] [Hj He]. split; cbn; auto.
  - eapply answers_safe; [by apply needs_namespace; intros _; apply call_list_jobs |].
    intros l Hl. split; cbn; auto.
  - eapply answers_safe; [by apply needs_namespace; intros _; apply call_list_jobs_with_schedules |].
    intros l Hl. split; cbn; [by apply Forall_map | auto | auto].
  - eapply answers_safe; [apply update_job_safe | intros; by apply answer_job].
  - eapply answers_safe with (Q := fun _ => True); [| intros; apply answer_nothing]; [apply needs_namespace; intros _].
    apply call_effect, fmap_keeps, run_tx_keeps, tx_one_row, q_delete_job.
  - eapply answers_safe; [apply set_enabled_safe | intros; by apply answer_job].
  - eapply answers_safe; [apply set_enabled_safe | intros; by apply answer_job].
  - eapply answers_safe; [apply trigger_now_safe | intros; by apply answer_execution].
  - eapply answers_safe; [apply next_run_time_safe | intros; apply answer_nothing].
  - eapply answers_safe; [apply (resolve_safe ctx) | intros; apply answer_nothing].
  - eapply answers_safe; [apply needs_namespace; intros Hz; by apply call_list_executions |].
    intros l Hl. split; cbn; auto.
  - eapply answers_safe; [apply needs_namespace; intros _; apply call_pending |].
    intros l Hl. split; cbn; auto.
  - eapply answers_safe with (Q := fun _ => True); [| intros; apply answer_nothing]; [apply needs_namespace; intros _].
    apply call_effect, fmap_keeps, run_tx_keeps, q_ack.
  - eapply answers_safe with (Q := fun x => e_Namespace x.1 = NamespaceFromContext ctx);
      [apply needs_namespace; intros _ | intros; by apply answer_execution].
    eapply safe_try; [apply call_get_execution | intros; by apply safe_ret |]. intros e He.
    eapply safe_try with (P := fun _ => True); [| intros; by apply safe_ret | intros as_ _; by apply safe_ret].
    apply call_effect, run_tx_keeps. tx_read.
  - eapply answers_safe; [apply create_key_safe | intros; by apply answer_key].
  - eapply answers_safe; [apply bootstrap_safe | intros; by apply answer_key].
  - eapply answers_safe with (Q := fun _ => True); [| intros; apply answer_nothing].
    apply call_effect, run_tx_keeps. unfold queryHasAnyAPIKeys. tx_read.
  - eapply answers_safe; [apply needs_namespace; intros _; apply call_list_keys |].
    intros l Hl. split; cbn; auto.
  - eapply answers_safe with (Q := fun _ => True); [| intros; apply answer_nothing]; [apply needs_namespace; intros _].
    apply call_effect, fmap_keeps, run_tx_keeps, q_delete_key.
Qed.

(** C12: tenant isolation. A request that acts in a namespace leaves everything
    that belongs to the other namespaces as it was (jobs, schedules, tags,
    executions, delivery attempts, keys and their sessions), whatever fails on
    the way, and hands out jobs, executions and keys of its own namespace only;
    provided that the other connections leave the other namespaces alone too, in
    a database where executions carry the namespace of their job and no two jobs
    share a schedule, which the request maintains. *)
Theorem tenant_isolation (ctx : context) (r : request) (w : W) :
  let ns := acting ctx r in
  db_good (quarantine ns db0) w ->
  undisturbed ns db0 (pg_db (db_get (exec (serve s ctx r) w))) /\
  tenancy (pg_db (db_get (exec (serve s ctx r) w))) /\
  match eval (serve s ctx r) w with Ok a => answer_in ns a | Err _ => True end.
Proof. intros ns Hw. destruct (serve_safe ctx r w Hw) as [[[_ Ht Hu] _] Ha]. done. Qed.
End isolation.

(** ** A concrete world

    One database that nobody else uses, a clock and fresh identifiers from a
    counter, an emitter that keeps its events. *)
Module Sim.
Record world : Type := mkWorld { w_pg : pg; w_n : N; w_events : list TriggerEvent }.
Definition tick {A} (f : N -> A) : st world A := fun w =>
  (f (w_n w), {| w_pg := w_pg w; w_n := N.succ (w_n w); w_events := w_events w |}).

#[export] Instance sim_db : Database world := {|
  db_get := w_pg; db_put p w := {| w_pg := p; w_n := w_n w; w_events := w_events w |};
  db_get_put _ _ := eq_refl; db_put_get w := match w with mkWorld _ _ _ => eq_refl end; db_put_put _ _ _ := eq_refl |}.
#[export] Instance sim_runtime : Runtime world := {|
  time_Now := tick (fun n => 1000000 * Second + Z.of_N n * Second)%Z; uuid_New := tick (fun n => 100 + n)%N;
  uuid_String i := Itoa (Z.of_N i); ctx_Err := mret None; wait _ := mret None |}.
#[export] Instance sim_emitter : EventEmitter world := {|
  Emit ev := fun w => (Ok tt, {| w_pg := w_pg w; w_n := w_n w; w_events := w_events w ++ [ev] |}) |}.
#[export] Instance sim_random : Service.Random world := {|
  Service.rand_Read n := tick (fun k => Ok (repeat (Z.of_N k mod 256)%Z n)) |}.
#[export] Instance sim_quiet : Quiet world.
Proof. by split. Qed.
(** Cron expressions of five stars, in UTC: every full minute. *)
#[export] Instance sim_cron : CronLibrary := {|
  cron_spec := unit; Location := unit;
  spec_Parse e := if String.eqb e "* * * * *" then Ok tt else Err (EOther "bad expression");
  spec_Next _ _ t := ((t / Minute + 1) * Minute)%Z;
  LoadLocation tz := if String.eqb tz "UTC" then Ok tt else Err (EOther "unknown time zone") |}.
#[export] Existing Instances PgSim.sim_pg WebhookURL.Sim.sim_net.

Definition start : world := {| w_pg := PgSim.alone empty_db; w_n := 0; w_events := [] |}.
Definition as_tenant (ns : Namespace) : context := {| ctx_namespace := Some ns |}.
Definition input : Service.CreateJobInput :=
  {| Service.ci_Name := "report"; Service.ci_CronExpression := "* * * * *"; Service.ci_Timezone := "UTC";
     Service.ci_WebhookURL := "http://example.com"; Service.ci_Secret := "s"; Service.ci_Timeout := 0;
     Service.ci_Tags := [{| t_Key := "team"; t_Value := "ops" |}] |}.
Definition svc : Service.JobService := {| Service.js_emitter := true |}.
(** Tenant [a] and then tenant [b] create a job; they get the identifiers 102
    and 105. *)
Definition two_jobs : world :=
  exec (serve svc (as_tenant "b") (RCreateJob input)) (exec (serve svc (as_tenant "a") (RCreateJob input)) start).
Definition db_of (w : world) : DB := pg_db (w_pg w).

Example two_jobs_ex :
  map (fun i => j_Namespace <$> jobs (db_of two_jobs) !! i) [102; 105]%N = [Some "a"; Some "b"]%string.
Proof. vm_compute. reflexivity. Qed.

Lemma undisturbed_refl ns db : undisturbed ns db db.
Proof. by split. Qed.
Lemma quarantine_refl ns db : wf_db db -> tenancy db -> quarantine ns db db.
Proof. intros Hwf Ht. split; [done | done | apply undisturbed_refl]. Qed.
Lemma tenancy_empty : tenancy empty_db.
Proof. split; cbn; intros *; by rewrite lookup_empty. Qed.
Lemma start_good ns : db_good (quarantine ns empty_db) start.
Proof. apply PgSim.alone_good, quarantine_refl; [apply PgSim.empty_wf | apply tenancy_empty]. Qed.

(** Whole databases after requests of a world without other connections. *)
Lemma serve_good ctx r w :
  (forall n db, io_others (pg_ios (w_pg w) n) db = db) -> wf_db (db_of w) -> tenancy (db_of w) ->
  wf_db (db_of (exec (serve svc ctx r) w)) /\ tenancy (db_of (exec (serve svc ctx r) w)).
Proof.
  intros Ho Hwf Ht. destruct (serve_safe svc (db_of w) ctx r w) as [[[H1 H2 _] _] _]; [| done].
  split; [by apply quarantine_refl |]. intros n db Hdb. by rewrite Ho.
Qed.
Lemma two_jobs_good ns : db_good (quarantine ns (db_of two_jobs)) two_jobs.
Proof.
  destruct (serve_good (as_tenant "a") (RCreateJob input) start (fun n db => eq_refl) PgSim.empty_wf tenancy_empty) as [H1 H2].
  apply (serve_good (as_tenant "b") (RCreateJob input)) in H2 as [H3 H4]; [| intros n db; vm_compute; reflexivity | done].
  split; [by apply quarantine_refl |]. intros n db Hdb. vm_compute. exact Hdb.
Qed.
End Sim.
Import Sim.

Lemma tenant_isolation_witness :
  let w := Sim.two_jobs in let r := RDeleteJob 102 in
  eval (serve Sim.svc (Sim.as_tenant "a") r) w = Ok nothing /\
  undisturbed "a" (Sim.db_of w) (Sim.db_of (exec (serve Sim.svc (Sim.as_tenant "a") r) w)).
Proof.
  split; [vm_compute; reflexivity |].
  exact (proj1 (tenant_isolation Sim.svc (Sim.db_of Sim.two_jobs) (Sim.as_tenant "a") (RDeleteJob 102) Sim.two_jobs
    (Sim.two_jobs_good "a"))).
Defined.
