(* ===== verification/ServiceOps.v ===== *)
(** * What the operations of the job service promise

    The outcome of creating and updating a job, of a manual trigger, of a pause,
    and the life of an API key. *)
From S2P Require Import Prelude Trace GoStrings Domain Runtime Cron WebhookURL Pg Store StoreTheory StoreProps.
From S2P Require Import Wiring Tenancy ServiceTheory ServiceProps Sha256.
From S2P Require Service NaturalLanguage.
Local Open Scope cron_scope.

(** ** Creating and updating jobs *)
Section jobs.
  Context {W : Type} `{!Service.JobRepository W, !Runtime W, !CronLibrary, !NetLibrary}.
  Variables (ctx : context).
Let ns : Namespace := NamespaceFromContext ctx.

(** The job and the schedule that an input describes. *)
Definition described (input : Service.CreateJobInput) (j : Job) (x : Schedule) : Prop :=
  exists now i k,
    x = mkSchedule k (Service.ci_CronExpression input) (Service.ci_Timezone input) now now /\
    j = mkJob i ns (Service.ci_Name input) true k
          (mkDeliveryConfig DeliveryTypeWebhook (Service.ci_WebhookURL input) (Service.ci_Secret input)
             (if decide (Service.ci_Timeout input = 0%Z) then 30 * Second else Service.ci_Timeout input)%Z)
          (mkAnalyticsConfig false 0) now now.

Lemma create_job_cases (input : Service.CreateJobInput) (w : W) :
  ns <> ""%string -> is_ok (Parse (Service.ci_CronExpression input) (Service.ci_Timezone input)) = true ->
  is_ok (Validate (Service.ci_WebhookURL input)) = true ->
  exists j x w', described input j x /\
    Service.CreateJob ctx input w =
      let '(r, w'') := Service.jobs_CreateJobAggregate j x (Service.ci_Tags input) w' in
      (match r with Ok _ => Ok (j, x) | Err e => Err (EWrap "create job" e) end, w'').
Proof.
  intros Hn Hp Hv. unfold Service.CreateJob, Service.validateWebhookURL. apply String.eqb_neq in Hn. unfold ns_IsZero.
  fold ns. rewrite Hn. destruct (Parse _ _) as [sched|] eqn:Ep; [| done]. pose proof (Parse_Ok_location _ _ _ Ep) as Hl.
  destruct (LoadLocation _); [| done]. destruct (Validate _); [| done]. cbv zeta.
  unfold mbind, st_bind. destruct (time_Now w) as [now w1]. destruct (uuid_New w1) as [k w2].
  destruct (uuid_New w2) as [i w3]. eexists _, _, w3. split; [exists now, i, k; split; reflexivity |].
  assert (Et : (if decide (Service.ci_Timeout input = 0%Z) then 30 * Second else Service.ci_Timeout input)%Z =
    (if (Service.ci_Timeout input =? 0)%Z then 30 * Second else Service.ci_Timeout input)%Z).
  { destruct (Z.eqb_spec (Service.ci_Timeout input) 0); by case_decide. }
  rewrite Et. by destruct (Service.jobs_CreateJobAggregate _ _ _ w3) as [[|] ?].
Qed.

(** C29: creating a job fails before it touches anything exactly when there is no
    namespace, when the expression or the time zone does not parse, or when the
    URL is not accepted, each with its error; a bad time zone is reported as a
    bad expression, never as a bad time zone. Otherwise exactly the described
    job and schedule are handed to the repository, and they are the answer when
    the repository takes them. *)
Theorem create_job_outcome (input : Service.CreateJobInput) (w : W) :
  let parsed := is_ok (Parse (Service.ci_CronExpression input) (Service.ci_Timezone input)) in
  let valid_url := is_ok (Validate (Service.ci_WebhookURL input)) in
  let r := eval (Service.CreateJob ctx input) w in
  (r = Err (EDomain ErrNamespaceRequired) <-> ns = ""%string) /\
  (r = Err (EDomain ErrInvalidCronExpression) <-> ns <> ""%string /\ parsed = false) /\
  (r = Err (EDomain ErrInvalidWebhookURL) <-> ns <> ""%string /\ parsed = true /\ valid_url = false) /\
  r <> Err (EDomain ErrInvalidTimezone) /\
  ((exists d, r = Err (EDomain d)) -> exec (Service.CreateJob ctx input) w = w) /\
  (ns <> ""%string -> parsed = true -> valid_url = true ->
   exists j x w', described input j x /\
     exec (Service.CreateJob ctx input) w = exec (Service.jobs_CreateJobAggregate j x (Service.ci_Tags input)) w' /\
     r = match eval (Service.jobs_CreateJobAggregate j x (Service.ci_Tags input)) w' with
         | Ok _ => Ok (j, x) | Err e => Err (EWrap "create job" e) end).
Proof.
  cbv zeta. destruct (decide (ns = ""%string)) as [En|Hn].
  { assert (E : Service.CreateJob ctx input w = (Err Service.no_namespace, w)).
    { unfold Service.CreateJob. fold ns. by rewrite En. }
    unfold eval, exec. rewrite E. unfold Service.no_namespace. cbn. naive_solver. }
  destruct (is_ok (Parse _ _)) eqn:Hp; [destruct (is_ok (Validate _)) eqn:Hv |].
  - destruct (create_job_cases input w Hn Hp Hv) as (j & x & w' & Hd & E). unfold eval, exec in *. rewrite E.
    destruct (Service.jobs_CreateJobAggregate _ _ _ w') as [[u|e] w''] eqn:Er; cbn;
      (split_and!; [naive_solver.. |]; intros _ _ _; exists j, x, w'; by rewrite Er).
  - assert (E : Service.CreateJob ctx input w = (Err (EDomain ErrInvalidWebhookURL), w)).
    { unfold Service.CreateJob, Service.validateWebhookURL, ns_IsZero. fold ns. apply String.eqb_neq in Hn as ->.
      destruct (Parse _ _) eqn:Ep; [| done]. pose proof (Parse_Ok_location _ _ _ Ep) as Hl.
      destruct (LoadLocation _); [| done]. by destruct (Validate _). }
    unfold eval, exec. rewrite E. cbn. naive_solver.
  - assert (E : Service.CreateJob ctx input w = (Err (EDomain ErrInvalidCronExpression), w)).
    { unfold Service.CreateJob, ns_IsZero. fold ns. apply String.eqb_neq in Hn as ->. by destruct (Parse _ _). }
    unfold eval, exec. rewrite E. cbn. naive_solver.
Qed.

(** The job and the schedule after a partial update at the time [now]. *)
Definition updated (input : Service.UpdateJobInput) (now : time) (j : Job) (x : Schedule) : Job * Schedule :=
  (mkJob (j_ID j) (j_Namespace j) (default (j_Name j) (Service.ui_Name input)) (j_Enabled j) (j_ScheduleID j)
     (mkDeliveryConfig (d_Type (j_Delivery j)) (default (d_WebhookURL (j_Delivery j)) (Service.ui_WebhookURL input))
        (default (d_Secret (j_Delivery j)) (Service.ui_Secret input))
        (default (d_Timeout (j_Delivery j)) (Service.ui_Timeout input)))
     (j_Analytics j) (j_CreatedAt j) now,
   match Service.ui_CronExpression input, Service.ui_Timezone input with
   | None, None => x
   | e, tz => mkSchedule (s_ID x) (default (s_CronExpression x) e) (default (s_Timezone x) tz) (s_CreatedAt x) now
   end).

Lemma if_given_name o j : Service.if_given o Service.with_name j =
  mkJob (j_ID j) (j_Namespace j) (default (j_Name j) o) (j_Enabled j) (j_ScheduleID j) (j_Delivery j)
    (j_Analytics j) (j_CreatedAt j) (j_UpdatedAt j).
Proof. by destruct o, j. Qed.

(** C30: an update changes the fields that are given and the time of the update,
    and keeps all others, the identity of the job and of its schedule among
    them; what is given is validated first (the URL, and the expression in its
    time zone as they will be together); job, schedule and tags are handed to
    the repository in one call, and the answer is what was handed over. Without
    a job of the namespace nothing is written. *)
Theorem update_job_outcome (i : uuid) (input : Service.UpdateJobInput) (w : W) (j' : Job) (x' : Schedule) :
  eval (Service.UpdateJob ctx i input) w = Ok (j', x') ->
  ns <> ""%string /\
  exists j x now w1 w2,
    Service.jobs_GetJobWithScheduleScoped i ns w = (Ok (j, x), w1) /\
    (j', x') = updated input now j x /\
    (forall u, Service.ui_WebhookURL input = Some u -> is_ok (Validate u) = true) /\
    (is_Some (Service.ui_CronExpression input) \/ is_Some (Service.ui_Timezone input) ->
       is_ok (Parse (s_CronExpression x') (s_Timezone x')) = true) /\
    Service.jobs_UpdateJobAggregate j' x' (Service.ui_Tags input) w2 =
      (Ok tt, exec (Service.UpdateJob ctx i input) w).
Proof.
  unfold eval, exec, Service.UpdateJob, ns_IsZero. fold ns. destruct (String.eqb_spec ns "") as [|Hn]; [done |].
  unfold mbind, st_bind. destruct (Service.jobs_GetJobWithScheduleScoped i ns w) as [[[j x]|e] w1] eqn:Eg; [| done].
  destruct (time_Now w1) as [now w2] eqn:Et. cbv zeta. rewrite if_given_name.
  destruct (match Service.ui_WebhookURL input with Some _ => _ | None => _ end) as [u|] eqn:Ev; [| done].
  match goal with |- context [match ?m with Ok _ => _ | Err _ => _ end w2] => destruct m as [x1|] eqn:Ex end; [| done].
  match goal with |- context [Service.jobs_UpdateJobAggregate ?a ?b ?c w2] =>
    destruct (Service.jobs_UpdateJobAggregate a b c w2) as [[[]|] w3] eqn:Ew end; [| done].
  cbn. intros [= <- <-]. split; [done |]. exists j, x, now, w1, w2. split; [done |]. split_and!; [| | | done].
  - unfold updated, Service.with_updated, Service.with_delivery. cbn. f_equal.
    + destruct (Service.ui_WebhookURL input), (Service.ui_Secret input), (Service.ui_Timeout input); by destruct (j_Delivery j).
    + revert Ex. destruct (Service.ui_CronExpression input), (Service.ui_Timezone input); cbn;
        repeat case_match; by intros [= <-].
  - intros v Hv. rewrite Hv in Ev. unfold Service.validateWebhookURL in Ev. by rewrite Ev.
  - intros Hg. revert Ex. destruct (Service.ui_CronExpression input), (Service.ui_Timezone input); cbn;
      try (by destruct Hg as [[? ?]|[? ?]]); destruct (Parse _ _) eqn:Ep; try done;
      repeat case_match; intros [= <-]; cbn; by rewrite Ep.
Qed.
End jobs.

(** ** Manual triggers *)

(** The calls of a trigger that leave a trace. *)
Inductive trigger_action : Type :=
| TInsert (e : Execution) (r : result err unit)
| TEmit (ev : TriggerEvent) (r : result err unit).
Class TriggerLog (W : Type) `{!Service.JobRepository W, !Service.ExecutionRepository W, !EventEmitter W, !Runtime W} : Type := {
  tlog : W -> list trigger_action;
  tlog_get i n w : tlog (exec (Service.jobs_GetJobWithScheduleScoped i n) w) = tlog w;
  tlog_insert e w : tlog (exec (Service.executions_InsertExecution e) w) =
    tlog w ++ [TInsert e (eval (Service.executions_InsertExecution e) w)];
  tlog_emit ev w : tlog (exec (Emit ev) w) = tlog w ++ [TEmit ev (eval (Emit ev) w)];
  tlog_now w : tlog (exec time_Now w) = tlog w;
  tlog_uuid w : tlog (exec uuid_New w) = tlog w;
  (** the clock is past the first microsecond of the year 1 *)
  tlog_clock w : (Microsecond <= eval time_Now w)%Z;
}.
Definition inserted (a : trigger_action) : option Execution :=
  match a with TInsert e _ => Some e | TEmit _ _ => None end.
(** An insertion that was refused as a duplicate. *)
Definition refused (a : trigger_action) : Prop :=
  exists e x, a = TInsert e (Err x) /\ errors_Is x (EDomain ErrDuplicateExecution) = true.

Section trigger.
  Context {W : Type} `{TriggerLog W}.
  Variables (s : Service.JobService) (ctx : context).
Let ns : Namespace := NamespaceFromContext ctx.

Definition manual (i : uuid) (e : Execution) : Prop :=
  exists k t, e = Service.manual_execution ctx k i t.

(** The insertions of a loop with [n] attempts to go, the last one at [t]. *)
Record attempts_ok (n : nat) (i : uuid) (t : time) (l : list trigger_action) (r : result err Execution) : Prop := {
  at_length : length l <= n;
  at_inserts : length (pick inserted l) = length l;
  at_manual : Forall (manual i) (pick inserted l);
  at_increasing : StronglySorted Z.lt (t :: (e_ScheduledAt <$> pick inserted l));
  at_result : match r with
    | Ok e => exists l0, l = l0 ++ [TInsert e (Ok tt)] /\ Forall refused l0
    | Err x => Forall refused l /\ length l = n \/
        exists l0 e y, l = l0 ++ [TInsert e (Err y)] /\ Forall refused l0 /\ x = EWrap "insert execution" y /\
          errors_Is y (EDomain ErrDuplicateExecution) = false
    end;
}.

Lemma attempt_time_later t c :
  (0 <= t)%Z -> (Microsecond <= c)%Z -> (t < Service.attempt_time t c)%Z.
Proof.
  intros Ht Hc. assert (Hm : (0 < Truncate c Microsecond)%Z).
  { unfold Truncate, Microsecond in *. cbn. pose proof (Z.mod_pos_bound c 1000 ltac:(lia)). lia. }
  unfold Service.attempt_time, IsZero, After, time_add. set (u := Truncate c Microsecond) in *. clearbody u.
  destruct (Z.eqb_spec t 0), (Z.ltb_spec t u); cbn; unfold Microsecond; lia.
Qed.

Lemma insert_attempts_logs n : forall i t e o,
  (0 <= t)%Z -> (n <> 0 \/ o <> None) ->
  logs tlog (Service.insert_attempts ctx n i t e o) (attempts_ok n i t).
Proof.
  induction n as [|n IH]; intros i t e o Ht Ho; cbn [Service.insert_attempts].
  - destruct o as [x|]; [| by destruct Ho]. apply logs_ret.
    split; [done | done | constructor | repeat constructor |]. left. by repeat constructor.
  - apply logs_bind. intros w. exists []. split; [by rewrite tlog_now, app_nil_r |].
    pose proof (tlog_clock w) as Hc. set (c := eval time_Now w) in *. clearbody c. cbv zeta.
    pose proof (attempt_time_later t c Ht Hc) as Hlt. set (now := Service.attempt_time t c) in *. clearbody now.
    cbn [app]. apply logs_silent; [apply tlog_uuid |]. intros k. set (x := Service.manual_execution ctx k i now).
    apply (logs_step _ _ (fun r => [TInsert x r])); [apply tlog_insert |]. intros [[]|y]; cbn [app].
    + apply logs_ret. split; cbn; [lia | done | repeat constructor; by exists k, now | by repeat constructor |].
      by exists [].
    + destruct (errors_Is y _) eqn:Ed.
      * eapply logs_conseq; [apply IH; [lia | by right] |]. intros l r [A1 A2 A3 A4 A5]. split; cbn; [lia | lia | | |].
        -- constructor; [by exists k, now | done].
        -- constructor; [done |]. cbn in *. inversion_clear A4 as [|? ? A6 A7]. constructor; [done |].
           eapply Forall_impl; [exact A7 |]. cbn. intros; lia.
        -- assert (Hr : refused (TInsert x (Err y))) by by eexists _, _.
           destruct r as [e'|z].
           ++ destruct A5 as (l0 & -> & Hl). exists (TInsert x (Err y) :: l0). split; [done | by constructor].
           ++ destruct A5 as [[Hl <-]|(l0 & e' & y' & -> & Hl & E & E')]; [left; by split; [constructor |] | right].
              exists (TInsert x (Err y) :: l0), e', y'. by split_and!; [| constructor | |].
      * apply logs_ret. split; cbn; [lia | done | repeat constructor; by exists k, now | by repeat constructor |].
        right. by exists [], x, y.
Qed.

(** What a trigger leaves in the trace, given its answer. *)
Record trigger_ok (i : uuid) (l : list trigger_action) (r : result err Execution) : Prop := {
  tr_attempts : length (pick inserted l) <= 5;
  tr_manual : Forall (manual i) (pick inserted l);
  tr_increasing : StronglySorted Z.lt (e_ScheduledAt <$> pick inserted l);
  tr_result : match r with
    | Ok e => exists l0 tail, l = l0 ++ TInsert e (Ok tt) :: tail /\ Forall refused l0 /\
        (if Service.js_emitter s then exists x, tail = [TEmit (event_of_execution e (e_CreatedAt e)) x] else tail = [])
    | Err _ => Forall (fun a => exists e x, a = TInsert e (Err x)) l
    end;
}.

Lemma trigger_ok_err i x : trigger_ok i [] (Err x).
Proof. by split; cbn; [lia | constructor | constructor | constructor]. Qed.

Lemma trigger_ok_attempts_err i t l x : attempts_ok 5 i t l (Err x) -> trigger_ok i l (Err x).
Proof.
  intros [A1 A2 A3 A4 A5]. split; [lia | done | by inversion A4 |].
  destruct A5 as [[Hl _]|(l0 & e & y & -> & Hl & _)].
  - eapply Forall_impl; [exact Hl |]. intros a (e & y & -> & _). eauto.
  - apply Forall_app. split; [| constructor; eauto]. eapply Forall_impl; [exact Hl |]. intros a (e' & y' & -> & _). eauto.
Qed.

Lemma trigger_ok_attempts i t l e tail :
  attempts_ok 5 i t l (Ok e) ->
  (if Service.js_emitter s then exists x, tail = [TEmit (event_of_execution e (e_CreatedAt e)) x] else tail = []) ->
  trigger_ok i (l ++ tail) (Ok e).
Proof.
  intros [A1 A2 A3 A4 A5] Ht.
  assert (E : pick inserted (l ++ tail) = pick inserted l).
  { rewrite pick_app. destruct (Service.js_emitter s); [destruct Ht as [x ->] | rewrite Ht]; cbn; by rewrite app_nil_r. }
  split; rewrite ?E; [lia | done | by inversion A4 |].
  destruct A5 as (l0 & -> & Hl). exists l0, tail. by rewrite <- app_assoc.
Qed.

(** C19: a manual trigger tries at most five insertions, all of a manual emitted
    execution of the job in the caller's namespace and at strictly increasing
    times, each after the one before was refused as a duplicate. Its answer is
    the execution of the first insertion that succeeds, and then, if there is an
    emitter, exactly one event for that execution is emitted, whatever the
    emitter says; if the answer is an error nothing was stored and nothing is
    emitted. Nothing at all happens unless the namespace has the job and the job
    is enabled. *)
Theorem trigger_now_outcome (i : uuid) (w : W) :
  exists l, tlog (exec (Service.TriggerNow s ctx i) w) = tlog w ++ l /\
    trigger_ok i l (eval (Service.TriggerNow s ctx i) w) /\
    (l <> [] -> exists j x w1, Service.jobs_GetJobWithScheduleScoped i ns w = (Ok (j, x), w1) /\ j_Enabled j = true).
Proof.
  unfold Service.TriggerNow, ns_IsZero. fold ns. destruct (String.eqb_spec ns "") as [|Hn].
  { exists []. cbn. rewrite app_nil_r. split_and!; [done | apply trigger_ok_err | done]. }
  unfold eval, exec, mbind at 1 5, st_bind at 1 5. pose proof (tlog_get i ns w) as Hg. unfold exec in Hg.
  destruct (Service.jobs_GetJobWithScheduleScoped i ns w) as [[[j x]|y] w1]; cbn [snd fst] in *.
  2:{ exists []. rewrite <- Hg, app_nil_r. split_and!; [done | apply trigger_ok_err | done]. }
  destruct (j_Enabled j) eqn:Ej; cbn [negb].
  2:{ exists []. cbn. rewrite <- Hg, app_nil_r. split_and!; [done | apply trigger_ok_err | done]. }
  rewrite <- Hg. cut (logs tlog (try exec := Service.insert_attempts ctx Service.maxInsertAttempts i 0 Service.zero_Execution None
    catch e => mret (Err e) in
    when (Service.js_emitter s) (Emit (event_of_execution exec (e_CreatedAt exec)) ≫= fun _ => mret tt) ≫= fun _ =>
    mret (Ok exec)) (trigger_ok i)).
  { intros Hl. destruct (Hl w1) as (l & El & Ht). exists l. split_and!; [exact El | exact Ht | by eauto]. }
  apply logs_bind. eapply logs_conseq; [apply insert_attempts_logs; [done | left; discriminate] |].
  intros l [e|y] Ha; [| apply logs_ret; rewrite app_nil_r; by eapply trigger_ok_attempts_err].
  destruct (Service.js_emitter s) eqn:Es; cbn [when].
  - apply logs_bind, (logs_step _ _ (fun r => [TEmit (event_of_execution e (e_CreatedAt e)) r])); [apply tlog_emit |].
    intros r. do 2 apply logs_ret. cbn. eapply trigger_ok_attempts; [exact Ha |]. rewrite Es. eauto.
  - apply logs_bind. do 2 apply logs_ret. eapply trigger_ok_attempts; [exact Ha |]. by rewrite Es.
Qed.
End trigger.

(** ** Keys and pauses on the database *)
Section database.
  Context {W : Type} `{!Database W, !Postgres, !Runtime W, !EventEmitter W, !Service.Random W, !Quiet W}.
  Variables (ctx : context).
Let ns : Namespace := NamespaceFromContext ctx.

(** A transaction answers only when it went through. *)
Lemma run_tx_went_through {A} (q : stmt A) p a p' :
  run_tx q p = (Ok a, p') -> q (env_of p) (seen p) = Ok (a, pg_db p') /\ pg_ios p' = stl (pg_ios p).
Proof.
  unfold run_tx, env_of, seen. destruct (io_fault _) as [[e []]|], (q _ _) as [[b db']|]; try done.
  by intros [= <- <-].
Qed.

Lemma seen_whole p : good wf_db p -> wf_db (seen p).
Proof. intros [Hp Ho]. by apply (Ho 0). Qed.

(** A call of the store, seen from the world. *)
Lemma lift_run {A} (m : st pg A) (w : W) a w' : lift m w = (a, w') -> m (db_get w) = (a, db_get w').
Proof.
  unfold lift, eval, exec. intros [= <- <-]. rewrite db_get_put. by destruct (m (db_get w)).
Qed.

(** What a scoped read of a job says, and the state after it. *)
Lemma scoped_read i n p j x p' :
  good wf_db p -> GetJobWithScheduleScoped i n p = (Ok (j, x), p') -> j_ID j = i /\ j_Namespace j = n /\ good wf_db p'.
Proof.
  intros Hg E. assert (Hg' : good wf_db p').
  { assert (E' : p' = exec (do (CGetJobWithScheduleScoped i n)) p) by (cbn; unfold void, exec, fmap, st_fmap; by rewrite E).
    rewrite E'. apply (do_keeps wf_db); [apply wf_writers | done]. }
  unfold GetJobWithScheduleScoped in E. rewrite run_tx_fmap in E. destruct (run_tx _ p) as [[[row s]|e] q] eqn:Er; cbn in E.
  2:{ unfold no_rows_as in E. by case_decide. }
  injection E as <- <- <-. apply run_tx_went_through in Er as [(l & Er)%one_row_inv _].
  unfold queryGetJobWithScheduleScoped, query in Er. injection Er as El _.
  assert (Hin : (row, s) ∈ filter (fun r => j_Namespace r.1 = n) (option_list (jobs (seen p) !! i ≫= with_schedule (seen p))))
    by (rewrite El; by left).
  apply list_elem_of_filter in Hin as [Hns Hin]. destruct (jobs (seen p) !! i) as [row0|] eqn:Hj; [| by apply elem_of_nil in Hin].
  cbn in Hin. unfold with_schedule in Hin. destruct (schedules (seen p) !! j_ScheduleID row0); cbn in Hin; [| by apply elem_of_nil in Hin].
  apply list_elem_of_singleton in Hin as [= -> ->]. destruct (wf_job _ (seen_whole _ Hg) _ _ Hj) as [Hid _]. done.
Qed.

(** An update of a job that succeeds found the row in the namespace of the job. *)
Lemma update_written j p p' :
  good wf_db p -> UpdateJob j p = (Ok tt, p') ->
  exists row, jobs (pg_db p') !! j_ID j = Some row /\ j_Enabled row = j_Enabled j /\ j_Namespace row = j_Namespace j /\ wf_db (pg_db p').
Proof.
  intros Hg E. unfold UpdateJob in E. rewrite run_tx_fmap in E. destruct (run_tx _ p) as [[n|e] q] eqn:Er; [| done].
  apply run_tx_went_through in Er as [Er _]. pose proof (wf_update_job _ _ _ _ _ (seen_whole _ Hg) Er) as Hwf.
  revert E Er. unfold queryUpdateJob. cbn. destruct (negb _); [done |].
  destruct (jobs (seen p) !! j_ID j) as [row|]; [case_decide as Hn |]; intros E; intros [= <- Eq]; try done.
  injection E as <-. rewrite <- Eq in *. cbn. rewrite lookup_insert_eq. eexists. by split_and!.
Qed.

(** The rows of a page of enabled jobs. *)
Lemma enabled_page_rows n after p l :
  calm p -> wf_db (seen p) -> eval (GetEnabledJobs n after) p = Ok l ->
  forall x, x ∈ l -> exists row, jobs (seen p) !! j_ID (jws_Job x) = Some row /\ j_Enabled row = true.
Proof.
  intros Hc Hwf E x Hx. unfold GetEnabledJobs, eval in E. rewrite run_tx_fmap in E.
  destruct (run_tx _ p) as [[rows_|e] q] eqn:Er; cbn in E; [| done]. injection E as <-.
  apply list_elem_of_fmap in Hx as ([row s] & -> & Hx). apply run_tx_went_through in Er as [Er _].
  unfold queryGetEnabledJobs, query, mbind, stmt_bind in Er. apply limit_Ok in Er as (_ & -> & _).
  apply elem_of_select, list_elem_of_filter in Hx as [[Hen _] [Hx _]%(elem_of_join _ _ Hwf)]. by exists row.
Qed.

Definition stored_key (k : APIKey) : APIKey :=
  {| k_ID := k_ID k; k_Namespace := k_Namespace k; k_TokenHash := k_TokenHash k; k_Label := k_Label k;
     k_Enabled := k_Enabled k; k_CreatedAt := pg_ts (k_CreatedAt k); k_LastUsedAt := None |}.

Lemma new_key_run n l w r w' :
  Service.newAPIKey n l w = (r, w') -> db_get w' = db_get w /\
  forall k, r = Ok k -> k_Namespace (Service.kr_Key k) = n /\ k_Label (Service.kr_Key k) = l /\
    k_Enabled (Service.kr_Key k) = true /\
    k_TokenHash (Service.kr_Key k) = Service.HashToken (Service.kr_PlaintextToken k) /\
    HasPrefix (Service.kr_PlaintextToken k) "ec_" = true.
Proof.
  unfold Service.newAPIKey, mbind, st_bind.
  pose proof (quiet_rand 32 w) as Hr. unfold exec in Hr. destruct (Service.rand_Read 32 w) as [[raw|e] w1]; cbn in Hr.
  2:{ intros [= <- <-]. done. }
  pose proof (quiet_now w1) as Hn. unfold exec in Hn. destruct (time_Now w1) as [now w2]; cbn in Hn.
  pose proof (quiet_uuid w2) as Hu. unfold exec in Hu. destruct (uuid_New w2) as [i w3]; cbn in Hu.
  intros [= <- <-]. split; [congruence |]. intros k [= <-]. cbn. split_and!; try done.
  by apply HasPrefix_spec; eexists.
Qed.

(** C31: a key that is created authenticates. The plaintext token is given to the
    caller only; the database keeps its digest, and a lookup with the digest of
    the token finds this key and no other, enabled, in the namespace of the
    caller and with the given label. *)
Theorem api_key_authenticates (input : Service.CreateAPIKeyInput) (w w' : W) (r : Service.CreateAPIKeyResult) :
  Service.CreateAPIKey ctx input w = (Ok r, w') -> good wf_db (db_get w) ->
  calm (db_get w') -> seen (db_get w') = pg_db (db_get w') ->
  let key := stored_key (Service.kr_Key r) in
  eval (GetKeyByTokenHash (Service.HashToken (Service.kr_PlaintextToken r))) (db_get w') = Ok key /\
  k_Namespace key = ns /\ k_Label key = Service.ki_Label input /\ k_Enabled key = true /\
  k_TokenHash key = Service.HashToken (Service.kr_PlaintextToken r) /\
  HasPrefix (Service.kr_PlaintextToken r) "ec_" = true.
Proof.
  intros E Hg Hc Hs. unfold Service.CreateAPIKey, ns_IsZero in E. fold ns in E. destruct (String.eqb_spec ns ""); [done |].
  unfold mbind, st_bind in E. destruct (Service.newAPIKey ns (Service.ki_Label input) w) as [[k|e] w1] eqn:En; [| done].
  apply new_key_run in En as [Hw1 Hk]. destruct (Hk k eq_refl) as (K1 & K2 & K3 & K4 & K5). clear Hk.
  change (Service.apiKeys_InsertAPIKey (Service.kr_Key k)) with (lift (InsertAPIKey (Service.kr_Key k))) in E.
  destruct (lift (InsertAPIKey (Service.kr_Key k)) w1) as [[[]|e] w2] eqn:Ei; [| done].
  injection E as <- <-. apply lift_run in Ei. rewrite Hw1 in Ei. unfold InsertAPIKey in Ei. rewrite run_tx_fmap in Ei.
  destruct (run_tx (queryInsertAPIKey (Service.kr_Key k)) (db_get w)) as [r p] eqn:Er. cbn in Ei.
  destruct r as [[]|e]; [| by destruct (isDuplicateKeyError e)]. injection Ei as ->.
  apply run_tx_went_through in Er as [Eq _].
  pose proof (wf_insert_key _ _ _ _ _ (seen_whole _ Hg) Eq) as Hwf.
  cbn. split_and!; try done. unfold GetKeyByTokenHash, eval. rewrite run_tx_fmap.
  set (h := Service.HashToken _) in *. set (key := stored_key (Service.kr_Key k)).
  assert (Hin : api_keys (pg_db (db_get w2)) !! k_ID key = Some key).
  { unfold queryInsertAPIKey in Eq. case_decide; [| done]. injection Eq as Eq. rewrite <- Eq. apply lookup_insert_eq. }
  set (sel := filter (fun x => k_TokenHash x = h /\ k_Enabled x = true) (rows (api_keys (pg_db (db_get w2))))).
  assert (Hsel : forall x, x ∈ sel -> x = key).
  { intros x [[Hx _] [i Hi]%elem_of_rows]%list_elem_of_filter.
    assert (i = k_ID key) as -> by (eapply (wf_hash _ Hwf); [exact Hi | exact Hin | cbn; congruence]). congruence. }
  assert (Hkey : key ∈ sel) by (apply list_elem_of_filter; split; [done | apply elem_of_rows; eauto]).
  destruct sel as [|x l] eqn:El; [by apply elem_of_nil in Hkey |].
  rewrite (run_tx_Ok _ _ x (pg_db (db_get w2)) Hc); [cbn; by rewrite (Hsel x ltac:(by left)) |].
  eapply one_row_some. unfold queryGetKeyByTokenHash, query. rewrite Hs. fold sel. by rewrite El.
Qed.

(** A pause takes effect at once, and so does a resumption: when either
    succeeds, the row of the job, which belongs to the caller's namespace, has
    the flag, and no page of enabled jobs that is read next contains a paused
    job, so that the scheduler does not see it. *)
Lemma pause_takes_effect (b : bool) (i : uuid) (w w' : W) (j : Job) :
  Service.set_enabled ctx b i w = (Ok j, w') -> good wf_db (db_get w) ->
  calm (db_get w') -> seen (db_get w') = pg_db (db_get w') ->
  (exists row, jobs (pg_db (db_get w')) !! i = Some row /\ j_Enabled row = b /\ j_Namespace row = ns) /\
  (b = false -> forall n after l x,
     eval (GetEnabledJobs n after) (db_get w') = Ok l -> x ∈ l -> j_ID (jws_Job x) <> i).
Proof.
  intros E Hg Hc Hs. unfold Service.set_enabled, ns_IsZero in E. fold ns in E. destruct (String.eqb_spec ns ""); [done |].
  unfold mbind, st_bind in E.
  change (Service.jobs_GetJobWithScheduleScoped i ns) with (lift (W := W) (GetJobWithScheduleScoped i ns)) in E.
  destruct (lift (GetJobWithScheduleScoped i ns) w) as [[[j0 x0]|e] w1] eqn:Eg; [| done].
  pose proof (quiet_now w1) as Hn. unfold exec in Hn. destruct (time_Now w1) as [now w2]; cbn in Hn.
  apply lift_run in Eg. destruct (scoped_read _ _ _ _ _ _ Hg Eg) as (Hid & Hns & Hg1). rewrite <- Hn in Hg1.
  cbv zeta in E. set (j1 := Service.with_updated now (Service.with_enabled b j0)) in *.
  change (Service.jobs_UpdateJob j1) with (lift (W := W) (UpdateJob j1)) in E.
  destruct (lift (UpdateJob j1) w2) as [[[]|e] w3] eqn:Eu; [| done]. injection E as <- <-.
  apply lift_run in Eu. destruct (update_written _ _ _ Hg1 Eu) as (row & Hrow & Hb & Hrn & Hwf).
  cbn in Hrow, Hb, Hrn. rewrite Hid in Hrow.
  split; [exists row; split_and!; congruence |]. intros -> lim after l x El Hx Hxi.
  destruct (enabled_page_rows _ _ _ _ Hc ltac:(by rewrite Hs) El x Hx) as (row' & Hrow' & Hen).
  rewrite Hs, Hxi in Hrow'. cbn in Hb. congruence.
Qed.
End database.

(** ** The next activations *)

(** The list is the first activations after a time. *)
Definition first_fires (fires : time -> Prop) (t : time) (l : list time) : Prop :=
  StronglySorted Z.lt l /\ Forall (fun f => fires f /\ (t < f)%Z) l /\
  forall f, fires f -> (t < f)%Z -> f ∈ l \/ Forall (fun g => (g < f)%Z) l.

Lemma next_runs_first fires next n : forall t,
  next_of fires next -> (forall t, next t <> 0%Z) ->
  length (Service.next_runs n next t) = n /\ first_fires fires t (Service.next_runs n next t).
Proof.
  induction n as [|n IH]; intros t Hn Hz; cbn; [repeat constructor; intros; right; constructor |].
  destruct (Hn t) as [E|(Hlt & Hf & Hmin)]; [by destruct (Hz t) |].
  destruct (IH (next t) Hn Hz) as (Hl & Hs & Ha & Hc). split; [by rewrite Hl |]. split_and!.
  - constructor; [done |]. eapply Forall_impl; [exact Ha |]. by intros f [_ ?].
  - constructor; [done |]. eapply Forall_impl; [exact Ha |]. intros f [? ?]. split; [done | lia].
  - intros f Hff Htf. pose proof (Hmin f Hff Htf). destruct (decide (f = next t)) as [->|]; [left; by left |].
    destruct (Hc f Hff ltac:(lia)) as [Hin|Hall]; [left; by right | right]. constructor; [lia | done].
Qed.

(** The only error of a phrase. *)
Lemma parse_failure d x : NaturalLanguage.parseNaturalLanguage d = Err x -> x = EDomain ErrScheduleParseFailure.
Proof.
  unfold NaturalLanguage.parseNaturalLanguage, NaturalLanguage.failure. cbv zeta. repeat case_match; congruence.
Qed.

Section resolve.
  Context {W : Type} `{!Runtime W, !CronLibrary}.

(** A description that is resolved is one of the cron expressions that the
    parser accepts in the given time zone, either as it stands or as the
    translation of a phrase; the answer carries the first five activations after
    the time of the request, in order, none left out. A time zone that does not
    load is reported as such. *)
Lemma resolve_schedule_outcome (d tz : string) (w : W) :
  match eval (Service.ResolveSchedule d tz) w with
  | Ok r =>
      Service.rr_Timezone r = tz /\
      (Service.rr_CronExpression r = d \/
       is_ok (Parse d tz) = false /\
       NaturalLanguage.parseNaturalLanguage d = Ok (Service.rr_CronExpression r, Service.rr_Description r)) /\
      exists next, Parse (Service.rr_CronExpression r) tz = Ok next /\
        forall fires, next_of fires next -> (forall t, next t <> 0%Z) ->
          length (Service.rr_NextRuns r) = 5 /\ first_fires fires (eval time_Now w) (Service.rr_NextRuns r)
  | Err e =>
      (e = EDomain ErrInvalidTimezone <-> is_ok (LoadLocation tz) = false) /\
      (e = EDomain ErrInvalidTimezone \/ e = EDomain ErrScheduleParseFailure) /\ is_ok (Parse d tz) = false
  end.
Proof.
  unfold eval, Service.ResolveSchedule, Service.computeNextRuns, mbind, st_bind.
  destruct (LoadLocation tz) as [loc|el] eqn:El.
  2:{ cbn. split_and!; [done | by left |]. destruct (Parse d tz) eqn:Ep; [| done].
      apply Parse_Ok_location in Ep. by rewrite El in Ep. }
  destruct (Parse d tz) as [next|] eqn:Ep.
  { cbn. destruct (time_Now w) as [now w1]. cbn. split_and!; [done | by left |]. exists next. split; [done |].
    intros fires Hn Hz. exact (next_runs_first fires next 5 now Hn Hz). }
  destruct (NaturalLanguage.parseNaturalLanguage d) as [[expr desc]|x] eqn:En.
  2:{ cbn. apply parse_failure in En as ->. split_and!; [done | by right | done]. }
  destruct (Parse expr tz) as [next|] eqn:Ep'; [| cbn; split_and!; [done | by right | done]].
  cbn. destruct (time_Now w) as [now w1]. cbn. split_and!; [done | by right |]. exists next. split; [done |].
  intros fires Hn Hz. exact (next_runs_first fires next 5 now Hn Hz).
Qed.
End resolve.

(** ** Witnesses

    In the world of [ServiceProps.Sim], where tenant [a] has the job 102. *)
Import ServiceProps.Sim.
Definition tenant_a : context := as_tenant "a".
Definition change_input : Service.UpdateJobInput :=
  {| Service.ui_Name := Some "nightly"%string; Service.ui_CronExpression := None; Service.ui_Timezone := None;
     Service.ui_WebhookURL := None; Service.ui_Secret := None; Service.ui_Timeout := Some (5 * Second)%Z;
     Service.ui_Tags := None |}.
(** The value of a call that succeeds. *)
Definition value {A} (d : A) (r : result err A) : A := match r with Ok a => a | Err _ => d end.

Definition update_result : Job * Schedule :=
  value (zero_Job, zero_Schedule) (eval (Service.UpdateJob tenant_a 102 change_input) two_jobs).
Lemma update_job_outcome_witness :
  (j_Name update_result.1, d_Timeout (j_Delivery update_result.1), j_Namespace update_result.1) =
    ("nightly"%string, 5 * Second, "a"%string)%Z /\
  exists j x now w1 w2,
    Service.jobs_GetJobWithScheduleScoped 102 "a" two_jobs = (Ok (j, x), w1) /\
    update_result = updated change_input now j x /\
    (forall u, Service.ui_WebhookURL change_input = Some u -> is_ok (Validate u) = true) /\
    (is_Some (Service.ui_CronExpression change_input) \/ is_Some (Service.ui_Timezone change_input) ->
       is_ok (Parse (s_CronExpression update_result.2) (s_Timezone update_result.2)) = true) /\
    Service.jobs_UpdateJobAggregate update_result.1 update_result.2 (Service.ui_Tags change_input) w2 =
      (Ok tt, exec (Service.UpdateJob tenant_a 102 change_input) two_jobs).
Proof.
  split; [vm_compute; reflexivity |].
  assert (E : eval (Service.UpdateJob tenant_a 102 change_input) two_jobs = Ok (update_result.1, update_result.2))
    by (vm_compute; reflexivity).
  exact (proj2 (update_job_outcome tenant_a 102 change_input two_jobs update_result.1 update_result.2 E)).
Defined.

Definition new_key : Service.CreateAPIKeyInput := {| Service.ki_Label := "ci" |}.
Definition key_result : Service.CreateAPIKeyResult :=
  value (Service.mkCreateAPIKeyResult "" (mkAPIKey Nil "" "" "" false 0 None))
    (eval (Service.CreateAPIKey tenant_a new_key) two_jobs).
Lemma two_jobs_whole : good wf_db (db_get two_jobs).
Proof. split; [exact (q_wf _ _ _ (proj1 (two_jobs_good "a"))) |]. intros n db Hdb. vm_compute. exact Hdb. Qed.
Lemma api_key_authenticates_witness :
  let w' := exec (Service.CreateAPIKey tenant_a new_key) two_jobs in
  eval (GetKeyByTokenHash (Service.HashToken (Service.kr_PlaintextToken key_result))) (db_get w') =
    Ok (stored_key (Service.kr_Key key_result)).
Proof.
  set (w' := exec (Service.CreateAPIKey tenant_a new_key) two_jobs).
  assert (E : Service.CreateAPIKey tenant_a new_key two_jobs = (Ok key_result, w')) by (vm_compute; reflexivity).
  assert (Hc : calm (db_get w')) by (vm_compute; reflexivity).
  assert (Hs : seen (db_get w') = pg_db (db_get w')) by (vm_compute; reflexivity).
  exact (proj1 (api_key_authenticates tenant_a new_key two_jobs w' key_result E two_jobs_whole Hc Hs)).
Defined.

Definition paused_result : Job := value zero_Job (eval (Service.PauseJob tenant_a 102) two_jobs).
Lemma pause_takes_effect_witness :
  let w' := exec (Service.PauseJob tenant_a 102) two_jobs in
  map (fun x => j_ID (jws_Job x)) <$> (match eval (GetEnabledJobs 10 Nil) (db_get two_jobs) with Ok l => Some l | Err _ => None end)
    = Some [102; 105]%N /\
  map (fun x => j_ID (jws_Job x)) <$> (match eval (GetEnabledJobs 10 Nil) (db_get w') with Ok l => Some l | Err _ => None end)
    = Some [105]%N /\
  (exists row, jobs (pg_db (db_get w')) !! 102%N = Some row /\ j_Enabled row = false /\ j_Namespace row = "a"%string).
Proof.
  split; [vm_compute; reflexivity |]. split; [vm_compute; reflexivity |].
  set (w' := exec (Service.PauseJob tenant_a 102) two_jobs).
  assert (E : Service.set_enabled tenant_a false 102 two_jobs = (Ok paused_result, w')) by (vm_compute; reflexivity).
  assert (Hc : calm (db_get w')) by (vm_compute; reflexivity).
  assert (Hs : seen (db_get w') = pg_db (db_get w')) by (vm_compute; reflexivity).
  exact (proj1 (pause_takes_effect tenant_a false 102 two_jobs w' paused_result E two_jobs_whole Hc Hs)).
Defined.

(** A bad time zone is reported as a bad expression. *)
Example bad_timezone :
  eval (Service.CreateJob tenant_a
    {| Service.ci_Name := "report"; Service.ci_CronExpression := "* * * * *"; Service.ci_Timezone := "Mars/Olympus";
       Service.ci_WebhookURL := "http://example.com"; Service.ci_Secret := "s"; Service.ci_Timeout := 0;
       Service.ci_Tags := [] |}) two_jobs = Err (EDomain ErrInvalidCronExpression).
Proof. vm_compute. reflexivity. Qed.

(** An update writes the flag that it read before: a pause by somebody else in
    between is lost. *)
Definition pause_in_between : world :=
  {| w_pg := {| pg_db := pg_db (w_pg two_jobs); pg_ios := fun n =>
       {| io_others := if (n =? 1)%nat then fun db => pg_db (exec (UpdateJob paused_result) (PgSim.alone db)) else fun db => db;
          io_fault := None; io_env := {| now := 0; locked := ∅ |} |} |};
     w_n := w_n two_jobs; w_events := [] |}.
Example lost_pause :
  j_Enabled <$> (jobs (pg_db (exec (UpdateJob paused_result) (w_pg two_jobs))) !! 102%N) = Some false /\
  j_Enabled <$> (jobs (db_of (exec (Service.UpdateJob tenant_a 102 change_input) pause_in_between)) !! 102%N) = Some true.
Proof. vm_compute. split; reflexivity. Qed.

Example resolve_ex :
  Service.rr_NextRuns <$> (match eval (Service.ResolveSchedule "* * * * *" "UTC") two_jobs with Ok r => Some r | Err _ => None end)
  = Some (map (fun s => s * Second) [1000020; 1000080; 1000140; 1000200; 1000260])%Z.
Proof. vm_compute. reflexivity. Qed.

(** *** A repository that refuses

    The answers to the insertions are given; the clock stands still. *)
Module Stubborn.
Record stub : Type := mkStub { s_answers : list (result err unit); s_log : list trigger_action; s_ids : N }.
#[export] Instance stub_runtime : Runtime stub := {|
  time_Now := mret (7 * Second + 1)%Z; uuid_New := fun w => (s_ids w, mkStub (s_answers w) (s_log w) (N.succ (s_ids w)));
  uuid_String i := Itoa (Z.of_N i); ctx_Err := mret None; wait _ := mret None |}.
#[export] Instance stub_emitter : EventEmitter stub := {|
  Emit ev := fun w => (Err EBufferFull, mkStub (s_answers w) (s_log w ++ [TEmit ev (Err EBufferFull)]) (s_ids w)) |}.
#[export] Instance stub_jobs : Service.JobRepository stub := {|
  Service.jobs_CreateJobAggregate _ _ _ := mret (Ok tt);
  Service.jobs_GetJobWithScheduleScoped i n := mret (Ok (PgSim.job1, PgSim.sched1));
  Service.jobs_ListJobs _ := mret (Ok []); Service.jobs_ListJobsWithSchedules := None;
  Service.jobs_UpdateJob _ := mret (Ok tt); Service.jobs_UpdateJobAggregate _ _ _ := mret (Ok tt);
  Service.jobs_DeleteJob _ _ := mret (Ok tt) |}.
#[export] Instance stub_executions : Service.ExecutionRepository stub := {|
  Service.executions_InsertExecution e := fun w =>
    let r := default (Ok tt) (head (s_answers w)) in (r, mkStub (tail (s_answers w)) (s_log w ++ [TInsert e r]) (s_ids w));
  Service.executions_GetRecentExecutions _ _ := mret (Ok []); Service.executions_ListExecutions _ := mret (Ok []);
  Service.executions_ListPendingAck _ _ _ := mret (Ok []); Service.executions_AckExecution _ _ := mret (Ok tt);
  Service.executions_GetExecutionScoped _ _ := mret (Err (EDomain ErrExecutionNotFound)) |}.
#[export] Instance stub_log : TriggerLog stub.
Proof. refine {| tlog := s_log |}; try done. Defined.

Example two_duplicates :
  let dup := Err (EDomain ErrDuplicateExecution) in
  let w := exec (Service.TriggerNow svc tenant_a 1) (mkStub [dup; dup; Ok tt] [] 50) in
  map (fun e => (e_ID e, e_ScheduledAt e)) (pick inserted (s_log w)) =
    [(50%N, 7 * Second); (51%N, 7 * Second + Microsecond); (52%N, 7 * Second + 2 * Microsecond)]%Z.
Proof. vm_compute. reflexivity. Qed.
Example always_duplicate :
  let dup := Err (EDomain ErrDuplicateExecution) in
  eval (Service.TriggerNow svc tenant_a 1) (mkStub (repeat dup 9) [] 50) =
    Err (EWrap "insert execution" (EDomain ErrDuplicateExecution)).
Proof. vm_compute. reflexivity. Qed.
End Stubborn.
