(* ===== verification/System.v ===== *)
(** * The components together

    Schedulers, dispatchers, reconcilers and requests of the job service, in any
    number and order, on one store ([activity]): what every call of the store
    keeps, every sequence of activities keeps.  And the way of one execution
    through database mode: claimed, delivered, settled. *)
From S2P Require Import Prelude GoStrings GoTime Domain Runtime Cron WebhookURL Pg Store StoreTheory StoreProps.
From S2P Require Import Wiring Tenancy ServiceTheory ServiceProps.
From S2P Require Dispatcher Scheduler Reconciler Service.
Local Open Scope cron_scope.

(** What the components call outside of the store. *)
Class Outside (W : Type) : Type := {
  #[global] out_sender :: Dispatcher.WebhookSender W;
  #[global] out_analytics :: Dispatcher.AnalyticsSink W;
  #[global] out_metrics :: Dispatcher.MetricsSink W;
  #[global] out_breaker :: Dispatcher.Breaker W;
  #[global] out_ticks :: Scheduler.TickSink W;
  #[global] out_orphans :: Reconciler.OrphanSink W;
}.

(** None of it touches the database. *)
Definition silent {W} `{!Database W} {A} (m : st W A) : Prop := forall w, db_get (exec m w) = db_get w.
Class Apart (W : Type) `{!Database W, !Runtime W, !Outside W} : Prop := {
  apart_ctx : silent ctx_Err;
  apart_wait d : silent (wait d);
  apart_send r : silent (Dispatcher.Send r);
  apart_record ev c : silent (Dispatcher.Record_ ev c);
  apart_observe m : silent (Dispatcher.observe m);
  apart_allow u : silent (Dispatcher.breaker_Allow u);
  apart_success u : silent (Dispatcher.breaker_RecordSuccess u);
  apart_failure u : silent (Dispatcher.breaker_RecordFailure u);
  apart_tick m : silent (Scheduler.tick_observe m);
  apart_count n : silent (Reconciler.OrphanedExecutionsUpdate n);
}.

Section system.
  Context {W : Type} `{!Database W, !Postgres, !Runtime W, !EventEmitter W, !Service.Random W, !CronLibrary, !NetLibrary,
    !Quiet W, !Outside W, !Apart W}.

(** One activity of one process: a tick of a scheduler, the handling of an event
    by a dispatcher, a round of a worker that polls the database, a cycle of a
    reconciler, a request of the service. *)
Inductive activity : Type :=
| Tick (s : Scheduler.Scheduler) (fuel : nat)
| Handle (d : Dispatcher.Dispatcher) (ev : TriggerEvent)
| Poll (d : Dispatcher.Dispatcher) (interval : duration)
| Cycle (r : Reconciler.Reconciler)
| Request (s : Service.JobService) (ctx : context) (r : request).

Definition perform (a : activity) : st W unit :=
  match a with
  | Tick s fuel => void (Scheduler.processTick s fuel)
  | Handle d ev => void (Dispatcher.Dispatch d ev)
  | Poll d interval => void (Dispatcher.dbPollWorker_round d interval)
  | Cycle r => Reconciler.runCycle r
  | Request s ctx r => void (serve s ctx r)
  end.
Fixpoint perform_all (l : list activity) : st W unit :=
  match l with
  | [] => mret tt
  | a :: l' => perform a ≫= fun _ => perform_all l'
  end.

Section invariant.
  Variable I : DB -> Prop.
  (** Every call of the store keeps the invariant; of the insertions of
      executions, those under a fresh identifier. *)
  Variable fresh : uuid -> Prop.
  Hypothesis Hcalls : forall c, match c with CInsertExecution e => fresh (e_ID e) | _ => True end -> writers_keep I c.
  Hypothesis Hfresh : forall w, fresh (eval uuid_New w).

Lemma silent_maintains {A} (m : st W A) : silent m -> maintains I m.
Proof. intros Hm w. unfold db_good. by rewrite Hm. Qed.

(** A call of the store. *)
Lemma call_maintains {A} (m : st pg A) c :
  do c = void m -> match c with CInsertExecution e => fresh (e_ID e) | _ => True end -> maintains I (lift m).
Proof.
  intros Hm Hc. apply lift_maintains. intros w Hw.
  assert (E : exec m w = exec (do c) w) by (rewrite Hm; unfold void, exec, fmap, st_fmap; by destruct (m w)).
  rewrite E. by apply (do_keeps I c), Hw; apply Hcalls.
Qed.

(** A fresh identifier, and what is done with it. *)
Lemma maintains_uuid {A} (f : uuid -> st W A) :
  (forall i, fresh i -> maintains I (f i)) -> maintains I (uuid_New ≫= f).
Proof.
  intros Hf w Hw. pose proof (Hfresh w) as Hi. pose proof (quiet_uuid w) as Hq.
  unfold exec, eval, mbind, st_bind in *. destruct (uuid_New w) as [i w']; cbn in *.
  apply (Hf i Hi w'). unfold db_good. by rewrite Hq.
Qed.

Lemma maintains_bind {A B} (m : st W A) (f : A -> st W B) :
  maintains I m -> (forall a, maintains I (f a)) -> maintains I (m ≫= f).
Proof. intros Hm Hf. apply preserves_bind; [exact _ | done | done]. Qed.
Lemma maintains_ret {A} (a : A) : maintains I (mret a).
Proof. apply preserves_ret, _. Qed.
Lemma maintains_when b (m : st W unit) : maintains I m -> maintains I (when b m).
Proof. intros Hm. destruct b; [done | apply maintains_ret]. Qed.
Lemma maintains_void {A} (m : st W A) : maintains I m -> maintains I (void m).
Proof. apply preserves_fmap. Qed.

(** The calls of the components on the store and on the rest of the world. *)
Ltac outside :=
  apply silent_maintains; intros ?; first
    [ apply quiet_now | apply quiet_emit | apply quiet_rand | apply apart_ctx | apply apart_wait | apply apart_send
    | apply apart_record | apply apart_observe | apply apart_allow | apply apart_success | apply apart_failure
    | apply apart_tick | apply apart_count ].
Ltac store c := apply (call_maintains _ c eq_refl); first [exact Logic.I | cbn; eassumption].
Ltac of_store :=
  cbn [Scheduler.GetEnabledJobs Scheduler.InsertExecution scheduler_store Dispatcher.GetJobByID
    Dispatcher.InsertDeliveryAttempt Dispatcher.UpdateExecutionStatus Dispatcher.DequeueExecution dispatcher_store
    Reconciler.GetOrphanedExecutions Reconciler.RequeueStaleExecutions reconciler_store
    Service.jobs_CreateJobAggregate Service.jobs_GetJobWithScheduleScoped Service.jobs_ListJobs Service.jobs_UpdateJob
    Service.jobs_UpdateJobAggregate Service.jobs_DeleteJob job_repository Service.executions_InsertExecution
    Service.executions_GetRecentExecutions Service.executions_ListExecutions Service.executions_ListPendingAck
    Service.executions_AckExecution Service.executions_GetExecutionScoped execution_repository Service.tags_GetTags
    tag_repository Service.attempts_GetAttempts attempt_repository Service.apiKeys_InsertAPIKey Service.apiKeys_ListKeys
    Service.apiKeys_DeleteKey key_repository];
  lazymatch goal with |- maintains _ ?m => lazymatch m with
  | lift (GetEnabledJobs ?a ?b) => store (CGetEnabledJobs a b)
  | lift (InsertExecution ?a) => store (CInsertExecution a)
  | lift (GetLastScheduledExecution ?a) => store (CGetLastScheduledExecution a)
  | lift (GetJobByID ?a) => store (CGetJobByID a)
  | lift (InsertDeliveryAttempt ?a) => store (CInsertDeliveryAttempt a)
  | lift (UpdateExecutionStatus ?a ?b) => store (CUpdateExecutionStatus a b)
  | lift (DequeueExecution) => store (CDequeueExecution)
  | lift (GetOrphanedExecutions ?a ?b) => store (CGetOrphanedExecutions a b)
  | lift (RequeueStaleExecutions ?a ?b) => store (CRequeueStaleExecutions a b)
  | lift (CreateJobAggregate ?a ?b ?c) => store (CCreateJobAggregate a b c)
  | lift (GetJobWithScheduleScoped ?a ?b) => store (CGetJobWithScheduleScoped a b)
  | lift (ListJobs ?a) => store (CListJobs a)
  | lift (ListJobsWithSchedules ?a) => store (CListJobsWithSchedules a)
  | lift (UpdateJob ?a) => store (CUpdateJob a)
  | lift (UpdateJobAggregate ?a ?b ?c) => store (CUpdateJobAggregate a b c)
  | lift (DeleteJob ?a ?b) => store (CDeleteJob a b)
  | lift (GetRecentExecutions ?a ?b) => store (CGetRecentExecutions a b)
  | lift (ListExecutions ?a) => store (CListExecutions a)
  | lift (ListPendingAck ?a ?b ?c) => store (CListPendingAck a b c)
  | lift (AckExecution ?a ?b) => store (CAckExecution a b)
  | lift (GetExecutionScoped ?a ?b) => store (CGetExecutionScoped a b)
  | lift (GetTags ?a) => store (CGetTags a)
  | lift (GetAttempts ?a) => store (CGetAttempts a)
  | lift (InsertAPIKey ?a) => store (CInsertAPIKey a)
  | lift (ListKeys ?a ?b) => store (CListKeys a b)
  | lift (DeleteKey ?a ?b) => store (CDeleteKey a b)
  | lift (InsertFirstAPIKey ?a) => store (CInsertFirstAPIKey a)
  | lift (HasAnyAPIKeys) => store (CHasAnyAPIKeys)
  end end.
Ltac leaf := first [ apply maintains_ret | outside | of_store ].
(** One step along the structure of a program. *)
Ltac walk_step :=
  lazymatch goal with
  | |- maintains _ (mret _) => apply maintains_ret
  | |- maintains _ (when _ _) => apply maintains_when
  | |- maintains _ (uuid_New ≫= _) => apply maintains_uuid; intros ? ?
  | |- maintains _ (_ ≫= _) => apply maintains_bind; [| intros ?]
  | |- maintains _ (let _ := _ in _) => cbv zeta
  | |- maintains _ (match ?x with _ => _ end) => destruct x
  | |- _ => first [ match goal with Hm : context [maintains I] |- _ => apply Hm end | outside | of_store ]
  end.
Ltac walk := repeat walk_step.

Lemma tick_maintains s fuel : maintains I (Scheduler.processTick s fuel).
Proof.
  assert (Hfire : forall n next job now t r, maintains I (Scheduler.fire_loop n next job now t r)).
  { induction n as [|n IH]; intros; cbn [Scheduler.fire_loop]; [leaf |].
    destruct (After t now); [leaf |]. apply maintains_bind; [| intros r'; apply IH].
    unfold Scheduler.emitExecution. walk. }
  assert (Hjob : forall jws last now, maintains I (Scheduler.processJobWithProgress s jws last now)).
  { intros. unfold Scheduler.processJobWithProgress. apply maintains_bind.
    - unfold Scheduler.windowStart. cbn [Scheduler.GetLastScheduledExecution scheduler_store]. walk.
    - intros ws. walk. }
  assert (Hpage : forall jobs now n t, maintains I (Scheduler.process_page s jobs now n t)).
  { induction jobs as [|jws jobs IH]; intros; cbn [Scheduler.process_page]; [leaf |].
    apply maintains_bind; [apply Hjob |]. intros [r e]. apply IH. }
  assert (Hpages : forall now after n t, maintains I (Scheduler.process_pages s fuel now after n t)).
  { induction fuel as [|f IH]; intros; cbn [Scheduler.process_pages]; [leaf |].
    apply maintains_bind; [leaf |]. intros [jobs|e]; [| leaf]. apply maintains_bind; [apply Hpage |].
    intros [k t']. destruct (_ <? _)%Z; [leaf | apply IH]. }
  unfold Scheduler.processTick, Scheduler.record_tick. walk.
Qed.

Lemma dispatch_maintains d ev : maintains I (Dispatcher.Dispatch d ev).
Proof.
  assert (Hdel : forall job req n, maintains I (Dispatcher.deliver d ev job req n)).
  { intros. unfold Dispatcher.deliver, Dispatcher.finish, Dispatcher.record_metric. walk. }
  assert (Hatt : forall fuel job req n last, maintains I (Dispatcher.attempts d fuel ev job req n last)).
  { induction fuel as [|f IH]; intros; cbn [Dispatcher.attempts]; [leaf |].
    destruct (negb _); [leaf |]. apply maintains_bind; [unfold Dispatcher.record_metric; walk |].
    intros [e|]; [leaf |]. apply maintains_bind; [apply Hdel |]. intros [r [x|]]; [leaf |].
    destruct (negb _); [leaf | apply IH]. }
  unfold Dispatcher.Dispatch, Dispatcher.dispatch_body, Dispatcher.run_attempts, Dispatcher.writeAnalytics,
    Dispatcher.finish, Dispatcher.record_metric. walk.
Qed.

Lemma poll_maintains d interval : maintains I (Dispatcher.dbPollWorker_round d interval).
Proof. pose proof (dispatch_maintains d). unfold Dispatcher.dbPollWorker_round. walk. Qed.

Lemma cycle_maintains r : maintains I (Reconciler.runCycle r).
Proof.
  assert (Hre : forall now l a b, maintains I (Reconciler.re_emit now l a b)).
  { induction l as [|e l IH]; intros; cbn [Reconciler.re_emit]; [leaf |]. walk. }
  unfold Reconciler.runCycle. walk.
Qed.

Lemma maintains_fmap {A B} (f : A -> B) (m : st W A) : maintains I m -> maintains I (f <$> m).
Proof. apply preserves_fmap. Qed.

Lemma insert_attempts_maintains ctx n : forall i t e o, maintains I (Service.insert_attempts ctx n i t e o).
Proof. induction n as [|n IH]; intros; cbn [Service.insert_attempts]; walk. Qed.

Lemma request_maintains s ctx r : maintains I (serve s ctx r).
Proof.
  pose proof (insert_attempts_maintains ctx). destruct r; cbn [serve]; apply maintains_fmap;
    unfold Service.CreateJob, Service.GetJob, Service.ListJobs, Service.ListJobsWithSchedules, Service.UpdateJob,
      Service.DeleteJob, Service.PauseJob, Service.ResumeJob, Service.set_enabled, Service.TriggerNow,
      Service.GetNextRunTime, Service.ResolveSchedule, Service.computeNextRuns, Service.ListExecutions,
      Service.ListPendingAck, Service.AckExecution, Service.GetExecution, Service.CreateAPIKey,
      Service.BootstrapFirstAPIKey, Service.HasAnyAPIKeys, Service.ListAPIKeys, Service.DeleteAPIKey, Service.newAPIKey;
    cbn [Service.jobs_ListJobsWithSchedules Service.apiKeys_bootstrap job_repository key_repository]; walk.
Qed.

Lemma perform_maintains a : maintains I (perform a).
Proof.
  destruct a; cbn [perform]; try apply maintains_void.
  all: auto using tick_maintains, dispatch_maintains, poll_maintains, cycle_maintains, request_maintains.
Qed.

Lemma perform_all_maintains l : maintains I (perform_all l).
Proof.
  induction l as [|a l IH]; cbn [perform_all]; [apply maintains_ret |].
  apply maintains_bind; [apply perform_maintains | done].
Qed.
End invariant.

(** C1: the whole program keeps the database whole and terminal statuses final:
    after any sequence of ticks, dispatches, polls, reconciler cycles and requests
    of the service, in any order and with any failures, the tables have their
    referential integrity and uniqueness, and an execution that was delivered or
    failed still has that status, or is gone; provided the other connections keep
    this too, and fresh identifiers are not the one of that execution. *)
Theorem system_integrity (i : uuid) (s : string) (l : list activity) (w : W) :
  terminal s = true -> (forall w, eval uuid_New w <> i) ->
  db_good (fun db => wf_db db /\ settled i s db) w ->
  let db := pg_db (db_get (exec (perform_all l) w)) in wf_db db /\ settled i s db.
Proof.
  intros Hs Hi Hw. apply (perform_all_maintains (fun db => wf_db db /\ settled i s db) (fun k => k <> i)); [| done | done].
  intros c Hc. apply settled_writers; [done |]. by destruct c.
Qed.
End system.

(** ** A concrete world

    That of [ServiceProps], with a receiver that answers every webhook with the
    same status, no analytics, metrics or breaker, and waits that are over at
    once. *)
Module Sim.
Export ServiceProps.Sim.
Definition nothing_done {A} : A -> st world unit := fun _ => mret tt.
Definition outside (code : Z) : Outside world := {|
  out_sender := {| Dispatcher.Send _ := mret {| Dispatcher.wr_StatusCode := code; Dispatcher.wr_Error := None;
                                                Dispatcher.wr_Duration := Second |} |};
  out_analytics := {| Dispatcher.Record_ _ := nothing_done |};
  out_metrics := {| Dispatcher.observe := nothing_done |};
  out_breaker := {| Dispatcher.breaker_Allow _ := mret (Ok tt); Dispatcher.breaker_RecordSuccess := nothing_done;
                    Dispatcher.breaker_RecordFailure := nothing_done |};
  out_ticks := {| Scheduler.tick_observe := nothing_done |};
  out_orphans := {| Reconciler.OrphanedExecutionsUpdate := nothing_done |} |}.
Lemma outside_apart code : @Apart world _ _ (outside code).
Proof. by split. Qed.

#[export] Instance working : Outside world := outside 200.
#[export] Instance working_apart : Apart world := outside_apart 200.

(** A scheduler that ran two minutes ago, a dispatcher, a reconciler, a tenant. *)
Definition sch : Scheduler.Scheduler :=
  Scheduler.set_lastTick (Scheduler.New {| Scheduler.TickInterval := Minute; Scheduler.MaxFiresPerTick := 10 |})
    (999900 * Second).
Definition rec : Reconciler.Reconciler :=
  {| Reconciler.rc_config := Reconciler.DefaultConfig; Reconciler.rc_metrics := false |}.
Definition day : list activity :=
  [Tick sch 2; Poll Dispatcher.New Second; Handle Dispatcher.New (event_of_execution PgSim.exec1 0); Cycle rec;
   Request svc (as_tenant "prod") (RAckExecution 21); Request svc (as_tenant "prod") (RTriggerNow 1)].

(** One job whose execution 21 is delivered already. *)
Definition delivered : world :=
  {| w_pg := exec (do (CUpdateExecutionStatus 21 ExecutionStatusDelivered)) PgSim.w1; w_n := 0; w_events := [] |}.
Lemma delivered_good : db_good (fun db => wf_db db /\ settled 21 ExecutionStatusDelivered db) delivered.
Proof.
  split; [split |].
  - change (wf_db (pg_db (exec (do (CUpdateExecutionStatus 21 ExecutionStatusDelivered)) PgSim.w1))).
    apply (do_keeps wf_db); [apply wf_writers | apply PgSim.w1_good].
  - intros e He. vm_compute in He. injection He as <-. reflexivity.
  - intros n db Hdb. exact Hdb.
Qed.
Definition statuses (w : world) : list (uuid * string) :=
  map (fun p => (p.1, e_Status p.2)) (map_to_list (executions (db_of w))).
End Sim.
Import Sim.

Lemma system_integrity_witness :
  let w := exec (perform_all Sim.day) Sim.delivered in
  Sim.statuses w = [(110, ExecutionStatusEmitted); (101, ExecutionStatusDelivered); (21, ExecutionStatusDelivered)]%N /\
  wf_db (pg_db (db_get w)) /\ settled 21 ExecutionStatusDelivered (pg_db (db_get w)).
Proof.
  split; [vm_compute; reflexivity |].
  apply (system_integrity 21 ExecutionStatusDelivered Sim.day Sim.delivered); [reflexivity | | apply Sim.delivered_good].
  intros w. cbn. lia.
Defined.
