(* ===== verification/Progress.v ===== *)
(** * Polling workers make progress: [RunDBPoll] on the store

    With a server that answers and that nobody else uses, and a context that does
    not end, every round of a worker in database mode takes the oldest emitted
    execution to a terminal status, so that as many rounds as there are emitted
    executions settle all of them. *)
From S2P Require Import Prelude GoStrings GoTime Domain Runtime Cron Pg Store StoreTheory StoreProps.
From S2P Require Import Wiring ServiceTheory System.
From S2P Require Dispatcher Service.
Import Dispatcher (IsSuccess, Send).
Local Open Scope cron_scope.

Section progress.
  Context {W : Type} `{!Database W, !Postgres, !Runtime W, !EventEmitter W, !Service.Random W, !CronLibrary, !NetLibrary,
    !Quiet W, !Outside W, !Apart W}.

(** The server answers every call, and nobody else uses it. *)
Definition alone (p : pg) : Prop := forall n,
  io_fault (pg_ios p n) = None /\ locked (io_env (pg_ios p n)) = ∅ /\ forall db, io_others (pg_ios p n) db = db.
(** An assertion about the database of such a server. *)
Definition holds (P : DB -> Prop) (w : W) : Prop := alone (db_get w) /\ P (pg_db (db_get w)).

Lemma holds_silent {A} (m : st W A) P : silent m -> hoare (holds P) m (fun _ => holds P).
Proof. intros Hm w Hw. unfold holds. by rewrite Hm. Qed.

(** A statement that reaches the database, with the outcome that it gives there. *)
Lemma holds_tx {A B} (s : stmt A) (f : result err A -> B) (P : DB -> Prop) (Q : B -> DB -> Prop) :
  (forall v db, locked v = ∅ -> P db ->
     match s v db with Ok (a, db') => Q (f (Ok a)) db' | Err e => Q (f (Err e)) db end) ->
  hoare (holds P) (lift (f <$> run_tx s)) (fun b => holds (Q b)).
Proof.
  intros Hs w [Ha HP]. destruct (Ha 0) as (Hf & Hl & Ho). unfold holds.
  rewrite exec_lift, eval_lift. unfold eval, exec. rewrite run_tx_fmap. unfold run_tx, shd. rewrite Hf, Ho.
  specialize (Hs _ _ Hl HP).
  destruct (s _ _) as [[a db']|e]; cbn; (split; [intros n; apply (Ha (S n)) | done]).
Qed.

Lemma holds_run {A} (s : stmt A) (P : DB -> Prop) (Q : result err A -> DB -> Prop) :
  (forall v db, locked v = ∅ -> P db ->
     match s v db with Ok (a, db') => Q (Ok a) db' | Err e => Q (Err e) db end) ->
  hoare (holds P) (lift (run_tx s)) (fun r => holds (Q r)).
Proof.
  intros Hs w Hw. pose proof (holds_tx s id P Q Hs w Hw) as Hr. revert Hr. unfold holds.
  rewrite !exec_lift, !eval_lift. unfold eval, exec. by rewrite run_tx_fmap.
Qed.

Lemma hoare_pure {A} (P Q : W -> Prop) (m : st W A) R : (forall w, P w -> Q w) -> hoare Q m R -> hoare P m R.
Proof. intros HP Hm w Hw. apply Hm, HP, Hw. Qed.
Lemma hoare_when b (m : st W unit) P : hoare P m (fun _ => P) -> hoare P (when b m) (fun _ => P).
Proof. destruct b; [done |]. intros _ w Hw. exact Hw. Qed.

Lemma hoare_fact {A} P (F : Prop) (m : st W A) Q : (F -> hoare P m Q) -> hoare (fun w => P w /\ F) m Q.
Proof. intros Hm w [Hw HF]. by apply Hm. Qed.

(** ** One dispatch *)
Section dispatch.
  Variables (d : Dispatcher.Dispatcher) (ev : TriggerEvent) (ex : gmap uuid Execution) (js : gmap uuid Job) (e : Execution).
Let i : uuid := ev_ExecutionID ev.
  Hypothesis Hwaits : forall t (w : W), eval (wait t) w = None.
  Hypothesis Hrow : ex !! i = Some e.
  Hypothesis Hopen : terminal (e_Status e) = false.

(** The receiver accepts everything, or nothing. *)
Definition accepts : Prop := forall r (w : W), IsSuccess (eval (Send r) w) = true.
Definition refuses : Prop := forall r (w : W), IsSuccess (eval (Send r) w) = false.

Definition before (db : DB) : Prop := executions db = ex /\ jobs db = js.
(** The status at the end of a dispatch. *)
Definition verdict (s : string) : Prop :=
  (s = ExecutionStatusDelivered /\ ~ refuses) \/ (s = ExecutionStatusFailed /\ ~ accepts).
Definition after (db : DB) : Prop := jobs db = js /\
  exists s, verdict s /\ executions db = <[i := with_status s (e_ClaimedAt e) e]> ex.

Lemma status_settles s record :
  verdict s -> silent record ->
  hoare (holds before) (Dispatcher.finish d ev s record) (fun _ => holds after).
Proof.
  intros Hs Hrec. unfold Dispatcher.finish. eapply hoare_bind with (Q := fun r => holds (fun db => is_ok r = true /\ after db)).
  - intros w [Ha [He Hj]]. destruct (Ha 0) as (Hf & _ & Ho), (Ha 1) as (Hf1 & _ & Ho1).
    cbn [Dispatcher.UpdateExecutionStatus dispatcher_store]. unfold holds. rewrite exec_lift, eval_lift.
    unfold UpdateExecutionStatus, queryUpdateExecutionStatus, eval, exec, mbind, st_bind.
    assert (Hhit : executions (seen (db_get w)) !! i = Some e) by (unfold seen, shd; rewrite Ho, He; exact Hrow).
    rewrite (run_tx_Ok _ _ _ _ Hf (update_execution_hit _ _ _ _ _ e Hhit Hopen)). cbn.
    split; [intros n; apply (Ha (S n)) |]. split; [done |]. unfold after, seen, shd. cbn. rewrite Ho, He, Hj. eauto.
  - intros [u|er].
    + eapply hoare_bind; [apply hoare_when, holds_silent, Hrec |]. intros _ w (Ha & _ & Hw). by split.
    + intros w (_ & [=] & _).
Qed.

(** A call that leaves the database alone, before anything is settled. *)
Lemma silent_bind {A B} (m : st W A) (f : A -> st W B) P Q :
  silent m -> (forall a, hoare (holds P) (f a) Q) -> hoare (holds P) (m ≫= f) Q.
Proof. intros Hm Hf. eapply hoare_bind; [by apply holds_silent | done]. Qed.

Lemma metric_silent m : silent (Dispatcher.record_metric d m).
Proof. intros w. unfold Dispatcher.record_metric, when. destruct (Dispatcher.d_metrics d); [apply apart_observe | done]. Qed.

Lemma insert_attempt_keeps a :
  hoare (holds before) (Dispatcher.InsertDeliveryAttempt a) (fun _ => holds before).
Proof.
  change (hoare (holds before) (lift (InsertDeliveryAttempt a)) (fun _ => holds before)).
  apply (holds_run _ before (fun _ => before)). intros v db _ Hdb. unfold queryInsertDeliveryAttempt.
  repeat case_match; by simplify_eq.
Qed.

Lemma deliver_settles job req n :
  hoare (holds before) (Dispatcher.deliver d ev job req n)
    (fun x w => match x.2 with Some _ => holds after w | None => holds before w /\ ~ accepts end).
Proof.
  unfold Dispatcher.deliver. apply silent_bind; [exact quiet_uuid | intros aid]. cbv zeta.
  apply silent_bind; [exact quiet_now | intros t0]. eapply hoare_bind with
    (Q := fun r w => holds before w /\ (if IsSuccess r then ~ refuses else ~ accepts)).
  { intros w Hw. split; [by apply holds_silent; [apply apart_send |] |].
    destruct (IsSuccess _) eqn:E; intros Hall; [rewrite Hall in E | rewrite Hall in E]; discriminate. }
  intros r. apply hoare_fact. intros Hr.
  apply silent_bind; [exact quiet_now | intros t1]. apply silent_bind; [apply metric_silent | intros ?].
  eapply hoare_bind; [apply insert_attempt_keeps | intros ?]. destruct (IsSuccess r).
  - eapply hoare_bind; [apply hoare_when; repeat (apply silent_bind; [first [apply apart_observe | exact quiet_now] | intros ?]);
      apply holds_silent, apart_observe | intros ?].
    eapply hoare_bind; [apply status_settles; [by left | apply apart_success] | intros x w Hw; exact Hw].
  - intros w Hw. by split.
Qed.

Lemma attempts_settle fuel : forall job req n last,
  (~ accepts \/ fuel <> 0 /\ (n <= Dispatcher.maxAttempts)%Z) ->
  hoare (holds before) (Dispatcher.attempts d fuel ev job req n last)
    (fun x w => match x with Dispatcher.Returned _ => holds after w | Dispatcher.FellOut _ => holds before w /\ ~ accepts end).
Proof.
  induction fuel as [|fuel IH]; intros job req n last Hn; cbn [Dispatcher.attempts].
  { intros w Hw. split; [done |]. destruct Hn as [Hn|[[] _]]; [exact Hn | done]. }
  destruct (Z.leb_spec n Dispatcher.maxAttempts); cbn [negb].
  2: { intros w Hw. split; [done |]. destruct Hn as [Hn|[_ Hn]]; [exact Hn | lia]. }
  eapply hoare_bind with (Q := fun x w => holds before w /\ x = None).
  { destruct (1 <? n)%Z; [| intros w Hw; by split]. apply silent_bind; [apply metric_silent | intros ?].
    intros w Hw. split; [by apply holds_silent; [apply apart_wait |] | apply Hwaits]. }
  intros x. apply hoare_fact. intros ->. eapply hoare_bind; [apply deliver_settles | intros [r [o|]]; cbn [snd]].
  { intros w Hw. exact Hw. }
  apply hoare_fact. intros Hr. destruct (negb _); [intros w Hw; by split |]. apply IH. by left.
Qed.

(** What keeps a delivery from being tried: a job without a target, or a breaker that
    can refuse the target. *)
Definition blocked (j : Job) : Prop := d_WebhookURL (j_Delivery j) = "" \/
  Dispatcher.d_breaker d = true /\ exists w : W, is_ok (eval (Dispatcher.breaker_Allow (d_WebhookURL (j_Delivery j))) w) = false.
(** The status at the end of a dispatch for a job. *)
Definition resolved (j : Job) (s : string) : Prop := verdict s \/ s = ExecutionStatusInProgress /\ blocked j.
Definition dispatched (j : Job) (db : DB) : Prop := jobs db = js /\
  exists s, resolved j s /\ executions db = <[i := with_status s (e_ClaimedAt e) e]> ex.
Lemma dispatched_blocked j (w : W) : e_Status e = ExecutionStatusInProgress -> blocked j -> holds before w -> holds (dispatched j) w.
Proof.
  intros He Hb (Ha & Hex & Hjs). split; [exact Ha |]. split; [exact Hjs |]. exists ExecutionStatusInProgress. split; [by right |].
  rewrite Hex. symmetry. apply insert_id. rewrite Hrow. f_equal. destruct e; cbn in *. by subst.
Qed.
Lemma dispatched_after j (w : W) : holds after w -> holds (dispatched j) w.
Proof. intros (Ha & Hjs & s & Hs & He). split; [exact Ha |]. split; [exact Hjs |]. exists s. split; [by left | exact He]. Qed.
Lemma hoare_weaken {A} P (m : st W A) (Q Q' : A -> W -> Prop) : (forall a w, Q a w -> Q' a w) -> hoare P m Q -> hoare P m Q'.
Proof. intros HQ Hm w Hw. apply HQ, Hm, Hw. Qed.

(** A dispatch settles a claimed execution, or leaves it claimed. *)
Lemma dispatch_settles j :
  js !! ev_JobID ev = Some j -> e_Status e = ExecutionStatusInProgress ->
  hoare (holds before) (Dispatcher.Dispatch d ev) (fun _ => holds (dispatched j)).
Proof.
  intros Hj Hclaimed. unfold Dispatcher.Dispatch. apply silent_bind; [apply metric_silent | intros ?].
  eapply hoare_bind with (Q := fun _ => holds (dispatched j)).
  2: { intros r. eapply hoare_bind; [apply holds_silent, metric_silent | intros ? w Hw; exact Hw]. }
  unfold Dispatcher.dispatch_body. eapply hoare_bind with (Q := fun r w => holds before w /\ r = Ok (scanJobRow j)).
  { assert (Hget : hoare (holds before) (lift (GetJobByID (ev_JobID ev)))
      (fun r => holds (fun db => before db /\ r = Ok (scanJobRow j)))).
    { apply (holds_tx _ _ before (fun r db => before db /\ r = Ok (scanJobRow j))).
      intros v db _ [He Hjs]. unfold one_row, queryGetJobByID, query, mbind, stmt_bind. rewrite Hjs, Hj. by split. }
    intros w Hw. destruct (Hget w Hw) as (Ha & Hw' & Hr). by split. }
  intros x. apply hoare_fact. intros ->. apply silent_bind.
  { intros w. unfold Dispatcher.writeAnalytics. repeat case_match; first [done | apply apart_record]. }
  intros _. cbn [scanJobRow with_timeout_of j_Delivery d_WebhookURL]. destruct (String.eqb_spec (d_WebhookURL (j_Delivery j)) "").
  { intros w Hw. apply dispatched_blocked; [done | by left | exact Hw]. }
  set (url := d_WebhookURL (j_Delivery j)) in *.
  eapply hoare_bind with (Q := fun x w => holds before w /\ (is_ok x = false -> blocked j)).
  { intros w Hw. destruct (Dispatcher.d_breaker d) eqn:Hb; [| by split]. split; [by apply holds_silent; [apply apart_allow |] |].
    intros Hno. right. by split; [| exists w]. }
  intros [[]|er]; apply hoare_fact; intros Hx.
  2: { apply silent_bind; [apply metric_silent | intros ? w Hw]. apply dispatched_blocked; [done | by apply Hx | exact Hw]. }
  apply (hoare_weaken _ _ (fun _ => holds after)); [intros _; apply dispatched_after |]. unfold Dispatcher.run_attempts.
  eapply hoare_bind; [apply attempts_settle; right; split; [done | unfold Dispatcher.maxAttempts; lia] |].
  intros [r|last]; [intros w Hw; exact Hw |]. apply hoare_fact. intros Hr.
  apply silent_bind; [apply metric_silent | intros ?]. apply status_settles; [by right | apply apart_failure].
Qed.
End dispatch.

(** ** One round *)
Definition emitted (e : Execution) : Prop := e_Status e = ExecutionStatusEmitted.
Definition table (ex : gmap uuid Execution) (js : gmap uuid Job) (db : DB) : Prop :=
  wf_db db /\ executions db = ex /\ jobs db = js.

Section rounds.
  Variables (d : Dispatcher.Dispatcher) (interval : duration).
  Hypothesis Hwaits : forall t (w : W), eval (wait t) w = None.
  Hypothesis Hctx : forall w : W, eval ctx_Err w = None.

(** How an execution can end up for its job. *)
Definition settled (js : gmap uuid Job) (e : Execution) (s : string) : Prop :=
  exists j, js !! e_JobID e = Some j /\ resolved d j s.
(** What a round makes of the executions. *)
Definition advances (js : gmap uuid Job) (ex ex' : gmap uuid Execution) : Prop :=
  (ex' = ex /\ forall i e, ex !! i = Some e -> ~ emitted e) \/
  exists e s c, ex !! e_ID e = Some e /\ emitted e /\ settled js e s /\ ex' = <[e_ID e := with_status s c e]> ex.

Lemma alone_whole I p : alone p -> I (pg_db p) -> good I p.
Proof. intros Ha HI. split; [done |]. intros n db Hdb. destruct (Ha n) as (_ & _ & Ho). by rewrite Ho. Qed.

(** What the answer of a dequeue says about the tables. *)
Definition claimed (ex : gmap uuid Execution) (js : gmap uuid Job) (r : result err (option Execution)) (db : DB) : Prop :=
  match r with
  | Ok None => table ex js db /\ forall i e, ex !! i = Some e -> ~ emitted e
  | Ok (Some x) => exists e c, ex !! e_ID e = Some e /\ emitted e /\
      x = with_status ExecutionStatusInProgress None (scanSingleExecution e) /\ is_Some (js !! e_JobID e) /\
      before (<[e_ID e := with_status ExecutionStatusInProgress c e]> ex) js db
  | Err _ => False
  end.

Lemma claim_spec ex js v db : locked v = ∅ -> table ex js db ->
  match dequeue_tx v db with Ok (a, db') => claimed ex js (Ok a) db' | Err e => claimed ex js (Err e) db end.
Proof.
  intros Hl (Hwf & He & Hj). destruct (dequeue_tx_spec v db Hwf) as [[-> Hno] | (e & (Hi & Hem & _) & _ & ->)]; cbn.
  - split; [done |]. intros i e Hi Hem. apply (Hno e). split; [| split; [exact Hem | rewrite Hl; set_solver]].
    rewrite He. destruct (wf_execution _ Hwf i e) as [-> _]; [by rewrite He | done].
  - rewrite He in *. exists e. eexists. split; [done |]. split; [done |]. split; [done |]. split.
    + rewrite <- Hj. eapply (wf_execution _ Hwf). by rewrite He.
    + by split.
Qed.

Lemma round_advances ex js :
  hoare (holds (table ex js)) (Dispatcher.dbPollWorker_round d interval)
    (fun go w => go = true /\ exists ex', advances js ex ex' /\ holds (table ex' js) w).
Proof.
  intros w Hw.
  assert (Hwf : wf_db (pg_db (db_get (exec (Dispatcher.dbPollWorker_round d interval) w)))).
  { refine (proj1 (poll_maintains wf_db (fun _ => True) _ _ d interval w _)); [intros c _; apply wf_writers | done |].
    apply alone_whole; apply Hw. }
  enough (Hr : hoare (holds (table ex js)) (Dispatcher.dbPollWorker_round d interval)
    (fun go w => go = true /\ exists ex', advances js ex ex' /\ holds (fun db => executions db = ex' /\ jobs db = js) w)).
  { destruct (Hr w Hw) as (Hgo & ex' & Hadv & Ha & Hdb). split; [exact Hgo |]. exists ex'. split; [exact Hadv |]. split; [exact Ha |]. by split. }
  clear w Hw Hwf. unfold Dispatcher.dbPollWorker_round.
  eapply hoare_bind with (Q := fun x w => holds (table ex js) w /\ x = None).
  { intros w Hw. split; [by apply holds_silent; [apply apart_ctx |] | apply Hctx]. }
  intros x. apply hoare_fact. intros ->.
  eapply hoare_bind with (Q := fun r => holds (claimed ex js r)); [by apply (holds_run _ (table ex js)), claim_spec |].
  intros [[x|]|er].
  - intros w [Ha (e & c & Hi & Hem & -> & [j Hj] & Hdb)].
    set (ev := event_of_execution _ _). set (e' := with_status ExecutionStatusInProgress c e) in *.
    assert (Hd : hoare (holds (before (<[e_ID e := e']> ex) js)) (Dispatcher.Dispatch d ev)
      (fun _ => holds (dispatched d ev (<[e_ID e := e']> ex) js e' j))).
    { apply (dispatch_settles d ev _ js e'); [done | apply lookup_insert_eq | reflexivity | done | reflexivity]. }
    eapply hoare_bind; [exact Hd | | split; [exact Ha | exact Hdb]]. intros ? w' [Ha' (Hj' & s & Hs & He')]. split; [done |].
    eexists. split; [right; exists e, s, c; split; [done |]; split; [done |]; split; [by exists j | reflexivity] |].
    split; [exact Ha' |]. split; [| exact Hj']. etrans; [exact He' | apply insert_insert_eq].
  - eapply hoare_bind with (Q := fun x w => holds (claimed ex js (Ok None)) w /\ x = None).
    { intros w Hw. split; [by apply holds_silent; [apply apart_wait |] | apply Hwaits]. }
    intros x. apply hoare_fact. intros -> w [Ha [(_ & Hdb) Hno]]. split; [done |]. exists ex.
    split; [by left |]. by split.
  - by intros w [_ []].
Qed.

(** ** All rounds *)

(** How the executions end up: those that were emitted are settled, the others
    untouched. *)
Definition drained (js : gmap uuid Job) (ex ex' : gmap uuid Execution) : Prop := forall i,
  match ex !! i with
  | None => ex' !! i = None
  | Some e =>
      (~ emitted e /\ ex' !! i = Some e) \/
      (emitted e /\ exists s c, settled js e s /\ ex' !! i = Some (with_status s c e))
  end.
Definition backlog (ex : gmap uuid Execution) : nat := size (filter (fun p => emitted p.2) ex).

Lemma settled_moves js e s : settled js e s -> s <> ExecutionStatusEmitted.
Proof. by intros (j & _ & [[[-> _]|[-> _]]|[-> _]]). Qed.

Lemma drained_advance js ex e s c ex' :
  ex !! e_ID e = Some e -> emitted e -> settled js e s ->
  drained js (<[e_ID e := with_status s c e]> ex) ex' -> drained js ex ex'.
Proof.
  intros Hi Hem Hs Hd i. specialize (Hd i). destruct (decide (i = e_ID e)) as [->|].
  - rewrite lookup_insert_eq in Hd. rewrite Hi. right. split; [done |]. exists s, c. split; [done |].
    destruct Hd as [[_ Hd]|[Hd _]]; [done |]. by apply (settled_moves _ _ _ Hs) in Hd.
  - by rewrite lookup_insert_ne in Hd by done.
Qed.

Lemma backlog_advance js ex e s c :
  ex !! e_ID e = Some e -> emitted e -> settled js e s -> S (backlog (<[e_ID e := with_status s c e]> ex)) = backlog ex.
Proof.
  intros Hi Hem Hs. unfold backlog. rewrite map_filter_insert_False.
  - assert (Hin : filter (fun p => emitted p.2) ex !! e_ID e = Some e) by by apply map_lookup_filter_Some.
    rewrite map_filter_delete, map_size_delete_Some by eauto.
    assert (size (filter (fun p => emitted p.2) ex) <> 0); [| lia].
    rewrite map_size_ne_0_lookup. eauto.
  - intros Hemit. by apply (settled_moves _ _ _ Hs) in Hemit.
Qed.

Lemma backlog_none js ex : backlog ex = 0 -> drained js ex ex.
Proof.
  intros Hb i. destruct (ex !! i) as [e|] eqn:Hi; [| done]. left. split; [| done]. intros Hem.
  apply map_size_empty_inv in Hb. assert (Hin : filter (fun p => emitted p.2) ex !! i = Some e) by by apply map_lookup_filter_Some.
  by rewrite Hb, lookup_empty in Hin.
Qed.

Lemma backlog_idle ex : (forall i e, ex !! i = Some e -> ~ emitted e) -> backlog ex = 0.
Proof.
  intros Hno. apply map_size_empty_iff, map_eq. intros i. rewrite lookup_empty. apply map_lookup_filter_None.
  right. intros e Hi. by eapply Hno.
Qed.

Lemma rounds_drain js schedule live : forall ex,
  backlog ex <= length (filter (fun i => i ∈ live) schedule) ->
  hoare (holds (table ex js)) (Dispatcher.run_workers d schedule interval live)
    (fun still w => still = live /\ exists ex', drained js ex ex' /\ holds (table ex' js) w).
Proof.
  induction schedule as [|i schedule IH]; intros ex Hn; cbn [Dispatcher.run_workers].
  { intros w Hw. split; [done |]. exists ex. split; [apply backlog_none; cbn in Hn; lia | exact Hw]. }
  rewrite filter_cons in Hn. case_decide; [| by apply IH]. cbn in Hn.
  eapply hoare_bind; [apply round_advances |]. intros go w (-> & ex1 & Hadv & Hw). destruct Hadv as [[-> Hno] | (e & s & c & Hi & Hem & Hs & ->)].
  - apply (IH ex); [| exact Hw]. rewrite backlog_idle; [lia | done].
  - pose proof (backlog_advance js ex e s c Hi Hem Hs) as Hsz.
    destruct (IH (<[e_ID e := with_status s c e]> ex) ltac:(lia) w Hw) as (Hlive & ex' & Hd & Hw'). split; [done |]. exists ex'.
    split; [by eapply drained_advance | exact Hw'].
Qed.
End rounds.

(** C2: polling workers make progress: any number of workers, taking turns in any
    order, on a server that answers every call and that nobody else uses, while the
    context does not end, with as many rounds as there are emitted executions, leave
    no emitted execution behind. Each of them ends delivered, unless the receiver
    accepts nothing; or failed, unless it accepts everything; or it stays in
    progress, for the reconciler, which happens only when its job has no target or
    the dispatcher has a breaker that refuses the target at some time. All other
    executions and all jobs stay as they were, the database stays whole, and all
    workers go on. *)
Theorem polling_drains_backlog (d : Dispatcher.Dispatcher) (interval : duration) (workers : nat) (schedule : list nat) (w : W) :
  (forall t (w : W), eval (wait t) w = None) -> (forall w : W, eval ctx_Err w = None) -> alone (db_get w) ->
  let db := pg_db (db_get w) in
  wf_db db -> backlog (executions db) <= length (filter (fun i => i < workers) schedule) ->
  let db' := pg_db (db_get (exec (Dispatcher.RunDBPoll d schedule interval workers) w)) in
  wf_db db' /\ jobs db' = jobs db /\ drained d (jobs db) (executions db) (executions db') /\
  eval (Dispatcher.RunDBPoll d schedule interval workers) w = seq 0 workers.
Proof.
  intros Hw Hc Ha db Hwf Hn db'.
  rewrite (list_filter_iff _ (fun i => i ∈ seq 0 workers)) in Hn by (intros i; rewrite elem_of_seq; lia).
  destruct (rounds_drain d interval Hw Hc (jobs db) schedule (seq 0 workers) _ Hn w) as (Hlive & ex' & Hd & _ & Hwf' & <- & Hj);
    [split; [exact Ha | by split_and!] |].
  by split_and!.
Qed.

(** Without a breaker, and with a target in every job, nothing is left in progress. *)
Lemma nothing_left (d : Dispatcher.Dispatcher) js e s : Dispatcher.d_breaker d = false ->
  (forall i j, js !! i = Some j -> d_WebhookURL (j_Delivery j) <> "") -> settled d js e s -> verdict s.
Proof. intros Hb Hurl (j & Hj & [Hs|[_ [Hno|[Hb' _]]]]); [done | by apply Hurl in Hj | congruence]. Qed.

(** When the context has ended, every worker stops in its next round without a call
    of the store, so that [RunDBPoll] returns. *)
Lemma workers_return (d : Dispatcher.Dispatcher) (interval : duration) (workers : nat) (schedule : list nat) (w : W) (e : err) :
  (forall w : W, ctx_Err w = (Some e, w)) -> (forall i, i < workers -> i ∈ schedule) ->
  Dispatcher.RunDBPoll d schedule interval workers w = ([], w).
Proof.
  intros Hctx Hall. unfold Dispatcher.RunDBPoll.
  assert (Hin : forall i, i ∈ seq 0 workers -> i ∈ schedule) by (intros i Hi%elem_of_seq; apply Hall; lia). clear Hall.
  revert Hin. generalize (seq 0 workers) as live. induction schedule as [|i l IH]; intros live Hin; cbn [Dispatcher.run_workers].
  - destruct live as [|k live]; [done |]. destruct (not_elem_of_nil k). apply Hin. by left.
  - case_decide as Hi; [unfold Dispatcher.dbPollWorker_round, mbind, st_bind; rewrite Hctx; cbn |]; apply IH; intros k.
    + intros [Hne Hk]%list_elem_of_filter. by pose proof (Hin k Hk) as [?|?]%elem_of_cons.
    + intros Hk. pose proof (Hin k Hk) as [->|?]%elem_of_cons; done.
Qed.
End progress.

(** ** A backlog

    Two jobs that fired while no worker ran, and a receiver that answers every
    webhook with the same status. *)
Module Backlog.
Import System.Sim.
Definition fired : world := exec (perform (Tick sch 2)) two_jobs.
Definition on_db (db : DB) : world := {| w_pg := PgSim.alone db; w_n := 50; w_events := [] |}.
Lemma on_db_of db : pg_db (db_get (on_db db)) = db.
Proof. done. Qed.
Definition start : world := on_db (pg_db (db_get fired)).
Definition drain (code : Z) : world :=
  exec (@Dispatcher.RunDBPoll world _ (@out_sender _ (outside code)) _ _ _ _ Dispatcher.New [1; 0] Second 2) start.

Lemma start_wf : wf_db (pg_db (db_get start)).
Proof.
  assert (Hg : db_good wf_db fired).
  { apply (perform_maintains wf_db (fun _ => True)); [intros c _; apply wf_writers | done |].
    destruct (two_jobs_good "a") as [[Hwf _ _] _]. split; [exact Hwf |]. intros n db Hdb. vm_compute. exact Hdb. }
  unfold start. rewrite on_db_of. exact (proj1 Hg).
Qed.
End Backlog.
Import System.Sim.

Lemma polling_drains_backlog_witness :
  let db := pg_db (db_get Backlog.start) in let w' := Backlog.drain 204 in
  backlog (executions db) = 2 /\ map snd (Sim.statuses w') = [ExecutionStatusDelivered; ExecutionStatusDelivered] /\
  wf_db (pg_db (db_get w')) /\ jobs (pg_db (db_get w')) = jobs db /\
  @drained _ (Sim.outside 204) Dispatcher.New (jobs db) (executions db) (executions (pg_db (db_get w'))) /\
  eval (@Dispatcher.RunDBPoll _ _ (@out_sender _ (Sim.outside 204)) _ _ _ _ Dispatcher.New [1; 0] Second 2) Backlog.start = [0; 1].
Proof.
  split; [vm_compute; reflexivity |]. split; [vm_compute; reflexivity |].
  exact (polling_drains_backlog (Outside0 := Sim.outside 204) (Apart0 := Sim.outside_apart 204) Dispatcher.New Second 2 [1; 0]
    Backlog.start (fun _ _ => eq_refl) (fun _ => eq_refl) (fun n => conj eq_refl (conj eq_refl (fun _ => eq_refl)))
    Backlog.start_wf ltac:(vm_compute; lia)).
Defined.
