(* ===== verification/Float64.v ===== *)
(** * Go's float64

    IEEE 754 binary64 with rounding to nearest, ties to even, as far as the
    program computes with it: conversions from and to integers, products,
    quotients and sums of numbers that are not negative. *)
From S2P Require Import Prelude.
From Stdlib Require Import SpecFloat.

Abbreviation float64 := spec_float (only parsing).
Definition prec : Z := 53.
Definition emax : Z := 1024.

(** [float64(n)] of an integer. *)
Definition of_int (n : Z) : float64 := binary_normalize prec emax n 0 false.
Definition fmul : float64 -> float64 -> float64 := SFmul prec emax.
Definition fdiv : float64 -> float64 -> float64 := SFdiv prec emax.
Definition fadd : float64 -> float64 -> float64 := SFadd prec emax.

(** The conversion to an integer type drops the fraction; [None] for what is not
    a number with an integer part, where Go leaves the result open. *)
Definition trunc (f : float64) : option Z :=
  match f with
  | S754_zero _ => Some 0%Z
  | S754_finite s m e =>
      let n := (if e <? 0 then Z.pos m / 2 ^ (- e) else Z.pos m * 2 ^ e)%Z in
      Some (if s then (- n)%Z else n)
  | _ => None
  end.
(** [int(f)]: [unspecified] stands for what the hardware gives for a value that
    does not fit. *)
Definition to_int (unspecified : float64 -> Z) (f : float64) : Z :=
  match trunc f with
  | Some n => if (int64_min <=? n)%Z && (n <=? int64_max)%Z then n else unspecified f
  | None => unspecified f
  end.

Example of_int_ex : map (fun n => trunc (of_int n)) [0; 1; -7; 2 ^ 53 + 1; 2 ^ 63]%Z =
  map Some [0; 1; -7; 2 ^ 53; 2 ^ 63]%Z.
Proof. vm_compute. reflexivity. Qed.
Example half_ex : trunc (fmul (fdiv (of_int 1) (of_int 20)) (of_int 10)) = Some 0%Z.
Proof. vm_compute. reflexivity. Qed.

(** ** Bounds

    How far rounding can take a result from its exact value, coarsely: enough to
    show that the integers the program computes through floats do not overflow.
    Values are scaled by [2 ^ scale], below every unit in the last place. *)
Definition scale : Z := 3000.
Definition val (m e : Z) : Z := (m * 2 ^ (e + scale))%Z.
(** A number that is not negative, at most [v], with an exponent up to [E]. *)
Definition below (v E : Z) (f : float64) : Prop :=
  match f with
  | S754_zero false => True
  | S754_finite false m e => (-1074 <= e <= E)%Z /\ (val (Z.pos m) e <= v * 2 ^ scale)%Z
  | _ => False
  end.

Lemma val_shift m e k : (0 <= k)%Z -> (0 <= e + scale)%Z -> val (m * 2 ^ k) e = val m (e + k).
Proof. intros. unfold val. replace (e + k + scale)%Z with (k + (e + scale))%Z by lia. rewrite (Z.pow_add_r 2 k) by lia. ring. Qed.

Lemma pow_scale_pos e : (0 <= e + scale)%Z -> (0 < 2 ^ (e + scale))%Z.
Proof. intros. apply Z.pow_pos_nonneg; lia. Qed.

(** Digits. *)
Lemma digits2_pos_spec p : (2 ^ (Z.pos (digits2_pos p) - 1) <= Z.pos p < 2 ^ Z.pos (digits2_pos p))%Z.
Proof.
  induction p as [p IH|p IH|]; cbn [digits2_pos]; [| | cbn; lia].
  all: set (d := Z.pos (digits2_pos p)) in *;
    assert (E : (2 ^ d = 2 * 2 ^ (d - 1))%Z) by (rewrite <- Z.pow_succ_r by lia; f_equal; lia);
    rewrite Pos2Z.inj_succ; fold d; replace (Z.succ d - 1)%Z with d by lia; rewrite Z.pow_succ_r by lia.
  - rewrite (Pos2Z.inj_xI p). lia.
  - rewrite (Pos2Z.inj_xO p). lia.
Qed.

(** Shifting right is a division. *)
Lemma shr_iter p : forall r, (0 <= shr_m r)%Z -> shr_m (iter_pos shr_1 p r) = (shr_m r / 2 ^ Z.pos p)%Z.
Proof.
  assert (H1 : forall r, (0 <= shr_m r)%Z -> shr_m (shr_1 r) = (shr_m r / 2)%Z /\ (0 <= shr_m (shr_1 r))%Z).
  { intros [m r s] Hm. cbn [shr_m] in *. rewrite <- Z.div2_div. destruct m as [|[q|q|]|q]; cbn; lia. }
  induction p as [p IH|p IH|]; intros r Hr; cbn [iter_pos].
  - destruct (H1 r Hr) as [E1 Hr1]. pose proof (IH _ Hr1) as E2.
    assert (Hr2 : (0 <= shr_m (iter_pos shr_1 p (shr_1 r)))%Z) by (rewrite E2; apply Z.div_pos; lia).
    rewrite (IH _ Hr2), E2, E1, !Z.div_div, (Pos2Z.inj_xI p) by lia. f_equal.
    replace (2 * Z.pos p + 1)%Z with (1 + (Z.pos p + Z.pos p))%Z by lia. rewrite !Z.pow_add_r by lia. lia.
  - pose proof (IH _ Hr) as E2.
    assert (Hr2 : (0 <= shr_m (iter_pos shr_1 p r))%Z) by (rewrite E2; apply Z.div_pos; lia).
    rewrite (IH _ Hr2), E2, Z.div_div, (Pos2Z.inj_xO p) by lia. f_equal.
    replace (2 * Z.pos p)%Z with (Z.pos p + Z.pos p)%Z by lia. by rewrite Z.pow_add_r by lia.
  - apply H1, Hr.
Qed.

Lemma val_mono m m' e : (0 <= e + scale)%Z -> (m <= m')%Z -> (val m e <= val m' e)%Z.
Proof. intros He Hm. unfold val. apply Z.mul_le_mono_nonneg_r; [|done]. pose proof (pow_scale_pos e He). lia. Qed.
Lemma val_div m e k : (0 <= m)%Z -> (0 <= k)%Z -> (0 <= e + scale)%Z -> (val (m / 2 ^ k) (e + k) <= val m e)%Z.
Proof.
  intros Hm Hk He. rewrite <- val_shift by lia. apply val_mono; [done |].
  pose proof (Z.mul_div_le m (2 ^ k)). pose proof (Z.pow_pos_nonneg 2 k). lia.
Qed.

(** The number of digits of a value bounds its exponent. *)
Lemma digits_bound m e k : (0 < m)%Z -> (0 <= e + scale)%Z -> (0 <= k)%Z ->
  (val m e <= 2 ^ (k + scale))%Z -> (Zdigits2 m + e <= k + 1)%Z /\ (2 ^ (Zdigits2 m - 1) <= m)%Z.
Proof.
  intros Hm He Hk Hv. destruct m as [|p|p]; try lia. cbn [Zdigits2]. pose proof (digits2_pos_spec p) as [Hd _].
  split; [| done]. apply Z.nlt_ge. intros Hlt. unfold val in Hv.
  assert (Hle : (2 ^ (Z.pos (digits2_pos p) - 1) * 2 ^ (e + scale) <= 2 ^ (k + scale))%Z).
  { etrans; [| exact Hv]. apply Z.mul_le_mono_nonneg_r; [| done]. pose proof (pow_scale_pos e He). lia. }
  rewrite <- Z.pow_add_r in Hle by lia. apply Z.pow_le_mono_r_iff in Hle; unfold scale in *; lia.
Qed.

Lemma shr_fexp_spec m e l : (0 <= m)%Z -> (0 <= e + scale)%Z ->
  let '(r, e') := shr_fexp prec emax m e l in
  shr_m r = (m / 2 ^ (e' - e))%Z /\ (e <= e')%Z /\ (-1074 <= e')%Z /\
  (e' = e \/ e' = Z.max (Zdigits2 m + e - 53) (-1074))%Z.
Proof.
  intros Hm He. unfold shr_fexp, fexp, SpecFloat.emin. change (3 - emax - prec)%Z with (-1074)%Z. change prec with 53%Z.
  set (x := Z.max _ _). assert (Hx : (-1074 <= x)%Z) by lia.
  assert (Hr : shr_m (shr_record_of_loc m l) = m) by (destruct l as [|[]]; done).
  destruct (x - e)%Z as [|p|p] eqn:E; cbn [shr].
  - rewrite Hr, Z.sub_diag, Z.div_1_r. lia.
  - rewrite shr_iter by (rewrite Hr; done). rewrite Hr. split; [f_equal; f_equal; lia | lia].
  - rewrite Hr, Z.sub_diag, Z.div_1_r. lia.
Qed.

(** The unit in the last place, after rounding. *)
Lemma unit_bound m e e' v E : (0 <= m)%Z -> (-2900 <= e <= E)%Z -> (0 <= E)%Z -> (0 <= v <= 2 ^ 63)%Z ->
  (val m e <= v * 2 ^ scale)%Z -> (e' = e \/ e' = Z.max (Zdigits2 m + e - 53) (-1074))%Z ->
  (2 ^ (e' + scale) <= (v + 2 ^ E) * 2 ^ scale)%Z /\ (e' <= Z.max E 16)%Z.
Proof.
  intros Hm He HE Hv Hval Hcase.
  assert (Hsc : (0 < 2 ^ scale)%Z) by (apply Z.pow_pos_nonneg; unfold scale; lia).
  assert (Hup : forall k, (k <= E)%Z -> (2 ^ (k + scale) <= (v + 2 ^ E) * 2 ^ scale)%Z).
  { intros k Hk. etrans; [apply (Z.pow_le_mono_r 2 _ (E + scale)); lia |].
    rewrite Z.pow_add_r by (unfold scale; lia). apply Z.mul_le_mono_nonneg_r; lia. }
  assert (Hlow : (e' <= E)%Z -> (2 ^ (e' + scale) <= (v + 2 ^ E) * 2 ^ scale)%Z /\ (e' <= Z.max E 16)%Z) by (split; [auto | lia]).
  destruct Hcase as [-> | ->]; [apply Hlow; lia |].
  destruct (Z.max_spec (Zdigits2 m + e - 53) (-1074)) as [[_ Hm']|[_ Hm']]; rewrite Hm' in *; [apply Hlow; lia |].
  destruct (decide (m = 0)%Z) as [->|]; [apply Hlow; cbn; lia |].
  destruct (digits_bound m e 63) as [Hd Hp]; [lia | unfold scale; lia | done | |].
  { etrans; [exact Hval |]. rewrite Z.pow_add_r by (unfold scale; lia). apply Z.mul_le_mono_nonneg_r; lia. }
  split; [| lia]. etrans; [apply (Z.pow_le_mono_r 2 _ (Zdigits2 m - 1 + (e + scale))); lia |].
  assert (Hd1 : (0 <= Zdigits2 m - 1)%Z) by (destruct m; cbn; lia).
  rewrite Z.pow_add_r by (unfold scale; lia). etrans; [apply Z.mul_le_mono_nonneg_r; [apply Z.pow_nonneg; lia | exact Hp] |].
  etrans; [exact Hval |]. apply Z.mul_le_mono_nonneg_r; [lia |]. pose proof (Z.pow_nonneg 2 E). lia.
Qed.

Lemma round_below m e l v E : (0 <= m)%Z -> (-2900 <= e <= E)%Z -> (0 <= E <= 60)%Z -> (0 <= v <= 2 ^ 61)%Z ->
  (val m e <= v * 2 ^ scale)%Z -> below (2 * v + 2 ^ E + 1) (Z.max E 16) (binary_round_aux prec emax false m e l).
Proof.
  intros Hm He HE Hv Hval. unfold binary_round_aux.
  assert (Hs : (0 <= e + scale)%Z) by (unfold scale; lia).
  pose proof (shr_fexp_spec m e l Hm Hs) as H1. destruct (shr_fexp prec emax m e l) as [r1 e1].
  destruct H1 as (Hr1 & Hle1 & Hmin1 & Hcase1).
  assert (Hs1 : (0 <= e1 + scale)%Z) by lia.
  assert (Hm1 : (0 <= shr_m r1)%Z) by (rewrite Hr1; apply Z.div_pos; [done | apply Z.pow_pos_nonneg; lia]).
  assert (Hv1 : (val (shr_m r1) e1 <= v * 2 ^ scale)%Z).
  { etrans; [| exact Hval]. rewrite Hr1. replace e1 with (e + (e1 - e))%Z at 2 by lia. apply val_div; lia. }
  assert (Hpow : (v * 2 ^ scale <= 2 ^ (61 + scale))%Z).
  { rewrite Z.pow_add_r by (unfold scale; lia). apply Z.mul_le_mono_nonneg_r; [apply Z.pow_nonneg; lia | lia]. }
  assert (Hsc : (0 < 2 ^ scale)%Z) by (apply Z.pow_pos_nonneg; unfold scale; lia).
  assert (HpE : (0 < 2 ^ E)%Z) by (apply Z.pow_pos_nonneg; lia).
  destruct (unit_bound m e e1 v E) as [Hu1 HE1]; [done | lia | lia | lia | done | done |].
  set (m1 := round_nearest_even _ _).
  assert (Hm1' : (shr_m r1 <= m1 <= shr_m r1 + 1)%Z).
  { unfold m1, round_nearest_even. destruct (loc_of_shr_record r1) as [|[]]; [lia | destruct (Z.even _) | |]; lia. }
  assert (Hv1' : (val m1 e1 <= (2 * v + 2 ^ E) * 2 ^ scale)%Z).
  { etrans; [apply (val_mono _ (shr_m r1 + 1)); lia |]. unfold val in *. nia. }
  assert (H62 : (2 * v + 2 ^ E <= 2 ^ 62 + 2 ^ 60)%Z) by (pose proof (Z.pow_le_mono_r 2 E 60); lia).
  pose proof (shr_fexp_spec m1 e1 loc_Exact ltac:(lia) Hs1) as H2. destruct (shr_fexp prec emax m1 e1 loc_Exact) as [r2 e2].
  destruct H2 as (Hr2 & Hle2 & Hmin2 & Hcase2).
  destruct (unit_bound m1 e1 e2 (2 * v + 2 ^ E) (Z.max E 16)) as [_ HE2]; [lia | lia | lia | lia | done | done |].
  assert (Hv2 : (val (shr_m r2) e2 <= (2 * v + 2 ^ E) * 2 ^ scale)%Z).
  { etrans; [| exact Hv1']. rewrite Hr2. replace e2 with (e1 + (e2 - e1))%Z at 2 by lia. apply val_div; lia. }
  assert (Hm2 : (0 <= shr_m r2)%Z) by (rewrite Hr2; apply Z.div_pos; [lia | apply Z.pow_pos_nonneg; lia]).
  destruct (shr_m r2) as [|p|p] eqn:Ep; [done | | lia].
  destruct (Z.leb_spec e2 (emax - prec)); [| unfold emax, prec in *; lia]. cbn [below]. split; [lia | nia].
Qed.

Lemma iter_xO p d : Z.pos (Pos.iter xO p d) = (Z.pos p * 2 ^ Z.pos d)%Z.
Proof.
  induction d as [|d IH] using Pos.peano_ind; [cbn; lia |].
  rewrite Pos.iter_succ, Pos2Z.inj_xO, IH, Pos2Z.inj_succ, Z.pow_succ_r by lia. ring.
Qed.
Lemma shl_align_spec m e e' : (0 <= e' + scale)%Z ->
  let '(m1, e1) := shl_align m e e' in val (Z.pos m1) e1 = val (Z.pos m) e /\ e1 = Z.min e e'.
Proof.
  intros He. unfold shl_align. destruct (e' - e)%Z as [|d|d] eqn:E; [split; [done | lia] | split; [done | lia] |].
  rewrite iter_xO. rewrite val_shift by lia. split; [f_equal; lia | lia].
Qed.

Lemma binary_round_below p e v : (-1400 <= e <= 60)%Z -> (0 <= v <= 2 ^ 61)%Z -> (val (Z.pos p) e <= v * 2 ^ scale)%Z ->
  below (2 * v + 2 ^ Z.max 0 e + 1) (Z.max (Z.max 0 e) 16) (binary_round prec emax false p e).
Proof.
  intros He Hv Hval. unfold binary_round. set (x := fexp _ _ _).
  assert (Hx : (-1074 <= x)%Z) by (unfold x, fexp, SpecFloat.emin, emax, prec; lia).
  pose proof (shl_align_spec p e x ltac:(unfold scale; lia)) as Ha. destruct (shl_align p e x) as [m1 e1]. destruct Ha as [Ha ->].
  apply round_below; [lia | lia | lia | done | by rewrite Ha].
Qed.

(** ** The operations *)
Lemma below_weaken v E v' E' f : (v <= v')%Z -> (E <= E')%Z -> below v E f -> below v' E' f.
Proof.
  intros Hv HE. destruct f as [[]|[]| |[] m e]; cbn; try done. intros [? ?]. split; [lia |].
  assert (0 < 2 ^ scale)%Z by (apply Z.pow_pos_nonneg; unfold scale; lia). nia.
Qed.

Lemma of_int_below n : (0 <= n <= 2 ^ 60)%Z -> below (2 * n + 2) 16 (of_int n).
Proof.
  intros Hn. unfold of_int, binary_normalize. destruct n as [|p|p]; [done | | lia].
  eapply below_weaken; [| | apply (binary_round_below p 0 (Z.pos p)); [lia | lia |]]; [change (2 ^ Z.max 0 0)%Z with 1%Z; lia | lia |]. unfold val. by rewrite Z.add_0_l.
Qed.

Lemma below_zero v E f : below v E f -> f = S754_zero false \/ exists m e, f = S754_finite false m e /\ (-1074 <= e <= E)%Z /\
  (val (Z.pos m) e <= v * 2 ^ scale)%Z.
Proof. destruct f as [[]|[]| |[] m e]; cbn; eauto 8; done. Qed.

(** The exact product of the significands. *)
Lemma val_mul m e m' e' v v' : (-1074 <= e)%Z -> (-1074 <= e')%Z -> (0 <= v)%Z ->
  (val (Z.pos m) e <= v * 2 ^ scale)%Z -> (val (Z.pos m') e' <= v' * 2 ^ scale)%Z ->
  (val (Z.pos m * Z.pos m') (e + e') <= v * v' * 2 ^ scale)%Z.
Proof.
  intros He He' Hv H1 H2. unfold val in *.
  assert (Hsc : (0 < 2 ^ scale)%Z) by (apply Z.pow_pos_nonneg; unfold scale; lia).
  assert (E : (2 ^ (e + scale) * 2 ^ (e' + scale) = 2 ^ (e + e' + scale) * 2 ^ scale)%Z)
    by (rewrite <- !Z.pow_add_r by (unfold scale; lia); f_equal; lia).
  apply (Z.mul_le_mono_pos_r _ _ (2 ^ scale) Hsc).
  replace (Z.pos m * Z.pos m' * 2 ^ (e + e' + scale) * 2 ^ scale)%Z
    with ((Z.pos m * 2 ^ (e + scale)) * (Z.pos m' * 2 ^ (e' + scale)))%Z by (rewrite <- !Z.mul_assoc, <- E; ring).
  replace (v * v' * 2 ^ scale * 2 ^ scale)%Z with ((v * 2 ^ scale) * (v' * 2 ^ scale))%Z by ring.
  apply Z.mul_le_mono_nonneg; try done; apply Z.mul_nonneg_nonneg; try lia; apply Z.pow_nonneg; lia.
Qed.

Lemma fmul_below f g v w E F : below v E f -> below w F g -> (0 <= v)%Z -> (0 <= w)%Z -> (v * w <= 2 ^ 61)%Z ->
  (0 <= E)%Z -> (0 <= F)%Z -> (E + F <= 60)%Z ->
  below (2 * (v * w) + 2 ^ (E + F) + 1) (Z.max (E + F) 16) (fmul f g).
Proof.
  intros [->|(m & e & -> & He & Hf)]%below_zero [->|(m' & e' & -> & He' & Hg)]%below_zero Hv Hw Hvw HE HF HEF; try done.
  cbn [fmul SFmul xorb]. apply round_below; [lia | lia | lia | nia |]. rewrite Pos2Z.inj_mul. apply val_mul; lia || done.
Qed.
Lemma fmul_zero_l v E f : below v E f -> fmul (S754_zero false) f = S754_zero false.
Proof. by intros [->|(m & e & -> & _)]%below_zero. Qed.

Lemma fadd_below f g v w E F : below v E f -> below w F g -> (0 <= v)%Z -> (0 <= w)%Z -> (v + w <= 2 ^ 61)%Z ->
  (0 <= E <= 60)%Z -> (0 <= F <= 60)%Z ->
  below (2 * (v + w) + 2 ^ Z.max E F + 1) (Z.max (Z.max E F) 16) (fadd f g).
Proof.
  intros Hf Hg Hv Hw Hvw HE HF.
  assert (Hp : forall k, (0 <= 2 ^ k)%Z) by (intros; apply Z.pow_nonneg; lia).
  pose proof (Hp (Z.max E F)).
  destruct (below_zero _ _ _ Hf) as [->|(m & e & -> & He & Hf')], (below_zero _ _ _ Hg) as [->|(m' & e' & -> & He' & Hg')].
  - done.
  - eapply below_weaken; [| | exact Hg]; lia.
  - eapply below_weaken; [| | exact Hf]; lia.
  - cbn [fadd SFadd]. pose proof (shl_align_spec m e (Z.min e e') ltac:(unfold scale; lia)) as H1.
    pose proof (shl_align_spec m' e' (Z.min e e') ltac:(unfold scale; lia)) as H2.
    destruct (shl_align m e _) as [m1 e1], (shl_align m' e' _) as [m2 e2]. destruct H1 as [H1 ->], H2 as [H2 ->].
    replace (Z.min e (Z.min e e')) with (Z.min e e') in H1 by lia. replace (Z.min e' (Z.min e e')) with (Z.min e e') in H2 by lia.
    cbn [fst cond_Zopp]. rewrite <- Pos2Z.inj_add. cbn [binary_normalize].
    eapply below_weaken; [| | apply (binary_round_below _ _ (v + w)); [lia | lia |]].
    + pose proof (Z.pow_le_mono_r 2 (Z.max 0 (Z.min e e')) (Z.max E F)). lia.
    + lia.
    + rewrite Pos2Z.inj_add. unfold val in *. rewrite Z.mul_add_distr_r. lia.
Qed.

(** The quotient by a billion, which is a float. *)
Definition billion : float64 := S754_finite false 8388608000000000 (-23).
Lemma of_int_billion : of_int 1000000000 = billion.
Proof. vm_compute. reflexivity. Qed.

Lemma fdiv_billion_below f v E : below v E f -> (0 <= v <= 2 ^ 61)%Z -> (0 <= E <= 30)%Z ->
  below (2 * v + 2 ^ (E + 23) + 1) (E + 23) (fdiv f billion).
Proof.
  intros [->|(m & e & -> & He & Hf)]%below_zero Hv HE; [done |]. unfold fdiv, billion. cbn [SFdiv xorb].
  unfold SFdiv_core_binary. set (d := Zdigits2 (Z.pos 8388608000000000)). assert (Hd : d = 53%Z) by reflexivity.
  set (x := fexp _ _ _). assert (Hx : (-1074 <= x)%Z) by (unfold x, fexp, SpecFloat.emin, emax, prec; lia).
  set (e' := Z.min x (e - -23)). set (s := (e - -23 - e')%Z). set (m' := match s with Z0 => _ | _ => _ end).
  assert (Hm' : m' = (Z.pos m * 2 ^ s)%Z).
  { unfold m'. destruct s as [|p|p] eqn:Es; [by rewrite Z.mul_1_r | by rewrite Z.shiftl_mul_pow2 by lia | lia]. }
  pose proof (Z_div_mod m' (Z.pos 8388608000000000) ltac:(lia)) as Hq.
  destruct (Z.div_eucl m' _) as [q r]. destruct Hq as [Hq Hr].
  assert (Hm0 : (0 <= m')%Z) by (rewrite Hm'; apply Z.mul_nonneg_nonneg; [lia | apply Z.pow_nonneg; lia]).
  eapply below_weaken; [| | apply (round_below q e' _ v (E + 23)); [lia | lia | lia | lia |]]; [lia | lia |].
  etrans; [| exact Hf]. unfold val.
  replace (2 ^ (e + scale))%Z with (2 ^ s * 2 ^ (e' + scale - 23))%Z
    by (rewrite <- Z.pow_add_r by (unfold scale; lia); f_equal; lia).
  replace (2 ^ (e' + scale))%Z with (2 ^ 23 * 2 ^ (e' + scale - 23))%Z
    by (rewrite <- Z.pow_add_r by (unfold scale; lia); f_equal; lia).
  rewrite !Z.mul_assoc, <- Hm'. apply Z.mul_le_mono_nonneg_r; [apply Z.pow_nonneg; lia | lia].
Qed.

(** The integer part of a bounded number fits. *)
Lemma trunc_below f v E : below v E f -> (0 <= v)%Z -> exists n, trunc f = Some n /\ (0 <= n <= v)%Z.
Proof.
  intros [->|(m & e & -> & He & Hf)]%below_zero Hv; cbn [trunc]; [by exists 0%Z; split; [| lia] |].
  eexists. split; [done |]. unfold val in Hf. assert (Hsc : (0 < 2 ^ scale)%Z) by (apply Z.pow_pos_nonneg; unfold scale; lia).
  destruct (Z.ltb_spec e 0) as [Hneg|Hpos].
  - split; [apply Z.div_pos; [lia | apply Z.pow_pos_nonneg; lia] |].
    apply Z.div_le_upper_bound; [apply Z.pow_pos_nonneg; lia |].
    assert (Hp : (0 < 2 ^ (e + scale))%Z) by (apply Z.pow_pos_nonneg; unfold scale; lia).
    apply (Z.mul_le_mono_pos_r _ _ (2 ^ (e + scale)) Hp). etrans; [exact Hf |].
    replace (2 ^ scale)%Z with (2 ^ (- e) * 2 ^ (e + scale))%Z by (rewrite <- Z.pow_add_r by (unfold scale; lia); f_equal; lia).
    lia.
  - split; [apply Z.mul_nonneg_nonneg; [lia | apply Z.pow_nonneg; lia] |].
    apply (Z.mul_le_mono_pos_r _ _ (2 ^ scale) Hsc). etrans; [| exact Hf]. rewrite Z.pow_add_r by (unfold scale; lia). lia.
Qed.
Lemma to_int_below u f v E : below v E f -> (0 <= v <= int64_max)%Z -> (0 <= to_int u f <= v)%Z.
Proof.
  intros Hf Hv. destruct (trunc_below f v E Hf ltac:(lia)) as (n & E1 & Hn). unfold to_int, int64_min, int64_max in *.
  rewrite E1. destruct (_ <=? n)%Z eqn:E2, (n <=? _)%Z eqn:E3; cbn [andb]; lia.
Qed.

(** [Duration.Seconds]. *)
Definition Seconds (d : duration) : float64 :=
  fadd (of_int (Z.quot d Second)) (fdiv (of_int (Z.rem d Second)) (of_int 1000000000)).

Lemma Seconds_below d : (0 <= d <= int64_max)%Z -> below (2 ^ 43) 39 (Seconds d).
Proof.
  intros Hd. unfold int64_max, Seconds, Second in *. rewrite of_int_billion.
  assert (Hq : (0 <= Z.quot d 1000000000 <= 2 ^ 34)%Z).
  { split; [apply Z.quot_pos; lia |]. apply Z.quot_le_upper_bound; lia. }
  pose proof (Z.rem_bound_pos d 1000000000 ltac:(lia) ltac:(lia)) as Hr.
  eapply below_weaken; [| | apply (fadd_below _ _ (2 ^ 36) (2 ^ 40) 16 39)]; change (Z.max 16 39) with 39%Z; try lia.
  - eapply below_weaken; [| | apply of_int_below]; lia.
  - eapply below_weaken; [| | apply (fdiv_billion_below _ (2 ^ 31) 16); [eapply below_weaken; [| | apply of_int_below]; lia | lia | lia]]; lia.
Qed.

Example Seconds_ex : map (fun d => trunc (fmul (Seconds d) (of_int 1000))) [0; 1500 * Millisecond; 999999]%Z = [Some 0; Some 1500; Some 0]%Z.
Proof. vm_compute. reflexivity. Qed.
