(* ===== verification/GoDuration.v ===== *)
(** * Go's durations as text: [time.ParseDuration] and [Duration.String] *)
From S2P Require Import Prelude GoStrings Float64.

(** ** Parsing *)

(** [1<<63], as an unsigned number. *)
Definition two63 : Z := 2 ^ 63.
Definition wrapU64 (z : Z) : Z := z mod 2 ^ 64.

(** [quote] of the package: bytes outside of printable ASCII in hexadecimal. *)
Fixpoint quote_bytes (s : string) : string :=
  match s with
  | EmptyString => EmptyString
  | String c s' =>
      let b := byte_of c in
      (if (128 <=? b)%Z || (b <? 32)%Z
       then "\x" +:+ String (hex_digit (b / 16)) (String (hex_digit (b mod 16)) EmptyString)
       else if (b =? 34)%Z || (b =? 92)%Z then String "\" (String c EmptyString)
       else String c EmptyString) +:+ quote_bytes s'
  end.
Definition dquote : string := String (of_byte 34) EmptyString.
Definition quote (s : string) : string := dquote +:+ quote_bytes s +:+ dquote.

Definition unitMap (u : string) : option Z :=
  if String.eqb u "ns" then Some Nanosecond
  else if String.eqb u "us" || String.eqb u "µs" || String.eqb u "μs" then Some Microsecond
  else if String.eqb u "ms" then Some Millisecond
  else if String.eqb u "s" then Some Second
  else if String.eqb u "m" then Some Minute
  else if String.eqb u "h" then Some Hour
  else None.

(** [leadingInt]: [None] is its error, an overflow. *)
Fixpoint leadingInt (x : Z) (s : string) : option (Z * string) :=
  match s with
  | EmptyString => Some (x, s)
  | String c s' =>
      if negb (is_digit c) then Some (x, s)
      else if (two63 / 10 <? x)%Z then None
      else
        let x := (x * 10 + digit_val c)%Z in
        if (two63 <? x)%Z then None else leadingInt x s'
  end.

(** [leadingFraction]: digits past the precision are skipped. *)
Fixpoint leadingFraction (x : Z) (scale : float64) (overflow : bool) (s : string) : Z * float64 * string :=
  match s with
  | EmptyString => (x, scale, s)
  | String c s' =>
      if negb (is_digit c) then (x, scale, s)
      else if overflow then leadingFraction x scale true s'
      else if ((two63 - 1) / 10 <? x)%Z then leadingFraction x scale true s'
      else
        let y := (x * 10 + digit_val c)%Z in
        if (two63 <? y)%Z then leadingFraction x scale true s'
        else leadingFraction y (fmul scale (of_int 10)) false s'
  end.

(** The unit: up to the next digit or period. *)
Fixpoint unit_span (s : string) : string * string :=
  match s with
  | EmptyString => (EmptyString, EmptyString)
  | String c s' =>
      if decide (c = "."%char) then (EmptyString, s)
      else if is_digit c then (EmptyString, s)
      else let '(u, rest) := unit_span s' in (String c u, rest)
  end.

(** [uint64(f)]. *)
Definition to_uint64 (f : float64) : Z := wrapU64 (default 0%Z (trunc f)).

(** The part after a period, if there is one, and whether it had digits. *)
Definition fraction (s : string) : Z * float64 * string * bool :=
  match s with
  | String c s' =>
      if decide (c = "."%char)
      then let '(f, scale, s2) := leadingFraction 0 (of_int 1) false s' in
           (f, scale, s2, negb (String.length s2 =? String.length s'))
      else (0%Z, of_int 1, s, false)
  | EmptyString => (0%Z, of_int 1, s, false)
  end.

(** One number with its unit: its nanoseconds and the rest of the text. *)
Definition parse_one (orig s : string) : result string (Z * string) :=
  let invalid := Err ("time: invalid duration " +:+ quote orig) in
  match s with
  | EmptyString => invalid
  | String c _ =>
      if negb (bool_decide (c = "."%char) || is_digit c) then invalid else
      match leadingInt 0 s with
      | None => invalid
      | Some (v, s1) =>
          let pre := negb (String.length s1 =? String.length s) in
          let '(f, scale, s2, post) := fraction s1 in
          if negb pre && negb post then invalid else
          let '(u, s3) := unit_span s2 in
          if String.eqb u "" then Err ("time: missing unit in duration " +:+ quote orig) else
          match unitMap u with
          | None => Err ("time: unknown unit " +:+ quote u +:+ " in duration " +:+ quote orig)
          | Some unit =>
              if (two63 / unit <? v)%Z then invalid else
              let v := (v * unit)%Z in
              if (0 <? f)%Z then
                let v := wrapU64 (v + to_uint64 (fmul (of_int f) (fdiv (of_int unit) scale))) in
                if (two63 <? v)%Z then invalid else Ok (v, s3)
              else Ok (v, s3)
          end
      end
  end.

(** The loop, which takes at least one byte of [s] in each of its [fuel] rounds. *)
Fixpoint parse_all (fuel : nat) (orig : string) (d : Z) (s : string) : result string Z :=
  match s with
  | EmptyString => Ok d
  | _ =>
      match fuel with
      | O => Err "out of fuel"
      | S fuel' =>
          match parse_one orig s with
          | Err e => Err e
          | Ok (v, s') =>
              let d := wrapU64 (d + v) in
              if (two63 <? d)%Z then Err ("time: invalid duration " +:+ quote orig) else parse_all fuel' orig d s'
          end
      end
  end.

Definition ParseDuration (orig : string) : result string duration :=
  let '(neg, s) :=
    match orig with
    | String c s' => if decide (c = "-"%char) then (true, s') else if decide (c = "+"%char) then (false, s') else (false, orig)
    | EmptyString => (false, orig)
    end in
  if String.eqb s "0" then Ok 0%Z
  else if String.eqb s "" then Err ("time: invalid duration " +:+ quote orig)
  else
    match parse_all (String.length s) orig 0 s with
    | Err e => Err e
    | Ok d =>
        if neg then Ok (wrap64 (- wrap64 d))
        else if (two63 - 1 <? d)%Z then Err ("time: invalid duration " +:+ quote orig)
        else Ok (wrap64 d)
    end.

Example parse_ex : map ParseDuration ["30s"; "1h30m"; "-1.5h"; "1m0.5s"; "500ms"; "0"; "2µs"; ".5m"; "1.1h"]%string =
  map Ok [30 * Second; 90 * Minute; -90 * Minute; 60500 * Millisecond; 500 * Millisecond; 0; 2000; 30 * Second; 66 * Minute]%Z.
Proof. vm_compute. reflexivity. Qed.
Example parse_bad_ex : map ParseDuration [""; "3"; "1d"; "."; "9223372036854775808ns"; "-9223372036854775808ns"]%string =
  [Err ("time: invalid duration " +:+ quote ""); Err ("time: missing unit in duration " +:+ quote "3");
   Err ("time: unknown unit " +:+ quote "d" +:+ " in duration " +:+ quote "1d"); Err ("time: invalid duration " +:+ quote ".");
   Err ("time: invalid duration " +:+ quote "9223372036854775808ns"); Ok int64_min].
Proof. vm_compute. reflexivity. Qed.

(** Parsing ends: the fuel is enough. *)
Lemma leadingInt_length s : forall x v s', leadingInt x s = Some (v, s') -> String.length s' <= String.length s.
Proof.
  induction s as [|c s IH]; intros x v s'; cbn [leadingInt]; [by intros [= _ <-] |].
  repeat case_match; try done; [by intros [= _ <-] |]. intros Hs%IH. cbn. lia.
Qed.
Lemma leadingFraction_length s : forall x sc o, String.length (leadingFraction x sc o s).2 <= String.length s.
Proof.
  induction s as [|c s IH]; intros x sc o; cbn [leadingFraction]; [done |].
  repeat case_match; cbn [snd String.length]; try lia; etrans; try apply IH; lia.
Qed.
Lemma fraction_length s : String.length (fraction s).1.2 <= String.length s.
Proof.
  destruct s as [|c s]; cbn [fraction]; [done |]. case_decide; [| done].
  pose proof (leadingFraction_length s 0 (of_int 1) false). destruct (leadingFraction _ _ _ _) as [[? ?] ?]. cbn in *. lia.
Qed.
Lemma unit_span_length s : String.length (unit_span s).1 + String.length (unit_span s).2 = String.length s.
Proof.
  induction s as [|c s IH]; cbn [unit_span]; [done |]. repeat case_match; cbn in *; lia.
Qed.

Lemma parse_one_progress orig s v s' : parse_one orig s = Ok (v, s') -> String.length s' < String.length s.
Proof.
  destruct s as [|c s0]; [done |]. unfold parse_one. set (s := String c s0) in *. destruct (negb _); [done |].
  destruct (leadingInt 0 s) as [[x s1]|] eqn:E1; [| done]. apply leadingInt_length in E1.
  pose proof (fraction_length s1) as Hf. destruct (fraction s1) as [[[f sc] s2] post]. cbn [fst snd] in Hf. cbv zeta.
  destruct (negb _ && negb _); [done |]. pose proof (unit_span_length s2) as Hu.
  destruct (unit_span s2) as [u s3]. destruct (String.eqb_spec u ""); [done |]. cbn [fst snd] in Hu.
  assert (0 < String.length u) by (destruct u; [done | cbn; lia]).
  destruct (unitMap u); [| done]. repeat case_match; intros [= _ <-]; cbn [String.length] in *; lia.
Qed.

Lemma parse_all_fuel fuel orig : forall d s, String.length s <= fuel -> parse_all fuel orig d s <> Err "out of fuel"%string.
Proof.
  induction fuel as [|fuel IH]; intros d [|c s] Hs; cbn [parse_all]; try done; [cbn in Hs; lia |].
  destruct (parse_one orig (String c s)) as [[v s']|e] eqn:E.
  - cbv zeta. apply parse_one_progress in E. case_match; [by intros [= ?] |]. apply IH. cbn in *. lia.
  - intros [= ->]. unfold parse_one in E. repeat case_match; simplify_eq.
Qed.

Lemma ParseDuration_range s d : ParseDuration s = Ok d -> in_int64 d.
Proof.
  unfold ParseDuration. repeat case_match; intros [= <-]; try apply wrap64_range; unfold in_int64, int64_min, int64_max; lia.
Qed.

(** ** Printing *)

(** [fmtFrac]: the last [prec] digits after a period, without trailing zeros; the
    other digits remain. *)
Fixpoint fmtFrac (prec : nat) (v : Z) (print : bool) (acc : string) : string * Z :=
  match prec with
  | O => (if print then "." +:+ acc else acc, v)
  | S prec' =>
      let digit := (v mod 10)%Z in
      let print := print || negb (digit =? 0)%Z in
      fmtFrac prec' (v / 10) print (if print then Itoa digit +:+ acc else acc)
  end.

(** [Duration.String]. *)
Definition String_of_duration (d : duration) : string :=
  let u := Z.abs d in
  let body :=
    if (u <? Second)%Z then
      if (u =? 0)%Z then "0s"
      else
        let '(prec, unit) :=
          if (u <? Microsecond)%Z then (0, "ns") else if (u <? Millisecond)%Z then (3, "µs") else (6, "ms") in
        let '(frac, v) := fmtFrac prec u false EmptyString in
        Itoa v +:+ frac +:+ unit
    else
      let '(frac, v) := fmtFrac 9 u false EmptyString in
      let secs := Itoa (v mod 60) +:+ frac +:+ "s" in
      let m := (v / 60)%Z in
      if (0 <? m)%Z then
        let h := (m / 60)%Z in
        if (0 <? h)%Z then Itoa h +:+ "h" +:+ Itoa (m mod 60) +:+ "m" +:+ secs
        else Itoa (m mod 60) +:+ "m" +:+ secs
      else secs in
  if (d <? 0)%Z then "-" +:+ body else body.

Example print_ex : map String_of_duration [0; 1; 1500; 2000000; 1500 * Millisecond; 990 * Second; -90 * Minute; int64_min]%Z =
  ["0s"; "1ns"; "1.5µs"; "2ms"; "1.5s"; "16m30s"; "-1h30m0s"; "-2562047h47m16.854775808s"]%string.
Proof. vm_compute. reflexivity. Qed.
(** What is printed is read back. *)
Example print_parse_ex : forallb (fun d => match ParseDuration (String_of_duration d) with Ok d' => (d' =? d)%Z | Err _ => false end)
  [0; 1; 999; 1234567; 1500 * Millisecond; 990 * Second; -90 * Minute; 123456789123456789; int64_max; int64_min]%Z = true.
Proof. vm_compute. reflexivity. Qed.
