(* ===== verification/Config.v ===== *)
(** * Configuration: [internal/config]

    [Load] reads the environment, [Validate] rejects what the program cannot run
    with, [MaskedJSON] prints the configuration without its secrets. The
    environment is a function from names to values, empty where unset, as
    [os.Getenv] gives them; the log lines of [Load] are left out. *)
From S2P Require Import Prelude GoStrings Json GoDuration Domain.
From S2P Require Dispatcher.
Local Open Scope string_scope.

Record Config : Type := mkConfig {
  Environment : string;
  DatabaseURL : string;
  RedisAddr : string;
  HTTPAddr : string;
  APIKey : string;
  TickInterval : duration; TickIntervalStr : string;
  DBOpTimeout : duration; DBOpTimeoutStr : string;
  DBMaxOpenConns : Z;
  DBMaxIdleConns : Z;
  DBConnMaxLifetime : duration; DBConnMaxLifetimeStr : string;
  DBConnMaxIdleTime : duration; DBConnMaxIdleTimeStr : string;
  HTTPShutdownTimeout : duration; HTTPShutdownTimeoutStr : string;
  DispatcherDrainTimeout : duration; DispatcherDrainTimeoutStr : string;
  MetricsEnabled : bool;
  MetricsPath : string;
  MetricsPublic : bool;
  ReconcileEnabled : bool;
  ReconcileInterval : duration; ReconcileIntervalStr : string;
  ReconcileThreshold : duration; ReconcileThresholdStr : string;
  ReconcileRequeueThreshold : duration; ReconcileRequeueThresholdStr : string;
  ReconcileBatchSize : Z;
  EventBusBufferSize : Z;
  CircuitBreakerThreshold : Z;
  CircuitBreakerCooldown : duration; CircuitBreakerCooldownStr : string;
  DispatchMode : string;
  DBPollInterval : duration; DBPollIntervalStr : string;
  DispatcherWorkers : Z;
  LeaderLockKey : Z;
  LeaderRetryInterval : duration; LeaderRetryIntervalStr : string;
  LeaderHeartbeatInterval : duration; LeaderHeartbeatIntervalStr : string;
  MaxFiresPerTick : Z;
  IPRateLimit : Z;
  NamespaceRateLimit : Z;
  CORSOrigins : string;
  AdminEnabled : bool;
  AdminBootstrapToken : string;
  AdminSessionTTL : duration; AdminSessionTTLStr : string;
  AdminSessionAbsoluteTTL : duration; AdminSessionAbsoluteTTLStr : string;
  AdminCookieSecure : bool;
}.

(** ** Reading *)

(** [None] is [os.ErrInvalid]. The empty text is zero, and a number that does not
    fit wraps around. *)
Fixpoint parseInt_from (n : Z) (s : string) : option Z :=
  match s with
  | EmptyString => Some n
  | String c s' => if is_digit c then parseInt_from (wrap64 (n * 10 + digit_val c)) s' else None
  end.
Definition parseInt (s : string) : option Z := parseInt_from 0 s.

(** The block that reads a positive integer. *)
Definition positive_setting (v : string) (default : Z) : Z :=
  let n := if String.eqb v "" then 0%Z
           else match parseInt v with Some n => if (0 <? n)%Z then n else 0%Z | None => 0%Z end in
  if (n =? 0)%Z then default else n.

Record Numbers : Type := mkNumbers {
  n_ReconcileBatchSize : Z;
  n_EventBusBufferSize : Z;
  n_CircuitBreakerThreshold : Z;
  n_LeaderLockKey : Z;
  n_DispatcherWorkers : Z;
  n_MaxFiresPerTick : Z;
  n_IPRateLimit : Z;
  n_NamespaceRateLimit : Z;
  n_DBMaxOpenConns : Z;
  n_DBMaxIdleConns : Z;
}.
Definition load_numbers (getenv : string -> string) : Numbers := {|
  n_ReconcileBatchSize := positive_setting (getenv "RECONCILE_BATCH_SIZE") 100;
  n_EventBusBufferSize := positive_setting (getenv "EVENTBUS_BUFFER_SIZE") 100;
  n_CircuitBreakerThreshold :=
    let v := getenv "CIRCUIT_BREAKER_THRESHOLD" in
    let n := if String.eqb v "" then 0%Z else match parseInt v with Some n => n | None => 0%Z end in
    if (n =? 0)%Z && String.eqb v "" then 5%Z else n;
  n_LeaderLockKey := positive_setting (getenv "LEADER_LOCK_KEY") 728379;
  n_DispatcherWorkers := positive_setting (getenv "DISPATCHER_WORKERS") 1;
  n_MaxFiresPerTick := positive_setting (getenv "MAX_FIRES_PER_TICK") 1000;
  n_IPRateLimit := positive_setting (getenv "RATE_LIMIT") 10;
  n_NamespaceRateLimit := positive_setting (getenv "NAMESPACE_RATE_LIMIT") 100;
  n_DBMaxOpenConns := positive_setting (getenv "DB_MAX_OPEN_CONNS") 25;
  n_DBMaxIdleConns := positive_setting (getenv "DB_MAX_IDLE_CONNS") 5;
|}.

Definition or_default (v default : string) : string := if String.eqb v "" then default else v.
Record Texts : Type := mkTexts {
  t_HTTPAddr : string;
  t_TickInterval : string;
  t_DBOpTimeout : string;
  t_DBConnMaxLifetime : string;
  t_DBConnMaxIdleTime : string;
  t_HTTPShutdownTimeout : string;
  t_DispatcherDrainTimeout : string;
  t_MetricsPath : string;
  t_ReconcileInterval : string;
  t_ReconcileThreshold : string;
  t_ReconcileRequeueThreshold : string;
  t_CircuitBreakerCooldown : string;
  t_DBPollInterval : string;
  t_LeaderRetryInterval : string;
  t_LeaderHeartbeatInterval : string;
  t_AdminSessionTTL : string;
  t_AdminSessionAbsoluteTTL : string;
}.
(** The settings with a default text; the port of the platform stands in for the
    address. *)
Definition load_texts (getenv : string -> string) : Texts := {|
  t_HTTPAddr :=
    let a := getenv "HTTP_ADDR" in
    if String.eqb a "" then
      let port := getenv "PORT" in
      if String.eqb port "" then ":8080" else ":" +:+ port
    else a;
  t_TickInterval := or_default (getenv "TICK_INTERVAL") "30s";
  t_DBOpTimeout := or_default (getenv "DB_OP_TIMEOUT") "5s";
  t_DBConnMaxLifetime := or_default (getenv "DB_CONN_MAX_LIFETIME") "30m";
  t_DBConnMaxIdleTime := or_default (getenv "DB_CONN_MAX_IDLE_TIME") "5m";
  t_HTTPShutdownTimeout := or_default (getenv "HTTP_SHUTDOWN_TIMEOUT") "10s";
  t_DispatcherDrainTimeout := or_default (getenv "DISPATCHER_DRAIN_TIMEOUT") "30s";
  t_MetricsPath := or_default (getenv "METRICS_PATH") "/metrics";
  t_ReconcileInterval := or_default (getenv "RECONCILE_INTERVAL") "5m";
  t_ReconcileThreshold := or_default (getenv "RECONCILE_THRESHOLD") "19m";
  t_ReconcileRequeueThreshold := or_default (getenv "RECONCILE_REQUEUE_THRESHOLD") "19m";
  t_CircuitBreakerCooldown := or_default (getenv "CIRCUIT_BREAKER_COOLDOWN") "2m";
  t_DBPollInterval := or_default (getenv "DB_POLL_INTERVAL") "500ms";
  t_LeaderRetryInterval := or_default (getenv "LEADER_RETRY_INTERVAL") "5s";
  t_LeaderHeartbeatInterval := or_default (getenv "LEADER_HEARTBEAT_INTERVAL") "2s";
  t_AdminSessionTTL := or_default (getenv "ADMIN_SESSION_TTL") "30m";
  t_AdminSessionAbsoluteTTL := or_default (getenv "ADMIN_SESSION_ABSOLUTE_TTL") "12h";
|}.

(** A text that does not parse leaves the zero duration. *)
Definition parsed (v : string) : duration := match ParseDuration v with Ok d => d | Err _ => 0%Z end.

Definition is_true (v : string) : bool := String.eqb v "true".
Definition cookie_secure (cookieSecure environment : string) : bool :=
  if String.eqb cookieSecure "" then EqualFold environment "production" else is_true cookieSecure.

Definition Load (getenv : string -> string) : Config :=
  let n := load_numbers getenv in
  let t := load_texts getenv in {|
  Environment := getenv "CRONLITE_ENV";
  DatabaseURL := getenv "DATABASE_URL";
  RedisAddr := getenv "REDIS_ADDR";
  HTTPAddr := t_HTTPAddr t;
  APIKey := getenv "API_KEY";
  TickInterval := parsed (t_TickInterval t); TickIntervalStr := t_TickInterval t;
  DBOpTimeout := parsed (t_DBOpTimeout t); DBOpTimeoutStr := t_DBOpTimeout t;
  DBMaxOpenConns := n_DBMaxOpenConns n;
  DBMaxIdleConns := n_DBMaxIdleConns n;
  DBConnMaxLifetime := parsed (t_DBConnMaxLifetime t); DBConnMaxLifetimeStr := t_DBConnMaxLifetime t;
  DBConnMaxIdleTime := parsed (t_DBConnMaxIdleTime t); DBConnMaxIdleTimeStr := t_DBConnMaxIdleTime t;
  HTTPShutdownTimeout := parsed (t_HTTPShutdownTimeout t); HTTPShutdownTimeoutStr := t_HTTPShutdownTimeout t;
  DispatcherDrainTimeout := parsed (t_DispatcherDrainTimeout t); DispatcherDrainTimeoutStr := t_DispatcherDrainTimeout t;
  MetricsEnabled := is_true (getenv "METRICS_ENABLED");
  MetricsPath := t_MetricsPath t;
  MetricsPublic := is_true (getenv "METRICS_PUBLIC");
  ReconcileEnabled := is_true (getenv "RECONCILE_ENABLED");
  ReconcileInterval := parsed (t_ReconcileInterval t); ReconcileIntervalStr := t_ReconcileInterval t;
  ReconcileThreshold := parsed (t_ReconcileThreshold t); ReconcileThresholdStr := t_ReconcileThreshold t;
  ReconcileRequeueThreshold := parsed (t_ReconcileRequeueThreshold t);
  ReconcileRequeueThresholdStr := t_ReconcileRequeueThreshold t;
  ReconcileBatchSize := n_ReconcileBatchSize n;
  EventBusBufferSize := n_EventBusBufferSize n;
  CircuitBreakerThreshold := n_CircuitBreakerThreshold n;
  CircuitBreakerCooldown := parsed (t_CircuitBreakerCooldown t); CircuitBreakerCooldownStr := t_CircuitBreakerCooldown t;
  DispatchMode := or_default (getenv "DISPATCH_MODE") "channel";
  DBPollInterval := parsed (t_DBPollInterval t); DBPollIntervalStr := t_DBPollInterval t;
  DispatcherWorkers := n_DispatcherWorkers n;
  LeaderLockKey := n_LeaderLockKey n;
  LeaderRetryInterval := parsed (t_LeaderRetryInterval t); LeaderRetryIntervalStr := t_LeaderRetryInterval t;
  LeaderHeartbeatInterval := parsed (t_LeaderHeartbeatInterval t); LeaderHeartbeatIntervalStr := t_LeaderHeartbeatInterval t;
  MaxFiresPerTick := n_MaxFiresPerTick n;
  IPRateLimit := n_IPRateLimit n;
  NamespaceRateLimit := n_NamespaceRateLimit n;
  CORSOrigins := getenv "CORS_ORIGINS";
  AdminEnabled := is_true (getenv "ADMIN_ENABLED");
  AdminBootstrapToken := getenv "ADMIN_BOOTSTRAP_TOKEN";
  AdminSessionTTL := parsed (t_AdminSessionTTL t); AdminSessionTTLStr := t_AdminSessionTTL t;
  AdminSessionAbsoluteTTL := parsed (t_AdminSessionAbsoluteTTL t); AdminSessionAbsoluteTTLStr := t_AdminSessionAbsoluteTTL t;
  AdminCookieSecure := cookie_secure (getenv "ADMIN_COOKIE_SECURE") (getenv "CRONLITE_ENV");
|}.

(** ** Validation *)
Record ValidationError : Type := mkInvalid { Field : string; Message : string }.
Definition invalid_Error (e : ValidationError) : string := Field e +:+ ": " +:+ Message e.
(** [ValidationErrors.Error]. *)
Definition errors_Error (l : list ValidationError) : string :=
  match l with
  | [] => ""
  | [e] => invalid_Error e
  | _ => Itoa (Z.of_nat (length l)) +:+ " validation errors:" +:+
         fold_left (fun msg e => msg +:+ nl +:+ "  - " +:+ invalid_Error e) l ""
  end.

(** [%q] of a text in ASCII. *)
Definition quote_byte (c : ascii) : string :=
  let b := byte_of c in
  if (b =? 34)%Z || (b =? 92)%Z then String "\" (String c EmptyString)
  else if (b =? 7)%Z then "\a" else if (b =? 8)%Z then "\b" else if (b =? 9)%Z then "\t"
  else if (b =? 10)%Z then "\n" else if (b =? 11)%Z then "\v" else if (b =? 12)%Z then "\f"
  else if (b =? 13)%Z then "\r"
  else if (b <? 32)%Z || (b =? 127)%Z then "\x" +:+ String (hex_digit (b / 16)) (String (hex_digit (b mod 16)) EmptyString)
  else String c EmptyString.
Fixpoint quoted_bytes (s : string) : string :=
  match s with EmptyString => EmptyString | String c s' => quote_byte c +:+ quoted_bytes s' end.
Definition Quote (s : string) : string := dquote +:+ quoted_bytes s +:+ dquote.

(** An error that is reported when the condition holds. *)
Definition report (b : bool) (field message : string) : list ValidationError :=
  if b then [{| Field := field; Message := message |}] else [].
Definition not_positive (d : duration) : bool := (d <=? 0)%Z.
Definition given (v : string) : bool := negb (String.eqb v "").

Definition validate_tick (cfg : Config) : list ValidationError :=
  if given (TickIntervalStr cfg) then
    match ParseDuration (TickIntervalStr cfg) with
    | Err e => [{| Field := "TICK_INTERVAL"; Message := "invalid duration: " +:+ e |}]
    | Ok d => report (not_positive d) "TICK_INTERVAL" "must be positive"
    end
  else [].

Definition validate_leader (cfg : Config) : list ValidationError :=
  if String.eqb (DispatchMode cfg) "db" then
    report (not_positive (LeaderRetryInterval cfg) && given (LeaderRetryIntervalStr cfg))
      "LEADER_RETRY_INTERVAL" "must be positive" ++
    report (not_positive (LeaderHeartbeatInterval cfg) && given (LeaderHeartbeatIntervalStr cfg))
      "LEADER_HEARTBEAT_INTERVAL" "must be positive" ++
    report ((0 <? LeaderHeartbeatInterval cfg)%Z && (0 <? LeaderRetryInterval cfg)%Z &&
            (LeaderRetryInterval cfg <=? LeaderHeartbeatInterval cfg)%Z)
      "LEADER_HEARTBEAT_INTERVAL"
      ("must be less than LEADER_RETRY_INTERVAL (" +:+ String_of_duration (LeaderRetryInterval cfg) +:+ ")")
  else [].

Definition validate_reconciler (cfg : Config) : list ValidationError :=
  if ReconcileEnabled cfg then
    let maxRetry := Dispatcher.MaxRetryDuration in
    report (not_positive (ReconcileInterval cfg) && given (ReconcileIntervalStr cfg))
      "RECONCILE_INTERVAL" "must be positive" ++
    report (not_positive (ReconcileThreshold cfg) && given (ReconcileThresholdStr cfg))
      "RECONCILE_THRESHOLD" "must be positive" ++
    report (not_positive (ReconcileRequeueThreshold cfg) && given (ReconcileRequeueThresholdStr cfg))
      "RECONCILE_REQUEUE_THRESHOLD" "must be positive" ++
    report ((0 <? ReconcileThreshold cfg)%Z && (ReconcileThreshold cfg <? maxRetry)%Z)
      "RECONCILE_THRESHOLD"
      ("must be >= dispatcher max retry duration (" +:+ String_of_duration maxRetry +:+ ") to prevent duplicate deliveries") ++
    report (negb (String.eqb (Environment cfg) "benchmark") && (0 <? ReconcileRequeueThreshold cfg)%Z &&
            (ReconcileRequeueThreshold cfg <? maxRetry)%Z)
      "RECONCILE_REQUEUE_THRESHOLD"
      ("must be >= dispatcher max retry duration (" +:+ String_of_duration maxRetry +:+ ") to prevent concurrent retry workers")
  else [].

Definition validate_admin (cfg : Config) : list ValidationError :=
  if AdminEnabled cfg then
    report (not_positive (AdminSessionTTL cfg))
      "ADMIN_SESSION_TTL" "must be a positive duration when admin UI is enabled" ++
    report (not_positive (AdminSessionAbsoluteTTL cfg))
      "ADMIN_SESSION_ABSOLUTE_TTL" "must be a positive duration when admin UI is enabled" ++
    report ((0 <? AdminSessionTTL cfg)%Z && (0 <? AdminSessionAbsoluteTTL cfg)%Z &&
            (AdminSessionAbsoluteTTL cfg <? AdminSessionTTL cfg)%Z)
      "ADMIN_SESSION_ABSOLUTE_TTL" "must be greater than or equal to ADMIN_SESSION_TTL"
  else [].

Definition validateProduction (cfg : Config) : list ValidationError :=
  report (negb (String.eqb (DispatchMode cfg) "db")) "DISPATCH_MODE" "must be 'db' when CRONLITE_ENV=production" ++
  report (negb (ReconcileEnabled cfg)) "RECONCILE_ENABLED" "must be true when CRONLITE_ENV=production" ++
  report (negb (MetricsEnabled cfg)) "METRICS_ENABLED" "must be true when CRONLITE_ENV=production" ++
  report (String.eqb (APIKey cfg) "") "API_KEY" "required when CRONLITE_ENV=production" ++
  report (AdminEnabled cfg && negb (AdminCookieSecure cfg))
    "ADMIN_COOKIE_SECURE" "must be true when admin UI is enabled in production".

(** The errors; none is the nil error. *)
Definition Validate (cfg : Config) : list ValidationError :=
  report (String.eqb (DatabaseURL cfg) "") "DATABASE_URL" "required" ++
  validate_tick cfg ++
  report (given (DispatchMode cfg) && negb (String.eqb (DispatchMode cfg) "channel") && negb (String.eqb (DispatchMode cfg) "db"))
    "DISPATCH_MODE" ("must be 'channel' or 'db', got " +:+ Quote (DispatchMode cfg)) ++
  validate_leader cfg ++
  validate_reconciler cfg ++
  report ((0 <? CircuitBreakerThreshold cfg)%Z && not_positive (CircuitBreakerCooldown cfg) &&
          given (CircuitBreakerCooldownStr cfg))
    "CIRCUIT_BREAKER_COOLDOWN" "must be positive when circuit breaker is enabled" ++
  validate_admin cfg ++
  (if EqualFold (Environment cfg) "production" then validateProduction cfg else []).

(** ** Printing *)
Fixpoint mask_scheme (schemes : list string) (s : string) : option string :=
  match schemes with
  | [] => None
  | scheme :: l => if HasPrefix s scheme then Some (scheme +:+ "***") else mask_scheme l s
  end.
Definition maskSecret (s : string) : string :=
  if String.eqb s "" then ""
  else default "***" (mask_scheme ["postgres://"; "postgresql://"; "redis://"; "rediss://"] s).

Definition masked_fields (c : Config) : list field :=
  [mkField "environment" true (JString (Environment c));
   mkField "database_url" false (JString (maskSecret (DatabaseURL c)));
   mkField "redis_addr" true (JString (maskSecret (RedisAddr c)));
   mkField "http_addr" false (JString (HTTPAddr c));
   mkField "tick_interval" false (JString (TickIntervalStr c));
   mkField "db_op_timeout" false (JString (DBOpTimeoutStr c));
   mkField "db_max_open_conns" false (JInt (DBMaxOpenConns c));
   mkField "db_max_idle_conns" false (JInt (DBMaxIdleConns c));
   mkField "db_conn_max_lifetime" false (JString (DBConnMaxLifetimeStr c));
   mkField "db_conn_max_idle_time" false (JString (DBConnMaxIdleTimeStr c));
   mkField "http_shutdown_timeout" false (JString (HTTPShutdownTimeoutStr c));
   mkField "dispatcher_drain_timeout" false (JString (DispatcherDrainTimeoutStr c));
   mkField "metrics_enabled" false (JBool (MetricsEnabled c));
   mkField "metrics_path" false (JString (MetricsPath c));
   mkField "metrics_public" false (JBool (MetricsPublic c));
   mkField "reconcile_enabled" false (JBool (ReconcileEnabled c));
   mkField "reconcile_interval" false (JString (ReconcileIntervalStr c));
   mkField "reconcile_threshold" false (JString (ReconcileThresholdStr c));
   mkField "reconcile_requeue_threshold" false (JString (ReconcileRequeueThresholdStr c));
   mkField "reconcile_batch_size" false (JInt (ReconcileBatchSize c));
   mkField "eventbus_buffer_size" false (JInt (EventBusBufferSize c));
   mkField "circuit_breaker_threshold" false (JInt (CircuitBreakerThreshold c));
   mkField "circuit_breaker_cooldown" false (JString (CircuitBreakerCooldownStr c));
   mkField "dispatch_mode" false (JString (DispatchMode c));
   mkField "db_poll_interval" false (JString (DBPollIntervalStr c));
   mkField "dispatcher_workers" false (JInt (DispatcherWorkers c));
   mkField "leader_lock_key" false (JInt (LeaderLockKey c));
   mkField "leader_retry_interval" false (JString (LeaderRetryIntervalStr c));
   mkField "leader_heartbeat_interval" false (JString (LeaderHeartbeatIntervalStr c));
   mkField "max_fires_per_tick" false (JInt (MaxFiresPerTick c));
   mkField "ip_rate_limit" false (JInt (IPRateLimit c));
   mkField "namespace_rate_limit" false (JInt (NamespaceRateLimit c));
   mkField "admin_enabled" false (JBool (AdminEnabled c));
   mkField "admin_session_ttl" false (JString (AdminSessionTTLStr c));
   mkField "admin_session_absolute_ttl" false (JString (AdminSessionAbsoluteTTLStr c));
   mkField "admin_cookie_secure" false (JBool (AdminCookieSecure c))].
Definition MaskedJSON (c : Config) : string := marshal_indent (masked_fields c).

(** ** Properties *)
Lemma report_nil b f m : report b f m = [] <-> b = false.
Proof. by destruct b. Qed.

(** What the other parts rely on in a configuration that was accepted. *)
Record sound (cfg : Config) : Prop := {
  sound_database : DatabaseURL cfg <> "";
  sound_tick : (0 < TickInterval cfg)%Z;
  sound_mode : DispatchMode cfg = "channel" \/ DispatchMode cfg = "db";
  sound_leader : DispatchMode cfg = "db" -> (0 < LeaderHeartbeatInterval cfg < LeaderRetryInterval cfg)%Z;
  sound_reconciler : ReconcileEnabled cfg = true ->
    (0 < ReconcileInterval cfg)%Z /\ (Dispatcher.MaxRetryDuration <= ReconcileThreshold cfg)%Z /\
    (0 < ReconcileRequeueThreshold cfg)%Z /\
    (Environment cfg <> "benchmark" -> (Dispatcher.MaxRetryDuration <= ReconcileRequeueThreshold cfg)%Z);
  sound_breaker : (0 < CircuitBreakerThreshold cfg)%Z -> (0 < CircuitBreakerCooldown cfg)%Z;
  sound_admin : AdminEnabled cfg = true -> (0 < AdminSessionTTL cfg <= AdminSessionAbsoluteTTL cfg)%Z;
  sound_production : EqualFold (Environment cfg) "production" = true ->
    DispatchMode cfg = "db" /\ ReconcileEnabled cfg = true /\ MetricsEnabled cfg = true /\ APIKey cfg <> "" /\
    (AdminEnabled cfg = true -> AdminCookieSecure cfg = true);
}.

(** What [Load] guarantees of the texts, before any validation. *)
Record loaded (cfg : Config) : Prop := {
  loaded_tick : given (TickIntervalStr cfg) = true /\ TickInterval cfg = parsed (TickIntervalStr cfg);
  loaded_mode : given (DispatchMode cfg) = true;
  loaded_leader : given (LeaderRetryIntervalStr cfg) = true /\ given (LeaderHeartbeatIntervalStr cfg) = true;
  loaded_reconciler : given (ReconcileIntervalStr cfg) = true /\ given (ReconcileThresholdStr cfg) = true /\
    given (ReconcileRequeueThresholdStr cfg) = true;
  loaded_breaker : given (CircuitBreakerCooldownStr cfg) = true;
}.
Lemma given_default v d : given d = true -> given (or_default v d) = true.
Proof. intros Hd. unfold or_default. destruct (String.eqb v "") eqn:E; [done |]. unfold given. by rewrite E. Qed.
Lemma Load_loaded getenv : loaded (Load getenv).
Proof. split; cbn; split_and?; try done; by apply given_default. Qed.

Lemma validate_tick_nil cfg : loaded cfg -> validate_tick cfg = [] <-> (0 < TickInterval cfg)%Z.
Proof.
  intros [[Hg Ht] _ _ _ _]. unfold validate_tick. rewrite Hg, Ht. unfold parsed.
  destruct (ParseDuration _) as [d|e]; [rewrite report_nil; unfold not_positive; apply Z.leb_gt | split; [done | by intros ?%Z.lt_irrefl]].
Qed.
Lemma validate_leader_nil cfg : loaded cfg ->
  validate_leader cfg = [] <-> (DispatchMode cfg = "db" -> (0 < LeaderHeartbeatInterval cfg < LeaderRetryInterval cfg)%Z).
Proof.
  intros [_ _ [H1 H2] _ _]. unfold validate_leader, not_positive. destruct (String.eqb_spec (DispatchMode cfg) "db") as [Hdb|]; [| done].
  rewrite H1, H2, !app_nil, !report_nil, !andb_true_r, !andb_false_iff, !Z.leb_gt, !Z.ltb_ge.
  split; [intros ? _; lia | intros Hx; specialize (Hx Hdb); lia].
Qed.
Lemma validate_reconciler_nil cfg : loaded cfg ->
  validate_reconciler cfg = [] <-> (ReconcileEnabled cfg = true ->
    (0 < ReconcileInterval cfg)%Z /\ (Dispatcher.MaxRetryDuration <= ReconcileThreshold cfg)%Z /\
    (0 < ReconcileRequeueThreshold cfg)%Z /\
    (Environment cfg <> "benchmark" -> (Dispatcher.MaxRetryDuration <= ReconcileRequeueThreshold cfg)%Z)).
Proof.
  intros [_ _ _ (H1 & H2 & H3) _]. unfold validate_reconciler, not_positive. destruct (ReconcileEnabled cfg); [| done].
  assert (Hmax : (0 < Dispatcher.MaxRetryDuration)%Z) by (vm_compute; reflexivity).
  cbv zeta. rewrite H1, H2, H3, !app_nil, !report_nil, !andb_true_r, !andb_false_iff, !Z.leb_gt, !Z.ltb_ge, negb_false_iff.
  destruct (String.eqb_spec (Environment cfg) "benchmark"); intuition (try congruence; lia).
Qed.
Lemma validate_admin_nil cfg :
  validate_admin cfg = [] <-> (AdminEnabled cfg = true -> (0 < AdminSessionTTL cfg <= AdminSessionAbsoluteTTL cfg)%Z).
Proof.
  unfold validate_admin, not_positive. destruct (AdminEnabled cfg); [| done].
  rewrite !app_nil, !report_nil, !andb_false_iff, !Z.leb_gt, !Z.ltb_ge.
  split; [intros ? _; lia | intros Hx; specialize (Hx eq_refl); lia].
Qed.
Lemma validateProduction_nil cfg :
  validateProduction cfg = [] <-> DispatchMode cfg = "db" /\ ReconcileEnabled cfg = true /\ MetricsEnabled cfg = true /\
    APIKey cfg <> "" /\ (AdminEnabled cfg = true -> AdminCookieSecure cfg = true).
Proof.
  unfold validateProduction. rewrite !app_nil, !report_nil, !negb_false_iff, String.eqb_eq, String.eqb_neq.
  destruct (AdminEnabled cfg), (AdminCookieSecure cfg); cbn; intuition congruence.
Qed.

(** C27: the validation accepts a configuration that was read from the environment
    exactly when it is sound: a database, a positive tick, a known mode, in
    database mode a heartbeat shorter than the retry interval, reconciler
    thresholds that cover the whole retry window of the dispatcher, positive
    cooldown and session times, and in production the safe mode with everything
    that it needs. *)
Theorem validate_accepts_sound (getenv : string -> string) :
  let cfg := Load getenv in Validate cfg = [] <-> sound cfg.
Proof.
  intros cfg. pose proof (Load_loaded getenv : loaded cfg) as Hl. clearbody cfg.
  unfold Validate. rewrite !app_nil, !report_nil, String.eqb_neq, validate_tick_nil, validate_leader_nil,
    validate_reconciler_nil, validate_admin_nil by done.
  assert (Hm : given (DispatchMode cfg) && negb (String.eqb (DispatchMode cfg) "channel") &&
      negb (String.eqb (DispatchMode cfg) "db") = false <-> DispatchMode cfg = "channel" \/ DispatchMode cfg = "db").
  { rewrite (loaded_mode _ Hl), andb_true_l, andb_false_iff, !negb_false_iff, !String.eqb_eq. done. }
  assert (Hb : (0 <? CircuitBreakerThreshold cfg)%Z && not_positive (CircuitBreakerCooldown cfg) &&
      given (CircuitBreakerCooldownStr cfg) = false <-> ((0 < CircuitBreakerThreshold cfg)%Z -> (0 < CircuitBreakerCooldown cfg)%Z)).
  { rewrite (loaded_breaker _ Hl), andb_true_r, andb_false_iff. unfold not_positive. lia. }
  assert (Hp : (if EqualFold (Environment cfg) "production" then validateProduction cfg else []) = [] <->
      (EqualFold (Environment cfg) "production" = true -> validateProduction cfg = [])) by (destruct (EqualFold _ _); naive_solver).
  rewrite Hm, Hb, Hp, validateProduction_nil. clear Hm Hb Hp.
  split; [intros (? & ? & ? & ? & ? & ? & ? & ?); by split | intros []; by split_and!].
Qed.

Lemma wrap_positive v d : (0 < d)%Z -> in_int64 d -> (0 < positive_setting v d)%Z /\ in_int64 (positive_setting v d).
Proof.
  intros Hd Hi. assert (Hr : forall s n m, in_int64 n -> parseInt_from n s = Some m -> in_int64 m).
  { induction s as [|c s IH]; cbn; [by intros ? ? ? [= <-] |]. intros n m Hn. destruct (is_digit c); [| done].
    apply IH, wrap64_range. }
  unfold positive_setting, parseInt. destruct (String.eqb v ""); [done |].
  destruct (parseInt_from 0 v) as [n|] eqn:E; [| done]. apply Hr in E; [| unfold in_int64, int64_min, int64_max; lia].
  destruct (Z.ltb_spec 0 n); [| done]. destruct (Z.eqb_spec n 0); [done |]. done.
Qed.

(** Whatever the environment says, the sizes, rates, counts and the lock key
    are positive 64-bit integers; the threshold of the breaker is five when the
    variable is not set, the number it spells when it spells one, and zero, which
    switches the breaker off, when it does not. *)
Lemma loaded_numbers (getenv : string -> string) : let cfg := Load getenv in
  Forall (fun n => 0 < n /\ in_int64 n)%Z
    [ReconcileBatchSize cfg; EventBusBufferSize cfg; DispatcherWorkers cfg; LeaderLockKey cfg; MaxFiresPerTick cfg;
     IPRateLimit cfg; NamespaceRateLimit cfg; DBMaxOpenConns cfg; DBMaxIdleConns cfg] /\
  CircuitBreakerThreshold cfg =
    (let v := getenv "CIRCUIT_BREAKER_THRESHOLD" in
     if decide (v = "") then 5%Z else default 0%Z (parseInt v)).
Proof.
  split.
  - cbn. repeat (apply Forall_cons; split; [apply wrap_positive; unfold in_int64, int64_min, int64_max; lia |]). by apply Forall_nil.
  - cbn. case_decide as Hv; [by rewrite Hv |]. rewrite (proj2 (String.eqb_neq _ _) Hv), andb_false_r. by destruct (parseInt _).
Qed.

(** *** What is printed *)
Definition with_secrets (database redis key token : string) (c : Config) : Config :=
  {| Environment := Environment c; DatabaseURL := database; RedisAddr := redis;
    HTTPAddr := HTTPAddr c; APIKey := key; TickInterval := TickInterval c; TickIntervalStr := TickIntervalStr c;
    DBOpTimeout := DBOpTimeout c; DBOpTimeoutStr := DBOpTimeoutStr c; DBMaxOpenConns := DBMaxOpenConns c;
    DBMaxIdleConns := DBMaxIdleConns c; DBConnMaxLifetime := DBConnMaxLifetime c;
    DBConnMaxLifetimeStr := DBConnMaxLifetimeStr c; DBConnMaxIdleTime := DBConnMaxIdleTime c;
    DBConnMaxIdleTimeStr := DBConnMaxIdleTimeStr c; HTTPShutdownTimeout := HTTPShutdownTimeout c;
    HTTPShutdownTimeoutStr := HTTPShutdownTimeoutStr c; DispatcherDrainTimeout := DispatcherDrainTimeout c;
    DispatcherDrainTimeoutStr := DispatcherDrainTimeoutStr c; MetricsEnabled := MetricsEnabled c;
    MetricsPath := MetricsPath c; MetricsPublic := MetricsPublic c; ReconcileEnabled := ReconcileEnabled c;
    ReconcileInterval := ReconcileInterval c; ReconcileIntervalStr := ReconcileIntervalStr c;
    ReconcileThreshold := ReconcileThreshold c; ReconcileThresholdStr := ReconcileThresholdStr c;
    ReconcileRequeueThreshold := ReconcileRequeueThreshold c;
    ReconcileRequeueThresholdStr := ReconcileRequeueThresholdStr c; ReconcileBatchSize := ReconcileBatchSize c;
    EventBusBufferSize := EventBusBufferSize c; CircuitBreakerThreshold := CircuitBreakerThreshold c;
    CircuitBreakerCooldown := CircuitBreakerCooldown c; CircuitBreakerCooldownStr := CircuitBreakerCooldownStr c;
    DispatchMode := DispatchMode c; DBPollInterval := DBPollInterval c; DBPollIntervalStr := DBPollIntervalStr c;
    DispatcherWorkers := DispatcherWorkers c; LeaderLockKey := LeaderLockKey c;
    LeaderRetryInterval := LeaderRetryInterval c; LeaderRetryIntervalStr := LeaderRetryIntervalStr c;
    LeaderHeartbeatInterval := LeaderHeartbeatInterval c; LeaderHeartbeatIntervalStr := LeaderHeartbeatIntervalStr c;
    MaxFiresPerTick := MaxFiresPerTick c; IPRateLimit := IPRateLimit c; NamespaceRateLimit := NamespaceRateLimit c;
    CORSOrigins := CORSOrigins c; AdminEnabled := AdminEnabled c; AdminBootstrapToken := token;
    AdminSessionTTL := AdminSessionTTL c; AdminSessionTTLStr := AdminSessionTTLStr c;
    AdminSessionAbsoluteTTL := AdminSessionAbsoluteTTL c; AdminSessionAbsoluteTTLStr := AdminSessionAbsoluteTTLStr c;
    AdminCookieSecure := AdminCookieSecure c |}.
Definition schemes : list string := ["postgres://"; "postgresql://"; "redis://"; "rediss://"].

Lemma mask_known scheme rest : scheme ∈ schemes -> maskSecret (scheme +:+ rest) = scheme +:+ "***".
Proof.
  unfold schemes. rewrite !elem_of_cons, elem_of_nil.
  intros [->|[->|[->|[->|[]]]]]; unfold maskSecret; cbn [mask_scheme];
    unfold HasPrefix; cbn; by destruct rest.
Qed.

(** The printed configuration gives no secret away: with everything else
    equal, two configurations print the same whatever follows the schemes of the
    database and Redis URLs, and whatever the API key and the bootstrap token
    are. *)
Lemma masked_config_hides_secrets (c : Config) (s1 s2 d d' r r' k k' t t' : string) :
  s1 ∈ schemes -> s2 ∈ schemes ->
  MaskedJSON (with_secrets (s1 +:+ d) (s2 +:+ r) k t c) = MaskedJSON (with_secrets (s1 +:+ d') (s2 +:+ r') k' t' c).
Proof.
  intros H1 H2. unfold MaskedJSON, masked_fields. cbn -[maskSecret marshal_indent].
  by rewrite !mask_known by done.
Qed.

(** ** A concrete environment *)
Module Sim.
Definition env (l : list (string * string)) (name : string) : string :=
  default "" (snd <$> List.find (fun p => String.eqb p.1 name) l).
Definition local : string -> string := env [("DATABASE_URL", "postgres://u:secret@db/cron")].
Definition production : string -> string :=
  env [("DATABASE_URL", "postgres://u:secret@db/cron"); ("CRONLITE_ENV", "Production"); ("DISPATCH_MODE", "db");
       ("RECONCILE_ENABLED", "true"); ("METRICS_ENABLED", "true"); ("API_KEY", "k"); ("ADMIN_ENABLED", "true");
       ("RECONCILE_THRESHOLD", "1h"); ("MAX_FIRES_PER_TICK", "18446744073709551626")].
End Sim.

Example local_ex : (Validate (Load Sim.local), Validate (Load Sim.production)) = ([], []).
Proof. vm_compute. reflexivity. Qed.
Example wrapped_ex : MaxFiresPerTick (Load Sim.production) = 10%Z.
Proof. vm_compute. reflexivity. Qed.
Example empty_ex : errors_Error (Validate (Load (fun _ => ""))) = "DATABASE_URL: required".
Proof. vm_compute. reflexivity. Qed.

Lemma masked_config_hides_secrets_witness :
  let c := Load Sim.local in
  MaskedJSON (with_secrets ("postgres://" +:+ "u:secret@db/cron") ("redis://" +:+ "a") "k" "t" c) =
  MaskedJSON (with_secrets ("postgres://" +:+ "u:other@db/cron") ("redis://" +:+ "b") "k2" "t2" c).
Proof. apply masked_config_hides_secrets; unfold schemes; set_solver. Defined.
