(* ===== verification/GoUrl.v ===== *)
(** * Queries and forms: what the source uses of [net/url]

    Escaping of query components, [url.ParseQuery], [url.Values] with [Get], [Set]
    and [Encode]. [Values] maps a key to its values in order. Queries have at most
    ten thousand parameters. *)
From S2P Require Import Prelude GoStrings.

(** ** Escaping of one component *)
Definition is_alpha (c : ascii) : bool := is_upper c || ((97 <=? byte_of c)%Z && (byte_of c <=? 122)%Z).
Definition unreserved (c : ascii) : bool :=
  is_alpha c || is_digit c || bool_decide (c ∈ ["-"; "_"; "."; "~"]%char).
Definition upperhex (n : Z) : ascii := of_byte (if (n <? 10)%Z then 48 + n else 55 + n)%Z.
Definition escape_byte (c : ascii) : string :=
  if unreserved c then String c EmptyString
  else if decide (c = " "%char) then "+"
  else String "%" (String (upperhex (byte_of c / 16)) (String (upperhex (byte_of c mod 16)) EmptyString)).
Fixpoint QueryEscape (s : string) : string :=
  match s with EmptyString => EmptyString | String c s' => escape_byte c +:+ QueryEscape s' end.

(** The value of a hexadecimal digit in either case. *)
Definition unhex (c : ascii) : option Z :=
  let b := byte_of c in
  if is_digit c then Some (b - 48)%Z
  else if (97 <=? b)%Z && (b <=? 102)%Z then Some (b - 87)%Z
  else if (65 <=? b)%Z && (b <=? 70)%Z then Some (b - 55)%Z
  else None.
(** [None] is an [EscapeError]. *)
Fixpoint QueryUnescape (s : string) : option string :=
  match s with
  | EmptyString => Some EmptyString
  | String c s' =>
      if decide (c = "%"%char) then
        match s' with
        | String a (String b s'') =>
            x ← unhex a; y ← unhex b; t ← QueryUnescape s''; Some (String (of_byte (16 * x + y)) t)
        | _ => None
        end
      else String (if decide (c = "+"%char) then " "%char else c) <$> QueryUnescape s'
  end.

(** ** Values *)
Abbreviation Values := (gmap string (list string)) (only parsing).
Definition add_value (key value : string) (m : Values) : Values := <[key := default [] (m !! key) ++ [value]]> m.
Definition values_Get (m : Values) (key : string) : string := default "" (m !! key ≫= head).
Definition values_Set (key value : string) (m : Values) : Values := <[key := [value]]> m.

(** A piece of a query; a piece that is skipped is an error ([false]) or empty. *)
Definition parse_pair (piece : string) : (string * string) + bool :=
  if Contains piece ";" then inr false
  else if String.eqb piece "" then inr true
  else
    let '(key, value) := default (piece, "") (Cut piece "=") in
    match QueryUnescape key, QueryUnescape value with
    | Some k, Some v => inl (k, v)
    | _, _ => inr false
    end.
(** [parseQuery]: what is gathered, and whether every piece was well formed. *)
Definition parse_step (st : Values * bool) (piece : string) : Values * bool :=
  match parse_pair piece with
  | inl (k, v) => (add_value k v st.1, st.2)
  | inr ok => (st.1, st.2 && ok)
  end.
Definition ParseQuery (query : string) : Values * bool :=
  fold_left parse_step (Split query "&") (∅, true).

(** [Values.Encode]: sorted by key. *)
Definition entry_le (p q : string * list string) : Prop := String.leb p.1 q.1 = true.
#[export] Instance entry_le_dec p q : Decision (entry_le p q) := decide (_ = true).
Definition encode_pair (p : string * string) : string := QueryEscape p.1 +:+ "=" +:+ QueryEscape p.2.
Definition pairs_of (m : Values) : list (string * string) :=
  l ← merge_sort entry_le (map_to_list m); pair l.1 <$> l.2.
Definition Encode (m : Values) : string := Join (encode_pair <$> pairs_of m) "&".

Example encode_ex : Encode (values_Set "page" "2" (ParseQuery "name=a%20b+c&page=7&x=1&x=%26&bad=%zz").1) = "name=a+b+c&page=2&x=1&x=%26".
Proof. vm_compute. reflexivity. Qed.

(** ** Pieces of text *)
Fixpoint lacks (c : ascii) (s : string) : bool :=
  match s with EmptyString => true | String a s' => bool_decide (a <> c) && lacks c s' end.

Lemma lacks_app c s t : lacks c (s +:+ t) = lacks c s && lacks c t.
Proof. induction s as [|a s IH]; [done |]. cbn. by rewrite <- andb_assoc, <- IH. Qed.
Lemma Split_cons c a s : Split (String a s) c =
  if decide (a = c) then EmptyString :: Split s c
  else match Split s c with [] => [String a EmptyString] | p :: ps => String a p :: ps end.
Proof. done. Qed.
Lemma Cut_cons c a s : Cut (String a s) c =
  if decide (a = c) then Some (EmptyString, s)
  else match Cut s c with None => None | Some (x, y) => Some (String a x, y) end.
Proof. done. Qed.
Lemma Split_lacks c s : lacks c s = true -> Split s c = [s].
Proof.
  induction s as [|a s IH]; [done |]. rewrite Split_cons. intros [Ha%bool_decide_eq_true Hs]%andb_true_iff.
  rewrite decide_False, IH by done. done.
Qed.
Lemma Split_app c s t : lacks c s = true -> Split (s +:+ String c t) c = s :: Split t c.
Proof.
  induction s as [|a s IH]; [intros _; rewrite str_app_nil_l; by rewrite Split_cons, decide_True |].
  intros [Ha%bool_decide_eq_true Hs]%andb_true_iff. rewrite str_app_cons, Split_cons, decide_False, (IH Hs) by done. done.
Qed.
Lemma Split_Join c l : l <> [] -> Forall (fun s => lacks c s = true) l -> Split (Join l (String c EmptyString)) c = l.
Proof.
  intros Hne Hl. induction Hl as [|s l Hs Hl IH]; [done |]. destruct l as [|s' l]; [by apply Split_lacks |].
  change (Join (s :: s' :: l) _) with (s +:+ String c (Join (s' :: l) (String c EmptyString))).
  rewrite Split_app by done. by rewrite IH.
Qed.
Lemma Join_Split c s : Join (Split s c) (String c EmptyString) = s.
Proof.
  induction s as [|a s IH]; [done |]. rewrite Split_cons. assert (Hne : Split s c <> []) by (destruct s; [done |]; rewrite Split_cons; by repeat case_match).
  case_decide as Ha; [subst a |]; destruct (Split s c) as [|p [|q ps]] eqn:E; try done; cbn in IH |- *; by rewrite <- IH.
Qed.
Lemma Cut_app c s t : lacks c s = true -> Cut (s +:+ String c t) c = Some (s, t).
Proof.
  induction s as [|a s IH]; [intros _; rewrite str_app_nil_l; by rewrite Cut_cons, decide_True |].
  intros [Ha%bool_decide_eq_true Hs]%andb_true_iff. by rewrite str_app_cons, Cut_cons, decide_False, (IH Hs) by done.
Qed.
Lemma Cut_Some c s a b : Cut s c = Some (a, b) -> s = a +:+ String c b /\ lacks c a = true.
Proof.
  revert a b. induction s as [|x s IH]; intros a b; [done |]. rewrite Cut_cons. case_decide as Hx; [intros [= <- <-]; by subst |].
  destruct (Cut s c) as [[p q]|]; [| done]. intros [= <- <-]. destruct (IH _ _ eq_refl) as [-> Hp]. split; [done |].
  cbn. by rewrite Hp, bool_decide_true.
Qed.
Lemma lacks_Contains c s : lacks c s = true -> Contains s (String c EmptyString) = false.
Proof.
  induction s as [|a s IH]; [done |]. cbn. intros [Ha%bool_decide_eq_true Hs]%andb_true_iff.
  rewrite (IH Hs), orb_false_r. destruct s; cbn; rewrite ?andb_true_r; destruct (ascii_dec _ _); congruence.
Qed.

(** ** Round trips *)
Lemma unhex_upperhex n : (0 <= n < 16)%Z -> unhex (upperhex n) = Some n.
Proof.
  intros Hn. rewrite <- (Z2N.id n) by lia. generalize (Z.to_N n), (proj1 (Z2N.inj_lt n 16 (proj1 Hn) ltac:(lia)) (proj2 Hn)).
  by apply (below_all (fun n => unhex (upperhex (Z.of_N n)) = Some (Z.of_N n)) 16).
Qed.
Lemma unescape_cons c s : c <> "%"%char ->
  QueryUnescape (String c s) = String (if decide (c = "+"%char) then " "%char else c) <$> QueryUnescape s.
Proof. intros Hc. change (QueryUnescape (String c s)) with (if decide (c = "%"%char) then
    match s with String a (String b s'') => x ← unhex a; y ← unhex b; t ← QueryUnescape s''; Some (String (of_byte (16 * x + y)) t) | _ => None end
    else String (if decide (c = "+"%char) then " "%char else c) <$> QueryUnescape s). by rewrite decide_False. Qed.
Lemma unreserved_plain c : unreserved c = true -> c <> "%"%char /\ c <> "+"%char.
Proof. intros Hc. by split; intros ->. Qed.
Lemma unescape_byte c t : QueryUnescape (escape_byte c +:+ t) = String c <$> QueryUnescape t.
Proof.
  unfold escape_byte. destruct (unreserved c) eqn:Hc.
  - destruct (unreserved_plain c Hc). rewrite str_app_cons, str_app_nil_l, unescape_cons, decide_False by done. done.
  - case_decide as Hs; [subst; change "+" with (String "+" ""); by rewrite str_app_cons, str_app_nil_l, unescape_cons |].
    rewrite !str_app_cons, str_app_nil_l. pose proof (byte_of_range c).
    change (QueryUnescape (String "%" (String (upperhex (byte_of c / 16)) (String (upperhex (byte_of c mod 16)) t)))) with
      (x ← unhex (upperhex (byte_of c / 16)); y ← unhex (upperhex (byte_of c mod 16)); u ← QueryUnescape t; Some (String (of_byte (16 * x + y)) u)).
    rewrite !unhex_upperhex by (first [apply Z.mod_pos_bound; lia | split; [apply Z.div_pos; lia | apply Z.div_lt_upper_bound; lia]]).
    cbn [mbind option_bind]. rewrite <- Z.div_mod, of_byte_of by lia. by destruct (QueryUnescape t).
Qed.
Lemma unescape_escape s : QueryUnescape (QueryEscape s) = Some s.
Proof. induction s as [|c s IH]; [done |]. cbn [QueryEscape]. by rewrite unescape_byte, IH. Qed.

(** What separates the parts of a query does not occur in an escaped component. *)
Lemma lacks_escape c s : c = "&"%char \/ c = "="%char \/ c = ";"%char -> lacks c (QueryEscape s) = true.
Proof.
  intros Hc. induction s as [|a s IH]; [done |]. cbn [QueryEscape]. rewrite lacks_app, IH, andb_true_r.
  destruct Hc as [-> | [-> | ->]]; destruct a as [[] [] [] [] [] [] [] []]; reflexivity.
Qed.
Lemma parse_encode_pair k v : parse_pair (encode_pair (k, v)) = inl (k, v).
Proof.
  unfold parse_pair, encode_pair. cbn [fst snd].
  assert (Hk : lacks "=" (QueryEscape k) = true) by (apply lacks_escape; tauto).
  rewrite lacks_Contains.
  2: { change "=" with (String "=" EmptyString). rewrite !lacks_app, !lacks_escape by tauto. done. }
  change ("=" +:+ QueryEscape v) with (String "=" (QueryEscape v)). rewrite (Cut_app _ _ _ Hk). cbn [default fst snd id].
  rewrite !unescape_escape. case_match eqn:E; [| done]. apply String.eqb_eq in E. by destruct (QueryEscape k).
Qed.

Lemma ParseQuery_pairs (l : list (string * string)) : l <> [] ->
  ParseQuery (Join (encode_pair <$> l) "&") = (fold_left (fun m p => add_value p.1 p.2 m) l ∅, true).
Proof.
  intros Hne. unfold ParseQuery. rewrite (Split_Join "&"%char).
  - generalize (∅ : Values). clear Hne. induction l as [|[k v] l IH]; intros m; [done |]. cbn [fmap list_fmap fold_left].
    unfold parse_step at 2. rewrite parse_encode_pair. apply IH.
  - by destruct l.
  - apply Forall_fmap, Forall_forall. intros [k v] _. unfold compose, encode_pair. cbn [fst snd].
    change "=" with (String "=" EmptyString). rewrite !lacks_app, !lacks_escape by tauto. done.
Qed.

(** Gathering the pairs of a key again. *)
Lemma gather_other (l : list (string * string)) (m : Values) k :
  k ∉ l.*1 -> fold_left (fun m p => add_value p.1 p.2 m) l m !! k = m !! k.
Proof.
  revert m. induction l as [|[k' v] l IH]; intros m; [done |]. cbn. rewrite not_elem_of_cons. intros [Hne Hl].
  rewrite IH by done. unfold add_value. by rewrite lookup_insert_ne.
Qed.
Lemma gather_values k vs (m : Values) : vs <> [] ->
  fold_left (fun m p => add_value p.1 p.2 m) (pair k <$> vs) m = <[k := default [] (m !! k) ++ vs]> m.
Proof.
  revert m. induction vs as [|v vs IH]; intros m Hne; [done |]. cbn. destruct (decide (vs = [])) as [->|Hvs]; [done |].
  rewrite IH by done. unfold add_value. rewrite lookup_insert_eq, insert_insert_eq. cbn. by rewrite <- app_assoc.
Qed.
Lemma gather_entries (l : list (string * list string)) (m : Values) :
  NoDup l.*1 -> (forall k vs, (k, vs) ∈ l -> vs <> [] /\ m !! k = None) ->
  fold_left (fun m p => add_value p.1 p.2 m) (l ≫= fun e => pair e.1 <$> e.2) m = list_to_map l ∪ m.
Proof.
  revert m. induction l as [|[k vs] l IH]; intros m Hnd Hl; [cbn; by rewrite (left_id_L ∅ (∪)) |].
  cbn [mbind list_bind fst snd]. rewrite fold_left_app. destruct (Hl k vs) as [Hvs Hk]; [by left |].
  rewrite gather_values, Hk by done. cbn [fmap list_fmap fst] in Hnd. apply NoDup_cons in Hnd as [Hn Hnd].
  rewrite IH; [| done |].
  - cbn [default app list_to_map foldr uncurry fst snd]. rewrite <- insert_union_l.
    symmetry. apply insert_union_r. by apply not_elem_of_list_to_map.
  - intros k' vs' Hin. destruct (Hl k' vs') as [Hv Hm]; [by right |]. split; [done |].
    rewrite lookup_insert_ne; [done |]. intros <-. apply Hn, list_elem_of_fmap. by exists (k, vs').
Qed.

(** A query that is encoded is parsed back. *)
Lemma parse_encode (m : Values) : m <> ∅ -> map_Forall (fun _ vs => vs <> []) m -> ParseQuery (Encode m) = (m, true).
Proof.
  intros Hne Hm. set (l := merge_sort entry_le (map_to_list m)).
  assert (Hp : l ≡ₚ map_to_list m) by apply merge_sort_Permutation.
  assert (Hl : forall k vs, (k, vs) ∈ l -> m !! k = Some vs) by (intros k vs; rewrite Hp; apply elem_of_map_to_list).
  assert (Hnd : NoDup l.*1) by (rewrite Hp; apply NoDup_fst_map_to_list).
  unfold Encode. rewrite ParseQuery_pairs.
  - f_equal. unfold pairs_of. fold l. rewrite gather_entries; [| done |].
    + rewrite (right_id_L ∅ (∪)), <- (list_to_map_to_list m). apply list_to_map_proper; [done |].
      by rewrite Hp.
    + intros k vs Hin. split; [by eapply Hm, Hl | apply lookup_empty].
  - unfold pairs_of. fold l. intros E. destruct l as [|[k vs] l'].
    + apply Permutation_nil_l in Hp. symmetry in Hp. by apply map_to_list_empty_iff in Hp.
    + destruct vs; [| done]. by apply (Hm k []); [apply Hl; left |].
Qed.
