(* ===== verification/Http.v ===== *)
(** * Requests and responses

    What the handlers of the program see of [net/http]: a request with its
    context, and a response with the headers set on the way. A middleware is a
    function from handlers to handlers, as in the source. *)
From S2P Require Import Prelude GoStrings Json Domain.

Record http_request : Type := mkHttpRequest {
  q_Method : string;
  q_Path : string;
  q_RawQuery : string;
  q_RemoteAddr : string;
  q_Host : string;
  q_Header : list (string * string);   (* canonical names, at most one value each *)
  q_Body : option string;
  q_BodyLimit : option Z;              (* of a [MaxBytesReader] around the body *)
  q_Context : context;
}.
Record http_response : Type := mkHttpResponse {
  p_Status : Z;
  p_Header : list (string * string);   (* in the order of the calls of [Set] *)
  p_Body : string;
}.

(** [Header.Get] of a request. *)
Definition Get (r : http_request) (name : string) : string :=
  default "" (snd <$> List.find (fun p => String.eqb p.1 name) (q_Header r)).
(** The value of a header of the response: the last one that was set. *)
Definition header (p : http_response) (name : string) : option string :=
  snd <$> List.find (fun h => String.eqb h.1 name) (rev (p_Header p)).
(** Headers set before a handler runs. *)
Definition with_headers (l : list (string * string)) (p : http_response) : http_response :=
  {| p_Status := p_Status p; p_Header := l ++ p_Header p; p_Body := p_Body p |}.

(** [r.WithContext] and the replacement of the body. *)
Definition WithContext (ctx : context) (r : http_request) : http_request :=
  {| q_Method := q_Method r; q_Path := q_Path r; q_RawQuery := q_RawQuery r; q_RemoteAddr := q_RemoteAddr r; q_Host := q_Host r; q_Header := q_Header r;
     q_Body := q_Body r; q_BodyLimit := q_BodyLimit r; q_Context := ctx |}.
Definition limit_body (n : Z) (r : http_request) : http_request :=
  {| q_Method := q_Method r; q_Path := q_Path r; q_RawQuery := q_RawQuery r; q_RemoteAddr := q_RemoteAddr r; q_Host := q_Host r; q_Header := q_Header r;
     q_Body := q_Body r; q_BodyLimit := Some n; q_Context := q_Context r |}.

Definition Handler (W : Type) : Type := http_request -> st W http_response.

(** [writeJSON] of a structure of texts, and [writeError]: [handler.go]. *)
Definition writeJSON (status : Z) (v : list (string * string)) : http_response :=
  {| p_Status := status; p_Header := [("Content-Type", "application/json")]; p_Body := json_object v +:+ nl |}.
Definition writeError (status : Z) (msg : string) : http_response := writeJSON status [("error", msg)].

(** [http.Error]. *)
Definition http_Error (msg : string) (code : Z) : http_response :=
  {| p_Status := code;
     p_Header := [("Content-Type", "text/plain; charset=utf-8"); ("X-Content-Type-Options", "nosniff")];
     p_Body := msg +:+ nl |}.

Definition StatusOK : Z := 200.
Definition StatusNoContent : Z := 204.
Definition StatusUnauthorized : Z := 401.
Definition StatusTooManyRequests : Z := 429.

(** [strings.LastIndex] of one byte. *)
Fixpoint LastIndex (s : string) (c : ascii) : option nat :=
  match s with
  | EmptyString => None
  | String a s' =>
      match LastIndex s' c with
      | Some n => Some (S n)
      | None => if decide (a = c) then Some 0 else None
      end
  end.

(** A part of the state that a handler closes over. *)
Record cell (W S : Type) : Type := mkCell { c_get : W -> S; c_set : S -> W -> W }.
Arguments c_get {W S}.
Arguments c_set {W S}.
(** Runs an operation on that part. *)
Definition on_cell {W S A} (c : cell W S) (f : S -> A * S) : st W A := fun w =>
  let '(a, s') := f (c_get c w) in (a, c_set c s' w).
Class CellLaws {W S} (c : cell W S) : Prop := {
  c_get_set s w : c_get c (c_set c s w) = s;
  c_set_get w : c_set c (c_get c w) w = w;
}.
