(* ===== verification/HttpServer.v ===== *)
(** * Answering step by step: what the admin pages use of [net/http]

    A [ResponseWriter] is a cell of the world that a request finds empty; cookies,
    redirects, forms and the protection against requests from other origins. A
    [Set-Cookie] header is added, every other header is set. Texts are ASCII. *)
From S2P Require Import Prelude GoStrings GoTime GoUrl Domain Http WebhookURL.
Local Open Scope cron_scope.

(** ** The response writer *)
Record writer : Type := mkWriter {
  wr_Header : list (string * string);
  wr_Status : option (Z * list (string * string));   (* with the headers at that point *)
  wr_Body : string;
}.
Definition new_writer : writer := {| wr_Header := []; wr_Status := None; wr_Body := "" |}.
Abbreviation ResponseWriter W := (cell W writer) (only parsing).

Definition response_of (b : writer) : http_response :=
  let '(code, h) := default (200%Z, wr_Header b) (wr_Status b) in
  {| p_Status := code; p_Header := h; p_Body := wr_Body b |}.

Definition html_byte (c : ascii) : string :=
  if decide (c = "&"%char) then "&amp;" else if decide (c = "<"%char) then "&lt;" else if decide (c = ">"%char) then "&gt;"
  else if decide (c = of_byte 34) then "&#34;" else if decide (c = "'"%char) then "&#39;" else String c EmptyString.
Fixpoint htmlEscape (s : string) : string :=
  match s with EmptyString => EmptyString | String c s' => html_byte c +:+ htmlEscape s' end.
Definition StatusText (code : Z) : string :=
  if (code =? 303)%Z then "See Other" else if (code =? 307)%Z then "Temporary Redirect" else "".

(** *** Cookies *)
Record Cookie : Type := mkCookie {
  ck_Name : string; ck_Value : string; ck_Path : string; ck_Expires : time; ck_MaxAge : Z;
  ck_HttpOnly : bool; ck_Secure : bool; ck_SameSiteStrict : bool;
}.
Definition valid_value_byte (c : ascii) : bool :=
  (32 <=? byte_of c)%Z && (byte_of c <? 127)%Z && bool_decide (c <> of_byte 34 /\ c <> ";"%char /\ c <> "\"%char).
Fixpoint str_filter (p : ascii -> bool) (s : string) : string :=
  match s with EmptyString => EmptyString | String c s' => if p c then String c (str_filter p s') else str_filter p s' end.
Fixpoint str_forall (p : ascii -> bool) (s : string) : bool :=
  match s with EmptyString => true | String c s' => p c && str_forall p s' end.
Definition quote : string := String (of_byte 34) EmptyString.
Definition sanitizeCookieValue (v : string) : string :=
  let v := str_filter valid_value_byte v in
  if Contains v " " || Contains v "," then quote +:+ v +:+ quote else v.

(** [t.UTC().Format(http.TimeFormat)]. *)
Definition weekday (d : Z) : string := nth (Z.to_nat (d mod 7)) ["Mon"; "Tue"; "Wed"; "Thu"; "Fri"; "Sat"; "Sun"] "".
Definition month_name (m : Z) : string :=
  nth (Z.to_nat (m - 1)) ["Jan"; "Feb"; "Mar"; "Apr"; "May"; "Jun"; "Jul"; "Aug"; "Sep"; "Oct"; "Nov"; "Dec"] "".
Definition FormatHttp (t : time) : string :=
  let '(y, m, d) := civil (day_of t) in
  let s := sec_of_day t in
  weekday (day_of t) +:+ ", " +:+ pad2 d +:+ " " +:+ month_name m +:+ " " +:+ pad4 y +:+ " " +:+
  pad2 (s / 3600) +:+ ":" +:+ pad2 ((s / 60) mod 60) +:+ ":" +:+ pad2 (s mod 60) +:+ " GMT".
Definition year_of (t : time) : Z := (civil (day_of t)).1.1.

Definition cookie_String (c : Cookie) : string :=
  ck_Name c +:+ "=" +:+ sanitizeCookieValue (ck_Value c) +:+
  (if String.eqb (ck_Path c) "" then "" else "; Path=" +:+ ck_Path c) +:+
  (if (1601 <=? year_of (ck_Expires c))%Z then "; Expires=" +:+ FormatHttp (ck_Expires c) else "") +:+
  (if (0 <? ck_MaxAge c)%Z then "; Max-Age=" +:+ Itoa (ck_MaxAge c) else if (ck_MaxAge c <? 0)%Z then "; Max-Age=0" else "") +:+
  (if ck_HttpOnly c then "; HttpOnly" else "") +:+ (if ck_Secure c then "; Secure" else "") +:+
  (if ck_SameSiteStrict c then "; SameSite=Strict" else "").

(** [r.Cookie]: the value of the first cookie of the name that is well formed.  The
    names asked for are tokens, so a part with one of them passes the check of names. *)
Definition parseCookieValue (raw : string) : option string :=
  let v := if (1 <? String.length raw)%nat && HasPrefix raw quote && HasSuffix raw quote
           then take_bytes (String.length raw - 2) (drop_bytes 1 raw) else raw in
  if str_forall valid_value_byte v then Some v else None.
Definition cookie_part (name part : string) : option string :=
  let part := TrimSpace part in
  if String.eqb part "" then None else
  let '(n, v) := default (part, "") (Cut part "=") in
  if String.eqb (TrimSpace n) name then parseCookieValue v else None.
Definition request_cookie (r : http_request) (name : string) : option string :=
  head (omap (cookie_part name) (Split (Get r "Cookie") ";")).

Section writing.
  Context {W : Type}.
  Variable w : ResponseWriter W.

Definition writes (f : writer -> writer) : st W unit := on_cell w (fun b => (tt, f b)).
(** [w.Header().Set], and [Add] for cookies. *)
Definition Header_Set (name value : string) : st W unit :=
  writes (fun b => {| wr_Header := wr_Header b ++ [(name, value)]; wr_Status := wr_Status b; wr_Body := wr_Body b |}).
Definition SetCookie (c : Cookie) : st W unit := Header_Set "Set-Cookie" (cookie_String c).
(** Later calls have no effect. *)
Definition WriteHeader (code : Z) : st W unit :=
  writes (fun b => match wr_Status b with
                   | Some _ => b
                   | None => {| wr_Header := wr_Header b; wr_Status := Some (code, wr_Header b); wr_Body := wr_Body b |}
                   end).
Definition Write (s : string) : st W unit :=
  WriteHeader StatusOK ≫= fun _ =>
  writes (fun b => {| wr_Header := wr_Header b; wr_Status := wr_Status b; wr_Body := wr_Body b +:+ s |}).

(** A response that is at hand. *)
Definition reply (p : http_response) : st W unit :=
  writes (fun b => {| wr_Header := wr_Header b ++ p_Header p; wr_Status := wr_Status b; wr_Body := wr_Body b |}) ≫= fun _ =>
  WriteHeader (p_Status p) ≫= fun _ => Write (p_Body p).
Definition NotFound : st W unit := reply (http_Error "404 page not found" 404).

(** To a clean absolute path, with no content type set before. *)
Definition Redirect (r : http_request) (url : string) (code : Z) : st W unit :=
  Header_Set "Location" url ≫= fun _ =>
  when (bool_decide (q_Method r ∈ ["GET"; "HEAD"]))
    (Header_Set "Content-Type" "text/html; charset=utf-8") ≫= fun _ =>
  WriteHeader code ≫= fun _ =>
  when (String.eqb (q_Method r) "GET")
    (Write ("<a href=" +:+ quote +:+ htmlEscape url +:+ quote +:+ ">" +:+ StatusText code +:+ "</a>." +:+
            String (of_byte 10) (String (of_byte 10) EmptyString))).

(** The server runs a handler with an empty writer. *)
Definition ServeHTTP (h : http_request -> st W unit) : Handler W := fun r =>
  writes (fun _ => new_writer) ≫= fun _ => h r ≫= fun _ => gets (fun s => response_of (c_get w s)).

(** *** [CrossOriginProtection] *)
Definition cross_origin `{!NetLibrary} (r : http_request) : result string unit :=
  if bool_decide (q_Method r ∈ ["GET"; "HEAD"; "OPTIONS"]) then Ok tt else
  let site := Get r "Sec-Fetch-Site" in
  if String.eqb site "same-origin" || String.eqb site "none" then Ok tt
  else if negb (String.eqb site "") then Err "cross-origin request detected from Sec-Fetch-Site header"
  else
    let origin := Get r "Origin" in
    let same := match url_Parse origin with Ok o => String.eqb (u_Host o) (q_Host r) | Err _ => false end in
    if String.eqb origin "" || same then Ok tt
    else Err "cross-origin request detected, and/or browser is out of date: Sec-Fetch-Site is missing, and Origin does not match Host".
Definition crossOriginHandler `{!NetLibrary} (next : http_request -> st W unit) (r : http_request) : st W unit :=
  match cross_origin r with
  | Err e => reply (http_Error e 403)
  | Ok _ => next r
  end.
End writing.

(** ** Forms *)

(** [multipart_values ct body]: the values of a body in parts, by [mime/multipart]. *)
Class FormReader : Type := { multipart_values : string -> string -> gmap string (list string) }.

Section forms.
  Context `{!FormReader}.

Definition Query (r : http_request) : gmap string (list string) := (ParseQuery (q_RawQuery r)).1.
(** The media type, whose parameters are well formed. *)
Definition media_type (ct : string) : string := ToLower (TrimSpace (match Cut ct ";" with Some (a, _) => a | None => ct end)).
Definition parsePostForm (r : http_request) : gmap string (list string) * bool :=
  if bool_decide (q_Method r ∈ ["POST"; "PUT"; "PATCH"]) && String.eqb (media_type (Get r "Content-Type")) "application/x-www-form-urlencoded"
  then ParseQuery (default "" (q_Body r)) else (∅, true).
Definition append_values (a b : gmap string (list string)) : gmap string (list string) :=
  union_with (fun x y => Some (x ++ y)) a b.
(** [r.Form] after [ParseMultipartForm]. *)
Definition Form (r : http_request) : gmap string (list string) :=
  append_values (append_values (parsePostForm r).1 (Query r)) (multipart_values (Get r "Content-Type") (default "" (q_Body r))).
Definition FormValue (r : http_request) (key : string) : string := values_Get (Form r) key.
(** [r.ParseForm]: a form that was parsed before is not parsed again. *)
Definition ParseForm (parsed : bool) (r : http_request) : result err unit :=
  if parsed || (parsePostForm r).2 && (ParseQuery (q_RawQuery r)).2 then Ok tt else Err (EOther "invalid URL escape").
End forms.

Example http_time_ex : FormatHttp (unix_epoch + 784111777 * Second)%Z = "Sun, 06 Nov 1994 08:49:37 GMT".
Proof. vm_compute. reflexivity. Qed.
Example cookie_ex :
  map (fun c => request_cookie (mkHttpRequest "GET" "/" "" "" "" [("Cookie", c)] None None Background) "s")
    ["s=abc"; "t=x; s=1; s=2"; "s=a b"; "s=a\b; s=c"; "ss=1"; "s"; ""] =
  [Some "abc"; Some "1"; Some "a b"; Some "c"; None; Some ""; None].
Proof. vm_compute. reflexivity. Qed.
Example session_cookie_ex :
  cookie_String (mkCookie "s" "abc" "/admin" (unix_epoch + Second) (-1) true true true) =
  "s=abc; Path=/admin; Expires=Thu, 01 Jan 1970 00:00:01 GMT; Max-Age=0; HttpOnly; Secure; SameSite=Strict".
Proof. vm_compute. reflexivity. Qed.
