(* ===== verification/Middleware.v ===== *)
(** * The middleware of the REST transport: [internal/api/middleware.go]

    Body limit, authentication, rate limits and CORS, around any handler. The
    state that a middleware closes over (the dirty keys, the buckets of a
    limiter) is a [cell] of the world; its mutex makes each operation atomic. *)
From S2P Require Import Prelude GoStrings GoTime Json Float64 Domain Runtime Http.
From S2P Require Service.
Local Open Scope cron_scope.

Definition maxRequestBodySize : Z := Z.shiftl 1 20.
Definition BodySizeLimitMiddleware {W} (next : Handler W) : Handler W := fun r =>
  match q_Body r with
  | Some _ => next (limit_body maxRequestBodySize r)
  | None => next r
  end.

(** ** Authentication *)
Class KeyRepository (W : Type) : Type := {
  GetKeyByTokenHash : string -> st W (result err APIKey);
  UpdateLastUsedAt : list uuid -> st W (result err unit);
}.

Definition unauthorized : http_response := writeError StatusUnauthorized "unauthorized".
(** [subtle.ConstantTimeCompare] is the equality of bytes. *)
Definition ConstantTimeCompare (s t : string) : bool := bool_decide (bytes_of s = bytes_of t).

Definition AuthMiddleware {W} (apiKey : string) (next : Handler W) : Handler W :=
  if String.eqb apiKey "" then next else fun r =>
  if String.eqb (q_Path r) "/health" then next r else
  let auth := Get r "Authorization" in
  let token := TrimPrefix auth "Bearer " in
  if String.eqb auth token || negb (ConstantTimeCompare token apiKey) then mret unauthorized else next r.

Section auth.
  Context {W : Type} `{!KeyRepository W, !Runtime W}.
  Variables (dirty : cell W (gset uuid)) (lastLegacyWarn : cell W Z).

Definition markUsed (id : uuid) : st W unit := on_cell dirty (fun s => (tt, {[id]} ∪ s)).

(** The keys to flush come in the order of the map, which is open. *)
Definition flush (order : gset uuid -> list uuid) : st W unit :=
  on_cell dirty (fun s => (s, ∅)) ≫= fun s =>
  if (size s =? 0)%nat then mret tt else UpdateLastUsedAt (order s) ≫= fun _ => mret tt.
(** [flushLoop]: a flush per tick, and one more when the context is cancelled. *)
Fixpoint flushLoop (ticks : list (gset uuid -> list uuid)) (last : gset uuid -> list uuid) : st W unit :=
  match ticks with
  | [] => flush last
  | order :: ticks' => flush order ≫= fun _ => flushLoop ticks' last
  end.

(** The limit of the deprecation warnings, one in sixty seconds. *)
Definition legacy_warning : st W unit :=
  time_Now ≫= fun t =>
  let now := ((t - unix_epoch) / Second)%Z in
  on_cell lastLegacyWarn (fun last => (tt, if (60 <=? now - last)%Z then now else last)).

Definition exempt (path : string) : bool := String.eqb path "/health" || HasPrefix path "/mcp".

Definition MultiKeyAuthMiddleware (fallbackKey : string) (next : Handler W) : Handler W := fun r =>
  if exempt (q_Path r) then next r else
  let auth := Get r "Authorization" in
  if negb (HasPrefix auth "Bearer ") then mret unauthorized else
  let token := TrimPrefix auth "Bearer " in
  let fallback :=
    if negb (String.eqb fallbackKey "") && ConstantTimeCompare token fallbackKey then
      legacy_warning ≫= fun _ =>
      next (WithContext (NamespaceToContext (q_Context r) "default") r)
    else mret unauthorized in
  try key := GetKeyByTokenHash (Service.HashToken token) catch e => fallback in
  if k_Enabled key then
    markUsed (k_ID key) ≫= fun _ =>
    next (WithContext (NamespaceToContext (q_Context r) (k_Namespace key)) r)
  else fallback.
End auth.

(** ** Token buckets *)
Record clientBucket : Type := mkBucket { tokens : Z; lastSeen : time }.

(** What the hardware gives for a float that does not fit an integer. *)
Class FloatConversion : Type := { unspecified : float64 -> Z }.

Section buckets.
  Context `{!FloatConversion}.

(** [int(elapsed * float64(rate))]. *)
Definition refill (elapsed : duration) (rate : Z) : Z :=
  to_int unspecified (fmul (Seconds elapsed) (of_int rate)).

(** What [allow] does with a bucket that exists. *)
Definition spend (rate : Z) (now : time) (b : clientBucket) : bool * clientBucket :=
  let n := wrap64 (tokens b + refill (time_sub now (lastSeen b)) rate) in
  let n := if (rate <? n)%Z then rate else n in
  if (n <=? 0)%Z then (false, {| tokens := n; lastSeen := now |})
  else (true, {| tokens := wrap64 (n - 1); lastSeen := now |}).
Definition fresh_bucket (rate : Z) (now : time) : clientBucket := {| tokens := wrap64 (rate - 1); lastSeen := now |}.

(** *** By IP *)
Definition ipRateLimiterClientTTL : duration := 10 * Minute.
Definition ipRateLimiterCleanupInterval : duration := Minute.
Definition ipRateLimiterMaxClients : Z := 10000.

Record ipRateLimiter : Type := mkLimiter {
  rate : Z;
  clients : gmap string clientBucket;
  clientTTL : duration;
  cleanupInterval : duration;
  nextCleanup : time;
  maxClients : Z;
}.
Definition newIPRateLimiter (ratePerSecond : Z) (now : time) : ipRateLimiter :=
  {| rate := ratePerSecond; clients := ∅; clientTTL := ipRateLimiterClientTTL;
     cleanupInterval := ipRateLimiterCleanupInterval; nextCleanup := time_add now ipRateLimiterCleanupInterval;
     maxClients := ipRateLimiterMaxClients |}.
Definition set_clients (m : gmap string clientBucket) (l : ipRateLimiter) : ipRateLimiter :=
  {| rate := rate l; clients := m; clientTTL := clientTTL l; cleanupInterval := cleanupInterval l;
     nextCleanup := nextCleanup l; maxClients := maxClients l |}.
Definition set_nextCleanup (t : time) (l : ipRateLimiter) : ipRateLimiter :=
  {| rate := rate l; clients := clients l; clientTTL := clientTTL l; cleanupInterval := cleanupInterval l;
     nextCleanup := t; maxClients := maxClients l |}.

Definition stale (ttl : duration) (now : time) (b : clientBucket) : bool := (ttl <=? time_sub now (lastSeen b))%Z.
Definition pruneStale (now : time) (l : ipRateLimiter) : ipRateLimiter :=
  set_clients (filter (fun p => stale (clientTTL l) now p.2 = false) (clients l)) l.

Definition allow (ip : string) (now : time) (l : ipRateLimiter) : bool * ipRateLimiter :=
  let l := if negb (Before now (nextCleanup l))
           then set_nextCleanup (time_add now (cleanupInterval l)) (pruneStale now l) else l in
  match clients l !! ip with
  | None =>
      if (maxClients l <=? Z.of_nat (size (clients l)))%Z then (false, l)
      else (true, set_clients (<[ip := fresh_bucket (rate l) now]> (clients l)) l)
  | Some b =>
      let '(ok, b') := spend (rate l) now b in (ok, set_clients (<[ip := b']> (clients l)) l)
  end.

(** *** By namespace *)
Record namespaceRateLimiter : Type := mkNsLimiter { ns_rate : Z; namespaces : gmap string clientBucket }.
Definition newNamespaceRateLimiter (ratePerSecond : Z) : namespaceRateLimiter :=
  {| ns_rate := ratePerSecond; namespaces := ∅ |}.
Definition ns_allow (ns : string) (now : time) (l : namespaceRateLimiter) : bool * namespaceRateLimiter :=
  match namespaces l !! ns with
  | None => (true, {| ns_rate := ns_rate l; namespaces := <[ns := fresh_bucket (ns_rate l) now]> (namespaces l) |})
  | Some b =>
      let '(ok, b') := spend (ns_rate l) now b in
      (ok, {| ns_rate := ns_rate l; namespaces := <[ns := b']> (namespaces l) |})
  end.
End buckets.

Definition extractIP (r : http_request) : string :=
  match LastIndex (q_RemoteAddr r) ":"%char with
  | Some idx => take_bytes idx (q_RemoteAddr r)
  | None => q_RemoteAddr r
  end.

Section limits.
  Context {W : Type} `{!Runtime W, !FloatConversion}.

Definition RateLimitMiddleware (limiter : cell W ipRateLimiter) (next : Handler W) : Handler W := fun r =>
  if String.eqb (q_Path r) "/health" then next r else
  time_Now ≫= fun now =>
  on_cell limiter (allow (extractIP r) now) ≫= fun ok =>
  if negb ok then mret (writeError StatusTooManyRequests "rate limit exceeded") else next r.

Definition NamespaceRateLimitMiddleware (limiter : cell W namespaceRateLimiter) (next : Handler W) : Handler W := fun r =>
  if String.eqb (q_Path r) "/health" || String.eqb (q_Path r) "/metrics" then next r else
  let ns := NamespaceFromContext (q_Context r) in
  if ns_IsZero ns then next r else
  time_Now ≫= fun now =>
  on_cell limiter (ns_allow ns now) ≫= fun ok =>
  if negb ok then mret (writeError StatusTooManyRequests "namespace rate limit exceeded") else next r.
End limits.

(** ** CORS *)
Definition cors_headers (origin : string) : list (string * string) :=
  [("Access-Control-Allow-Origin", origin); ("Access-Control-Allow-Methods", "GET, POST, PATCH, DELETE, OPTIONS");
   ("Access-Control-Allow-Headers", "Authorization, Content-Type"); ("Access-Control-Max-Age", "86400"); ("Vary", "Origin")].
Definition CORSMiddleware {W} (allowedOrigins : string) (next : Handler W) : Handler W :=
  if String.eqb allowedOrigins "" then next else
  let origins := map TrimSpace (Split allowedOrigins ","%char) in
  let allowAll := bool_decide ("*" ∈ origins) in
  fun r =>
  let origin := Get r "Origin" in
  if String.eqb origin "" then next r else
  let headers := if allowAll || bool_decide (origin ∈ origins) then cors_headers origin else [] in
  if String.eqb (q_Method r) "OPTIONS"
  then mret (with_headers headers {| p_Status := StatusNoContent; p_Header := []; p_Body := "" |})
  else with_headers headers <$> next r.

Example extractIP_ex : map (fun a => extractIP (mkHttpRequest "GET" "/" "" a "" [] None None Background)) ["10.0.0.1:4711"; "[::1]:80"; "x"] =
  ["10.0.0.1"; "[::1]"; "x"]%string.
Proof. vm_compute. reflexivity. Qed.

(** ** Properties of the limiters *)
Definition sane_rate (r : Z) : Prop := (1 <= r < 2 ^ 17)%Z.

Section limiter_properties.
  Context `{!FloatConversion}.

Lemma rate_below r : sane_rate r -> below (2 ^ 18) 16 (of_int r).
Proof. intros Hr. eapply below_weaken; [| | apply of_int_below]; unfold sane_rate in Hr; lia. Qed.

(** A refill is not negative and does not overflow; without time it is nothing. *)
Lemma refill_bounds d r : (0 <= d <= int64_max)%Z -> sane_rate r -> (0 <= refill d r <= 2 ^ 62 + 2 ^ 55 + 1)%Z.
Proof.
  intros Hd Hr. unfold refill. apply (to_int_below _ _ _ 55); [| unfold int64_max; lia].
  eapply below_weaken; [| | apply (fmul_below _ _ (2 ^ 43) (2 ^ 18) 39 16); [by apply Seconds_below | by apply rate_below | lia ..]]; lia.
Qed.
Lemma refill_zero r : sane_rate r -> refill 0 r = 0%Z.
Proof.
  intros Hr. unfold refill. assert (E : Seconds 0 = SpecFloat.S754_zero false) by (vm_compute; reflexivity).
  rewrite E. by rewrite (fmul_zero_l _ _ _ (rate_below r Hr)).
Qed.

Definition bucket_ok (r : Z) (now : time) (b : clientBucket) : Prop := (0 <= tokens b <= r)%Z /\ (lastSeen b <= now)%Z.

Lemma time_sub_nonneg t u : (u <= t)%Z -> (0 <= time_sub t u <= int64_max)%Z.
Proof. unfold time_sub, int64_min, int64_max. lia. Qed.

(** The tokens that a bucket has at a moment. *)
Definition available (r : Z) (now : time) (b : clientBucket) : Z :=
  Z.min r (tokens b + refill (time_sub now (lastSeen b)) r).
Lemma spend_spec r now b : sane_rate r -> bucket_ok r now b ->
  spend r now b = (bool_decide (0 < available r now b)%Z,
    {| tokens := Z.max 0 (available r now b - 1); lastSeen := now |}) /\ (0 <= available r now b <= r)%Z.
Proof.
  intros Hr [Ht Hl]. pose proof (refill_bounds _ r (time_sub_nonneg _ _ Hl) Hr) as Hf. unfold sane_rate in Hr.
  unfold spend, available. rewrite wrap64_id by (unfold in_int64, int64_min, int64_max; lia).
  set (f := refill _ _) in *. split; [| lia].
  replace (if (r <? tokens b + f)%Z then r else (tokens b + f)%Z) with (Z.min r (tokens b + f)) by (destruct (Z.ltb_spec r (tokens b + f)); lia).
  cbv zeta. case_bool_decide; destruct (Z.leb_spec (Z.min r (tokens b + f)) 0); try lia.
  - rewrite wrap64_id by (unfold in_int64, int64_min, int64_max; lia). do 2 f_equal. lia.
  - do 2 f_equal. lia.
Qed.

Record limiter_ok (now : time) (l : ipRateLimiter) : Prop := {
  lim_rate : sane_rate (rate l);
  lim_buckets : forall ip b, clients l !! ip = Some b -> bucket_ok (rate l) now b;
  lim_size : (Z.of_nat (size (clients l)) <= maxClients l)%Z;
}.

(** The limiter after the cleanup that a request may trigger. *)
Definition cleaned (now : time) (l : ipRateLimiter) : ipRateLimiter :=
  if negb (Before now (nextCleanup l)) then set_nextCleanup (time_add now (cleanupInterval l)) (pruneStale now l) else l.
Lemma cleaned_rate now l : rate (cleaned now l) = rate l /\ maxClients (cleaned now l) = maxClients l.
Proof. unfold cleaned. by destruct (negb _). Qed.
Lemma cleaned_lookup now l ip b : clients (cleaned now l) !! ip = Some b -> clients l !! ip = Some b.
Proof. unfold cleaned. destruct (negb _); [| done]. cbn. by intros [? _]%map_lookup_filter_Some. Qed.
Lemma cleaned_ok now now' l : limiter_ok now l -> (now <= now')%Z -> limiter_ok now' (cleaned now' l).
Proof.
  intros [Hr Hb Hs] Hn. destruct (cleaned_rate now' l) as [Er Em]. split; rewrite ?Er, ?Em; [done | |].
  - intros ip b Hi%cleaned_lookup. destruct (Hb ip b Hi). split; [done | lia].
  - etrans; [| exact Hs]. apply Nat2Z.inj_le. unfold cleaned. destruct (negb _); [| done].
    cbn. apply map_subseteq_size, map_filter_subseteq.
Qed.

Lemma allow_ok now now' ip l : limiter_ok now l -> (now <= now')%Z -> limiter_ok now' (allow ip now' l).2.
Proof.
  intros Hl Hn. pose proof (cleaned_ok now now' l Hl Hn) as [Hr Hb Hs]. unfold allow. fold (cleaned now' l).
  set (c := cleaned now' l) in *. destruct (clients c !! ip) as [b|] eqn:Hi.
  - destruct (spend_spec _ _ _ Hr (Hb ip b Hi)) as [-> Ha]. split; cbn; [done | |].
    + intros ip' b'. destruct (decide (ip = ip')) as [<-|]; [rewrite lookup_insert_eq; intros [= <-] | rewrite lookup_insert_ne by done; apply Hb].
      split; cbn; unfold sane_rate in Hr; lia.
    + by rewrite map_size_insert_Some.
  - destruct (Z.leb_spec (maxClients c) (Z.of_nat (size (clients c)))); [done |]. split; cbn; [done | |].
    + intros ip' b'. destruct (decide (ip = ip')) as [<-|]; [rewrite lookup_insert_eq; intros [= <-] | rewrite lookup_insert_ne by done; apply Hb].
      split; cbn; [| done]. unfold sane_rate in Hr. rewrite wrap64_id by (unfold in_int64, int64_min, int64_max; lia). lia.
    + rewrite map_size_insert_None by done. lia.
Qed.

(** Requests in the order in which they arrive, with the decisions. *)
Fixpoint allow_all (l : ipRateLimiter) (reqs : list (string * time)) : list bool * ipRateLimiter :=
  match reqs with
  | [] => ([], l)
  | (ip, t) :: reqs' =>
      let '(ok, l1) := allow ip t l in
      let '(oks, l2) := allow_all l1 reqs' in (ok :: oks, l2)
  end.
Definition admitted (l : list bool) : nat := length (List.filter id l).

(** The limiter stays within its bounds: however requests arrive, in the
    order of the clock, no bucket ever holds less than nothing or more than one
    second's worth of tokens, and there are never more buckets than the cap. *)
Lemma limiter_bounded (r : Z) (t0 : time) (reqs : list (string * time)) :
  sane_rate r -> Sorted Z.le (t0 :: map snd reqs) ->
  let l := (allow_all (newIPRateLimiter r t0) reqs).2 in
  (forall ip b, clients l !! ip = Some b -> 0 <= tokens b <= r)%Z /\
  (Z.of_nat (size (clients l)) <= ipRateLimiterMaxClients)%Z.
Proof.
  intros Hr Hs.
  assert (Hrun : forall reqs t l, limiter_ok t l -> Sorted Z.le (t :: map snd reqs) ->
    rate (allow_all l reqs).2 = rate l /\ maxClients (allow_all l reqs).2 = maxClients l /\ exists t', limiter_ok t' (allow_all l reqs).2).
  { clear. induction reqs as [|[ip t'] reqs IH]; intros t l Hl Hs; [by eauto |]. cbn [allow_all].
    inversion Hs as [|? ? Hs' Ht]; subst. inversion Ht; subst. pose proof (allow_ok t t' ip l Hl ltac:(done)) as Hl1.
    assert (Hrm : rate (allow ip t' l).2 = rate l /\ maxClients (allow ip t' l).2 = maxClients l).
    { unfold allow. fold (cleaned t' l). destruct (cleaned_rate t' l) as [<- <-]. repeat case_match; done. }
    destruct Hrm as [<- <-]. destruct (allow ip t' l) as [ok l1]. cbn [snd] in *.
    destruct (IH t' l1 Hl1 Hs') as (E1 & E2 & t2 & Hok). destruct (allow_all l1 reqs). cbn in *. eauto. }
  destruct (Hrun reqs t0 (newIPRateLimiter r t0)) as (Er & Em & t' & [_ Hb Hsz]); [| done |].
  - split; cbn; [done | by intros ? ?; rewrite lookup_empty | by rewrite map_size_empty].
  - cbn. rewrite Er in Hb. rewrite Em in Hsz. split; [| done]. intros ip b Hi. apply (Hb ip b Hi).
Qed.

(** No cleanup is due. *)
Definition tidy (now : time) (l : ipRateLimiter) : Prop := (now < nextCleanup l)%Z.
Lemma cleaned_tidy now l : (0 < cleanupInterval l)%Z -> tidy now (cleaned now l).
Proof.
  intros Hc. unfold tidy, cleaned, Before. destruct (Z.ltb_spec now (nextCleanup l)); cbn; [done |]. unfold time_add. lia.
Qed.
Lemma tidy_cleaned now l : tidy now l -> cleaned now l = l.
Proof. unfold tidy, cleaned, Before. by intros ->%Z.ltb_lt. Qed.

(** A decision, at the limiter that the cleanup leaves. *)
Definition decide_at (ip : string) (now : time) (c : ipRateLimiter) : bool * ipRateLimiter :=
  match clients c !! ip with
  | None =>
      if (maxClients c <=? Z.of_nat (size (clients c)))%Z then (false, c)
      else (true, set_clients (<[ip := fresh_bucket (rate c) now]> (clients c)) c)
  | Some b => let '(ok, b') := spend (rate c) now b in (ok, set_clients (<[ip := b']> (clients c)) c)
  end.
Lemma allow_decides ip now l : allow ip now l = decide_at ip now (cleaned now l).
Proof. done. Qed.

Lemma same_moment n ip now : forall l b, limiter_ok now l -> tidy now l -> clients l !! ip = Some b -> lastSeen b = now ->
  Z.of_nat (admitted (allow_all l (replicate n (ip, now))).1) = Z.min (Z.of_nat n) (tokens b).
Proof.
  induction n as [|n IH]; intros l b Hl Ht Hi Hs; [cbn; destruct Hl as [_ Hb _]; destruct (Hb ip b Hi); lia |].
  pose proof (allow_ok now now ip l Hl ltac:(lia)) as Hl1. revert Hl1.
  cbn [replicate allow_all]. rewrite allow_decides, tidy_cleaned by done. unfold decide_at. rewrite Hi.
  destruct (lim_buckets _ _ Hl ip b Hi) as [Htk Hls]. destruct (spend_spec _ _ _ (lim_rate _ _ Hl) (conj Htk Hls)) as [-> _].
  assert (Ea : available (rate l) now b = tokens b).
  { unfold available. rewrite Hs. replace (time_sub now now) with 0%Z by (unfold time_sub, int64_min, int64_max; lia).
    rewrite refill_zero by apply Hl. lia. }
  rewrite Ea. cbn [snd]. intros Hl1. match goal with |- context [allow_all ?l1 _] => set (l' := l1) in * end.
  specialize (IH l' {| tokens := Z.max 0 (tokens b - 1); lastSeen := now |} Hl1 Ht (lookup_insert_eq _ _ _) eq_refl). cbn [tokens] in IH.
  destruct (allow_all l' _) as [oks l2]. cbn [fst] in *. unfold admitted in *. cbn [List.filter id]. case_bool_decide; cbn [length]; lia.
Qed.

Lemma full_limiter n ip now : forall l, tidy now l -> clients l !! ip = None ->
  (maxClients l <= Z.of_nat (size (clients l)))%Z -> admitted (allow_all l (replicate n (ip, now))).1 = 0.
Proof.
  induction n as [|n IH]; intros l Ht Hi Hm; [done |]. cbn [replicate allow_all].
  rewrite allow_decides, tidy_cleaned by done. unfold decide_at. rewrite Hi, (proj2 (Z.leb_le _ _) Hm).
  specialize (IH l Ht Hi Hm). by destruct (allow_all l _).
Qed.

(** A burst: of the requests of one client that arrive at the same moment,
    the limiter admits as many as the bucket has tokens and no more, a whole
    second's worth for a client it does not know, none if it has no room for it. *)
Lemma limiter_burst (now : time) (l : ipRateLimiter) (ip : string) (n : nat) :
  limiter_ok now l -> (0 < cleanupInterval l)%Z ->
  let c := cleaned now l in
  let budget :=
    match clients c !! ip with
    | Some b => available (rate l) now b
    | None => if (maxClients l <=? Z.of_nat (size (clients c)))%Z then 0%Z else rate l
    end in
  Z.of_nat (admitted (allow_all l (replicate n (ip, now))).1) = Z.min (Z.of_nat n) budget /\ (budget <= rate l)%Z.
Proof.
  intros Hl Hi c budget. pose proof (cleaned_ok now now l Hl ltac:(lia)) as Hc. pose proof (cleaned_tidy now l Hi) as Ht.
  destruct (cleaned_rate now l) as [Er Em]. fold c in Hc, Ht, Er, Em. pose proof (lim_rate _ _ Hl) as Hr. unfold sane_rate in Hr.
  assert (Hbud : (0 <= budget <= rate l)%Z).
  { unfold budget. destruct (clients c !! ip) as [b|] eqn:E.
    - destruct (spend_spec _ _ _ (lim_rate _ _ Hc) (lim_buckets _ _ Hc ip b E)) as [_ Hav]. by rewrite Er in Hav.
    - destruct (_ <=? _)%Z; lia. }
  split; [| apply Hbud]. destruct n as [|n]; [cbn; lia |].
  pose proof (allow_ok now now ip l Hl ltac:(lia)) as Hl1. revert Hl1. cbn [replicate allow_all]. rewrite allow_decides. fold c.
  unfold decide_at, budget in *. rewrite Em. destruct (clients c !! ip) as [b|] eqn:E.
  - destruct (spend_spec _ _ _ (lim_rate _ _ Hc) (lim_buckets _ _ Hc ip b E)) as [-> Hav]. rewrite Er in *. cbn [snd]. intros Hl1.
    match goal with |- context [allow_all ?l1 _] => pose proof (same_moment n ip now l1 _ Hl1 Ht (lookup_insert_eq _ _ _) eq_refl) as Hn end.
    cbn [tokens] in Hn. destruct (allow_all _ _) as [oks l2]. cbn [fst] in *. unfold admitted in *. cbn [List.filter id].
    case_bool_decide; cbn [length]; lia.
  - destruct (Z.leb_spec (maxClients l) (Z.of_nat (size (clients c)))) as [Hm|Hm]; cbn [snd]; intros Hl1.
    + pose proof (full_limiter n ip now c Ht E ltac:(lia)) as Hn. destruct (allow_all c _). cbn [fst] in *. unfold admitted in *. cbn. lia.
    + rewrite Er in *. match goal with |- context [allow_all ?l1 _] => pose proof (same_moment n ip now l1 _ Hl1 Ht (lookup_insert_eq _ _ _) eq_refl) as Hn end.
      cbn [tokens fresh_bucket] in Hn. rewrite wrap64_id in Hn by (unfold in_int64, int64_min, int64_max; lia).
      destruct (allow_all _ _) as [oks l2]. cbn [fst] in *. unfold admitted in *. cbn [List.filter id length]. lia.
Qed.

(** Requests of one client, each after a gap. *)
Fixpoint spaced (ip : string) (t : time) (gaps : list duration) : list (string * time) :=
  match gaps with
  | [] => []
  | d :: gaps' => (ip, time_add t d) :: spaced ip (time_add t d) gaps'
  end.

(** What a client gets that is out of tokens and asks again before the next
    whole token is due: nothing, however long this goes on, since every request
    drops the fraction of a token that the time since the last one was worth. *)
Lemma impatient_clients_starve (ip : string) (gaps : list duration) (l : ipRateLimiter) (t : time) :
  sane_rate (rate l) -> clients l !! ip = Some {| tokens := 0; lastSeen := t |} ->
  Forall (fun d => 0 <= d < clientTTL l /\ d <= int64_max /\ refill d (rate l) = 0)%Z gaps ->
  Forall (fun ok => ok = false) (allow_all l (spaced ip t gaps)).1.
Proof.
  revert l t. induction gaps as [|d gaps IH]; intros l t Hr Hi Hg; [by apply Forall_nil |].
  apply Forall_cons in Hg as [((Hd & Httl) & Hmax & Href) Hg]. cbn [spaced allow_all]. rewrite allow_decides.
  destruct (cleaned_rate (time_add t d) l) as [Er _].
  assert (Hsub : time_sub (time_add t d) t = d) by (unfold time_sub, time_add, int64_min, int64_max in *; lia).
  assert (Hc : clients (cleaned (time_add t d) l) !! ip = Some {| tokens := 0; lastSeen := t |}).
  { unfold cleaned. destruct (negb _); [| done]. cbn. apply map_lookup_filter_Some. split; [done |].
    unfold stale. cbn [snd lastSeen]. rewrite Hsub. by apply Z.leb_gt. }
  unfold decide_at. rewrite Hc, Er. unfold spend. cbn [tokens lastSeen]. rewrite Hsub, Href.
  change (wrap64 (0 + 0)) with 0%Z. destruct (Z.ltb_spec (rate l) 0); [unfold sane_rate in Hr; lia |]. cbn [Z.leb Z.compare].
  match goal with |- context [allow_all ?l1 _] => set (l' := l1) end.
  assert (Httl' : clientTTL l' = clientTTL l /\ rate l' = rate l) by (unfold l', cleaned; by destruct (negb _)).
  destruct Httl' as [E1 E2]. specialize (IH l' (time_add t d)). rewrite E1, E2 in IH.
  specialize (IH Hr (lookup_insert_eq _ _ _) Hg). destruct (allow_all l' _). cbn [fst] in *. by apply Forall_cons.
Qed.
End limiter_properties.

(** ** Concrete limiters *)
Module Sim.
(** Out of range, amd64 gives the smallest integer. *)
#[export] Instance amd64 : FloatConversion := {| unspecified _ := int64_min |}.
Definition l0 : ipRateLimiter := newIPRateLimiter 10 0.
(** Ten requests at once exhaust a client of the default rate. *)
Definition exhausted : ipRateLimiter := (allow_all l0 (replicate 10 ("10.0.0.1", Second))).2.
End Sim.
Import Sim.

Lemma limiter_bounded_witness :
  let l := (allow_all l0 [("a", 0); ("a", Second); ("b", 2 * Second)]%Z).2 in
  (forall ip b, clients l !! ip = Some b -> 0 <= tokens b <= 10)%Z /\ (Z.of_nat (size (clients l)) <= ipRateLimiterMaxClients)%Z.
Proof.
  apply (limiter_bounded 10 0); [unfold sane_rate; lia |].
  repeat first [apply Sorted_cons | apply Sorted_nil | apply HdRel_cons | apply HdRel_nil]; cbn; unfold Second; lia.
Defined.

Lemma limiter_burst_witness :
  admitted (allow_all l0 (replicate 25 ("a", 0%Z))).1 = 10 /\
  Z.of_nat (admitted (allow_all l0 (replicate 25 ("a", 0%Z))).1) = Z.min 25 10.
Proof.
  split; [vm_compute; reflexivity |].
  refine (proj1 (limiter_burst 0 l0 "a" 25 _ _)); [| vm_compute; reflexivity].
  split; [unfold sane_rate; cbn; lia | intros ? ? E; cbn in E; by rewrite lookup_empty in E | vm_compute; discriminate].
Defined.

(** Twice the sustained rate of ten requests per second, for a minute. *)
Lemma impatient_clients_starve_witness :
  Forall (fun ok => ok = false) (allow_all exhausted (spaced "10.0.0.1" Second (replicate 1200 (50 * Millisecond)%Z))).1.
Proof.
  assert (Hr : rate exhausted = 10%Z) by (vm_compute; reflexivity).
  apply impatient_clients_starve; [unfold sane_rate; rewrite Hr; lia | vm_compute; reflexivity |].
  apply Forall_replicate. split; [split; [done | vm_compute; reflexivity] |]. split; vm_compute; [discriminate | reflexivity].
Defined.
