(* ===== verification/Api.v ===== *)
(** * The REST transport: [internal/api/handler_v2.go], [errors.go]

    The handlers that implement the generated interface over the job service, and
    the types of [server.gen.go] that they build: what goes back to a client, as
    a response object with its status and its JSON. *)
From S2P Require Import Prelude GoStrings Json Domain Runtime Cron WebhookURL.
From S2P Require Service.
Import Service (JobService, CreateJobInput, UpdateJobInput, CreateAPIKeyInput).
Local Open Scope cron_scope.

(** ** The types of the interface *)
Definition Tags : Type := gmap string string.

Record CreateAPIKeyRequest : Type := mkCreateAPIKeyRequest { cak_Label : string; cak_Namespace : string }.
Record CreateJobRequest : Type := mkCreateJobRequest {
  cj_Analytics : option (option Z);        (* retention in seconds *)
  cj_CronExpression : string;
  cj_Name : string;
  cj_Tags : option Tags;
  cj_Timezone : string;
  cj_WebhookSecret : option string;
  cj_WebhookTimeoutSeconds : option Z;
  cj_WebhookUrl : string;
}.
Record UpdateJobRequest : Type := mkUpdateJobRequest {
  uj_CronExpression : option string;
  uj_Enabled : option bool;
  uj_Name : option string;
  uj_Tags : option Tags;
  uj_Timezone : option string;
  uj_WebhookSecret : option string;
  uj_WebhookTimeoutSeconds : option Z;
  uj_WebhookUrl : option string;
}.
Record ResolveScheduleRequest : Type := mkResolveRequest { rs_Description : string; rs_Timezone : option string }.

Record ListAPIKeysParams : Type := mkListAPIKeysParams { lak_Limit : option Z; lak_Offset : option Z }.
Record ListPendingAckParams : Type := mkListPendingAckParams { lpa_Limit : option Z; lpa_JobId : option uuid }.
Record GetHealthParams : Type := mkGetHealthParams { gh_Verbose : option bool }.
Record ListJobsParams : Type := mkListJobsParams {
  lj_Limit : option Z;
  lj_Offset : option Z;
  lj_Tag : option (list string);
  lj_Enabled : option bool;
  lj_Name : option string;
}.
Record ListExecutionsParams : Type := mkListExecutionsParams {
  le_Limit : option Z;
  le_Offset : option Z;
  le_Status : option string;
  le_TriggerType : option string;
  le_Since : option time;
  le_Until : option time;
}.

Record APIKeyInfo : Type := mkAPIKeyInfo {
  aki_CreatedAt : time;
  aki_Enabled : bool;
  aki_Id : uuid;
  aki_Label : string;
  aki_LastUsedAt : option time;
  aki_Namespace : string;
}.
Record CreateAPIKeyResponse : Type := mkCreateAPIKeyResponse {
  car_CreatedAt : time;
  car_Id : uuid;
  car_Label : string;
  car_Namespace : string;
  car_Token : string;
}.
Record ApiError : Type := mkApiError { ae_Code : string; ae_Message : string }.
Record ApiExecution : Type := mkApiExecution {
  ax_AcknowledgedAt : option time;
  ax_CreatedAt : time;
  ax_FiredAt : time;
  ax_Id : uuid;
  ax_JobId : uuid;
  ax_ScheduledAt : time;
  ax_Status : string;
  ax_TriggerType : string;
}.
Record HealthResponse : Type := mkHealthResponse { hr_Database : option string; hr_Status : string }.
Record ApiJob : Type := mkApiJob {
  aj_CreatedAt : time;
  aj_CronExpression : string;
  aj_Enabled : bool;
  aj_Id : uuid;
  aj_Name : string;
  aj_Namespace : string;
  aj_Tags : option Tags;
  aj_Timezone : string;
  aj_UpdatedAt : time;
  aj_WebhookUrl : string;
}.
Record JobDetail : Type := mkJobDetail {
  jd_CreatedAt : time;
  jd_CronExpression : string;
  jd_Enabled : bool;
  jd_Id : uuid;
  jd_Name : string;
  jd_Namespace : string;
  jd_RecentExecutions : option (list ApiExecution);
  jd_Tags : option Tags;
  jd_Timezone : string;
  jd_UpdatedAt : time;
  jd_WebhookUrl : string;
}.
Record NextRunResponse : Type := mkNextRunResponse {
  nr_CronExpression : string;
  nr_NextRunAt : time;
  nr_NextRuns : list time;
  nr_Timezone : string;
}.
Record ResolveScheduleResponse : Type := mkResolveResponse {
  rsr_CronExpression : string;
  rsr_Description : string;
  rsr_NextRuns : list time;
  rsr_Timezone : string;
}.

(** The response objects of the operations; the number in a name is the status. *)
Inductive ListAPIKeysResponseObject : Type :=
| ListAPIKeys200JSONResponse (keys : list APIKeyInfo).
Inductive CreateAPIKeyResponseObject : Type :=
| CreateAPIKey201JSONResponse (r : CreateAPIKeyResponse).
Inductive DeleteAPIKeyResponseObject : Type :=
| DeleteAPIKey204Response
| DeleteAPIKey404JSONResponse (e : ApiError).
Inductive ListPendingAckResponseObject : Type :=
| ListPendingAck200JSONResponse (executions : list ApiExecution).
Inductive GetExecutionResponseObject : Type :=
| GetExecution200JSONResponse (x : ApiExecution)
| GetExecution404JSONResponse (e : ApiError).
Inductive AckExecutionResponseObject : Type :=
| AckExecution204Response
| AckExecution404JSONResponse (e : ApiError).
Inductive GetHealthResponseObject : Type :=
| GetHealth200JSONResponse (h : HealthResponse)
| GetHealth503JSONResponse (h : HealthResponse).
Inductive ListJobsResponseObject : Type :=
| ListJobs200JSONResponse (jobs : list ApiJob).
Inductive CreateJobResponseObject : Type :=
| CreateJob201JSONResponse (j : JobDetail)
| CreateJob422JSONResponse (e : ApiError).
Inductive DeleteJobResponseObject : Type :=
| DeleteJob204Response
| DeleteJob404JSONResponse (e : ApiError).
Inductive GetJobResponseObject : Type :=
| GetJob200JSONResponse (j : JobDetail)
| GetJob404JSONResponse (e : ApiError).
Inductive UpdateJobResponseObject : Type :=
| UpdateJob200JSONResponse (j : JobDetail)
| UpdateJob404JSONResponse (e : ApiError)
| UpdateJob422JSONResponse (e : ApiError).
Inductive ListExecutionsResponseObject : Type :=
| ListExecutions200JSONResponse (executions : list ApiExecution).
Inductive GetNextRunResponseObject : Type :=
| GetNextRun200JSONResponse (r : NextRunResponse)
| GetNextRun404JSONResponse (e : ApiError)
| GetNextRun409JSONResponse (e : ApiError).
Inductive PauseJobResponseObject : Type :=
| PauseJob200JSONResponse (j : ApiJob)
| PauseJob404JSONResponse (e : ApiError).
Inductive ResumeJobResponseObject : Type :=
| ResumeJob200JSONResponse (j : ApiJob)
| ResumeJob404JSONResponse (e : ApiError).
Inductive TriggerJobResponseObject : Type :=
| TriggerJob201JSONResponse (x : ApiExecution)
| TriggerJob404JSONResponse (e : ApiError)
| TriggerJob409JSONResponse (e : ApiError).
Inductive ResolveScheduleResponseObject : Type :=
| ResolveSchedule200JSONResponse (r : ResolveScheduleResponse)
| ResolveSchedule422JSONResponse (e : ApiError).

(** ** Errors *)
Record httpError : Type := mkHttpError { he_Status : Z; he_Code : string; he_Message : string }.

Definition mapDomainError (e : err) : httpError :=
  let isErr d := errors_Is e (EDomain d) in
  let mk status code := {| he_Status := status; he_Code := code; he_Message := Error e |} in
  if isErr ErrJobNotFound || isErr ErrNamespaceMismatch then mk 404%Z "job_not_found"
  else if isErr ErrExecutionNotFound then mk 404%Z "execution_not_found"
  else if isErr ErrAPIKeyNotFound then mk 404%Z "api_key_not_found"
  else if isErr ErrInvalidCronExpression then mk 422%Z "invalid_cron"
  else if isErr ErrInvalidTimezone then mk 422%Z "invalid_timezone"
  else if isErr ErrInvalidWebhookURL then mk 422%Z "invalid_webhook_url"
  else if isErr ErrScheduleParseFailure then mk 422%Z "schedule_parse_failure"
  else if isErr ErrJobDisabled then mk 409%Z "job_disabled"
  else if isErr ErrDuplicateExecution then mk 409%Z "duplicate_execution"
  else if isErr ErrNamespaceRequired then mk 401%Z "unauthorized"
  else {| he_Status := 500; he_Code := "internal_error"; he_Message := "internal server error" |}.
Definition newErrorResponse (he : httpError) : ApiError := {| ae_Code := he_Code he; ae_Message := he_Message he |}.

(** ** Conversions *)

(** The order in which a map is iterated. *)
Class MapOrder : Type := {
  iterate : Tags -> list (string * string);
  iterate_perm t : iterate t ≡ₚ map_to_list t;
}.

Definition apiTagsToDomain `{!MapOrder} (t : option Tags) : list Tag :=
  match t with None => [] | Some t => map (fun p => {| t_Key := p.1; t_Value := p.2 |}) (iterate t) end.
Definition domainTagsToAPI (tags : list Tag) : option Tags :=
  if (length tags =? 0)%nat then None
  else Some (fold_left (fun t tag => <[t_Key tag := t_Value tag]> t) tags ∅).
Definition domainJobToAPI (j : Job) (cronExpr tz : string) : ApiJob :=
  {| aj_CreatedAt := j_CreatedAt j; aj_CronExpression := cronExpr; aj_Enabled := j_Enabled j; aj_Id := j_ID j;
     aj_Name := j_Name j; aj_Namespace := j_Namespace j; aj_Tags := None; aj_Timezone := tz;
     aj_UpdatedAt := j_UpdatedAt j; aj_WebhookUrl := d_WebhookURL (j_Delivery j) |}.
Definition domainExecutionToAPI (e : Execution) : ApiExecution :=
  {| ax_AcknowledgedAt := e_AcknowledgedAt e; ax_CreatedAt := e_CreatedAt e; ax_FiredAt := e_FiredAt e;
     ax_Id := e_ID e; ax_JobId := e_JobID e; ax_ScheduledAt := e_ScheduledAt e; ax_Status := e_Status e;
     ax_TriggerType := e_TriggerType e |}.
Definition domainExecutionsToAPI (l : list Execution) : list ApiExecution := map domainExecutionToAPI l.
Definition listParamsFromQuery (limit offset : option Z) : ListParams :=
  {| lp_Limit := default 0%Z limit; lp_Offset := default 0%Z offset |}.
(** [time.Duration(n) * time.Second]. *)
Definition timeout_of_seconds (n : Z) : duration := wrap64 (n * Second).

(** The detail of a job, as three handlers build it. *)
Definition job_detail (j : Job) (s : Schedule) (tags : option Tags) (recent : option (list ApiExecution)) : JobDetail :=
  {| jd_CreatedAt := j_CreatedAt j; jd_CronExpression := s_CronExpression s; jd_Enabled := j_Enabled j; jd_Id := j_ID j;
     jd_Name := j_Name j; jd_Namespace := j_Namespace j; jd_RecentExecutions := recent; jd_Tags := tags;
     jd_Timezone := s_Timezone s; jd_UpdatedAt := j_UpdatedAt j; jd_WebhookUrl := d_WebhookURL (j_Delivery j) |}.

(** [validation.go], which no handler calls. *)
Definition validateTimezone `{!CronLibrary} (tz : string) : option err :=
  match LoadLocation tz with Ok _ => None | Err e => Some e end.
Definition validateWebhookURL `{!NetLibrary} (rawURL : string) : option err :=
  match WebhookURL.Validate rawURL with Ok _ => None | Err e => Some e end.

(** ** The handlers *)

(** [PingContext] of the database. *)
Class HealthChecker (W : Type) : Type := { PingContext : st W (result err unit) }.

Section handlers.
  Context {W : Type} `{!Service.JobRepository W, !Service.ExecutionRepository W, !Service.TagRepository W,
    !Service.DeliveryAttemptRepository W, !Service.APIKeyRepository W, !Service.Random W, !Runtime W,
    !EventEmitter W, !CronLibrary, !NetLibrary, !MapOrder, !HealthChecker W}.
  (** The service, and whether a health checker was given. *)
  Variables (svc : JobService) (checker : bool).
  (** The context of the request. *)
  Variable ctx : context.

Definition GetHealth (params : GetHealthParams) : st W (result err GetHealthResponseObject) :=
  let verbose := default false (gh_Verbose params) in
  if negb verbose || negb checker then mret (Ok (GetHealth200JSONResponse {| hr_Database := None; hr_Status := "ok" |})) else
  PingContext ≫= fun r =>
  mret (Ok (match r with
            | Err _ => GetHealth503JSONResponse {| hr_Database := Some "unhealthy"; hr_Status := "degraded" |}
            | Ok _ => GetHealth200JSONResponse {| hr_Database := Some "healthy"; hr_Status := "ok" |}
            end)).

Definition CreateJob (body : CreateJobRequest) : st W (result err CreateJobResponseObject) :=
  let timeout := match cj_WebhookTimeoutSeconds body with Some n => timeout_of_seconds n | None => 0%Z end in
  let secret := default "" (cj_WebhookSecret body) in
  let input := {|
    Service.ci_Name := cj_Name body; Service.ci_CronExpression := cj_CronExpression body;
    Service.ci_Timezone := cj_Timezone body; Service.ci_WebhookURL := cj_WebhookUrl body;
    Service.ci_Secret := secret; Service.ci_Timeout := timeout; Service.ci_Tags := apiTagsToDomain (cj_Tags body) |} in
  try (job, schedule) := Service.CreateJob ctx input catch e =>
    let he := mapDomainError e in
    mret (if (he_Status he =? 422)%Z then Ok (CreateJob422JSONResponse (newErrorResponse he)) else Err e) in
  mret (Ok (CreateJob201JSONResponse (job_detail job schedule (domainTagsToAPI (Service.ci_Tags input)) None))).

(** A tag filter is [key:value]; other texts are dropped. *)
Definition tag_filter (t : string) : option Tag :=
  match Cut t ":"%char with Some (k, v) => Some {| t_Key := k; t_Value := v |} | None => None end.
Definition ListJobs (params : ListJobsParams) : st W (result err ListJobsResponseObject) :=
  let filter := {|
    jf_Namespace := ""; jf_Tags := omap tag_filter (default [] (lj_Tag params)); jf_Enabled := lj_Enabled params;
    jf_Name := default "" (lj_Name params); jf_ListParams := listParamsFromQuery (lj_Limit params) (lj_Offset params) |} in
  try jobs := Service.ListJobsWithSchedules ctx filter catch e => mret (Err e) in
  mret (Ok (ListJobs200JSONResponse
    (map (fun x => domainJobToAPI (jws_Job x) (s_CronExpression (jws_Schedule x)) (s_Timezone (jws_Schedule x))) jobs))).

Definition GetJob (id : uuid) : st W (result err GetJobResponseObject) :=
  try (job, schedule, tags, executions) := Service.GetJob ctx id catch e =>
    let he := mapDomainError e in
    mret (if (he_Status he =? 404)%Z then Ok (GetJob404JSONResponse (newErrorResponse he)) else Err e) in
  mret (Ok (GetJob200JSONResponse (job_detail job schedule (domainTagsToAPI tags) (Some (domainExecutionsToAPI executions))))).

Definition UpdateJob (id : uuid) (body : UpdateJobRequest) : st W (result err UpdateJobResponseObject) :=
  let input := {|
    Service.ui_Name := uj_Name body; Service.ui_CronExpression := uj_CronExpression body;
    Service.ui_Timezone := uj_Timezone body; Service.ui_WebhookURL := uj_WebhookUrl body;
    Service.ui_Secret := uj_WebhookSecret body;
    Service.ui_Timeout := timeout_of_seconds <$> uj_WebhookTimeoutSeconds body;
    Service.ui_Tags := (fun t => apiTagsToDomain (Some t)) <$> uj_Tags body |} in
  try (job, schedule) := Service.UpdateJob ctx id input catch e =>
    let he := mapDomainError e in
    mret (if (he_Status he =? 404)%Z then Ok (UpdateJob404JSONResponse (newErrorResponse he))
          else if (he_Status he =? 422)%Z then Ok (UpdateJob422JSONResponse (newErrorResponse he))
          else Err e) in
  mret (Ok (UpdateJob200JSONResponse (job_detail job schedule None None))).

Definition DeleteJob (id : uuid) : st W (result err DeleteJobResponseObject) :=
  try _ := Service.DeleteJob ctx id catch e =>
    let he := mapDomainError e in
    mret (if (he_Status he =? 404)%Z then Ok (DeleteJob404JSONResponse (newErrorResponse he)) else Err e) in
  mret (Ok DeleteJob204Response).

Definition PauseJob (id : uuid) : st W (result err PauseJobResponseObject) :=
  try job := Service.PauseJob ctx id catch e =>
    let he := mapDomainError e in
    mret (if (he_Status he =? 404)%Z then Ok (PauseJob404JSONResponse (newErrorResponse he)) else Err e) in
  mret (Ok (PauseJob200JSONResponse (domainJobToAPI job "" ""))).

Definition ResumeJob (id : uuid) : st W (result err ResumeJobResponseObject) :=
  try job := Service.ResumeJob ctx id catch e =>
    let he := mapDomainError e in
    mret (if (he_Status he =? 404)%Z then Ok (ResumeJob404JSONResponse (newErrorResponse he)) else Err e) in
  mret (Ok (ResumeJob200JSONResponse (domainJobToAPI job "" ""))).

Definition TriggerJob (id : uuid) : st W (result err TriggerJobResponseObject) :=
  try exec := Service.TriggerNow svc ctx id catch e =>
    let he := mapDomainError e in
    mret (if (he_Status he =? 404)%Z then Ok (TriggerJob404JSONResponse (newErrorResponse he))
          else if (he_Status he =? 409)%Z then Ok (TriggerJob409JSONResponse (newErrorResponse he))
          else Err e) in
  mret (Ok (TriggerJob201JSONResponse (domainExecutionToAPI exec))).

Definition GetNextRun (id : uuid) : st W (result err GetNextRunResponseObject) :=
  try (nextRun, runs, schedule) := Service.GetNextRunTime ctx id catch e =>
    let he := mapDomainError e in
    mret (if (he_Status he =? 404)%Z then Ok (GetNextRun404JSONResponse (newErrorResponse he))
          else if (he_Status he =? 409)%Z then Ok (GetNextRun409JSONResponse (newErrorResponse he))
          else Err e) in
  mret (Ok (GetNextRun200JSONResponse
    {| nr_CronExpression := s_CronExpression schedule; nr_NextRunAt := nextRun; nr_NextRuns := runs;
       nr_Timezone := s_Timezone schedule |})).

Definition ResolveSchedule (body : ResolveScheduleRequest) : st W (result err ResolveScheduleResponseObject) :=
  let tz := default "UTC" (rs_Timezone body) in
  try r := Service.ResolveSchedule (rs_Description body) tz catch e =>
    let he := mapDomainError e in
    mret (if (he_Status he =? 422)%Z then Ok (ResolveSchedule422JSONResponse (newErrorResponse he)) else Err e) in
  mret (Ok (ResolveSchedule200JSONResponse
    {| rsr_CronExpression := Service.rr_CronExpression r; rsr_Description := Service.rr_Description r;
       rsr_NextRuns := Service.rr_NextRuns r; rsr_Timezone := Service.rr_Timezone r |})).

Definition ListExecutions (id : uuid) (params : ListExecutionsParams) : st W (result err ListExecutionsResponseObject) :=
  let filter := {|
    ef_JobID := id; ef_Namespace := ""; ef_Status := le_Status params; ef_TriggerType := le_TriggerType params;
    ef_Since := le_Since params; ef_Until := le_Until params;
    ef_ListParams := listParamsFromQuery (le_Limit params) (le_Offset params) |} in
  try execs := Service.ListExecutions ctx filter catch e => mret (Err e) in
  mret (Ok (ListExecutions200JSONResponse (domainExecutionsToAPI execs))).

Definition GetExecution (id : uuid) : st W (result err GetExecutionResponseObject) :=
  try (exec, _) := Service.GetExecution ctx id catch e =>
    let he := mapDomainError e in
    mret (if (he_Status he =? 404)%Z then Ok (GetExecution404JSONResponse (newErrorResponse he)) else Err e) in
  mret (Ok (GetExecution200JSONResponse (domainExecutionToAPI exec))).

Definition ListPendingAck (params : ListPendingAckParams) : st W (result err ListPendingAckResponseObject) :=
  let limit := default 0%Z (lpa_Limit params) in
  try execs := Service.ListPendingAck ctx (lpa_JobId params) limit catch e => mret (Err e) in
  mret (Ok (ListPendingAck200JSONResponse (domainExecutionsToAPI execs))).

Definition AckExecution (id : uuid) : st W (result err AckExecutionResponseObject) :=
  try _ := Service.AckExecution ctx id catch e =>
    let he := mapDomainError e in
    mret (if (he_Status he =? 404)%Z then Ok (AckExecution404JSONResponse (newErrorResponse he)) else Err e) in
  mret (Ok AckExecution204Response).

Definition CreateAPIKey (body : CreateAPIKeyRequest) : st W (result err CreateAPIKeyResponseObject) :=
  try r := Service.CreateAPIKey ctx {| Service.ki_Label := cak_Label body |} catch e => mret (Err e) in
  let key := Service.kr_Key r in
  mret (Ok (CreateAPIKey201JSONResponse
    {| car_CreatedAt := k_CreatedAt key; car_Id := k_ID key; car_Label := k_Label key;
       car_Namespace := k_Namespace key; car_Token := Service.kr_PlaintextToken r |})).

Definition ListAPIKeys (params : ListAPIKeysParams) : st W (result err ListAPIKeysResponseObject) :=
  try keys := Service.ListAPIKeys ctx (listParamsFromQuery (lak_Limit params) (lak_Offset params)) catch e => mret (Err e) in
  mret (Ok (ListAPIKeys200JSONResponse
    (map (fun k => {| aki_CreatedAt := k_CreatedAt k; aki_Enabled := k_Enabled k; aki_Id := k_ID k; aki_Label := k_Label k;
                      aki_LastUsedAt := k_LastUsedAt k; aki_Namespace := k_Namespace k |}) keys))).

Definition DeleteAPIKey (id : uuid) : st W (result err DeleteAPIKeyResponseObject) :=
  try _ := Service.DeleteAPIKey ctx id catch e =>
    let he := mapDomainError e in
    mret (if (he_Status he =? 404)%Z then Ok (DeleteAPIKey404JSONResponse (newErrorResponse he)) else Err e) in
  mret (Ok DeleteAPIKey204Response).
End handlers.
