(* ===== verification/ApiServer.v ===== *)
(** * The generated server: [internal/api/server.gen.go]

    What lies between the router and the handlers of [Api]: the routes, the
    binding of path and query parameters, the decoding of bodies, and the writing
    of response objects. The bindings of the generator's runtime library, the
    JSON decoder, and the text of a time are parameters. Paths are taken to be
    clean (no empty or dot segments) and without escapes. *)
From S2P Require Import Prelude GoStrings Json Domain Runtime Http Cron WebhookURL Api.
From S2P Require Service.
Local Open Scope cron_scope.

(** ** Parameters *)
Inductive bind_error : Type := BindRequired | BindFormat (e : err).
(** [runtime.BindStyledParameterWithOptions] and [BindQueryParameterWithOptions],
    by the type of the parameter. *)
Class ParamBinding : Type := {
  bind_path_uuid : string -> result err uuid;
  bind_int : string -> string -> result bind_error (option Z);
  bind_bool : string -> string -> result bind_error (option bool);
  bind_string : string -> string -> result bind_error (option string);
  bind_strings : string -> string -> result bind_error (option (list string));
  bind_uuid : string -> string -> result bind_error (option uuid);
  bind_time : string -> string -> result bind_error (option time);
}.
(** [json.NewDecoder(r.Body).Decode], under the limit of the body. *)
Class BodyDecoder : Type := {
  decode_CreateAPIKey : http_request -> result err CreateAPIKeyRequest;
  decode_CreateJob : http_request -> result err CreateJobRequest;
  decode_UpdateJob : http_request -> result err UpdateJobRequest;
  decode_ResolveSchedule : http_request -> result err ResolveScheduleRequest;
}.
(** [Time.MarshalJSON], which also shows the location that a time carries. *)
Class TimeEncoding : Type := { time_text : time -> string }.

Definition RequiredParamError (name : string) : string := "Query argument " +:+ name +:+ " is required, but not found".
Definition InvalidParamFormatError (name : string) (e : err) : string :=
  "Invalid format for parameter " +:+ name +:+ ": " +:+ Error e.
(** The default [ErrorHandlerFunc]. *)
Definition wrapper_error (msg : string) : http_response := http_Error msg 400.
Definition bind_failed (name : string) (e : bind_error) : http_response :=
  wrapper_error (match e with BindRequired => RequiredParamError name | BindFormat e => InvalidParamFormatError name e end).

(** ** Encoding *)
Section encoding.
  Context {W : Type} `{!Runtime W, !TimeEncoding}.

Definition j_time (t : time) : json := JString (time_text t).
Definition j_uuid (i : uuid) : json := JString (uuid_String i).
Definition encode_APIKeyInfo (k : APIKeyInfo) : json := JObject (
  [("created_at", j_time (aki_CreatedAt k)); ("enabled", JBool (aki_Enabled k)); ("id", j_uuid (aki_Id k));
   ("label", JString (aki_Label k))] ++ opt "last_used_at" (aki_LastUsedAt k) j_time ++
  [("namespace", JString (aki_Namespace k))]).
Definition encode_CreateAPIKeyResponse (r : CreateAPIKeyResponse) : json := JObject
  [("created_at", j_time (car_CreatedAt r)); ("id", j_uuid (car_Id r)); ("label", JString (car_Label r));
   ("namespace", JString (car_Namespace r)); ("token", JString (car_Token r))].
Definition encode_Error (e : ApiError) : json := JObject
  [("error", JObject [("code", JString (ae_Code e)); ("message", JString (ae_Message e))])].
Definition encode_Execution (x : ApiExecution) : json := JObject (
  opt "acknowledged_at" (ax_AcknowledgedAt x) j_time ++
  [("created_at", j_time (ax_CreatedAt x)); ("fired_at", j_time (ax_FiredAt x)); ("id", j_uuid (ax_Id x));
   ("job_id", j_uuid (ax_JobId x)); ("scheduled_at", j_time (ax_ScheduledAt x)); ("status", JString (ax_Status x));
   ("trigger_type", JString (ax_TriggerType x))]).
Definition encode_HealthResponse (h : HealthResponse) : json := JObject (
  opt "database" (hr_Database h) JString ++ [("status", JString (hr_Status h))]).
Definition encode_Job (j : ApiJob) : json := JObject (
  [("created_at", j_time (aj_CreatedAt j)); ("cron_expression", JString (aj_CronExpression j));
   ("enabled", JBool (aj_Enabled j)); ("id", j_uuid (aj_Id j)); ("name", JString (aj_Name j));
   ("namespace", JString (aj_Namespace j))] ++ opt "tags" (aj_Tags j) json_map ++
  [("timezone", JString (aj_Timezone j)); ("updated_at", j_time (aj_UpdatedAt j));
   ("webhook_url", JString (aj_WebhookUrl j))]).
Definition encode_JobDetail (j : JobDetail) : json := JObject (
  [("created_at", j_time (jd_CreatedAt j)); ("cron_expression", JString (jd_CronExpression j));
   ("enabled", JBool (jd_Enabled j)); ("id", j_uuid (jd_Id j)); ("name", JString (jd_Name j));
   ("namespace", JString (jd_Namespace j))] ++
  opt "recent_executions" (jd_RecentExecutions j) (fun l => JArray (map encode_Execution l)) ++
  opt "tags" (jd_Tags j) json_map ++
  [("timezone", JString (jd_Timezone j)); ("updated_at", j_time (jd_UpdatedAt j));
   ("webhook_url", JString (jd_WebhookUrl j))]).
Definition encode_NextRunResponse (r : NextRunResponse) : json := JObject
  [("cron_expression", JString (nr_CronExpression r)); ("next_run_at", j_time (nr_NextRunAt r));
   ("next_runs", JArray (map j_time (nr_NextRuns r))); ("timezone", JString (nr_Timezone r))].
Definition encode_ResolveScheduleResponse (r : ResolveScheduleResponse) : json := JObject
  [("cron_expression", JString (rsr_CronExpression r)); ("description", JString (rsr_Description r));
   ("next_runs", JArray (map j_time (rsr_NextRuns r))); ("timezone", JString (rsr_Timezone r))].

(** The two ways in which a response object is written. *)
Definition write_json (status : Z) (v : json) : http_response :=
  {| p_Status := status; p_Header := [("Content-Type", "application/json")]; p_Body := json_text v +:+ nl |}.
Definition write_status (status : Z) : http_response := {| p_Status := status; p_Header := []; p_Body := "" |}.

Definition VisitListAPIKeysResponse (o : ListAPIKeysResponseObject) : http_response :=
  match o with
  | ListAPIKeys200JSONResponse keys => write_json 200 (JObject [("keys", JArray (map encode_APIKeyInfo keys))])
  end.
Definition VisitCreateAPIKeyResponse (o : CreateAPIKeyResponseObject) : http_response :=
  match o with
  | CreateAPIKey201JSONResponse r => write_json 201 (encode_CreateAPIKeyResponse r)
  end.
Definition VisitDeleteAPIKeyResponse (o : DeleteAPIKeyResponseObject) : http_response :=
  match o with
  | DeleteAPIKey204Response => write_status 204
  | DeleteAPIKey404JSONResponse e => write_json 404 (encode_Error e)
  end.
Definition VisitListPendingAckResponse (o : ListPendingAckResponseObject) : http_response :=
  match o with
  | ListPendingAck200JSONResponse l => write_json 200 (JObject [("executions", JArray (map encode_Execution l))])
  end.
Definition VisitGetExecutionResponse (o : GetExecutionResponseObject) : http_response :=
  match o with
  | GetExecution200JSONResponse x => write_json 200 (encode_Execution x)
  | GetExecution404JSONResponse e => write_json 404 (encode_Error e)
  end.
Definition VisitAckExecutionResponse (o : AckExecutionResponseObject) : http_response :=
  match o with
  | AckExecution204Response => write_status 204
  | AckExecution404JSONResponse e => write_json 404 (encode_Error e)
  end.
Definition VisitGetHealthResponse (o : GetHealthResponseObject) : http_response :=
  match o with
  | GetHealth200JSONResponse h => write_json 200 (encode_HealthResponse h)
  | GetHealth503JSONResponse h => write_json 503 (encode_HealthResponse h)
  end.
Definition VisitListJobsResponse (o : ListJobsResponseObject) : http_response :=
  match o with
  | ListJobs200JSONResponse l => write_json 200 (JObject [("jobs", JArray (map encode_Job l))])
  end.
Definition VisitCreateJobResponse (o : CreateJobResponseObject) : http_response :=
  match o with
  | CreateJob201JSONResponse j => write_json 201 (encode_JobDetail j)
  | CreateJob422JSONResponse e => write_json 422 (encode_Error e)
  end.
Definition VisitDeleteJobResponse (o : DeleteJobResponseObject) : http_response :=
  match o with
  | DeleteJob204Response => write_status 204
  | DeleteJob404JSONResponse e => write_json 404 (encode_Error e)
  end.
Definition VisitGetJobResponse (o : GetJobResponseObject) : http_response :=
  match o with
  | GetJob200JSONResponse j => write_json 200 (encode_JobDetail j)
  | GetJob404JSONResponse e => write_json 404 (encode_Error e)
  end.
Definition VisitUpdateJobResponse (o : UpdateJobResponseObject) : http_response :=
  match o with
  | UpdateJob200JSONResponse j => write_json 200 (encode_JobDetail j)
  | UpdateJob404JSONResponse e => write_json 404 (encode_Error e)
  | UpdateJob422JSONResponse e => write_json 422 (encode_Error e)
  end.
Definition VisitListExecutionsResponse (o : ListExecutionsResponseObject) : http_response :=
  match o with
  | ListExecutions200JSONResponse l => write_json 200 (JObject [("executions", JArray (map encode_Execution l))])
  end.
Definition VisitGetNextRunResponse (o : GetNextRunResponseObject) : http_response :=
  match o with
  | GetNextRun200JSONResponse r => write_json 200 (encode_NextRunResponse r)
  | GetNextRun404JSONResponse e => write_json 404 (encode_Error e)
  | GetNextRun409JSONResponse e => write_json 409 (encode_Error e)
  end.
Definition VisitPauseJobResponse (o : PauseJobResponseObject) : http_response :=
  match o with
  | PauseJob200JSONResponse j => write_json 200 (encode_Job j)
  | PauseJob404JSONResponse e => write_json 404 (encode_Error e)
  end.
Definition VisitResumeJobResponse (o : ResumeJobResponseObject) : http_response :=
  match o with
  | ResumeJob200JSONResponse j => write_json 200 (encode_Job j)
  | ResumeJob404JSONResponse e => write_json 404 (encode_Error e)
  end.
Definition VisitTriggerJobResponse (o : TriggerJobResponseObject) : http_response :=
  match o with
  | TriggerJob201JSONResponse x => write_json 201 (encode_Execution x)
  | TriggerJob404JSONResponse e => write_json 404 (encode_Error e)
  | TriggerJob409JSONResponse e => write_json 409 (encode_Error e)
  end.
Definition VisitResolveScheduleResponse (o : ResolveScheduleResponseObject) : http_response :=
  match o with
  | ResolveSchedule200JSONResponse r => write_json 200 (encode_ResolveScheduleResponse r)
  | ResolveSchedule422JSONResponse e => write_json 422 (encode_Error e)
  end.
End encoding.

(** ** The strict handlers

    An error of a handler is written as it is, with the status 500. *)
Definition response_error (e : err) : http_response := http_Error (Error e) 500.
Definition request_error (e : err) : http_response := http_Error ("can't decode JSON body: " +:+ Error e) 400.

Section server.
  Context {W : Type} `{!Service.JobRepository W, !Service.ExecutionRepository W, !Service.TagRepository W,
    !Service.DeliveryAttemptRepository W, !Service.APIKeyRepository W, !Service.Random W, !Runtime W,
    !EventEmitter W, !CronLibrary, !NetLibrary, !MapOrder, !HealthChecker W, !ParamBinding, !BodyDecoder, !TimeEncoding}.
  Variables (svc : Service.JobService) (checker : bool).

(** What follows the call of a handler. *)
Definition respond {A} (visit : A -> http_response) (m : st W (result err A)) : st W http_response :=
  (fun x => match x with Ok o => visit o | Err e => response_error e end) <$> m.

Definition sh_ListAPIKeys (r : http_request) (params : ListAPIKeysParams) : st W http_response :=
  respond VisitListAPIKeysResponse (ListAPIKeys (q_Context r) params).
Definition sh_CreateAPIKey (r : http_request) : st W http_response :=
  match decode_CreateAPIKey r with
  | Err e => mret (request_error e)
  | Ok body => respond VisitCreateAPIKeyResponse (CreateAPIKey (q_Context r) body)
  end.
Definition sh_DeleteAPIKey (r : http_request) (id : uuid) : st W http_response :=
  respond VisitDeleteAPIKeyResponse (DeleteAPIKey (q_Context r) id).
Definition sh_ListPendingAck (r : http_request) (params : ListPendingAckParams) : st W http_response :=
  respond VisitListPendingAckResponse (ListPendingAck (q_Context r) params).
Definition sh_GetExecution (r : http_request) (id : uuid) : st W http_response :=
  respond VisitGetExecutionResponse (GetExecution (q_Context r) id).
Definition sh_AckExecution (r : http_request) (id : uuid) : st W http_response :=
  respond VisitAckExecutionResponse (AckExecution (q_Context r) id).
Definition sh_GetHealth (r : http_request) (params : GetHealthParams) : st W http_response :=
  respond VisitGetHealthResponse (GetHealth checker params).
Definition sh_ListJobs (r : http_request) (params : ListJobsParams) : st W http_response :=
  respond VisitListJobsResponse (ListJobs (q_Context r) params).
Definition sh_CreateJob (r : http_request) : st W http_response :=
  match decode_CreateJob r with
  | Err e => mret (request_error e)
  | Ok body => respond VisitCreateJobResponse (CreateJob (q_Context r) body)
  end.
Definition sh_DeleteJob (r : http_request) (id : uuid) : st W http_response :=
  respond VisitDeleteJobResponse (DeleteJob (q_Context r) id).
Definition sh_GetJob (r : http_request) (id : uuid) : st W http_response :=
  respond VisitGetJobResponse (GetJob (q_Context r) id).
Definition sh_UpdateJob (r : http_request) (id : uuid) : st W http_response :=
  match decode_UpdateJob r with
  | Err e => mret (request_error e)
  | Ok body => respond VisitUpdateJobResponse (UpdateJob (q_Context r) id body)
  end.
Definition sh_ListExecutions (r : http_request) (id : uuid) (params : ListExecutionsParams) : st W http_response :=
  respond VisitListExecutionsResponse (ListExecutions (q_Context r) id params).
Definition sh_GetNextRun (r : http_request) (id : uuid) : st W http_response :=
  respond VisitGetNextRunResponse (GetNextRun (q_Context r) id).
Definition sh_PauseJob (r : http_request) (id : uuid) : st W http_response :=
  respond VisitPauseJobResponse (PauseJob (q_Context r) id).
Definition sh_ResumeJob (r : http_request) (id : uuid) : st W http_response :=
  respond VisitResumeJobResponse (ResumeJob (q_Context r) id).
Definition sh_TriggerJob (r : http_request) (id : uuid) : st W http_response :=
  respond VisitTriggerJobResponse (TriggerJob svc (q_Context r) id).
Definition sh_ResolveSchedule (r : http_request) : st W http_response :=
  match decode_ResolveSchedule r with
  | Err e => mret (request_error e)
  | Ok body => respond VisitResolveScheduleResponse (ResolveSchedule body)
  end.

(** ** The wrappers

    [with_query b name r k] binds a query parameter, [with_id] the identifier in
    the path. *)
Definition with_query {A} (b : string -> string -> result bind_error A) (name : string) (r : http_request)
    (k : A -> st W http_response) : st W http_response :=
  match b name (q_RawQuery r) with Ok a => k a | Err e => mret (bind_failed name e) end.
Definition with_id (id : string) (k : uuid -> st W http_response) : st W http_response :=
  match bind_path_uuid id with Ok i => k i | Err e => mret (wrapper_error (InvalidParamFormatError "id" e)) end.

Definition w_ListAPIKeys (r : http_request) : st W http_response :=
  with_query bind_int "limit" r (fun limit =>
  with_query bind_int "offset" r (fun offset =>
  sh_ListAPIKeys r {| lak_Limit := limit; lak_Offset := offset |})).
Definition w_CreateAPIKey (r : http_request) : st W http_response := sh_CreateAPIKey r.
Definition w_DeleteAPIKey (r : http_request) (id : string) : st W http_response := with_id id (sh_DeleteAPIKey r).
Definition w_ListPendingAck (r : http_request) : st W http_response :=
  with_query bind_int "limit" r (fun limit =>
  with_query bind_uuid "job_id" r (fun jobID =>
  sh_ListPendingAck r {| lpa_Limit := limit; lpa_JobId := jobID |})).
Definition w_GetExecution (r : http_request) (id : string) : st W http_response := with_id id (sh_GetExecution r).
Definition w_AckExecution (r : http_request) (id : string) : st W http_response := with_id id (sh_AckExecution r).
Definition w_GetHealth (r : http_request) : st W http_response :=
  with_query bind_bool "verbose" r (fun verbose => sh_GetHealth r {| gh_Verbose := verbose |}).
Definition w_ListJobs (r : http_request) : st W http_response :=
  with_query bind_int "limit" r (fun limit =>
  with_query bind_int "offset" r (fun offset =>
  with_query bind_strings "tag" r (fun tag =>
  with_query bind_bool "enabled" r (fun enabled =>
  with_query bind_string "name" r (fun name =>
  sh_ListJobs r {| lj_Limit := limit; lj_Offset := offset; lj_Tag := tag; lj_Enabled := enabled; lj_Name := name |}))))).
Definition w_CreateJob (r : http_request) : st W http_response := sh_CreateJob r.
Definition w_DeleteJob (r : http_request) (id : string) : st W http_response := with_id id (sh_DeleteJob r).
Definition w_GetJob (r : http_request) (id : string) : st W http_response := with_id id (sh_GetJob r).
Definition w_UpdateJob (r : http_request) (id : string) : st W http_response := with_id id (sh_UpdateJob r).
Definition w_ListExecutions (r : http_request) (id : string) : st W http_response :=
  with_id id (fun id =>
  with_query bind_int "limit" r (fun limit =>
  with_query bind_int "offset" r (fun offset =>
  with_query bind_string "status" r (fun status =>
  with_query bind_string "trigger_type" r (fun trigger =>
  with_query bind_time "since" r (fun since =>
  with_query bind_time "until" r (fun until =>
  sh_ListExecutions r id {| le_Limit := limit; le_Offset := offset; le_Status := status; le_TriggerType := trigger;
                            le_Since := since; le_Until := until |}))))))).
Definition w_GetNextRun (r : http_request) (id : string) : st W http_response := with_id id (sh_GetNextRun r).
Definition w_PauseJob (r : http_request) (id : string) : st W http_response := with_id id (sh_PauseJob r).
Definition w_ResumeJob (r : http_request) (id : string) : st W http_response := with_id id (sh_ResumeJob r).
Definition w_TriggerJob (r : http_request) (id : string) : st W http_response := with_id id (sh_TriggerJob r).
Definition w_ResolveSchedule (r : http_request) : st W http_response := sh_ResolveSchedule r.

(** ** The routes *)
Inductive segment : Type := Lit (s : string) | Id.
Inductive target : Type :=
| Plain (f : http_request -> st W http_response)
| WithId (f : http_request -> string -> st W http_response).
Record route : Type := mkRoute { rt_Method : string; rt_Path : list segment; rt_Target : target }.

(** The patterns; where two of them match, the more specific one comes first. *)
Definition routes : list route := [
  mkRoute "GET" [Lit "api-keys"] (Plain w_ListAPIKeys);
  mkRoute "POST" [Lit "api-keys"] (Plain w_CreateAPIKey);
  mkRoute "DELETE" [Lit "api-keys"; Id] (WithId w_DeleteAPIKey);
  mkRoute "GET" [Lit "executions"; Lit "pending-ack"] (Plain w_ListPendingAck);
  mkRoute "GET" [Lit "executions"; Id] (WithId w_GetExecution);
  mkRoute "POST" [Lit "executions"; Id; Lit "ack"] (WithId w_AckExecution);
  mkRoute "GET" [Lit "health"] (Plain w_GetHealth);
  mkRoute "GET" [Lit "jobs"] (Plain w_ListJobs);
  mkRoute "POST" [Lit "jobs"] (Plain w_CreateJob);
  mkRoute "DELETE" [Lit "jobs"; Id] (WithId w_DeleteJob);
  mkRoute "GET" [Lit "jobs"; Id] (WithId w_GetJob);
  mkRoute "PATCH" [Lit "jobs"; Id] (WithId w_UpdateJob);
  mkRoute "GET" [Lit "jobs"; Id; Lit "executions"] (WithId w_ListExecutions);
  mkRoute "GET" [Lit "jobs"; Id; Lit "next-run"] (WithId w_GetNextRun);
  mkRoute "POST" [Lit "jobs"; Id; Lit "pause"] (WithId w_PauseJob);
  mkRoute "POST" [Lit "jobs"; Id; Lit "resume"] (WithId w_ResumeJob);
  mkRoute "POST" [Lit "jobs"; Id; Lit "trigger"] (WithId w_TriggerJob);
  mkRoute "POST" [Lit "schedules"; Lit "resolve"] (Plain w_ResolveSchedule)
].

(** The segments of a path: [None] when it does not start with a slash. *)
Definition path_segments (path : string) : option (list string) :=
  match path with
  | String c p => if decide (c = "/"%char) then Some (Split p "/"%char) else None
  | EmptyString => None
  end.
(** Whether a path fits a pattern, with the identifier in it; an identifier is
    not empty. *)
Fixpoint match_segments (pat : list segment) (segs : list string) (id : string) : option string :=
  match pat, segs with
  | [], [] => Some id
  | Lit s :: pat', x :: segs' => if String.eqb s x then match_segments pat' segs' id else None
  | Id :: pat', x :: segs' => if String.eqb x "" then None else match_segments pat' segs' x
  | _, _ => None
  end.
Definition match_path (path : string) (rt : route) : option string :=
  match path_segments path with Some segs => match_segments (rt_Path rt) segs "" | None => None end.
(** A pattern for GET also serves HEAD. *)
Definition match_method (method : string) (rt : route) : bool :=
  String.eqb (rt_Method rt) method || (String.eqb (rt_Method rt) "GET" && String.eqb method "HEAD").

Fixpoint find_route (l : list route) (method path : string) : option (target * string) :=
  match l with
  | [] => None
  | rt :: l' =>
      match match_path path rt with
      | Some id => if match_method method rt then Some (rt_Target rt, id) else find_route l' method path
      | None => find_route l' method path
      end
  end.

(** The methods of the patterns that fit the path, in order. *)
Definition text_le (s t : string) : Prop := String.leb s t = true.
#[local] Instance text_le_dec s t : Decision (text_le s t) := decide (_ = true).
Definition allowed_methods (path : string) : list string :=
  let ms := rt_Method <$> List.filter (fun rt => bool_decide (is_Some (match_path path rt))) routes in
  merge_sort text_le (if bool_decide ("GET" ∈ ms) then "HEAD" :: ms else ms).

Definition apiRouter : Handler W := fun r =>
  match find_route routes (q_Method r) (q_Path r) with
  | Some (Plain f, _) => f r
  | Some (WithId f, id) => f r id
  | None =>
      let methods := allowed_methods (q_Path r) in
      mret (if (length methods =? 0)%nat then http_Error "404 page not found" 404
            else with_headers [("Allow", Join methods ", ")] (http_Error "Method Not Allowed" 405))
  end.
End server.
