(* ===== verification/ApiContract.v ===== *)
(** * The REST API as a transport of the job service

    The contract of the handlers of [internal/api/handler_v2.go]: which request of
    the service every operation is, and how its result becomes a response. *)
From S2P Require Import Prelude GoStrings Json Domain Runtime Http Cron WebhookURL Api ApiServer ServiceTheory.
From S2P Require Service.
Local Open Scope cron_scope.

(** ** The handlers as a transport of the service

    An operation that has been decoded, the request of the service that it stands
    for, the status of its success and the errors that the API description gives
    it. *)
Inductive operation : Type :=
| OpCreateJob (body : CreateJobRequest)
| OpListJobs (params : ListJobsParams)
| OpGetJob (id : uuid)
| OpUpdateJob (id : uuid) (body : UpdateJobRequest)
| OpDeleteJob (id : uuid)
| OpPauseJob (id : uuid)
| OpResumeJob (id : uuid)
| OpTriggerJob (id : uuid)
| OpGetNextRun (id : uuid)
| OpResolveSchedule (body : ResolveScheduleRequest)
| OpListExecutions (id : uuid) (params : ListExecutionsParams)
| OpGetExecution (id : uuid)
| OpListPendingAck (params : ListPendingAckParams)
| OpAckExecution (id : uuid)
| OpCreateAPIKey (body : CreateAPIKeyRequest)
| OpListAPIKeys (params : ListAPIKeysParams)
| OpDeleteAPIKey (id : uuid).

Section refinement.
  Context {W : Type} `{!Service.JobRepository W, !Service.ExecutionRepository W, !Service.TagRepository W,
    !Service.DeliveryAttemptRepository W, !Service.APIKeyRepository W, !Service.Random W, !Runtime W,
    !EventEmitter W, !CronLibrary, !NetLibrary, !MapOrder, !TimeEncoding}.
  Variables (svc : Service.JobService) (ctx : context).

Definition handle (op : operation) : st W http_response :=
  match op with
  | OpCreateJob b => respond VisitCreateJobResponse (CreateJob ctx b)
  | OpListJobs p => respond VisitListJobsResponse (ListJobs ctx p)
  | OpGetJob i => respond VisitGetJobResponse (GetJob ctx i)
  | OpUpdateJob i b => respond VisitUpdateJobResponse (UpdateJob ctx i b)
  | OpDeleteJob i => respond VisitDeleteJobResponse (DeleteJob ctx i)
  | OpPauseJob i => respond VisitPauseJobResponse (PauseJob ctx i)
  | OpResumeJob i => respond VisitResumeJobResponse (ResumeJob ctx i)
  | OpTriggerJob i => respond VisitTriggerJobResponse (TriggerJob svc ctx i)
  | OpGetNextRun i => respond VisitGetNextRunResponse (GetNextRun ctx i)
  | OpResolveSchedule b => respond VisitResolveScheduleResponse (ResolveSchedule b)
  | OpListExecutions i p => respond VisitListExecutionsResponse (ListExecutions ctx i p)
  | OpGetExecution i => respond VisitGetExecutionResponse (GetExecution ctx i)
  | OpListPendingAck p => respond VisitListPendingAckResponse (ListPendingAck ctx p)
  | OpAckExecution i => respond VisitAckExecutionResponse (AckExecution ctx i)
  | OpCreateAPIKey b => respond VisitCreateAPIKeyResponse (CreateAPIKey ctx b)
  | OpListAPIKeys p => respond VisitListAPIKeysResponse (ListAPIKeys ctx p)
  | OpDeleteAPIKey i => respond VisitDeleteAPIKeyResponse (DeleteAPIKey ctx i)
  end.

Definition request_for (op : operation) : request :=
  match op with
  | OpCreateJob b => RCreateJob {|
      Service.ci_Name := cj_Name b; Service.ci_CronExpression := cj_CronExpression b; Service.ci_Timezone := cj_Timezone b;
      Service.ci_WebhookURL := cj_WebhookUrl b; Service.ci_Secret := default "" (cj_WebhookSecret b);
      Service.ci_Timeout := match cj_WebhookTimeoutSeconds b with Some n => timeout_of_seconds n | None => 0%Z end;
      Service.ci_Tags := apiTagsToDomain (cj_Tags b) |}
  | OpListJobs p => RListJobsWithSchedules {|
      jf_Namespace := ""; jf_Tags := omap tag_filter (default [] (lj_Tag p)); jf_Enabled := lj_Enabled p;
      jf_Name := default "" (lj_Name p); jf_ListParams := listParamsFromQuery (lj_Limit p) (lj_Offset p) |}
  | OpGetJob i => RGetJob i
  | OpUpdateJob i b => RUpdateJob i {|
      Service.ui_Name := uj_Name b; Service.ui_CronExpression := uj_CronExpression b; Service.ui_Timezone := uj_Timezone b;
      Service.ui_WebhookURL := uj_WebhookUrl b; Service.ui_Secret := uj_WebhookSecret b;
      Service.ui_Timeout := timeout_of_seconds <$> uj_WebhookTimeoutSeconds b;
      Service.ui_Tags := (fun t => apiTagsToDomain (Some t)) <$> uj_Tags b |}
  | OpDeleteJob i => RDeleteJob i
  | OpPauseJob i => RPauseJob i
  | OpResumeJob i => RResumeJob i
  | OpTriggerJob i => RTriggerNow i
  | OpGetNextRun i => RGetNextRunTime i
  | OpResolveSchedule b => RResolveSchedule (rs_Description b) (default "UTC" (rs_Timezone b))
  | OpListExecutions i p => RListExecutions {|
      ef_JobID := i; ef_Namespace := ""; ef_Status := le_Status p; ef_TriggerType := le_TriggerType p;
      ef_Since := le_Since p; ef_Until := le_Until p; ef_ListParams := listParamsFromQuery (le_Limit p) (le_Offset p) |}
  | OpGetExecution i => RGetExecution i
  | OpListPendingAck p => RListPendingAck (lpa_JobId p) (default 0%Z (lpa_Limit p))
  | OpAckExecution i => RAckExecution i
  | OpCreateAPIKey b => RCreateAPIKey {| Service.ki_Label := cak_Label b |}
  | OpListAPIKeys p => RListAPIKeys (listParamsFromQuery (lak_Limit p) (lak_Offset p))
  | OpDeleteAPIKey i => RDeleteAPIKey i
  end.

Definition success_status (op : operation) : Z :=
  match op with
  | OpCreateJob _ | OpTriggerJob _ | OpCreateAPIKey _ => 201
  | OpDeleteJob _ | OpAckExecution _ | OpDeleteAPIKey _ => 204
  | _ => 200
  end.
Definition documented_errors (op : operation) : list Z :=
  match op with
  | OpCreateJob _ | OpResolveSchedule _ => [422]%Z
  | OpUpdateJob _ _ => [404; 422]%Z
  | OpTriggerJob _ | OpGetNextRun _ => [404; 409]%Z
  | OpListJobs _ | OpListExecutions _ _ | OpListPendingAck _ | OpCreateAPIKey _ | OpListAPIKeys _ => []
  | _ => [404]%Z
  end.

(** What a failure of the service becomes: the mapped error where the operation
    documents its status, and otherwise the text of the error, with 500. *)
Definition failure (op : operation) (e : err) : http_response :=
  let he := mapDomainError e in
  if bool_decide (he_Status he ∈ documented_errors op)
  then write_json (he_Status he) (encode_Error (newErrorResponse he)) else response_error e.

(** A handler that calls the service once and turns its result into a response. *)
Definition agrees (op : operation) (h : st W http_response) (m : st W (result err answer)) : Prop :=
  forall w, exec h w = exec m w /\
  match eval m w with
  | Ok _ => p_Status (eval h w) = success_status op
  | Err e => eval h w = failure op e
  end.
Lemma call_agrees {A B} op (m : st W (result err A)) (g : A -> answer) (visit : B -> http_response)
    (c : result err A -> st W (result err B)) :
  (forall a s, exists o, c (Ok a) s = (Ok o, s) /\ p_Status (visit o) = success_status op) ->
  (forall e s, exists x, c (Err e) s = (x, s) /\
    match x with Ok o => visit o | Err e => response_error e end = failure op e) ->
  agrees op (respond visit (m ≫= c)) (answers g m).
Proof.
  intros Hok Herr w. unfold respond, answers, exec, eval, fmap, st_fmap, mbind, st_bind.
  destruct (m w) as [[a|e] w']; cbn.
  - destruct (Hok a w') as (o & -> & E). done.
  - destruct (Herr e w') as (x & -> & E). done.
Qed.
(** The errors that a handler singles out are those documented. *)
Lemma failure_mapped op e n : (he_Status (mapDomainError e) =? n)%Z = true -> n ∈ documented_errors op ->
  write_json n (encode_Error (newErrorResponse (mapDomainError e))) = failure op e.
Proof. intros En%Z.eqb_eq Hn. unfold failure. by rewrite En, bool_decide_eq_true_2. Qed.
Lemma failure_raw op e : he_Status (mapDomainError e) ∉ documented_errors op -> response_error e = failure op e.
Proof. intros Hn. unfold failure. by rewrite bool_decide_eq_false_2. Qed.

Ltac settle :=
  first [ eapply failure_mapped; [eassumption | cbn [documented_errors]; rewrite !elem_of_cons; tauto]
        | apply failure_raw; cbn [documented_errors]; rewrite ?elem_of_cons, ?elem_of_nil;
          repeat match goal with E : (_ =? _)%Z = false |- _ => apply Z.eqb_neq in E end; tauto ].

Lemma handle_agrees op : agrees op (handle op) (serve svc ctx (request_for op)).
Proof.
  destruct op; apply call_agrees.
  all: first [intros e s; eexists; split; [reflexivity |]; cbv beta iota; repeat case_match; simplify_eq; settle | idtac].
  all: intros a s; repeat case_match; eexists; split; reflexivity.
Qed.

(** C4: every operation of the REST API is the request of the service that it
    stands for: it has the same effect, a success is answered with the status of
    the operation, and a failure with the mapped error where the operation
    documents that status, and with the unmapped text of the error and 500
    everywhere else. *)
Theorem rest_refines_service (op : operation) (w : W) :
  exec (handle op) w = exec (serve svc ctx (request_for op)) w /\
  match eval (serve svc ctx (request_for op)) w with
  | Ok _ => p_Status (eval (handle op) w) = success_status op
  | Err e => eval (handle op) w = failure op e
  end.
Proof. exact (handle_agrees op w). Qed.
End refinement.
