(* ===== verification/Transport.v ===== *)
(** * What a handler does to the database

    Lemmas about handlers and middleware over a world with the store: a handler
    keeps an invariant of the database; [outcome] is [safe] at one state, so that
    what a handler does can depend on the key that the database has at that
    moment; the ways in which a request gets the namespace of its key. *)
From S2P Require Import Prelude GoStrings Domain Runtime Http Cron WebhookURL Middleware.
From S2P Require Import Pg Store StoreTheory Wiring Tenancy ServiceTheory ServiceProps.
From S2P Require Service.
Local Open Scope cron_scope.

(** The store looks keys up. *)
#[export] Instance key_lookup {W} `{!Database W, !Postgres} : KeyRepository W := {|
  Middleware.GetKeyByTokenHash h := lift (GetKeyByTokenHash h);
  Middleware.UpdateLastUsedAt ids := lift (UpdateLastUsedAt ids) |}.

(** A cell that is not a part of the database. *)
Definition beside {W S} `{!Database W} (c : cell W S) : Prop := forall s w, db_get (c_set c s w) = db_get w.

(** The namespace that a token gives, when it is looked up. *)
Section lookup.
  Context {W : Type} `{!Database W, !Postgres}.

Definition legacy_namespace (fallbackKey token : string) : option Namespace :=
  if negb (String.eqb fallbackKey "") && ConstantTimeCompare token fallbackKey then Some "default"%string else None.
Definition token_namespace (fallbackKey token : string) (w : W) : option Namespace :=
  match eval (GetKeyByTokenHash (Service.HashToken token)) (db_get w) with
  | Ok key => if k_Enabled key then Some (k_Namespace key) else legacy_namespace fallbackKey token
  | Err _ => legacy_namespace fallbackKey token
  end.
Definition namespace_of (fallbackKey : string) (r : http_request) (w : W) : option Namespace :=
  let auth := Get r "Authorization" in
  if negb (HasPrefix auth "Bearer ") then None else token_namespace fallbackKey (TrimPrefix auth "Bearer ") w.
Lemma namespace_of_db fallbackKey r w w' : db_get w' = db_get w -> namespace_of fallbackKey r w' = namespace_of fallbackKey r w.
Proof. intros E. unfold namespace_of, token_namespace. by rewrite E. Qed.
End lookup.

Section keeps.
  Context {W : Type} `{!Database W, !Postgres, !Runtime W, !EventEmitter W, !Service.Random W, !Quiet W, !FloatConversion}.

Lemma keeps_bind I {A B} (m : st W A) (f : A -> st W B) :
  maintains I m -> (forall a, maintains I (f a)) -> maintains I (m ≫= f).
Proof. intros Hm Hf. apply preserves_bind; [exact _ | exact Hm | exact Hf]. Qed.
Lemma keeps_answer I {A} (a : A) : maintains (W := W) I (mret a).
Proof. apply preserves_ret, _. Qed.
Lemma keeps_quiet I {A} (m : st W A) : (forall w, db_get (exec m w) = db_get w) -> maintains I m.
Proof. intros Hm w Hw. unfold db_good. by rewrite Hm. Qed.

(** ** Outcomes *)
Definition outcome (I : DB -> Prop) {A} (Q : A -> Prop) (m : st W A) (w : W) : Prop :=
  db_good I w -> db_good I (exec m w) /\ Q (eval m w).

Lemma outcome_ret I {A} (Q : A -> Prop) a w : Q a -> outcome I Q (mret a) w.
Proof. by intros HQ Hw. Qed.
Lemma outcome_bind I {A B} (m : st W A) (f : A -> st W B) Q w :
  (db_good I w -> db_good I (exec m w)) -> outcome I Q (f (eval m w)) (exec m w) -> outcome I Q (m ≫= f) w.
Proof. intros Hm Hf Hw. unfold exec, eval, outcome, mbind, st_bind in *. destruct (m w). by apply Hf, Hm. Qed.
Lemma outcome_quiet I {A B} (m : st W A) (f : A -> st W B) Q w :
  db_get (exec m w) = db_get w -> (forall a w', db_get w' = db_get w -> outcome I Q (f a) w') -> outcome I Q (m ≫= f) w.
Proof. intros Hm Hf. apply outcome_bind; [unfold db_good; by rewrite Hm | by apply Hf]. Qed.
Lemma outcome_maintains I {A} (m : st W A) w : maintains I m -> outcome I (fun _ => True) m w.
Proof. intros Hm Hw. split; [by apply Hm | done]. Qed.
Lemma outcome_fmap I {A B} (f : A -> B) (Q : B -> Prop) (m : st W A) w :
  outcome I (fun a => Q (f a)) m w -> outcome I Q (f <$> m) w.
Proof. intros Hm Hw. destruct (Hm Hw) as [Hg Hq]. unfold exec, eval, fmap, st_fmap in *. by destruct (m w). Qed.

Lemma exec_bind {A B} (m : st W A) (f : A -> st W B) w : exec (m ≫= f) w = exec (f (eval m w)) (exec m w).
Proof. unfold exec, eval, mbind, st_bind. by destruct (m w). Qed.
Lemma cell_quiet {S A} (c : cell W S) (f : S -> A * S) w : beside c -> db_get (exec (on_cell c f) w) = db_get w.
Proof. intros Hc. unfold exec, on_cell. destruct (f (c_get c w)). apply Hc. Qed.
Lemma keeps_cell I {S A} (c : cell W S) (f : S -> A * S) : beside c -> maintains I (on_cell c f).
Proof. intros Hc. apply keeps_quiet. intros w. by apply cell_quiet. Qed.
Lemma warning_quiet (c : cell W Z) w : beside c -> db_get (exec (legacy_warning c) w) = db_get w.
Proof. intros Hc. unfold legacy_warning. rewrite exec_bind, cell_quiet by done. apply quiet_now. Qed.

(** ** Authentication

    A token is looked up, and the legacy key is tried when that fails: the next
    handler runs in the namespace of the token, or not at all. *)
Lemma lookup_outcome I {A} (Q : A -> Prop) (warned : cell W Z) fallbackKey token
    (accept : APIKey -> st W A) (next : Namespace -> st W A) (deny : A) w :
  beside warned ->
  match token_namespace fallbackKey token w with
  | Some ns => (forall key w', k_Namespace key = ns -> outcome I Q (accept key) w') /\ (forall w', outcome I Q (next ns) w')
  | None => Q deny
  end ->
  let fallback :=
    if negb (String.eqb fallbackKey "") && ConstantTimeCompare token fallbackKey
    then legacy_warning warned ≫= fun _ => next "default"%string else mret deny in
  outcome I Q (try key := Middleware.GetKeyByTokenHash (Service.HashToken token) catch e => fallback in
               if k_Enabled key then accept key else fallback) w.
Proof.
  intros Hc Hn fallback. unfold token_namespace in Hn.
  assert (Hf : forall w', match legacy_namespace fallbackKey token with
    | Some ns => (forall key w', k_Namespace key = ns -> outcome I Q (accept key) w') /\ (forall w', outcome I Q (next ns) w')
    | None => Q deny end -> outcome I Q fallback w').
  { intros w'. unfold fallback, legacy_namespace. destruct (_ && _); [| apply outcome_ret].
    intros [_ Hl]. apply outcome_quiet; [by apply warning_quiet | auto]. }
  apply outcome_bind; [apply lift_maintains; apply fmap_keeps, run_tx_keeps; tx_read |].
  cbn [Middleware.GetKeyByTokenHash key_lookup]. rewrite eval_lift.
  destruct (eval _ _) as [key|e]; [| by apply Hf]. destruct (k_Enabled key); [| by apply Hf]. by apply Hn.
Qed.

(** ** Rate limits *)
Lemma ip_limit_outcome I (Q : http_response -> Prop) (limiter : cell W ipRateLimiter) next r w :
  beside limiter -> Q (writeError StatusTooManyRequests "rate limit exceeded") ->
  (forall w', db_get w' = db_get w -> outcome I Q (next r) w') -> outcome I Q (RateLimitMiddleware limiter next r) w.
Proof.
  intros Hc Hmany Hn. unfold RateLimitMiddleware. case_match; [by apply Hn |].
  apply outcome_quiet; [apply quiet_now |]. intros now w' E.
  apply outcome_quiet; [by apply cell_quiet |]. intros ok w'' E'. rewrite E in E'.
  case_match; [by apply outcome_ret | by apply Hn].
Qed.
Lemma ns_limit_keeps I (limiter : cell W namespaceRateLimiter) next r :
  beside limiter -> maintains I (next r) -> maintains I (NamespaceRateLimitMiddleware limiter next r).
Proof.
  intros Hc Hn. unfold NamespaceRateLimitMiddleware. case_match; [done |]. case_match; [done |].
  apply keeps_bind; [apply keeps_quiet, quiet_now |]. intros now.
  apply keeps_bind; [by apply keeps_cell |]. intros ok. case_match; [apply keeps_answer | done].
Qed.
Lemma body_limit_keeps I next r : (forall n, maintains I (next (limit_body n r))) -> maintains (W := W) I (next r) ->
  maintains I (BodySizeLimitMiddleware next r).
Proof. intros Hl Hn. unfold BodySizeLimitMiddleware. by case_match. Qed.
Lemma cors_outcome I (P : Z -> Prop) corsOrigins (next : Handler W) r w :
  P StatusNoContent -> outcome I (fun p => P (p_Status p)) (next r) w ->
  outcome I (fun p => P (p_Status p)) (CORSMiddleware corsOrigins next r) w.
Proof.
  intros Hnone Hn. unfold CORSMiddleware. case_match; [done |]. case_match; [done |].
  case_match; [by apply outcome_ret | by apply outcome_fmap].
Qed.
End keeps.

(** ** Operations of the service *)
Section operations.
  Context {W : Type} `{!Database W, !Postgres, !Runtime W, !EventEmitter W, !Service.Random W, !CronLibrary, !NetLibrary,
    !Quiet W}.
  Variables (svc : Service.JobService) (db0 : DB).

(** An operation of the service, through the request that runs it. *)
Lemma op_keeps {A} (ctx : context) (r : request) (f : A -> answer) (m : st W (result err A)) :
  serve svc ctx r = answers f m -> acting ctx r = NamespaceFromContext ctx ->
  maintains (quarantine (NamespaceFromContext ctx) db0) m.
Proof.
  intros E Ha w Hw. rewrite <- Ha in *. destruct (serve_safe svc db0 ctx r w Hw) as [Hg _]. rewrite E in Hg.
  unfold answers, exec, fmap, st_fmap in *. by destruct (m w).
Qed.
End operations.
