(* ===== verification/ApiProps.v ===== *)
(** * Requests over HTTP: the chain of [cmd/cronlite/main.go]

    The middleware around the generated router, on the store: which requests
    reach the job service, in which namespace, and what they can touch. *)
From S2P Require Import Prelude GoStrings Json Domain Runtime Http Cron WebhookURL Float64 Middleware Api ApiServer.
From S2P Require Import Pg Store StoreTheory Wiring Tenancy ServiceTheory ServiceProps Transport.
From S2P Require Service Config.
Local Open Scope cron_scope.

(** The state of the middleware. *)
Record http_state (W : Type) : Type := mkHttpState {
  hs_dirty : cell W (gset uuid);
  hs_warned : cell W Z;
  hs_ip : cell W ipRateLimiter;
  hs_ns : cell W namespaceRateLimiter;
}.
Arguments hs_dirty {W}.
Arguments hs_warned {W}.
Arguments hs_ip {W}.
Arguments hs_ns {W}.

Section chain.
  Context {W : Type} `{!Service.JobRepository W, !Service.ExecutionRepository W, !Service.TagRepository W,
    !Service.DeliveryAttemptRepository W, !Service.APIKeyRepository W, !Service.Random W, !Runtime W,
    !EventEmitter W, !CronLibrary, !NetLibrary, !MapOrder, !HealthChecker W, !ParamBinding, !BodyDecoder, !TimeEncoding,
    !KeyRepository W, !FloatConversion}.
  Variables (svc : Service.JobService) (checker : bool) (hs : http_state W).

(** The chain, outermost first: CORS, rate limit by IP, authentication, rate
    limit by namespace, body limit, router. *)
Definition rootHandler (corsOrigins apiKey : string) : Handler W :=
  CORSMiddleware corsOrigins
    (RateLimitMiddleware (hs_ip hs)
      (MultiKeyAuthMiddleware (hs_dirty hs) (hs_warned hs) apiKey
        (NamespaceRateLimitMiddleware (hs_ns hs)
          (BodySizeLimitMiddleware (apiRouter svc checker))))).
End chain.

(** The parts of the world that the middleware owns are not the database, and
    the health check does not write to it. *)
Class HttpApart (W : Type) `{!Database W, !HealthChecker W} (hs : http_state W) : Prop := {
  apart_dirty : beside (hs_dirty hs);
  apart_warned : beside (hs_warned hs);
  apart_ip : beside (hs_ip hs);
  apart_ns : beside (hs_ns hs);
  apart_ping w : db_get (exec PingContext w) = db_get w;
}.

Section isolation.
  Context {W : Type} `{!Database W, !Postgres, !Runtime W, !EventEmitter W, !Service.Random W, !CronLibrary, !NetLibrary,
    !Quiet W, !MapOrder, !HealthChecker W, !ParamBinding, !BodyDecoder, !TimeEncoding, !FloatConversion}.
  Variables (svc : Service.JobService) (checker : bool) (hs : http_state W).
  Context `{!HttpApart W hs}.

(** *** Behind the authentication *)
Section namespace.
  Variable db0 : DB.

Lemma respond_keeps {A} I (visit : A -> http_response) (m : st W (result err A)) :
  maintains I m -> maintains I (respond visit m).
Proof. apply preserves_fmap. Qed.
Lemma query_keeps {A} I (b : string -> string -> result bind_error A) name r (k : A -> st W http_response) :
  (forall a, maintains I (k a)) -> maintains I (with_query b name r k).
Proof. intros Hk. unfold with_query. destruct (b _ _); [apply Hk | apply keeps_answer]. Qed.
Lemma id_keeps I id (k : uuid -> st W http_response) : (forall i, maintains I (k i)) -> maintains I (with_id id k).
Proof. intros Hk. unfold with_id. destruct (bind_path_uuid id); [apply Hk | apply keeps_answer]. Qed.
Lemma health_keeps I p : maintains (W := W) I (GetHealth checker p).
Proof.
  unfold GetHealth. destruct (_ || _); [apply keeps_answer |].
  apply keeps_bind; [apply keeps_quiet, apart_ping |]. intros x. apply keeps_answer.
Qed.

(** A handler is one operation of the service, and then an answer. *)
Tactic Notation "by_request" open_constr(r) :=
  eapply keeps_bind; [eapply (op_keeps svc db0 _ r); [reflexivity | reflexivity] | intros x; repeat case_match; apply keeps_answer].

(** A request to any route. *)
Lemma route_keeps r rt id : rt ∈ routes svc checker ->
  maintains (quarantine (NamespaceFromContext (q_Context r)) db0)
    (match rt_Target rt with Plain f => f r | WithId f => f r id end).
Proof.
  set (ctx := q_Context r). unfold routes. rewrite !elem_of_cons, elem_of_nil.
  intros Hrt. repeat (destruct Hrt as [->|Hrt]); [.. | done]; cbn [rt_Target].
  all: try (apply id_keeps; intros i); try (unfold w_GetHealth, w_ListAPIKeys, w_ListPendingAck, w_ListJobs, w_ListExecutions, w_CreateAPIKey, w_CreateJob,
    w_ResolveSchedule; repeat (apply query_keeps; intros ?)).
  all: unfold sh_GetHealth, sh_ListAPIKeys, sh_CreateAPIKey, sh_DeleteAPIKey, sh_ListPendingAck, sh_GetExecution, sh_AckExecution, sh_ListJobs,
    sh_CreateJob, sh_DeleteJob, sh_GetJob, sh_UpdateJob, sh_ListExecutions, sh_GetNextRun, sh_PauseJob, sh_ResumeJob, sh_TriggerJob,
    sh_ResolveSchedule; try (match goal with |- maintains _ (match ?d with Ok _ => _ | Err _ => _ end) => destruct d; [| apply keeps_answer] end);
    apply respond_keeps.
  - by_request (RListAPIKeys _).
  - by_request (RCreateAPIKey _).
  - by_request (RDeleteAPIKey _).
  - by_request (RListPendingAck _ _).
  - by_request (RGetExecution _).
  - by_request (RAckExecution _).
  - apply health_keeps.
  - by_request (RListJobsWithSchedules _).
  - by_request (RCreateJob _).
  - by_request (RDeleteJob _).
  - by_request (RGetJob _).
  - by_request (RUpdateJob _ _).
  - by_request (RListExecutions _).
  - by_request (RGetNextRunTime _).
  - by_request (RPauseJob _).
  - by_request (RResumeJob _).
  - by_request (RTriggerNow _).
  - by_request (RResolveSchedule _ _).
Qed.

(** A request to the router. *)
Lemma find_route_in (l : list (route (W := W))) method path t id : find_route l method path = Some (t, id) ->
  exists rt, rt ∈ l /\ t = rt_Target rt /\ is_Some (match_path path rt).
Proof.
  induction l as [|rt l IH]; [done |]. cbn [find_route]. intros E. destruct (match_path path rt) eqn:Em.
  - case_match; [injection E as <- <-; exists rt; split_and!; [by left | done | by rewrite Em] |].
    destruct (IH E) as (x & Hx & Hr). exists x. split; [by right | done].
  - destruct (IH E) as (x & Hx & Hr). exists x. split; [by right | done].
Qed.
Lemma router_keeps r : maintains (quarantine (NamespaceFromContext (q_Context r)) db0) (apiRouter svc checker r).
Proof.
  unfold apiRouter. destruct (find_route _ _ _) as [[t id]|] eqn:E; [| apply keeps_answer].
  destruct (find_route_in _ _ _ _ _ E) as (rt & Hrt & -> & _). pose proof (route_keeps r rt id Hrt). by destruct (rt_Target rt).
Qed.
Lemma behind_auth_keeps r : maintains (quarantine (NamespaceFromContext (q_Context r)) db0)
  (NamespaceRateLimitMiddleware (hs_ns hs) (BodySizeLimitMiddleware (apiRouter svc checker)) r).
Proof.
  apply ns_limit_keeps; [apply apart_ns | apply body_limit_keeps; [intros n; exact (router_keeps (limit_body n r)) | apply router_keeps]].
Qed.
End namespace.

(** *** The exempt paths

    Nothing behind them but the health check: no pattern starts with mcp. *)
Lemma mcp_segments path : HasPrefix path "/mcp" = true ->
  exists p ps, path_segments path = Some (String "m" (String "c" (String "p" p)) :: ps).
Proof.
  intros (t & ->)%prefix_spec. rewrite !str_app_cons, str_app_nil_l. cbn. destruct (Split t "/"%char) as [|p ps]; do 2 eexists; reflexivity.
Qed.
Lemma mcp_no_route path (rt : route (W := W)) : HasPrefix path "/mcp" = true -> rt ∈ routes svc checker -> match_path path rt = None.
Proof.
  intros (p & ps & E)%mcp_segments Hrt. unfold match_path. rewrite E.
  unfold routes in Hrt. rewrite !elem_of_cons, elem_of_nil in Hrt.
  repeat (destruct Hrt as [->|Hrt]); [reflexivity .. | done].
Qed.
Lemma health_route (rt : route (W := W)) : rt ∈ routes svc checker -> is_Some (match_path "/health" rt) ->
  rt_Target rt = Plain (w_GetHealth checker).
Proof.
  intros Hrt Hm. unfold routes in Hrt. rewrite !elem_of_cons, elem_of_nil in Hrt.
  repeat (destruct Hrt as [->|Hrt]); [.. | done]; first [reflexivity | exfalso; apply (is_Some_None (A := string)); exact Hm].
Qed.
Lemma exempt_keeps I r : exempt (q_Path r) = true -> maintains I (apiRouter svc checker r).
Proof.
  intros He. unfold apiRouter. destruct (find_route _ _ _) as [[t id]|] eqn:E; [| apply keeps_answer].
  destruct (find_route_in _ _ _ _ _ E) as (rt & Hrt & -> & Hm).
  unfold exempt in He. apply orb_true_iff in He as [He%String.eqb_eq | He].
  - rewrite He in Hm. rewrite (health_route _ Hrt Hm). apply query_keeps. intros v. apply respond_keeps, health_keeps.
  - rewrite (mcp_no_route _ _ He Hrt) in Hm. by apply is_Some_None in Hm.
Qed.

(** *** Authentication *)
Lemma auth_outcome I Q apiKey next r w :
  exempt (q_Path r) = false ->
  match namespace_of apiKey r w with
  | Some ns => forall w', outcome I Q (next (WithContext (NamespaceToContext (q_Context r) ns) r)) w'
  | None => Q unauthorized
  end ->
  outcome I Q (MultiKeyAuthMiddleware (hs_dirty hs) (hs_warned hs) apiKey next r) w.
Proof.
  unfold MultiKeyAuthMiddleware, namespace_of. intros ->. cbv zeta. destruct (negb _); [apply outcome_ret |].
  intros Hn.
  apply (lookup_outcome I Q (hs_warned hs) apiKey _ _ (fun ns => next (WithContext (NamespaceToContext (q_Context r) ns) r)));
    [apply apart_warned |].
  destruct (token_namespace _ _ w); [| done]. split; [| done]. intros key w' <-.
  apply outcome_quiet; [apply cell_quiet, apart_dirty | auto].
Qed.

(** The limit by IP and CORS answer themselves, or leave it to the next handler. *)
Lemma front_outcome I (P : Z -> Prop) corsOrigins next r w :
  P StatusTooManyRequests -> P StatusNoContent ->
  (forall w', db_get w' = db_get w -> outcome I (fun p => P (p_Status p)) (next r) w') ->
  outcome I (fun p => P (p_Status p)) (CORSMiddleware corsOrigins (RateLimitMiddleware (hs_ip hs) next) r) w.
Proof. intros Hmany Hnone Hn. apply cors_outcome; [done |]. by apply ip_limit_outcome; [apply apart_ip | |]. Qed.

(** Every request, by the namespace that its key gives. *)
Lemma http_isolated corsOrigins apiKey r w :
  let run := rootHandler svc checker hs corsOrigins apiKey r in
  if exempt (q_Path r) then forall I, db_good I w -> db_good I (exec run w)
  else match namespace_of apiKey r w with
  | Some ns => forall db0, db_good (quarantine ns db0) w -> db_good (quarantine ns db0) (exec run w)
  | None => forall I, db_good I w -> db_good I (exec run w) /\ p_Status (eval run w) ∈ [401; 429; 204]%Z
  end.
Proof.
  cbv zeta. unfold rootHandler.
  destruct (exempt (q_Path r)) eqn:Ex; [| destruct (namespace_of apiKey r w) as [ns|] eqn:En].
  - intros I Hw. apply (front_outcome I (fun _ => True)); [done | done | | done]. intros w' _.
    unfold MultiKeyAuthMiddleware. rewrite Ex. apply outcome_maintains, ns_limit_keeps; [apply apart_ns |].
    apply body_limit_keeps; [intros n; by apply exempt_keeps | by apply exempt_keeps].
  - intros db0 Hw. apply (front_outcome (quarantine ns db0) (fun _ => True)); [done | done | | done]. intros w' E.
    apply auth_outcome; [done |]. rewrite (namespace_of_db _ _ _ _ E), En. intros w''. apply outcome_maintains.
    exact (behind_auth_keeps db0 (WithContext (NamespaceToContext (q_Context r) ns) r)).
  - intros I Hw. apply (front_outcome I (fun c => c ∈ [401; 429; 204]%Z)); [right; by left | right; right; by left | | done].
    intros w' E. apply auth_outcome; [done |]. rewrite (namespace_of_db _ _ _ _ E), En. by left.
Qed.

(** A request over HTTP stays in the namespace of its key: with the key of a
    namespace it leaves the rows of all other namespaces as they were; without a
    valid key it reaches no handler, is answered with 401, 429 or 204, and keeps
    every property of the database; and so does a request to an exempt path. *)
Lemma http_tenant_isolation corsOrigins apiKey r w :
  let run := rootHandler svc checker hs corsOrigins apiKey r in
  if exempt (q_Path r) then forall I, db_good I w -> db_good I (exec run w)
  else match namespace_of apiKey r w with
  | Some ns => forall db0, db_good (quarantine ns db0) w -> db_good (quarantine ns db0) (exec run w)
  | None => forall I, db_good I w -> db_good I (exec run w) /\ p_Status (eval run w) ∈ [401; 429; 204]%Z
  end.
Proof. exact (http_isolated corsOrigins apiKey r w). Qed.
End isolation.

(** ** A concrete server

    The world of [ServiceProps] with the state of the middleware beside it. The
    identifiers in paths are numbers; no request has a body or a query. *)
Module Sim.
Export ServiceProps.Sim.
Record server : Type := mkServer {
  sv_base : world; sv_dirty : gset uuid; sv_warned : Z; sv_ip : ipRateLimiter; sv_ns : namespaceRateLimiter }.
Definition set_base (b : world) (s : server) : server := mkServer b (sv_dirty s) (sv_warned s) (sv_ip s) (sv_ns s).
Definition on_base {A} (m : st world A) : st server A := fun s => let '(a, b) := m (sv_base s) in (a, set_base b s).

#[export] Instance server_db : Database server := {|
  db_get s := db_get (sv_base s); db_put p s := set_base (db_put p (sv_base s)) s;
  db_get_put _ _ := eq_refl; db_put_get s := match s with mkServer (mkWorld _ _ _) _ _ _ _ => eq_refl end;
  db_put_put _ _ _ := eq_refl |}.
#[export] Instance server_runtime : Runtime server := {|
  time_Now := on_base time_Now; uuid_New := on_base uuid_New; uuid_String := uuid_String (W := world);
  ctx_Err := mret None; wait _ := mret None |}.
#[export] Instance server_emitter : EventEmitter server := {| Emit ev := on_base (Emit ev) |}.
#[export] Instance server_random : Service.Random server := {| Service.rand_Read n := on_base (Service.rand_Read n) |}.
#[export] Instance server_quiet : Quiet server.
Proof. by split. Qed.
#[export] Instance server_health : HealthChecker server := {| PingContext := mret (Ok tt) |}.
#[export] Instance sim_order : MapOrder := {| iterate t := map_to_list t; iterate_perm t := reflexivity _ |}.
#[export] Instance sim_binding : ParamBinding := {|
  bind_path_uuid s := match Config.parseInt s with Some n => Ok (Z.to_N n) | None => Err (EOther "not a number") end;
  bind_int _ _ := Ok None; bind_bool _ _ := Ok None; bind_string _ _ := Ok None; bind_strings _ _ := Ok None;
  bind_uuid _ _ := Ok None; bind_time _ _ := Ok None |}.
#[export] Instance sim_decoder : BodyDecoder := {|
  decode_CreateAPIKey _ := Err (EOther "EOF"); decode_CreateJob _ := Err (EOther "EOF");
  decode_UpdateJob _ := Err (EOther "EOF"); decode_ResolveSchedule _ := Err (EOther "EOF") |}.
#[export] Instance sim_times : TimeEncoding := {| time_text t := Itoa t |}.
#[export] Existing Instance Middleware.Sim.amd64.

Definition hs : http_state server := {|
  hs_dirty := {| c_get := sv_dirty; c_set d s := mkServer (sv_base s) d (sv_warned s) (sv_ip s) (sv_ns s) |};
  hs_warned := {| c_get := sv_warned; c_set n s := mkServer (sv_base s) (sv_dirty s) n (sv_ip s) (sv_ns s) |};
  hs_ip := {| c_get := sv_ip; c_set l s := mkServer (sv_base s) (sv_dirty s) (sv_warned s) l (sv_ns s) |};
  hs_ns := {| c_get := sv_ns; c_set l s := mkServer (sv_base s) (sv_dirty s) (sv_warned s) (sv_ip s) l |} |}.
#[export] Instance hs_apart : HttpApart server hs.
Proof. by split. Qed.

(** Tenant [a] has a key; the server is fresh. *)
Definition with_key : world := exec (serve svc (as_tenant "a") (RCreateAPIKey {| Service.ki_Label := "ci" |})) two_jobs.
Definition token : string :=
  match eval (Service.CreateAPIKey (as_tenant "a") {| Service.ki_Label := "ci" |}) two_jobs with
  | Ok r => Service.kr_PlaintextToken r | Err _ => "" end.
Definition fresh : server := mkServer with_key ∅ 0 (newIPRateLimiter 10 0) (newNamespaceRateLimiter 100).
Definition call (method path key : string) : http_request :=
  {| q_Method := method; q_Path := path; q_RawQuery := ""; q_RemoteAddr := "192.0.2.1:4711"; q_Host := "cron.example";
     q_Header := [("Authorization", "Bearer " +:+ key)]; q_Body := None; q_BodyLimit := None; q_Context := Background |}.
Definition serve_http (r : http_request) : st server http_response := rootHandler svc true hs "" "" r.

Example statuses : map (fun r => p_Status (eval (serve_http r) fresh))
  [call "DELETE" "/jobs/102" token; call "DELETE" "/jobs/105" token; call "GET" "/jobs/102" token; call "GET" "/jobs/102" "x";
   call "GET" "/health" "x"; call "PUT" "/jobs" token; call "GET" "/mcp/x" ""; call "POST" "/jobs" token] =
  [204; 404; 200; 401; 200; 405; 404; 400]%Z.
Proof. vm_compute. reflexivity. Qed.

Lemma server_good I b d n l m : db_good I b -> db_good I (mkServer b d n l m).
Proof. done. Qed.
Lemma calm_good I b : (forall n db, io_others (pg_ios (w_pg b) n) db = db) -> I (db_of b) -> db_good I b.
Proof. intros Ho HI. split; [done |]. intros n db Hdb. by rewrite Ho. Qed.
Lemma with_key_good : db_good (quarantine "a" (db_of with_key)) fresh.
Proof.
  apply server_good, calm_good; [intros n db; vm_compute; reflexivity |].
  destruct (two_jobs_good "a") as [[Hwf Ht _] _].
  destruct (serve_good (as_tenant "a") (RCreateAPIKey {| Service.ki_Label := "ci" |}) two_jobs) as [Hwf' Ht'];
    [intros n db; vm_compute; reflexivity | done | done |].
  by apply quarantine_refl.
Qed.
End Sim.
Import Sim.

Lemma http_tenant_isolation_witness :
  let good_key := rootHandler Sim.svc true Sim.hs "" "" (Sim.call "DELETE" "/jobs/102" Sim.token) in
  let bad_key := rootHandler Sim.svc true Sim.hs "" "" (Sim.call "DELETE" "/jobs/102" "x") in
  p_Status (eval good_key Sim.fresh) = 204%Z /\
  undisturbed "a" (Sim.db_of Sim.with_key) (pg_db (db_get (exec good_key Sim.fresh))) /\
  p_Status (eval bad_key Sim.fresh) ∈ [401; 429; 204]%Z.
Proof.
  assert (E : namespace_of "" (Sim.call "DELETE" "/jobs/102" Sim.token) Sim.fresh = Some "a"%string) by (vm_compute; reflexivity).
  assert (E' : namespace_of "" (Sim.call "DELETE" "/jobs/102" "x") Sim.fresh = None) by (vm_compute; reflexivity).
  split; [vm_compute; reflexivity |].
  pose proof (http_tenant_isolation Sim.svc true Sim.hs "" "" (Sim.call "DELETE" "/jobs/102" Sim.token) Sim.fresh) as Hgood.
  pose proof (http_tenant_isolation Sim.svc true Sim.hs "" "" (Sim.call "DELETE" "/jobs/102" "x") Sim.fresh) as Hbad.
  cbv zeta in *. rewrite E in Hgood. rewrite E' in Hbad. split.
  - exact (q_und _ _ _ (proj1 (Hgood _ Sim.with_key_good))).
  - exact (proj2 (Hbad _ Sim.with_key_good)).
Defined.
