(* ===== verification/Mcp.v ===== *)
(** * The MCP transport: [internal/mcp]

    Tools for agents over the job service ([tools.go], [errors.go]) and what
    stands in front of them ([auth.go], [server.go]). The request accessors of
    the protocol library, its HTTP server, [uuid.Parse] and [Time.Format] are
    parameters. A failed type assertion is a panic, which the library recovers. *)
From S2P Require Import Prelude GoStrings GoTime Json GoDuration Float64 Domain Runtime Http Cron WebhookURL Middleware.
From S2P Require Service.
Local Open Scope cron_scope.

(** ** Requests and results *)

(** What the decoder of the library makes of a JSON value; an object has its
    entries in the order in which they are met. *)
Inductive argument : Type :=
| ANull
| ABool (b : bool)
| ANumber (f : float64)
| AString (s : string)
| AArray (l : list argument)
| AObject (l : list (string * argument)).
Inductive tool_result : Type := ToolText (s : string) | ToolError (s : string) | ToolPanic.

Class McpLibrary : Type := {
  CallToolRequest : Type;
  RequireString : CallToolRequest -> string -> result err string;
  GetString : CallToolRequest -> string -> string -> string;
  GetFloat : CallToolRequest -> string -> float64 -> float64;
  GetBool : CallToolRequest -> string -> bool -> bool;
  GetArguments : CallToolRequest -> gmap string argument;
  uuid_Parse : string -> result err uuid;
  rfc3339 : time -> string;
}.

(** ** Errors *)
Definition quoted (s : string) : string := dquote +:+ s +:+ dquote.
Definition toolError (e : err) : tool_result :=
  let isErr d := errors_Is e (EDomain d) in
  ToolError (
    if isErr ErrJobNotFound then "Job not found. Verify the job ID is correct and belongs to your namespace."
    else if isErr ErrExecutionNotFound then "Execution not found. Verify the execution ID is correct."
    else if isErr ErrAPIKeyNotFound then "API key not found."
    else if isErr ErrInvalidCronExpression then
      "Invalid cron expression. Use resolve-schedule to convert natural language to a valid cron expression."
    else if isErr ErrInvalidTimezone then
      "Invalid timezone. Use an IANA timezone name like " +:+ quoted "UTC" +:+ ", " +:+ quoted "America/New_York" +:+
      ", or " +:+ quoted "Europe/London" +:+ "."
    else if isErr ErrInvalidWebhookURL then "Invalid webhook URL. Provide a fully qualified HTTP or HTTPS URL."
    else if isErr ErrJobDisabled then "Job is disabled. Use resume-job to re-enable it, then retry the operation."
    else if isErr ErrScheduleParseFailure then
      "Could not parse schedule. Try a different phrasing or use a cron expression directly (e.g. " +:+
      quoted "*/5 * * * *" +:+ ")."
    else if isErr ErrNamespaceRequired then
      "Authentication required. Set CRONLITE_API_KEY or provide a Bearer token."
    else if isErr ErrNamespaceMismatch then "Job not found. The job may belong to a different namespace."
    else if isErr ErrDuplicateExecution then "Duplicate execution. This execution already exists."
    else if isErr ErrDuplicateAPIKey then "Duplicate API key."
    else "Internal error: " +:+ Error e).

(** ** Results as text *)

(** The entries of a map in the order of their keys. *)
Definition entry_le (p q : string * json) : Prop := String.leb p.1 q.1 = true.
#[export] Instance entry_le_dec p q : Decision (entry_le p q) := decide (_ = true).
Definition json_entries (l : list (string * json)) : json := JObject (merge_sort entry_le l).

Fixpoint spaces (n : nat) : string := match n with O => "" | S n' => " " +:+ spaces n' end.
(** [json.MarshalIndent] with two spaces, at a depth. *)
Fixpoint json_indent (d : nat) (v : json) : string :=
  let inner := nl +:+ spaces (2 * S d) in
  let close := nl +:+ spaces (2 * d) in
  match v with
  | JArray [] => "[]"
  | JArray l => "[" +:+ inner +:+ Join (map (json_indent (S d)) l) ("," +:+ inner) +:+ close +:+ "]"
  | JObject [] => "{}"
  | JObject l =>
      "{" +:+ inner +:+ Join (map (fun f => json_string f.1 +:+ ": " +:+ json_indent (S d) f.2) l) ("," +:+ inner) +:+ close +:+ "}"
  | _ => json_text v
  end.
Definition jsonResult (v : json) : tool_result := ToolText (json_indent 0 v).

Example json_indent_ex : json_indent 0 (json_entries [("b", JArray [JInt 1; JObject []]); ("a", JBool true)]) =
  "{" +:+ nl +:+ "  " +:+ quoted "a" +:+ ": true," +:+ nl +:+ "  " +:+ quoted "b" +:+ ": [" +:+ nl +:+ "    1," +:+ nl +:+
  "    {}" +:+ nl +:+ "  ]" +:+ nl +:+ "}".
Proof. vm_compute. reflexivity. Qed.

(** Tags of an argument: the entries of an object, with no text where the value is
    not a text. *)
Definition parseTags (raw : option argument) : list Tag :=
  match raw with
  | Some (AObject m) => map (fun p => {| t_Key := p.1; t_Value := match p.2 with AString s => s | _ => "" end |}) m
  | _ => []
  end.
Definition tag_map (tags : list Tag) : json :=
  json_map (fold_left (fun m t => <[t_Key t := t_Value t]> m) tags ∅).
(** The entry for tags, when there are any. *)
Definition tags_entry (tags : list Tag) : list (string * json) :=
  if (length tags =? 0)%nat then [] else [("tags", tag_map tags)].

Section tools.
  Context {W : Type} `{!Service.JobRepository W, !Service.ExecutionRepository W, !Service.TagRepository W,
    !Service.DeliveryAttemptRepository W, !Service.APIKeyRepository W, !Service.Random W, !Runtime W,
    !EventEmitter W, !CronLibrary, !NetLibrary, !McpLibrary, !FloatConversion}.
  Variables (svc : Service.JobService) (ctx : context).

Definition j_time (t : time) : json := JString (rfc3339 t).
Definition j_uuid (i : uuid) : json := JString (uuid_String i).

Definition executionToMap (e : Execution) : json := json_entries (
  [("id", j_uuid (e_ID e)); ("job_id", j_uuid (e_JobID e)); ("trigger_type", JString (e_TriggerType e));
   ("scheduled_at", j_time (e_ScheduledAt e)); ("fired_at", j_time (e_FiredAt e)); ("status", JString (e_Status e));
   ("created_at", j_time (e_CreatedAt e))] ++ opt "acknowledged_at" (e_AcknowledgedAt e) j_time).
(** The entries of a job with its schedule, as three handlers build them. *)
Definition job_entries (j : Job) (s : Schedule) : list (string * json) :=
  [("id", j_uuid (j_ID j)); ("namespace", JString (j_Namespace j)); ("name", JString (j_Name j));
   ("enabled", JBool (j_Enabled j)); ("cron_expression", JString (s_CronExpression s));
   ("timezone", JString (s_Timezone s)); ("webhook_url", JString (d_WebhookURL (j_Delivery j)));
   ("created_at", j_time (j_CreatedAt j)); ("updated_at", j_time (j_UpdatedAt j))].

(** [time.Duration(f) * time.Second]. *)
Definition seconds_of (f : float64) : duration := wrap64 (to_int unspecified f * Second).
Definition positive (f : float64) : bool :=
  match SpecFloat.SFcompare (of_int 0) f with Some Lt => true | _ => false end.

(** A required text, and a required identifier. *)
Definition required (request : CallToolRequest) (name : string) (k : string -> st W tool_result) : st W tool_result :=
  match RequireString request name with
  | Err _ => mret (ToolError ("Missing required parameter: " +:+ name))
  | Ok s => k s
  end.
Definition required_id (request : CallToolRequest) (k : string -> uuid -> st W tool_result) : st W tool_result :=
  required request "id" (fun idStr =>
  match uuid_Parse idStr with
  | Err _ => mret (ToolError "Invalid job ID format. Expected a UUID.")
  | Ok id => k idStr id
  end).

Definition handleCreateJob (request : CallToolRequest) : st W tool_result :=
  required request "name" (fun name =>
  required request "cron_expression" (fun cronExpr =>
  required request "timezone" (fun tz =>
  required request "webhook_url" (fun webhookURL =>
  let secret := GetString request "webhook_secret" "" in
  let timeoutSec := GetFloat request "webhook_timeout_seconds" (of_int 0) in
  let timeout := if positive timeoutSec then seconds_of timeoutSec else 0%Z in
  let tags := parseTags (GetArguments request !! "tags") in
  let input := {|
    Service.ci_Name := name; Service.ci_CronExpression := cronExpr; Service.ci_Timezone := tz;
    Service.ci_WebhookURL := webhookURL; Service.ci_Secret := secret; Service.ci_Timeout := timeout; Service.ci_Tags := tags |} in
  try (job, schedule) := Service.CreateJob ctx input catch e => mret (toolError e) in
  mret (jsonResult (json_entries (job_entries job schedule ++ tags_entry tags))))))).

Definition handleListJobs (request : CallToolRequest) : st W tool_result :=
  let filter := {|
    jf_Namespace := ""; jf_Tags := [];
    jf_Enabled := match GetArguments request !! "enabled" with Some _ => Some (GetBool request "enabled" true) | None => None end;
    jf_Name := GetString request "name" ""; jf_ListParams := {| lp_Limit := 0; lp_Offset := 0 |} |} in
  try jobs := Service.ListJobs ctx filter catch e => mret (toolError e) in
  mret (jsonResult (json_entries
    [("jobs", JArray (map (fun j => json_entries
        [("id", j_uuid (j_ID j)); ("namespace", JString (j_Namespace j)); ("name", JString (j_Name j));
         ("enabled", JBool (j_Enabled j)); ("created_at", j_time (j_CreatedAt j)); ("updated_at", j_time (j_UpdatedAt j))]) jobs));
     ("count", JInt (Z.of_nat (length jobs)))])).

Definition handleGetJob (request : CallToolRequest) : st W tool_result :=
  required_id request (fun _ id =>
  try (job, schedule, tags, executions) := Service.GetJob ctx id catch e => mret (toolError e) in
  mret (jsonResult (json_entries (job_entries job schedule ++ tags_entry tags ++
    (if (length executions =? 0)%nat then [] else [("recent_executions", JArray (map executionToMap executions))]))))).

(** An optional text: the assertion fails when the argument is something else. *)
Definition text_argument (args : gmap string argument) (name : string) : option (option string) :=
  match args !! name with
  | None => Some None
  | Some (AString s) => Some (Some s)
  | Some _ => None
  end.
Definition timeout_argument (args : gmap string argument) : option duration :=
  match args !! "webhook_timeout_seconds" with
  | None => None
  | Some (ANumber f) => Some (seconds_of f)
  | Some _ => Some (seconds_of (of_int 0))
  end.
(** [None] when an assertion panics. *)
Definition update_input (args : gmap string argument) : option Service.UpdateJobInput :=
  name ← text_argument args "name";
  cronExpr ← text_argument args "cron_expression";
  tz ← text_argument args "timezone";
  url ← text_argument args "webhook_url";
  secret ← text_argument args "webhook_secret";
  Some {|
    Service.ui_Name := name; Service.ui_CronExpression := cronExpr; Service.ui_Timezone := tz;
    Service.ui_WebhookURL := url; Service.ui_Secret := secret; Service.ui_Timeout := timeout_argument args;
    Service.ui_Tags := match args !! "tags" with Some v => Some (parseTags (Some v)) | None => None end |}.

Definition handleUpdateJob (request : CallToolRequest) : st W tool_result :=
  required_id request (fun _ id =>
  match update_input (GetArguments request) with
  | None => mret ToolPanic
  | Some input =>
      try (job, schedule) := Service.UpdateJob ctx id input catch e => mret (toolError e) in
      mret (jsonResult (json_entries (job_entries job schedule)))
  end).

Definition handleDeleteJob (request : CallToolRequest) : st W tool_result :=
  required_id request (fun idStr id =>
  try _ := Service.DeleteJob ctx id catch e => mret (toolError e) in
  mret (ToolText ("Job " +:+ idStr +:+ " deleted successfully."))).

Definition switched (job : Job) (message : string) : tool_result := jsonResult (json_entries
  [("id", j_uuid (j_ID job)); ("name", JString (j_Name job)); ("enabled", JBool (j_Enabled job)); ("message", JString message)]).
Definition handlePauseJob (request : CallToolRequest) : st W tool_result :=
  required_id request (fun _ id =>
  try job := Service.PauseJob ctx id catch e => mret (toolError e) in
  mret (switched job "Job paused successfully. Use resume-job to re-enable.")).
Definition handleResumeJob (request : CallToolRequest) : st W tool_result :=
  required_id request (fun _ id =>
  try job := Service.ResumeJob ctx id catch e => mret (toolError e) in
  mret (switched job "Job resumed successfully.")).

Definition handleTriggerJob (request : CallToolRequest) : st W tool_result :=
  required_id request (fun _ id =>
  try exec := Service.TriggerNow svc ctx id catch e => mret (toolError e) in
  mret (jsonResult (executionToMap exec))).

Definition handleNextRun (request : CallToolRequest) : st W tool_result :=
  required_id request (fun _ id =>
  try (nextRun, runs, schedule) := Service.GetNextRunTime ctx id catch e => mret (toolError e) in
  mret (jsonResult (json_entries
    [("cron_expression", JString (s_CronExpression schedule)); ("timezone", JString (s_Timezone schedule));
     ("next_run_at", j_time nextRun); ("next_runs", JArray (map j_time runs))]))).

Definition handleResolveSchedule (request : CallToolRequest) : st W tool_result :=
  required request "description" (fun desc =>
  let tz := GetString request "timezone" "UTC" in
  try r := Service.ResolveSchedule desc tz catch e => mret (toolError e) in
  mret (jsonResult (json_entries
    [("cron_expression", JString (Service.rr_CronExpression r)); ("description", JString (Service.rr_Description r));
     ("timezone", JString (Service.rr_Timezone r)); ("next_runs", JArray (map j_time (Service.rr_NextRuns r)))]))).

(** [RegisterTools]: the handler of a tool. *)
Definition tool (name : string) : option (CallToolRequest -> st W tool_result) :=
  snd <$> List.find (fun p => String.eqb p.1 name)
    [("create-job", handleCreateJob); ("list-jobs", handleListJobs); ("get-job", handleGetJob);
     ("update-job", handleUpdateJob); ("delete-job", handleDeleteJob); ("pause-job", handlePauseJob);
     ("resume-job", handleResumeJob); ("trigger-job", handleTriggerJob); ("next-run", handleNextRun);
     ("resolve-schedule", handleResolveSchedule)].
End tools.

(** ** The server: [auth.go], [server.go]

    The value that [AuthMiddleware] leaves in the context for the context function
    is an argument of what it runs next. *)
Definition maxRequestBodySize : Z := Z.shiftl 1 20.
Definition bodySizeLimitMiddleware {W} (next : Handler W) : Handler W := fun r =>
  match q_Body r with
  | Some _ => next (limit_body maxRequestBodySize r)
  | None => next r
  end.

Section auth.
  Context {W : Type} `{!KeyRepository W, !Runtime W}.
  Variables (lastLegacyWarn : cell W Z) (fallbackKey : string).

Definition unauthorized : http_response := http_Error "unauthorized" StatusUnauthorized.
Definition AuthMiddleware (next : Namespace -> Handler W) : Handler W := fun r =>
  let auth := Get r "Authorization" in
  if negb (HasPrefix auth "Bearer ") then mret unauthorized else
  let token := TrimPrefix auth "Bearer " in
  let fallback :=
    if negb (String.eqb fallbackKey "") && ConstantTimeCompare token fallbackKey then
      legacy_warning lastLegacyWarn ≫= fun _ =>
      next "default" (WithContext (NamespaceToContext (q_Context r) "default") r)
    else mret unauthorized in
  try key := GetKeyByTokenHash (Service.HashToken token) catch e => fallback in
  if k_Enabled key then next (k_Namespace key) (WithContext (NamespaceToContext (q_Context r) (k_Namespace key)) r)
  else fallback.

Definition httpContextFunc (resolved : option Namespace) (ctx : context) (r : http_request) : st W context :=
  match resolved with
  | Some ns => mret (NamespaceToContext ctx ns)
  | None =>
      let auth := Get r "Authorization" in
      if negb (HasPrefix auth "Bearer ") then mret ctx else
      let token := TrimPrefix auth "Bearer " in
      let fallback :=
        if negb (String.eqb fallbackKey "") && ConstantTimeCompare token fallbackKey
        then NamespaceToContext ctx "default" else ctx in
      try key := GetKeyByTokenHash (Service.HashToken token) catch e => mret fallback in
      mret (if k_Enabled key then NamespaceToContext ctx (k_Namespace key) else fallback)
  end.
End auth.

(** [NewStreamableHTTPServer]: given the context function and the tools, it makes
    the handler of the protocol. *)
Class StreamableServer (W : Type) `{!McpLibrary} : Type := {
  streamable : (context -> http_request -> st W context) ->
    (context -> string -> option (CallToolRequest -> st W tool_result)) -> Handler W;
}.

Section server.
  Context {W : Type} `{!Service.JobRepository W, !Service.ExecutionRepository W, !Service.TagRepository W,
    !Service.DeliveryAttemptRepository W, !Service.APIKeyRepository W, !Service.Random W, !Runtime W,
    !EventEmitter W, !CronLibrary, !NetLibrary, !McpLibrary, !FloatConversion, !KeyRepository W, !StreamableServer W}.
  Variables (svc : Service.JobService) (warned : cell W Z) (limiter : cell W namespaceRateLimiter) (fallbackKey : string).

(** [MountHTTP] of [NewServer]. *)
Definition MountHTTP : Handler W :=
  AuthMiddleware warned fallbackKey (fun ns =>
    NamespaceRateLimitMiddleware limiter
      (bodySizeLimitMiddleware (streamable (httpContextFunc fallbackKey (Some ns)) (tool svc)))).
(** The handler that [runServe] mounts at [/mcp]. *)
Definition mcpHandler (ips : cell W ipRateLimiter) : Handler W := RateLimitMiddleware ips MountHTTP.
End server.
