(* ===== verification/McpProps.v ===== *)
(** * The MCP transport against the job service

    Which request of the service a call of a tool is, and what a request to [/mcp]
    can touch. *)
From S2P Require Import Prelude GoStrings Json Float64 Domain Runtime Http Cron WebhookURL Middleware Mcp.
From S2P Require Import Pg Store StoreTheory Wiring Tenancy ServiceTheory ServiceProps Transport.
From S2P Require Service Config ApiProps GoTime.
Import ApiProps(hs_warned, hs_ns, hs_ip).
Local Open Scope cron_scope.

(** ** The contract of the tools

    The request that the arguments of a call spell, or the answer to arguments
    that spell none; and the text that the result of the request becomes. *)
Section contract.
  Context {W : Type} `{!Service.JobRepository W, !Service.ExecutionRepository W, !Service.TagRepository W,
    !Service.DeliveryAttemptRepository W, !Service.APIKeyRepository W, !Service.Random W, !Runtime W,
    !EventEmitter W, !CronLibrary, !NetLibrary, !McpLibrary, !FloatConversion}.
  Variables (svc : Service.JobService) (ctx : context).

Definition need (call : CallToolRequest) (name : string) (k : string -> result tool_result request) : result tool_result request :=
  match RequireString call name with
  | Err _ => Err (ToolError ("Missing required parameter: " +:+ name))
  | Ok s => k s
  end.
Definition need_id (call : CallToolRequest) (k : uuid -> result tool_result request) : result tool_result request :=
  need call "id" (fun s =>
  match uuid_Parse s with Err _ => Err (ToolError "Invalid job ID format. Expected a UUID.") | Ok i => k i end).

(** The changes that the arguments of an update ask for: one per argument that is
    there; the texts must be texts. *)
Definition is_text (a : option argument) : bool := match a with None | Some (AString _) => true | _ => false end.
Definition given (a : option argument) : option string := match a with Some (AString s) => Some s | _ => None end.
Definition changes (args : gmap string argument) : Service.UpdateJobInput := {|
  Service.ui_Name := given (args !! "name"); Service.ui_CronExpression := given (args !! "cron_expression");
  Service.ui_Timezone := given (args !! "timezone"); Service.ui_WebhookURL := given (args !! "webhook_url");
  Service.ui_Secret := given (args !! "webhook_secret");
  Service.ui_Timeout := (fun a => match a with ANumber f => seconds_of f | _ => 0%Z end) <$> args !! "webhook_timeout_seconds";
  Service.ui_Tags := (fun a => parseTags (Some a)) <$> args !! "tags" |}.

Definition decode (name : string) (call : CallToolRequest) : result tool_result request :=
  if String.eqb name "create-job" then
    need call "name" (fun n => need call "cron_expression" (fun c => need call "timezone" (fun tz => need call "webhook_url" (fun url =>
    let f := GetFloat call "webhook_timeout_seconds" (of_int 0) in
    Ok (RCreateJob {| Service.ci_Name := n; Service.ci_CronExpression := c; Service.ci_Timezone := tz; Service.ci_WebhookURL := url;
      Service.ci_Secret := GetString call "webhook_secret" ""; Service.ci_Timeout := if positive f then seconds_of f else 0%Z;
      Service.ci_Tags := parseTags (GetArguments call !! "tags") |})))))
  else if String.eqb name "list-jobs" then
    Ok (RListJobs {| jf_Namespace := ""; jf_Tags := [];
      jf_Enabled := match GetArguments call !! "enabled" with Some _ => Some (GetBool call "enabled" true) | None => None end;
      jf_Name := GetString call "name" ""; jf_ListParams := {| lp_Limit := 0; lp_Offset := 0 |} |})
  else if String.eqb name "get-job" then need_id call (fun i => Ok (RGetJob i))
  else if String.eqb name "update-job" then
    need_id call (fun i =>
      if forallb (fun n => is_text (GetArguments call !! n)) ["name"; "cron_expression"; "timezone"; "webhook_url"; "webhook_secret"]
      then Ok (RUpdateJob i (changes (GetArguments call))) else Err ToolPanic)
  else if String.eqb name "delete-job" then need_id call (fun i => Ok (RDeleteJob i))
  else if String.eqb name "pause-job" then need_id call (fun i => Ok (RPauseJob i))
  else if String.eqb name "resume-job" then need_id call (fun i => Ok (RResumeJob i))
  else if String.eqb name "trigger-job" then need_id call (fun i => Ok (RTriggerNow i))
  else if String.eqb name "next-run" then need_id call (fun i => Ok (RGetNextRunTime i))
  else need call "description" (fun d => Ok (RResolveSchedule d (GetString call "timezone" "UTC"))).

(** The texts of the results: objects with their entries in alphabetical order. *)
Definition lines (l : list (string * json)) : string := json_indent 0 (JObject l).
Definition some_tags (tags : list Tag) : list (string * json) := match tags with [] => [] | _ => [("tags", tag_map tags)] end.
Definition execution_json (e : Execution) : json := JObject (
  match e_AcknowledgedAt e with Some t => [("acknowledged_at", j_time t)] | None => [] end ++
  [("created_at", j_time (e_CreatedAt e)); ("fired_at", j_time (e_FiredAt e)); ("id", j_uuid (e_ID e)); ("job_id", j_uuid (e_JobID e));
   ("scheduled_at", j_time (e_ScheduledAt e)); ("status", JString (e_Status e)); ("trigger_type", JString (e_TriggerType e))]).
Definition job_lines (j : Job) (s : Schedule) (middle : list (string * json)) : string := lines (
  [("created_at", j_time (j_CreatedAt j)); ("cron_expression", JString (s_CronExpression s)); ("enabled", JBool (j_Enabled j));
   ("id", j_uuid (j_ID j)); ("name", JString (j_Name j)); ("namespace", JString (j_Namespace j))] ++ middle ++
  [("timezone", JString (s_Timezone s)); ("updated_at", j_time (j_UpdatedAt j)); ("webhook_url", JString (d_WebhookURL (j_Delivery j)))]).
Definition listed_job (j : Job) : json := JObject
  [("created_at", j_time (j_CreatedAt j)); ("enabled", JBool (j_Enabled j)); ("id", j_uuid (j_ID j)); ("name", JString (j_Name j));
   ("namespace", JString (j_Namespace j)); ("updated_at", j_time (j_UpdatedAt j))].
Definition switch_lines (message : string) (j : Job) : string := lines
  [("enabled", JBool (j_Enabled j)); ("id", j_uuid (j_ID j)); ("message", JString message); ("name", JString (j_Name j))].
Definition recent (es : list Execution) : list (string * json) :=
  match es with [] => [] | _ => [("recent_executions", JArray (map execution_json es))] end.

(** The request, with the text that an agent is to see for its result. *)
Definition reply (call : CallToolRequest) (q : request) : st W (result err string) :=
  let shows {A} (t : A -> string) (m : st W (result err A)) := result_map t <$> m in
  match q with
  | RCreateJob input => shows (fun x => job_lines x.1 x.2 (some_tags (parseTags (GetArguments call !! "tags")))) (Service.CreateJob ctx input)
  | RListJobs f => shows (fun l => lines [("count", JInt (Z.of_nat (length l))); ("jobs", JArray (map listed_job l))]) (Service.ListJobs ctx f)
  | RGetJob i => shows (fun x => let '(j, s, tags, es) := x in job_lines j s (recent es ++ some_tags tags)) (Service.GetJob ctx i)
  | RUpdateJob i input => shows (fun x => job_lines x.1 x.2 []) (Service.UpdateJob ctx i input)
  | RDeleteJob i =>
      shows (fun _ => "Job " +:+ (match RequireString call "id" with Ok s => s | Err _ => "" end) +:+ " deleted successfully.") (Service.DeleteJob ctx i)
  | RPauseJob i => shows (switch_lines "Job paused successfully. Use resume-job to re-enable.") (Service.PauseJob ctx i)
  | RResumeJob i => shows (switch_lines "Job resumed successfully.") (Service.ResumeJob ctx i)
  | RTriggerNow i => shows (fun e => json_indent 0 (execution_json e)) (Service.TriggerNow svc ctx i)
  | RGetNextRunTime i => shows (fun x => let '(next, runs, s) := x in lines
      [("cron_expression", JString (s_CronExpression s)); ("next_run_at", j_time next); ("next_runs", JArray (map j_time runs));
       ("timezone", JString (s_Timezone s))]) (Service.GetNextRunTime ctx i)
  | RResolveSchedule d tz => shows (fun x => lines
      [("cron_expression", JString (Service.rr_CronExpression x)); ("description", JString (Service.rr_Description x));
       ("next_runs", JArray (map j_time (Service.rr_NextRuns x))); ("timezone", JString (Service.rr_Timezone x))]) (Service.ResolveSchedule d tz)
  | _ => mret (Err (EOther "no tool"))
  end.

(** A call of a tool against what it stands for: the effect of the request, the text
    for its result, or the message for its error. *)
Definition tool_agrees (call : CallToolRequest) (m : st W tool_result) (d : result tool_result request) : Prop :=
  match d with
  | Err r => forall w, m w = (r, w)
  | Ok q => forall w, exec m w = exec (serve svc ctx q) w /\
      match eval (serve svc ctx q) w with
      | Ok _ => exists s, eval (reply call q) w = Ok s /\ eval m w = ToolText s
      | Err e => eval (reply call q) w = Err e /\ eval m w = toolError e
      end
  end.

Lemma required_agrees call name k k' :
  (forall s, RequireString call name = Ok s -> tool_agrees call (k s) (k' s)) -> tool_agrees call (required call name k) (need call name k').
Proof. intros Hk. unfold required, need. destruct (RequireString call name); [by apply Hk | done]. Qed.
Lemma required_id_agrees call k k' :
  (forall s i, RequireString call "id" = Ok s -> tool_agrees call (k s i) (k' i)) -> tool_agrees call (required_id call k) (need_id call k').
Proof. intros Hk. apply required_agrees. intros s Hs. destruct (uuid_Parse s); [by apply Hk | done]. Qed.
Lemma service_agrees {A} call q (m : st W (result err A)) (g : A -> answer) (t : A -> string) (c : result err A -> st W tool_result) :
  serve svc ctx q = answers g m -> reply call q = result_map t <$> m ->
  (forall a s, c (Ok a) s = (ToolText (t a), s)) -> (forall e s, c (Err e) s = (toolError e, s)) ->
  tool_agrees call (m ≫= c) (Ok q).
Proof.
  intros E Er Hok Herr w. rewrite E, Er. unfold answers, exec, eval, fmap, st_fmap, mbind, st_bind.
  destruct (m w) as [[a|e] w']; cbn; [rewrite Hok | rewrite Herr]; eauto.
Qed.

(** The entries that the handlers sort. *)
Lemma shown v t w : json_indent 0 v = t -> mret (M := st W) (jsonResult v) w = (ToolText t, w).
Proof. by intros <-. Qed.
Lemma executionToMap_sorted e : executionToMap e = execution_json e.
Proof. unfold executionToMap, execution_json. by destruct (e_AcknowledgedAt e). Qed.
Lemma job_sorted (j : Job) (s : Schedule) tags es :
  json_entries (job_entries j s ++ tags_entry tags ++ (if (length es =? 0)%nat then [] else [("recent_executions", JArray (map executionToMap es))])) =
  JObject ([("created_at", j_time (j_CreatedAt j)); ("cron_expression", JString (s_CronExpression s)); ("enabled", JBool (j_Enabled j));
    ("id", j_uuid (j_ID j)); ("name", JString (j_Name j)); ("namespace", JString (j_Namespace j))] ++ (recent es ++ some_tags tags) ++
    [("timezone", JString (s_Timezone s)); ("updated_at", j_time (j_UpdatedAt j)); ("webhook_url", JString (d_WebhookURL (j_Delivery j)))]).
Proof. rewrite (map_ext _ _ executionToMap_sorted es). by destruct tags, es. Qed.
Lemma job_text j s tags es :
  json_indent 0 (json_entries (job_entries j s ++ tags_entry tags ++
    (if (length es =? 0)%nat then [] else [("recent_executions", JArray (map executionToMap es))]))) = job_lines j s (recent es ++ some_tags tags).
Proof. by rewrite job_sorted. Qed.
Lemma text_argument_given args n : text_argument args n = if is_text (args !! n) then Some (given (args !! n)) else None.
Proof. unfold text_argument. by destruct (args !! n) as [[]|]. Qed.
Lemma update_decodes args : update_input args =
  if forallb (fun n => is_text (args !! n)) ["name"; "cron_expression"; "timezone"; "webhook_url"; "webhook_secret"]
  then Some (changes args) else None.
Proof.
  unfold update_input. rewrite !text_argument_given. cbn [forallb].
  destruct (is_text (args !! "name")), (is_text (args !! "cron_expression")), (is_text (args !! "timezone")),
    (is_text (args !! "webhook_url")), (is_text (args !! "webhook_secret")); try reflexivity.
  cbn. unfold changes, timeout_argument. by destruct (args !! "webhook_timeout_seconds") as [[]|], (args !! "tags").
Qed.

Lemma handlers_agree name h call : tool svc ctx name = Some h -> tool_agrees call (h call) (decode name call).
Proof.
  unfold tool, decode. cbn [List.find fst]. rewrite !(String.eqb_sym _ name).
  repeat (case_match; [intros [= <-] | ]); [.. | done].
  all: unfold handleCreateJob, handleGetJob, handleUpdateJob, handleDeleteJob, handlePauseJob, handleResumeJob, handleTriggerJob,
    handleNextRun, handleResolveSchedule.
  all: repeat first [apply required_id_agrees; intros ? ? Hid | apply required_agrees; intros ? ?].
  4: rewrite update_decodes; destruct (forallb _ _); [| intros w; reflexivity].
  all: eapply service_agrees; [reflexivity | reflexivity | | reflexivity].
  all: intros a w; repeat match goal with x : (_ * _)%type |- _ => destruct x end; cbn [fst snd].
  5: by rewrite Hid.
  all: apply shown; try reflexivity.
  - rewrite <- (app_nil_r (tags_entry _)). exact (job_text _ _ _ []).
  - apply job_text.
  - by rewrite executionToMap_sorted.
Qed.
(** The request of a call acts in the namespace of the context. *)
Lemma decode_acting name call q : decode name call = Ok q -> acting ctx q = NamespaceFromContext ctx.
Proof. unfold decode, need_id, need. intros E. repeat case_match; simplify_eq; reflexivity. Qed.

(** C5: a call of a tool is the request of the service that its arguments spell: it
    has the same effect, and answers with the text for the result of the request,
    in which every field of the answer has its entry, or with the message for the
    error of the service; arguments that spell no request are answered without any
    effect. *)
Theorem mcp_refines_service (name : string) (call : CallToolRequest) (w : W) :
  match tool svc ctx name, decode name call with
  | Some h, Ok q =>
      exec (h call) w = exec (serve svc ctx q) w /\
      match eval (serve svc ctx q) w with
      | Ok _ => exists s, eval (reply call q) w = Ok s /\ eval (h call) w = ToolText s
      | Err e => eval (reply call q) w = Err e /\ eval (h call) w = toolError e
      end
  | Some h, Err r => h call w = (r, w)
  | None, _ => name ∉ ["create-job"; "list-jobs"; "get-job"; "update-job"; "delete-job"; "pause-job"; "resume-job"; "trigger-job";
                       "next-run"; "resolve-schedule"]%string
  end.
Proof.
  destruct (tool svc ctx name) as [h|] eqn:E.
  - pose proof (handlers_agree name h call E) as Ha. by destruct (decode name call); apply Ha.
  - unfold tool in E. cbn [List.find fst] in E. repeat (case_match; [done |]).
    rewrite !elem_of_cons, elem_of_nil. intros Hn. repeat (destruct Hn as [->|Hn]; [done |]). done.
Qed.
End contract.

(** ** Isolation

    The server of the protocol acts through the context function and the tools,
    with contexts that the context function gave: it keeps every invariant that
    they keep. *)
Class Confined (W : Type) `{!Database W, !McpLibrary, !StreamableServer W} : Prop := confined :
  forall (I : DB -> Prop) (contextFunc : context -> http_request -> st W context)
    (tools : context -> string -> option (CallToolRequest -> st W tool_result)) (r : http_request),
  maintains I (contextFunc (q_Context r) r) ->
  (forall w name h call, tools (eval (contextFunc (q_Context r) r) w) name = Some h -> maintains I (h call)) ->
  maintains I (streamable contextFunc tools r).

Section isolation.
  Context {W : Type} `{!Database W, !Postgres, !Runtime W, !EventEmitter W, !Service.Random W, !CronLibrary, !NetLibrary,
    !Quiet W, !McpLibrary, !FloatConversion, !StreamableServer W, !Confined W}.
  Variables (svc : Service.JobService) (warned : cell W Z) (limiter : cell W namespaceRateLimiter) (ips : cell W ipRateLimiter).

Lemma tool_keeps db0 ctx name h call : tool svc ctx name = Some h ->
  maintains (quarantine (NamespaceFromContext ctx) db0) (h call).
Proof.
  intros Eh w Hw. pose proof (handlers_agree svc ctx name h call Eh) as Ha.
  destruct (decode name call) as [q|r] eqn:Ed.
  - unfold db_good. rewrite (proj1 (Ha w)). rewrite <- (decode_acting ctx name call q Ed) in *.
    apply (serve_safe svc db0 ctx q w Hw).
  - specialize (Ha w). unfold db_good, exec. by rewrite Ha.
Qed.
(** What runs behind the authentication, in a namespace. *)
Definition behind (fallbackKey : string) (r : http_request) (ns : Namespace) : st W http_response :=
  NamespaceRateLimitMiddleware limiter
    (bodySizeLimitMiddleware (streamable (httpContextFunc fallbackKey (Some ns)) (tool svc)))
    (WithContext (NamespaceToContext (q_Context r) ns) r).
Lemma behind_keeps fallbackKey r ns db0 : beside limiter -> maintains (quarantine ns db0) (behind fallbackKey r ns).
Proof.
  intros Hl. apply ns_limit_keeps; [done |].
  assert (Hs : forall r, maintains (quarantine ns db0) (streamable (httpContextFunc fallbackKey (Some ns)) (tool svc) r)).
  { intros r0. apply confined; [apply keeps_answer |]. intros w name h call Eh. exact (tool_keeps db0 _ name h call Eh). }
  unfold bodySizeLimitMiddleware. case_match; apply Hs.
Qed.
Lemma mount_outcome I Q fallbackKey r w : beside warned ->
  match namespace_of fallbackKey r w with
  | Some ns => forall w', outcome I Q (behind fallbackKey r ns) w'
  | None => Q unauthorized
  end -> outcome I Q (MountHTTP svc warned limiter fallbackKey r) w.
Proof.
  intros Hc. unfold MountHTTP, AuthMiddleware, namespace_of. cbv zeta. destruct (negb _); [apply outcome_ret |]. intros Hn.
  apply (lookup_outcome I Q warned fallbackKey _ (fun key => behind fallbackKey r (k_Namespace key)) (behind fallbackKey r)); [done |].
  destruct (token_namespace _ _ w); [| done]. by split; [intros key w' <- |].
Qed.

(** An agent stays in the namespace of its key: a request to [/mcp] with the
    key of a namespace, whatever tools it calls, leaves the rows of the other
    namespaces as they were; one without a valid key reaches no tool, is refused
    with 401 or 429, and keeps every property of the database. *)
Lemma mcp_isolated fallbackKey r w :
  beside warned -> beside limiter -> beside ips ->
  let run := mcpHandler svc warned limiter fallbackKey ips r in
  match namespace_of fallbackKey r w with
  | Some ns => forall db0, db_good (quarantine ns db0) w -> db_good (quarantine ns db0) (exec run w)
  | None => forall I, db_good I w -> db_good I (exec run w) /\ p_Status (eval run w) ∈ [401; 429]%Z
  end.
Proof.
  intros Hwarn Hl Hip run. destruct (namespace_of fallbackKey r w) as [ns|] eqn:En.
  - intros db0 Hw. apply (ip_limit_outcome _ (fun _ => True)); [done | done | | done]. intros w' E.
    apply mount_outcome; [done |]. rewrite (namespace_of_db _ _ _ _ E), En. intros w''. by apply outcome_maintains, behind_keeps.
  - intros I Hw. apply (ip_limit_outcome I (fun p => p_Status p ∈ [401; 429]%Z)); [done | right; by left | | done].
    intros w' E. apply mount_outcome; [done |]. rewrite (namespace_of_db _ _ _ _ E), En. by left.
Qed.
End isolation.

(** ** A concrete server

    That of [ApiProps], with a protocol that is one call: the tool is named by the
    method of the request, its identifier by the query. *)
Module Sim.
Export ApiProps.Sim.
Definition arg (call : gmap string argument) (name : string) : result err string :=
  match call !! name with Some (AString s) => Ok s | _ => Err (EOther "missing") end.
#[export] Instance sim_library : McpLibrary := {|
  CallToolRequest := gmap string argument;
  RequireString := arg;
  GetString call name d := match arg call name with Ok s => s | Err _ => d end;
  GetFloat call name d := match call !! name with Some (ANumber f) => f | _ => d end;
  GetBool call name d := match call !! name with Some (ABool b) => b | _ => d end;
  GetArguments call := call;
  uuid_Parse s := match Config.parseInt s with Some n => Ok (Z.to_N n) | None => Err (EOther "not a number") end;
  rfc3339 := GoTime.FormatRFC3339 |}.
Definition text_of (r : tool_result) : string :=
  match r with ToolText s => s | ToolError s => "error: " +:+ s | ToolPanic => "panic" end.
#[export] Instance sim_protocol W : StreamableServer W := {|
  streamable contextFunc tools r :=
    contextFunc (q_Context r) r ≫= fun ctx =>
    match tools ctx (q_Method r) with
    | Some h => (fun t => {| p_Status := 200; p_Header := []; p_Body := text_of t |}) <$> h {[ "id" := AString (q_RawQuery r) ]}
    | None => mret {| p_Status := 400; p_Header := []; p_Body := "unknown tool" |}
    end |}.
#[export] Instance sim_confined W `{!Database W} : Confined W.
Proof.
  intros I contextFunc tools r Hc Ht w Hw.
  assert (Hctx : db_good I (exec (contextFunc (q_Context r) r) w)) by by apply Hc.
  pose proof (Ht w) as Hw'. unfold streamable, sim_protocol, exec, eval, mbind, st_bind in *.
  destruct (contextFunc (q_Context r) r w) as [ctx w']. cbn in *.
  destruct (tools ctx (q_Method r)) as [h|] eqn:E; [| exact Hctx].
  exact (preserves_fmap _ _ _ (Hw' _ _ _ E) w' Hctx).
Qed.
Definition agent_call (name id key : string) : http_request :=
  {| q_Method := name; q_Path := "/mcp"; q_RawQuery := id; q_RemoteAddr := "192.0.2.1:4711"; q_Host := "cron.example";
     q_Header := [("Authorization", "Bearer " +:+ key)]; q_Body := None; q_BodyLimit := None; q_Context := Background |}.
Definition agent (r : http_request) : st server http_response :=
  mcpHandler svc (hs_warned hs) (hs_ns hs) "" (hs_ip hs) r.
Example agent_ex : map (fun r => p_Body (eval (agent r) fresh))
  [agent_call "delete-job" "102" token; agent_call "delete-job" "105" token; agent_call "delete-job" "x" token;
   agent_call "resolve-schedule" "" token; agent_call "delete-job" "102" "guess"] =
  ["Job 102 deleted successfully."; "error: Job not found. Verify the job ID is correct and belongs to your namespace.";
   "error: Invalid job ID format. Expected a UUID."; "error: Missing required parameter: description"; "unauthorized" +:+ nl].
Proof. vm_compute. reflexivity. Qed.
End Sim.
Import Sim.

Lemma mcp_isolated_witness :
  let agent r := mcpHandler svc (hs_warned hs) (hs_ns hs) "" (hs_ip hs) r in
  let good_key := agent (agent_call "delete-job" "102" token) in
  let bad_key := agent (agent_call "delete-job" "102" "guess") in
  undisturbed "a" (db_of with_key) (pg_db (db_get (exec good_key fresh))) /\
  p_Status (eval bad_key fresh) ∈ [401; 429]%Z.
Proof.
  assert (E : namespace_of "" (agent_call "delete-job" "102" token) fresh = Some "a"%string) by (vm_compute; reflexivity).
  assert (E' : namespace_of "" (agent_call "delete-job" "102" "guess") fresh = None) by (vm_compute; reflexivity).
  assert (Hb : beside (hs_warned hs) /\ beside (hs_ns hs) /\ beside (hs_ip hs)) by (split_and!; intros s w; reflexivity).
  destruct Hb as (H1 & H2 & H3).
  pose proof (mcp_isolated svc (hs_warned hs) (hs_ns hs) (hs_ip hs) "" (agent_call "delete-job" "102" token) fresh H1 H2 H3) as Hgood.
  pose proof (mcp_isolated svc (hs_warned hs) (hs_ns hs) (hs_ip hs) "" (agent_call "delete-job" "102" "guess") fresh H1 H2 H3) as Hbad.
  cbv zeta in *. rewrite E in Hgood. rewrite E' in Hbad. split.
  - exact (q_und _ _ _ (proj1 (Hgood _ with_key_good))).
  - exact (proj2 (Hbad _ with_key_good)).
Defined.
