(* ===== verification/Proxy.v ===== *)
(** * The MCP proxy: [cmd/cronlite-mcp/main.go]

    A process beside the agent that turns calls of tools into requests to the REST
    API. The HTTP client, the accessors of a call, the texts of floating-point
    numbers and [json.Indent] are parameters (values decoded from JSON can always be
    encoded again); the descriptions and schemas of the
    tools are texts for agents. *)
From S2P Require Import Prelude GoStrings Json Float64 Domain Api Mcp.
Local Open Scope cron_scope.

(** ** What the proxy uses of the libraries *)
Record client_request : Type := mkClientRequest {
  cr_Method : string;
  cr_URL : string;
  cr_Header : list (string * string);   (* in the order of the calls of [Set] *)
  cr_Body : option string;
}.
(** A response, with the outcome of reading its body. *)
Record client_response : Type := mkClientResponse { cs_StatusCode : Z; cs_Body : result err string }.

Class HttpClient (W : Type) : Type := {
  check_request : string -> string -> result err unit;   (* of [http.NewRequestWithContext] *)
  client_Do : client_request -> st W (result err client_response);
}.
(** The texts of a number: in JSON, and for the verb %v. *)
Class NumberText : Type := { number_json : float64 -> string; number_v : float64 -> string }.
(** [json.Indent] with two spaces: [None] for what is not JSON. *)
Class JsonIndent : Type := { json_Indent : string -> option string }.

(** ** Values of any type *)
Section any.
  Context `{!NumberText}.

(** [json.Marshal]: the entries of an object in the order of their names. *)
Fixpoint any_json (a : argument) : string :=
  match a with
  | ANull => "null"
  | ABool b => if b then "true" else "false"
  | ANumber f => number_json f
  | AString s => json_string s
  | AArray l => "[" +:+ Join (map any_json l) "," +:+ "]"
  | AObject l =>
      "{" +:+ Join (map (fun p => json_string p.1 +:+ ":" +:+ p.2) (merge_sort key_le (map (fun p => (p.1, any_json p.2)) l))) "," +:+ "}"
  end.

(** [fmt.Sprintf] with the verb %v. *)
Fixpoint any_v (a : argument) : string :=
  match a with
  | ANull => "<nil>"
  | ABool b => if b then "true" else "false"
  | ANumber f => number_v f
  | AString s => s
  | AArray l => "[" +:+ Join (map any_v l) " " +:+ "]"
  | AObject l => "map[" +:+ Join (map (fun p => p.1 +:+ ":" +:+ p.2) (merge_sort key_le (map (fun p => (p.1, any_v p.2)) l))) " " +:+ "]"
  end.
End any.

(** The entries that a call gives, of those named; and an entry that is always
    written. *)
Definition supplied (args : gmap string argument) (keys : list string) : list (string * argument) :=
  omap (fun k => pair k <$> args !! k) keys.
Definition always (args : gmap string argument) (key : string) : string * argument := (key, default ANull (args !! key)).

(** ** The environment *)
Fixpoint trim_slashes (s : string) : string :=
  match s with
  | EmptyString => EmptyString
  | String c s' =>
      match trim_slashes s' with
      | EmptyString => if decide (c = "/"%char) then EmptyString else String c EmptyString
      | t => String c t
      end
  end.
(** The base URL and the key; [None] when the process exits. *)
Definition proxy_settings (url key : string) : option (string * string) :=
  let baseURL := trim_slashes (if String.eqb url "" then "http://localhost:8080" else url) in
  if String.eqb key "" then None else Some (baseURL, key).

Section proxy.
  Context {W : Type} `{!McpLibrary, !HttpClient W, !NumberText, !JsonIndent, !MapOrder}.
  Variables (baseURL apiKey : string).

(** ** HTTP helpers *)

(** What becomes of a response. *)
Definition result_of (resp : client_response) : tool_result :=
  match cs_Body resp with
  | Err e => ToolError ("Failed to read response: " +:+ Error e)
  | Ok respBody =>
      if (200 <=? cs_StatusCode resp)%Z && (cs_StatusCode resp <? 300)%Z then
        if (cs_StatusCode resp =? 204)%Z || String.eqb respBody "" then ToolText "Operation completed successfully."
        else ToolText (default respBody (json_Indent respBody))
      else ToolError ("API error (HTTP " +:+ Itoa (cs_StatusCode resp) +:+ "): " +:+ respBody)
  end.

Definition client_headers (body : option string) : list (string * string) :=
  ("Authorization", "Bearer " +:+ apiKey) ::
  match body with Some _ => [("Content-Type", "application/json")] | None => [] end.
Definition doRequest (method url : string) (body : option string) : st W tool_result :=
  match check_request method url with
  | Err e => mret (ToolError ("Failed to create request: " +:+ Error e))
  | Ok _ =>
      try resp := client_Do {| cr_Method := method; cr_URL := url; cr_Header := client_headers body; cr_Body := body |} catch e =>
        mret (ToolError ("HTTP request failed: " +:+ Error e)) in
      mret (result_of resp)
  end.

Fixpoint query_text (sep : string) (query : list (string * string)) : string :=
  match query with
  | [] => ""
  | (k, v) :: rest => sep +:+ k +:+ "=" +:+ v +:+ query_text "&" rest
  end.
Definition doGet (url : string) (query : gmap string string) : st W tool_result :=
  doRequest "GET" (url +:+ query_text "?" (iterate query)) None.

Definition doJSON (method url : string) (body : argument) : st W tool_result :=
  doRequest method url (Some (any_json body)).

Definition proxyHandler (method path : string) (buildBody : gmap string argument -> argument) (request : CallToolRequest) : st W tool_result :=
  doJSON method (baseURL +:+ path) (buildBody (GetArguments request)).

(** ** The tools: [registerProxyTools] *)
Definition create_body (args : gmap string argument) : argument := AObject (
  map (always args) ["name"; "cron_expression"; "timezone"; "webhook_url"] ++
  supplied args ["webhook_secret"; "webhook_timeout_seconds"; "tags"]).
Definition update_body (args : gmap string argument) : argument := AObject (
  supplied args ["name"; "cron_expression"; "timezone"; "webhook_url"; "webhook_secret"; "webhook_timeout_seconds"; "enabled"; "tags"]).
Definition resolve_body (args : gmap string argument) : argument := AObject (
  always args "description" :: supplied args ["timezone"]).
Definition list_query (args : gmap string argument) : gmap string string :=
  list_to_map (map (fun p => (p.1, any_v p.2)) (supplied args ["name"; "enabled"])).

Definition with_job (request : CallToolRequest) (k : string -> st W tool_result) : st W tool_result :=
  match RequireString request "id" with
  | Err _ => mret (ToolError "Missing required parameter: id")
  | Ok id => k id
  end.
Definition job_url (id suffix : string) : string := baseURL +:+ "/jobs/" +:+ id +:+ suffix.

Definition proxy_list_jobs (request : CallToolRequest) : st W tool_result :=
  doGet (baseURL +:+ "/jobs") (list_query (GetArguments request)).
Definition proxy_update_job (request : CallToolRequest) : st W tool_result :=
  with_job request (fun id => doJSON "PATCH" (job_url id "") (update_body (GetArguments request))).
(** A tool without a body: a method on a job, or below it. *)
Definition proxy_job (method suffix : string) (request : CallToolRequest) : st W tool_result :=
  with_job request (fun id => doRequest method (job_url id suffix) None).

(** The same for GET. *)
Definition proxy_get (suffix : string) (request : CallToolRequest) : st W tool_result :=
  with_job request (fun id => doGet (job_url id suffix) ∅).

Definition registerProxyTools (name : string) : option (CallToolRequest -> st W tool_result) :=
  snd <$> List.find (fun p => String.eqb p.1 name)
    [("create-job", proxyHandler "POST" "/jobs" create_body);
     ("list-jobs", proxy_list_jobs);
     ("get-job", proxy_get "");
     ("update-job", proxy_update_job);
     ("delete-job", proxy_job "DELETE" "");
     ("pause-job", proxy_job "POST" "/pause");
     ("resume-job", proxy_job "POST" "/resume");
     ("trigger-job", proxy_job "POST" "/trigger");
     ("next-run", proxy_get "/next-run");
     ("resolve-schedule", proxyHandler "POST" "/schedules/resolve" resolve_body)].
End proxy.
