(* ===== verification/HttpClient.v ===== *)
(** * A client and a server of [net/http]

    What a request of the client of [Proxy] is when it arrives: the URL is split
    and its path unescaped, and the server reads the request line. The client
    reaches one server, at [base] (a scheme and an authority); a server that has
    answered does not redirect. *)
From S2P Require Import Prelude GoStrings GoUrl Domain Runtime Http Proxy.
Local Open Scope cron_scope.

Fixpoint all_bytes (p : ascii -> bool) (s : string) : bool :=
  match s with EmptyString => true | String c s' => p c && all_bytes p s' end.
Definition is_control (c : ascii) : bool := (byte_of c <? 32)%Z || (byte_of c =? 127)%Z.

(** [url.PathUnescape]. *)
Fixpoint PathUnescape (s : string) : option string :=
  match s with
  | EmptyString => Some EmptyString
  | String c s' =>
      if decide (c = "%"%char) then
        match s' with
        | String a (String b s'') =>
            x ← unhex a; y ← unhex b; t ← PathUnescape s''; Some (String (of_byte (16 * x + y)) t)
        | _ => None
        end
      else String c <$> PathUnescape s'
  end.

(** [url.Parse] of what follows the authority: path and query. *)
Definition parse_target (target : string) : result err (string * string) :=
  let '(u, fragment) := default (target, "") (Cut target "#") in
  if negb (all_bytes (fun c => negb (is_control c)) u) then Err (EOther "net/url: invalid control character in URL") else
  let '(p, query) := default (u, "") (Cut u "?") in
  match PathUnescape p, PathUnescape fragment with
  | Some path, Some _ => Ok (path, query)
  | _, _ => Err (EOther "invalid URL escape")
  end.

Section loopback.
  Context {W : Type}.
  Variables (base host remote : string) (server : Handler W).

(** The request that arrives. *)
Definition request_at (cr : client_request) : result err http_request :=
  let target := TrimPrefix (cr_URL cr) base in
  if negb (HasPrefix (cr_URL cr) base) || negb (HasPrefix target "/") then Err (EOther "no such host") else
  match parse_target target with
  | Err e => Err e
  | Ok (path, query) => Ok {|
      q_Method := cr_Method cr; q_Path := path; q_RawQuery := query; q_RemoteAddr := remote; q_Host := host;
      q_Header := cr_Header cr; q_Body := cr_Body cr; q_BodyLimit := None; q_Context := Background |}
  end.
(** A query with a space makes the request line malformed. *)
Definition loopback : HttpClient W := {|
  check_request _ url := result_map (fun _ => tt) (parse_target (TrimPrefix url base));
  client_Do cr :=
    match request_at cr with
    | Err e => mret (Err e)
    | Ok r =>
        if negb (lacks " " (q_RawQuery r)) then mret (Ok {| cs_StatusCode := 400; cs_Body := Ok "400 Bad Request" |})
        else (fun p => Ok {| cs_StatusCode := p_Status p; cs_Body := Ok (p_Body p) |}) <$> server r
    end |}.
End loopback.

(** ** Texts that travel as they are *)
Definition plain (s : string) : bool := all_bytes unreserved s.
Definition plain_id (s : string) : bool := plain s && negb (String.eqb s "") && negb (String.eqb s ".") && negb (String.eqb s "..").

Lemma all_bytes_app p s t : all_bytes p (s +:+ t) = all_bytes p s && all_bytes p t.
Proof. induction s as [|c s IH]; [done |]. rewrite str_app_cons. cbn [all_bytes]. by rewrite IH, andb_assoc. Qed.
Lemma all_bytes_impl (p q : ascii -> bool) s : (forall c, p c = true -> q c = true) -> all_bytes p s = true -> all_bytes q s = true.
Proof. intros Hpq. induction s as [|c s IH]; [done |]. cbn. rewrite !andb_true_iff. naive_solver. Qed.
Lemma all_bytes_lacks p c s : p c = false -> all_bytes p s = true -> lacks c s = true.
Proof.
  intros Hc. induction s as [|a s IH]; [done |]. cbn [all_bytes lacks]. rewrite !andb_true_iff. intros [Ha Hs]. split; [| auto].
  case_decide; [congruence | done].
Qed.
Lemma PathUnescape_id s : lacks "%" s = true -> PathUnescape s = Some s.
Proof.
  induction s as [|c s IH]; [done |]. cbn [lacks PathUnescape]. rewrite andb_true_iff. intros [Hc Hs].
  case_decide; [by subst |]. by rewrite IH.
Qed.
