(* ===== verification/ProxyProps.v ===== *)
(** * The MCP proxy against the REST API

    Which operation of the REST API a call of a tool of the proxy is, and what an
    agent behind the proxy can touch. *)
From S2P Require Import Prelude GoStrings GoUrl Json Float64 Domain Runtime Http Cron WebhookURL Middleware Api ApiServer ApiContract Mcp Proxy HttpClient.
From S2P Require Import Pg Store StoreTheory Wiring Tenancy ServiceTheory ServiceProps Transport.
From S2P Require Service ApiProps McpProps.
Local Open Scope cron_scope.

(** The bindings of the generator's runtime read the parsed query: a parameter
    that is not in it is not set, a text is taken as it is, and a flag is read. *)
Class FormBinding `{!ParamBinding} : Prop := {
  int_absent n q : (ParseQuery q).1 !! n = None -> bind_int n q = Ok None;
  strings_absent n q : (ParseQuery q).1 !! n = None -> bind_strings n q = Ok None;
  string_absent n q : (ParseQuery q).1 !! n = None -> bind_string n q = Ok None;
  bool_absent n q : (ParseQuery q).1 !! n = None -> bind_bool n q = Ok None;
  string_given n q s : (ParseQuery q).1 !! n = Some [s] -> bind_string n q = Ok (Some s);
  bool_given n q (b : bool) : (ParseQuery q).1 !! n = Some [if b then "true" else "false"] -> bind_bool n q = Ok (Some b);
}.

(** ** Requests on their way *)
Lemma Cut_none c s : lacks c s = true -> Cut s c = None.
Proof.
  induction s as [|a s IH]; [done |]. cbn [lacks Cut]. rewrite andb_true_iff, bool_decide_eq_true. intros [Ha Hs].
  rewrite decide_False by done. by rewrite IH.
Qed.

(** Bytes that travel as they are, in a path and in a query. *)
Definition path_byte (c : ascii) : bool := unreserved c || bool_decide (c = "/"%char).
Definition query_byte (c : ascii) : bool := unreserved c || bool_decide (c ∈ ["="; "&"]%char).

Lemma path_control c : path_byte c = true -> negb (is_control c) = true.
Proof. destruct c as [[] [] [] [] [] [] [] []]; vm_compute; done. Qed.
Lemma query_control c : query_byte c = true -> negb (is_control c) = true.
Proof. destruct c as [[] [] [] [] [] [] [] []]; vm_compute; done. Qed.

Lemma parse_plain p : all_bytes path_byte p = true -> parse_target p = Ok (p, ""%string).
Proof.
  intros Hp. unfold parse_target.
  rewrite (Cut_none "#") by (eapply all_bytes_lacks; [| exact Hp]; reflexivity). cbn [default].
  rewrite (all_bytes_impl _ _ p path_control Hp). cbn [negb].
  rewrite (Cut_none "?") by (eapply all_bytes_lacks; [| exact Hp]; reflexivity). cbn [default id].
  rewrite PathUnescape_id by (eapply all_bytes_lacks; [| exact Hp]; reflexivity). done.
Qed.
Lemma parse_query p q : all_bytes path_byte p = true -> all_bytes query_byte q = true ->
  parse_target (p +:+ "?" +:+ q) = Ok (p, q).
Proof.
  intros Hp Hq. unfold parse_target.
  assert (Hl : forall c, path_byte c = false -> lacks c p = true) by (intros c Hc; by eapply all_bytes_lacks).
  assert (Hm : forall c, query_byte c = false -> lacks c q = true) by (intros c Hc; by eapply all_bytes_lacks).
  rewrite (Cut_none "#") by (rewrite !lacks_app, Hl, Hm; reflexivity). cbn [default id].
  rewrite !all_bytes_app, (all_bytes_impl _ _ p path_control Hp), (all_bytes_impl _ _ q query_control Hq). cbn [negb andb all_bytes].
  change ("?" +:+ q) with (String "?"%char q). rewrite Cut_app by (by apply Hl). cbn [default id].
  by rewrite PathUnescape_id by (by apply Hl).
Qed.

(** The query of plain texts is read back. *)
Lemma QueryEscape_plain s : plain s = true -> QueryEscape s = s.
Proof.
  induction s as [|c s IH]; [done |]. unfold plain. cbn [all_bytes QueryEscape]. rewrite andb_true_iff. intros [Hc Hs].
  unfold escape_byte. rewrite Hc, (IH Hs). reflexivity.
Qed.
Definition plain_entry (p : string * string) : Prop := plain p.1 = true /\ plain p.2 = true.
Lemma query_text_Join l : Forall plain_entry l -> l <> [] ->
  forall sep, query_text sep l = sep +:+ Join (encode_pair <$> l) "&".
Proof.
  induction 1 as [|[k v] l [Hk Hv] Hl IH]; [done |]. intros _ sep. cbn [query_text fmap list_fmap].
  unfold encode_pair at 1. cbn [fst snd]. rewrite !QueryEscape_plain by done. destruct l as [|e l].
  - cbn. by rewrite str_app_nil_r.
  - rewrite IH by done. cbn [fmap list_fmap Join]. by rewrite !str_app_assoc.
Qed.
Lemma query_bytes l : Forall plain_entry l -> all_bytes query_byte (Join (encode_pair <$> l) "&") = true.
Proof.
  assert (Hq : forall s, plain s = true -> all_bytes query_byte s = true).
  { intros s. apply all_bytes_impl. intros c Hc. unfold query_byte. by rewrite Hc. }
  induction 1 as [|[k v] l [Hk Hv] Hl IH]; [done |]. cbn [fmap list_fmap].
  assert (He : all_bytes query_byte (encode_pair (k, v)) = true).
  { unfold encode_pair. cbn [fst snd]. rewrite !QueryEscape_plain, !all_bytes_app, (Hq k), (Hq v) by done. reflexivity. }
  destruct l as [|e l]; [exact He |]. cbn [fmap list_fmap Join] in *. rewrite !all_bytes_app, He, IH. reflexivity.
Qed.

Section travel.
  Context {W : Type} `{!JsonIndent}.
  Variables (base host remote apiKey : string) (server : Handler W).
#[local] Instance client : HttpClient W := loopback base host remote server.

Definition arrived (method path query : string) (body : option string) : http_request := {|
  q_Method := method; q_Path := path; q_RawQuery := query; q_RemoteAddr := remote; q_Host := host;
  q_Header := client_headers apiKey body; q_Body := body; q_BodyLimit := None; q_Context := Background |}.
(** What the agent sees of a response. *)
Definition answer_of (p : http_response) : tool_result := result_of {| cs_StatusCode := p_Status p; cs_Body := Ok (p_Body p) |}.

Lemma doRequest_arrives method target path query body w :
  parse_target target = Ok (path, query) -> HasPrefix target "/" = true -> lacks " " query = true ->
  doRequest apiKey method (base +:+ target) body w = (answer_of <$> server (arrived method path query body)) w.
Proof.
  intros Ep Hs Hq. unfold doRequest. cbn [check_request client loopback client_Do].
  unfold request_at. cbn [cr_URL cr_Method cr_Header cr_Body].
  rewrite !TrimPrefix_app, Ep, Hs. cbn [result_map].
  rewrite (proj2 (HasPrefix_spec _ _)) by (by exists target). cbn [negb orb q_RawQuery]. rewrite Hq. cbn [negb].
  unfold mbind, st_bind, fmap, st_fmap. fold (arrived method path query body).
  destruct (server _ w). reflexivity.
Qed.
Lemma plain_arrives method p body w : all_bytes path_byte p = true -> HasPrefix p "/" = true ->
  doRequest apiKey method (base +:+ p) body w = (answer_of <$> server (arrived method p "" body)) w.
Proof. intros Hp Hs. apply doRequest_arrives; [by apply parse_plain | done | done]. Qed.
End travel.

(** The query of [doGet]: its entries are found again, whatever the order in which
    they were written. *)
Lemma gather_single (l : list (string * string)) : NoDup l.*1 -> forall (m : Values), (forall k, k ∈ l.*1 -> m !! k = None) ->
  forall k, fold_left (fun m p => add_value p.1 p.2 m) l m !! k =
    match (list_to_map l : gmap string string) !! k with Some v => Some [v] | None => m !! k end.
Proof.
  induction l as [|[k v] l IH]; intros Hnd m Hm x; [done |]. cbn [fmap list_fmap fst] in Hnd.
  apply NoDup_cons in Hnd as [Hk Hnd]. cbn [fold_left fst snd list_to_map foldr uncurry]. unfold add_value at 2.
  rewrite (Hm k) by left. cbn [default app]. rewrite IH; [| done |].
  - destruct (decide (x = k)) as [->|Hx].
    + rewrite !lookup_insert_eq. by rewrite not_elem_of_list_to_map_1.
    + rewrite !lookup_insert_ne by done. reflexivity.
  - intros y Hy. rewrite lookup_insert_ne by (intros ->; done). apply Hm. by right.
Qed.
Definition plain_values (m : gmap string string) : Prop := map_Forall (fun k v => plain_entry (k, v)) m.

Section query.
  Context `{!MapOrder}.
Lemma iterate_keys (m : gmap string string) : NoDup (iterate m).*1.
Proof. rewrite iterate_perm. apply NoDup_fst_map_to_list. Qed.
Lemma iterate_plain (m : gmap string string) : plain_values m -> Forall plain_entry (iterate m).
Proof. intros Hm. rewrite iterate_perm. apply map_Forall_to_list in Hm.
  eapply Forall_impl; [exact Hm |]. by intros [k v]. Qed.
Lemma query_read (m : gmap string string) : m <> ∅ -> forall k,
  (ParseQuery (Join (encode_pair <$> iterate m) "&")).1 !! k = (fun v => [v]) <$> m !! k.
Proof.
  intros Hne k. assert (Hi : iterate m <> []).
  { intros E. apply Hne. apply map_to_list_empty_iff, Permutation_nil_r. by rewrite <- iterate_perm, E. }
  rewrite ParseQuery_pairs by done. cbn [fst]. rewrite gather_single; [| apply iterate_keys | intros x _; apply lookup_empty].
  assert (E : (list_to_map (iterate m) : gmap string string) = m).
  { symmetry. apply list_to_map_flip. symmetry. apply iterate_perm. }
  rewrite E. destruct (m !! k); [done | apply lookup_empty].
Qed.
End query.

(** ** The operation that a call spells

    The arguments as the REST API reads them: identifiers and filters that travel
    as they are, bodies as its decoder reads them. [None] for all other calls. *)
Section refinement.
  Context {W : Type} `{!Service.JobRepository W, !Service.ExecutionRepository W, !Service.TagRepository W,
    !Service.DeliveryAttemptRepository W, !Service.APIKeyRepository W, !Service.Random W, !Runtime W,
    !EventEmitter W, !CronLibrary, !NetLibrary, !MapOrder, !HealthChecker W, !ParamBinding, !FormBinding, !BodyDecoder, !TimeEncoding,
    !McpLibrary, !NumberText, !JsonIndent}.
  Variables (svc : Service.JobService) (checker : bool) (ctx : context) (base host remote apiKey : string).

(** The server behind the authentication, and the proxy in front of it. *)
Definition api : Handler W := fun r => apiRouter svc checker (WithContext ctx r).
#[local] Instance proxy_client : HttpClient W := loopback base host remote api.
Definition proxied (name : string) : option (CallToolRequest -> st W tool_result) :=
  registerProxyTools base apiKey name.

Definition sent (method path : string) (body : argument) : http_request :=
  WithContext ctx (arrived host remote apiKey method path "" (Some (any_json body))).
Definition read {B} (decode : http_request -> result err B) (method path : string) (body : argument) (f : B -> operation) : option operation :=
  match decode (sent method path body) with Ok b => Some (f b) | Err _ => None end.
Definition job_op (call : CallToolRequest) (f : string -> uuid -> option operation) : option operation :=
  match RequireString call "id" with
  | Ok s => if plain_id s then match bind_path_uuid s with Ok i => f s i | Err _ => None end else None
  | Err _ => None
  end.
Definition list_op (args : gmap string argument) : option operation :=
  let op enabled := Some (OpListJobs {|
    lj_Limit := None; lj_Offset := None; lj_Tag := None; lj_Enabled := enabled; lj_Name := any_v <$> args !! "name" |}) in
  if forallb plain (any_v <$> option_list (args !! "name")) then
    match args !! "enabled" with None => op None | Some (ABool b) => op (Some b) | Some _ => None end
  else None.
Definition spelled (name : string) (call : CallToolRequest) : option operation :=
  let args := GetArguments call in
  if String.eqb name "create-job" then read decode_CreateJob "POST" "/jobs" (create_body args) OpCreateJob
  else if String.eqb name "list-jobs" then list_op args
  else if String.eqb name "get-job" then job_op call (fun _ i => Some (OpGetJob i))
  else if String.eqb name "update-job" then
    job_op call (fun s i => read decode_UpdateJob "PATCH" ("/jobs/" +:+ s) (update_body args) (OpUpdateJob i))
  else if String.eqb name "delete-job" then job_op call (fun _ i => Some (OpDeleteJob i))
  else if String.eqb name "pause-job" then job_op call (fun _ i => Some (OpPauseJob i))
  else if String.eqb name "resume-job" then job_op call (fun _ i => Some (OpResumeJob i))
  else if String.eqb name "trigger-job" then job_op call (fun _ i => Some (OpTriggerJob i))
  else if String.eqb name "next-run" then job_op call (fun _ i => Some (OpGetNextRun i))
  else if String.eqb name "resolve-schedule" then read decode_ResolveSchedule "POST" "/schedules/resolve" (resolve_body args) OpResolveSchedule
  else None.

(** A call of a tool as an operation. *)
Definition performs (m : st W tool_result) (op : operation) : Prop := forall w, m w = (answer_of <$> handle svc ctx op) w.

Lemma plain_path s : plain s = true -> all_bytes path_byte s = true.
Proof. apply all_bytes_impl. intros c Hc. unfold path_byte. by rewrite Hc. Qed.
Lemma plain_id_spec s : plain_id s = true -> plain s = true /\ s <> ""%string.
Proof. unfold plain_id. rewrite !andb_true_iff, !negb_true_iff, !String.eqb_neq. tauto. Qed.
(** A path to a job, or to an action on it. *)
Lemma job_segments s suffix : plain_id s = true -> lacks "/" suffix = true ->
  path_segments ("/jobs/" +:+ s) = Some ["jobs"; s]%string /\
  path_segments ("/jobs/" +:+ s +:+ "/" +:+ suffix) = Some ["jobs"; s; suffix]%string.
Proof.
  intros [Hs _]%plain_id_spec Hx.
  assert (Hl : lacks "/" s = true) by (eapply all_bytes_lacks; [| exact Hs]; reflexivity).
  split.
  - change (Some (Split ("jobs" +:+ String "/"%char s) "/"%char) = Some ["jobs"; s]%string).
    rewrite Split_app by done. by rewrite Split_lacks.
  - change (Some (Split ("jobs" +:+ String "/"%char (s +:+ String "/"%char suffix)) "/"%char) = Some ["jobs"; s; suffix]%string).
    rewrite !Split_app by done. by rewrite Split_lacks.
Qed.

Definition run_target (t : target (W := W)) (id : string) : Handler W := match t with Plain f => f | WithId f => fun r => f r id end.
Lemma routed method path query body t id w : find_route (routes svc checker) method path = Some (t, id) ->
  api (arrived host remote apiKey method path query body) w =
    run_target t id (WithContext ctx (arrived host remote apiKey method path query body)) w.
Proof. intros E. unfold api, apiRouter. cbn [q_Method q_Path WithContext arrived]. rewrite E. by destruct t. Qed.

(** The routes of the tools. *)
Fixpoint find_segments (l : list (route (W := W))) (method : string) (segs : list string) : option (target * string) :=
  match l with
  | [] => None
  | rt :: l' =>
      match match_segments (rt_Path rt) segs "" with
      | Some id => if match_method method rt then Some (rt_Target rt, id) else find_segments l' method segs
      | None => find_segments l' method segs
      end
  end.
Lemma find_route_segments l method path segs : path_segments path = Some segs -> find_route l method path = find_segments l method segs.
Proof.
  intros E. induction l as [|rt l IH]; [done |]. cbn [find_route find_segments]. unfold match_path. rewrite E.
  by repeat case_match.
Qed.
Lemma job_routes s : plain_id s = true ->
  let find method suffix := find_route (routes svc checker) method ("/jobs/" +:+ s +:+ suffix) in
  find "GET" "" = Some (WithId w_GetJob, s) /\ find "PATCH" "" = Some (WithId w_UpdateJob, s) /\
  find "DELETE" "" = Some (WithId w_DeleteJob, s) /\ find "POST" "/pause" = Some (WithId w_PauseJob, s) /\
  find "POST" "/resume" = Some (WithId w_ResumeJob, s) /\ find "POST" "/trigger" = Some (WithId (w_TriggerJob svc), s) /\
  find "GET" "/next-run" = Some (WithId w_GetNextRun, s).
Proof.
  intros Hp. destruct (plain_id_spec _ Hp) as [_ Hs]. cbv beta zeta. rewrite !str_app_nil_r.
  assert (Hx : forall suffix, lacks "/" suffix = true ->
    path_segments ("/jobs/" +:+ s) = Some ["jobs"; s]%string /\
    path_segments ("/jobs/" +:+ s +:+ "/" +:+ suffix) = Some ["jobs"; s; suffix]%string) by (intros; by apply job_segments).
  rewrite !(find_route_segments _ _ _ _ (proj1 (Hx ""%string eq_refl))).
  rewrite (find_route_segments _ _ _ _ (proj2 (Hx "pause"%string eq_refl))), (find_route_segments _ _ _ _ (proj2 (Hx "resume"%string eq_refl))),
    (find_route_segments _ _ _ _ (proj2 (Hx "trigger"%string eq_refl))), (find_route_segments _ _ _ _ (proj2 (Hx "next-run"%string eq_refl))).
  destruct s as [|c s]; [done |]. split_and!; reflexivity.
Qed.

(** *** The tools on a job *)
Lemma job_op_spec call f op : job_op call f = Some op ->
  exists s i, RequireString call "id" = Ok s /\ plain_id s = true /\ bind_path_uuid s = Ok i /\ f s i = Some op.
Proof. unfold job_op. intros E. repeat case_match; simplify_eq. by eauto 10. Qed.
Lemma job_path_plain s suffix : plain_id s = true -> all_bytes path_byte suffix = true ->
  all_bytes path_byte ("/jobs/" +:+ s +:+ suffix) = true /\ HasPrefix ("/jobs/" +:+ s +:+ suffix) "/" = true.
Proof. intros [Hs _]%plain_id_spec Hx. split; [rewrite !all_bytes_app, (plain_path s Hs), Hx | ]; reflexivity. Qed.

(** A request on a job: the wrapper gets the identifier. *)
Lemma job_request method s suffix body f w : plain_id s = true -> all_bytes path_byte suffix = true ->
  find_route (routes svc checker) method ("/jobs/" +:+ s +:+ suffix) = Some (WithId f, s) ->
  doRequest apiKey method (job_url base s suffix) body w =
    (answer_of <$> f (WithContext ctx (arrived host remote apiKey method ("/jobs/" +:+ s +:+ suffix) "" body)) s) w.
Proof.
  intros Hs Hx Ef. destruct (job_path_plain s suffix Hs Hx) as [Hp Hslash]. unfold job_url.
  rewrite (plain_arrives base host remote apiKey api method _ body w Hp Hslash).
  unfold fmap, st_fmap. by rewrite (routed _ _ _ _ _ _ w Ef).
Qed.
Lemma doGet_nil url : doGet apiKey url ∅ = doRequest (W := W) apiKey "GET" url None.
Proof.
  unfold doGet. assert (iterate (∅ : gmap string string) = []) as ->.
  { apply Permutation_nil_r. rewrite iterate_perm. reflexivity. }
  cbn [query_text]. by rewrite str_app_nil_r.
Qed.
Lemma with_id_at s i (k : uuid -> st W http_response) : bind_path_uuid s = Ok i -> with_id s k = k i.
Proof. unfold with_id. by intros ->. Qed.

Lemma proxy_get_job suffix call : proxy_get (W := W) base apiKey suffix call = proxy_job base apiKey "GET" suffix call.
Proof. unfold proxy_get, proxy_job, with_job. destruct (RequireString call "id"); [apply doGet_nil | done]. Qed.

Definition reaches (method suffix : string) (f : http_request -> string -> st W http_response) : Prop :=
  all_bytes path_byte suffix = true /\
  forall s, plain_id s = true -> find_route (routes svc checker) method ("/jobs/" +:+ s +:+ suffix) = Some (WithId f, s).
Lemma job_performs call op method suffix f (mk : uuid -> operation) :
  reaches method suffix f ->
  (forall r s i, q_Context r = ctx -> bind_path_uuid s = Ok i -> f r s = handle svc ctx (mk i)) ->
  job_op call (fun _ i => Some (mk i)) = Some op -> performs (proxy_job base apiKey method suffix call) op.
Proof.
  intros [Hx Hf] Hh (s & i & Hr & Hs & Hi & [= <-])%job_op_spec w. unfold proxy_job, with_job. rewrite Hr.
  rewrite (job_request _ _ _ _ _ w Hs Hx (Hf s Hs)). rewrite (Hh _ s i) by done. done.
Qed.
Lemma update_performs call op :
  job_op call (fun s i => read decode_UpdateJob "PATCH" ("/jobs/" +:+ s) (update_body (GetArguments call)) (OpUpdateJob i)) = Some op ->
  performs (proxy_update_job base apiKey call) op.
Proof.
  intros (s & i & Hr & Hs & Hi & E)%job_op_spec w. unfold read in E. destruct (decode_UpdateJob _) as [b|] eqn:Hb; [| done].
  injection E as <-. unfold proxy_update_job, with_job, doJSON. rewrite Hr.
  rewrite (job_request "PATCH" s "" _ _ w Hs eq_refl (proj1 (proj2 (job_routes s Hs)))). rewrite str_app_nil_r.
  unfold w_UpdateJob. rewrite (with_id_at _ _ _ Hi). unfold sh_UpdateJob. fold (sent "PATCH" ("/jobs/" +:+ s) (update_body (GetArguments call))).
  by rewrite Hb.
Qed.
Lemma job_reaches : reaches "GET" "" w_GetJob /\ reaches "DELETE" "" w_DeleteJob /\ reaches "POST" "/pause" w_PauseJob /\
  reaches "POST" "/resume" w_ResumeJob /\ reaches "POST" "/trigger" (w_TriggerJob svc) /\ reaches "GET" "/next-run" w_GetNextRun.
Proof. split_and!; (split; [reflexivity |]); intros s Hs; by destruct (job_routes s Hs) as (?&?&?&?&?&?&?). Qed.

(** *** The tools with a body of their own *)
Lemma body_performs {B} (decode : http_request -> result err B) method path buildBody (f : Handler W) (mk : B -> operation) call op :
  all_bytes path_byte path = true -> HasPrefix path "/" = true ->
  find_route (routes svc checker) method path = Some (Plain f, ""%string) ->
  (forall r b, q_Context r = ctx -> decode r = Ok b -> f r = handle svc ctx (mk b)) ->
  read decode method path (buildBody (GetArguments call)) mk = Some op ->
  performs (proxyHandler base apiKey method path buildBody call) op.
Proof.
  intros Hp Hslash Hf Hh E w. unfold read in E. destruct (decode _) as [b|] eqn:Hb; [| done]. injection E as <-.
  unfold proxyHandler, doJSON. rewrite (plain_arrives base host remote apiKey api method _ _ w Hp Hslash).
  unfold fmap, st_fmap. rewrite (routed _ _ _ _ _ _ w Hf). unfold run_target. rewrite (Hh _ b) by done. done.
Qed.

(** *** The list *)
Lemma doGet_arrives path m w : all_bytes path_byte path = true -> HasPrefix path "/" = true -> plain_values m ->
  exists q, doGet apiKey (base +:+ path) m w = (answer_of <$> api (arrived host remote apiKey "GET" path q None)) w /\
    forall k, (ParseQuery q).1 !! k = (fun v => [v]) <$> m !! k.
Proof.
  intros Hp Hs Hm. destruct (decide (m = ∅)) as [->|Hne].
  - exists ""%string. rewrite doGet_nil. split; [by apply plain_arrives |]. intros k. rewrite lookup_empty. reflexivity.
  - exists (Join (encode_pair <$> iterate m) "&"). split; [| by apply query_read].
    assert (Hi : iterate m <> []).
    { intros E. apply Hne. apply map_to_list_empty_iff, Permutation_nil_r. by rewrite <- iterate_perm, E. }
    unfold doGet. rewrite query_text_Join by (by apply iterate_plain || done). rewrite str_app_assoc.
    pose proof (query_bytes _ (iterate_plain m Hm)) as Hq.
    apply doRequest_arrives; [by apply parse_query | | by eapply all_bytes_lacks; [| exact Hq]].
    apply HasPrefix_spec in Hs as [t ->]. apply HasPrefix_spec. by eexists.
Qed.
Lemma list_query_lookup args k : list_query args !! k =
  if decide (k = "name"%string) then any_v <$> args !! "name" else
  if decide (k = "enabled"%string) then any_v <$> args !! "enabled" else None.
Proof.
  unfold list_query, supplied. cbn [omap list_omap].
  destruct (args !! "name") as [n|], (args !! "enabled") as [e|]; cbn [fmap option_fmap option_map map list_to_map foldr uncurry fst snd];
    repeat case_decide; subst; rewrite ?lookup_insert_eq, ?lookup_empty; try done.
  all: repeat first [rewrite lookup_insert_ne by done | rewrite lookup_insert_eq | rewrite lookup_empty]; done.
Qed.
Lemma list_performs call op : list_op (GetArguments call) = Some op -> performs (proxy_list_jobs base apiKey call) op.
Proof.
  intros E w. set (args := GetArguments call) in *. set (m := list_query args).
  assert (Hm : plain_values m /\ exists e, op = OpListJobs {|
    lj_Limit := None; lj_Offset := None; lj_Tag := None; lj_Enabled := e; lj_Name := m !! "name" |} /\
    m !! "enabled" = (fun b : bool => if b then "true" else "false")%string <$> e).
  { unfold list_op in E. destruct (forallb _ _) eqn:Hp; [| done]. unfold m. split.
    - intros k v Hk. rewrite list_query_lookup in Hk. repeat case_decide; subst; [| | done].
      + destruct (args !! "name") as [n|]; [| done]. injection Hk as <-. cbn in Hp. rewrite andb_true_r in Hp. by split.
      + destruct (args !! "enabled") as [[]|]; try done. injection Hk as <-. split; [reflexivity |]. cbn. by destruct b.
    - rewrite !list_query_lookup. cbn [decide]. destruct (args !! "enabled") as [[]|]; try done; injection E as <-; by eexists. }
  destruct Hm as (Hm & e & -> & He).
  destruct (doGet_arrives "/jobs" m w eq_refl eq_refl Hm) as (q & Eq & Hq).
  unfold proxy_list_jobs. fold args. fold m. rewrite Eq. unfold fmap, st_fmap.
  rewrite (routed "GET" "/jobs" q None (Plain w_ListJobs) "" w eq_refl). unfold run_target, w_ListJobs, with_query.
  cbn [q_RawQuery WithContext arrived].
  assert (Hn : forall k, m !! k = None -> (ParseQuery q).1 !! k = None) by (intros k Hk; by rewrite Hq, Hk).
  rewrite !int_absent, strings_absent by (apply Hn; unfold m; by rewrite list_query_lookup).
  assert (bind_bool "enabled" q = Ok e) as ->.
  { destruct e as [b|]; [apply bool_given | apply bool_absent]; rewrite Hq, He; reflexivity. }
  assert (bind_string "name" q = Ok (m !! "name"%string)) as ->.
  { destruct (m !! "name"%string) eqn:En; [apply string_given | apply string_absent]; rewrite Hq, En; reflexivity. }
  reflexivity.
Qed.

Lemma tools_perform name call op : spelled name call = Some op -> exists h, proxied name = Some h /\ performs (h call) op.
Proof.
  unfold spelled, proxied, registerProxyTools. cbn [List.find fst]. rewrite !(String.eqb_sym _ name).
  destruct job_reaches as (R1 & R2 & R3 & R4 & R5 & R6).
  repeat (case_match; [intros E; eexists; split; [reflexivity |]; cbn [snd] |]); [.. | done].
  - eapply (body_performs decode_CreateJob _ _ _ w_CreateJob); [reflexivity | reflexivity | reflexivity | | exact E].
    intros r b Hr Hb. unfold w_CreateJob, sh_CreateJob. by rewrite Hb, Hr.
  - by apply list_performs.
  - rewrite proxy_get_job. eapply job_performs; [exact R1 | | exact E].
    intros r s i Hr Hi. unfold w_GetJob. rewrite (with_id_at _ _ _ Hi). unfold sh_GetJob. by rewrite Hr.
  - by apply update_performs.
  - eapply job_performs; [exact R2 | | exact E].
    intros r s i Hr Hi. unfold w_DeleteJob. rewrite (with_id_at _ _ _ Hi). unfold sh_DeleteJob. by rewrite Hr.
  - eapply job_performs; [exact R3 | | exact E].
    intros r s i Hr Hi. unfold w_PauseJob. rewrite (with_id_at _ _ _ Hi). unfold sh_PauseJob. by rewrite Hr.
  - eapply job_performs; [exact R4 | | exact E].
    intros r s i Hr Hi. unfold w_ResumeJob. rewrite (with_id_at _ _ _ Hi). unfold sh_ResumeJob. by rewrite Hr.
  - eapply job_performs; [exact R5 | | exact E].
    intros r s i Hr Hi. unfold w_TriggerJob. rewrite (with_id_at _ _ _ Hi). unfold sh_TriggerJob. by rewrite Hr.
  - rewrite proxy_get_job. eapply job_performs; [exact R6 | | exact E].
    intros r s i Hr Hi. unfold w_GetNextRun. rewrite (with_id_at _ _ _ Hi). unfold sh_GetNextRun. by rewrite Hr.
  - eapply (body_performs decode_ResolveSchedule _ _ _ w_ResolveSchedule); [reflexivity | reflexivity | reflexivity | | exact E].
    intros r b Hr Hb. unfold w_ResolveSchedule, sh_ResolveSchedule. by rewrite Hb.
Qed.

(** What the agent sees of the responses of the API. *)
Lemma answer_success op p : p_Status p = success_status op -> exists s, answer_of p = ToolText s.
Proof.
  intros E. unfold answer_of, result_of. cbn [cs_Body cs_StatusCode]. rewrite E.
  assert ((200 <=? success_status op)%Z && (success_status op <? 300)%Z = true) as -> by (by destruct op).
  case_match; by eexists.
Qed.
Lemma answer_failure op e : answer_of (failure op e) = ToolError
  ("API error (HTTP " +:+ Itoa (p_Status (failure op e)) +:+ "): " +:+ p_Body (failure op e)).
Proof.
  unfold answer_of, result_of. cbn [cs_Body cs_StatusCode].
  assert ((200 <=? p_Status (failure op e))%Z && (p_Status (failure op e) <? 300)%Z = false) as ->; [| done].
  unfold failure. case_bool_decide as Hd; [| reflexivity]. cbn [p_Status write_json]. apply andb_false_iff. right.
  apply Z.ltb_ge. destruct op; cbn [documented_errors] in Hd; rewrite ?elem_of_cons, ?elem_of_nil in Hd; lia.
Qed.

(** C8: a call of a tool of the proxy is the request of the job service that its
    arguments spell to the REST API: it has the same effect; a success is answered
    with a text, a failure with the status and the body that the API gives it. *)
Theorem proxy_refines_service name call op w : spelled name call = Some op ->
  exists h, proxied name = Some h /\ exec (h call) w = exec (serve svc ctx (request_for op)) w /\
  match eval (serve svc ctx (request_for op)) w with
  | Ok _ => exists s, eval (h call) w = ToolText s
  | Err e => eval (h call) w = ToolError
      ("API error (HTTP " +:+ Itoa (p_Status (failure op e)) +:+ "): " +:+ p_Body (failure op e))
  end.
Proof.
  intros (h & Hh & Hp)%tools_perform. exists h. split; [done |]. destruct (handle_agrees svc ctx op w) as [Hx Ha].
  unfold exec, eval in *. rewrite (Hp w). unfold fmap, st_fmap. destruct (handle svc ctx op w) as [p w']. cbn [fst snd] in *.
  split; [done |]. destruct (serve _ _ _ w) as [[a|e] w'']; cbn [fst] in *.
  - by apply (answer_success op).
  - rewrite Ha. apply answer_failure.
Qed.
End refinement.

(** ** Isolation

    The client sends nothing but requests to the server that carry the header of
    the request it was given: redirects within the host and repeated attempts
    included. *)
Class Bearing (W : Type) `{!Database W} (client : HttpClient W) (server : Handler W) : Prop := bearing :
  forall (I : DB -> Prop) (cr : client_request),
  (forall r, Get r "Authorization" = default "" (snd <$> List.find (fun p => String.eqb p.1 "Authorization") (cr_Header cr)) -> maintains I (server r)) ->
  maintains I (client_Do cr).

Section isolation.
  Context {W : Type} `{!Database W, !Postgres, !Runtime W, !EventEmitter W, !Service.Random W, !CronLibrary, !NetLibrary,
    !Quiet W, !MapOrder, !HealthChecker W, !ParamBinding, !BodyDecoder, !TimeEncoding, !FloatConversion,
    !McpLibrary, !NumberText, !JsonIndent}.
  Variables (svc : Service.JobService) (checker : bool) (hs : ApiProps.http_state W).
  Context `{!ApiProps.HttpApart W hs}.
  Variables (corsOrigins legacyKey base apiKey : string).
Let server : Handler W := ApiProps.rootHandler svc checker hs corsOrigins legacyKey.
  Context {client : HttpClient W} `{!Bearing W client server}.

(** A token that is no key of another namespace. *)
Definition own_token (ns : Namespace) (db0 : DB) : Prop :=
  (forall i k, api_keys db0 !! i = Some k -> k_TokenHash k = Service.HashToken apiKey -> k_Namespace k = ns) /\
  (forall ns', legacy_namespace legacyKey apiKey = Some ns' -> ns' = ns).
Lemma key_seen I h (p : pg) k : good I p -> eval (GetKeyByTokenHash h) p = Ok k ->
  exists db, I db /\ exists i, api_keys db !! i = Some k /\ k_TokenHash k = h.
Proof.
  intros Hg. unfold GetKeyByTokenHash, eval. rewrite run_tx_fst.
  destruct (run_tx_answer I (one_row (queryGetKeyByTokenHash h)) p Hg) as [[e ->]|(a & v & db & db' & HI & E & ->)].
  - unfold no_rows_as. by repeat case_match.
  - intros [= ->]. exists db. split; [done |]. apply one_row_inv in E as [rest E].
    unfold queryGetKeyByTokenHash, query in E. injection E as E _.
    assert (Hin : k ∈ filter (fun k => k_TokenHash k = h /\ k_Enabled k = true) (rows (api_keys db))) by (rewrite E; by left).
    apply list_elem_of_filter in Hin as [[Hh _] Hin]. apply elem_of_rows in Hin as [i Hi]. eauto.
Qed.
Lemma own_namespace ns db0 w : own_token ns db0 -> db_good (quarantine ns db0) w ->
  forall ns', token_namespace legacyKey apiKey w = Some ns' -> ns' = ns.
Proof.
  intros [Hown Hleg] Hw ns'. unfold token_namespace.
  destruct (eval _ _) as [k|e] eqn:E; [| apply Hleg]. destruct (k_Enabled k); [| apply Hleg]. intros [= <-].
  destruct (key_seen _ _ _ _ Hw E) as (db & [_ _ Hu] & i & Hi & Hh).
  apply dec_stable. intros Hne. apply (und_key _ _ _ Hu) in Hi; [| done]. by apply Hne, (Hown i).
Qed.
(** Requests with the header of the proxy. *)
Lemma server_keeps ns db0 r : own_token ns db0 -> Get r "Authorization" = "Bearer " +:+ apiKey -> maintains (quarantine ns db0) (server r).
Proof.
  intros Ho Ha w Hw. pose proof (ApiProps.http_isolated svc checker hs corsOrigins legacyKey r w) as Hq. cbv zeta in Hq.
  destruct (exempt (q_Path r)); [by apply Hq |]. unfold namespace_of in Hq. rewrite Ha in Hq.
  rewrite (proj2 (HasPrefix_spec _ _)), TrimPrefix_app in Hq by (by eexists). cbn [negb] in Hq.
  destruct (token_namespace legacyKey apiKey w) as [ns'|] eqn:En; [| by apply Hq].
  rewrite (own_namespace ns db0 w Ho Hw _ En) in Hq. by apply Hq.
Qed.
Lemma doRequest_keeps ns db0 method url body : own_token ns db0 -> maintains (quarantine ns db0) (doRequest apiKey method url body).
Proof.
  intros Ho. unfold doRequest. destruct (check_request method url); [| apply keeps_answer].
  apply keeps_bind; [| intros [p|e]; apply keeps_answer]. apply bearing. cbn [cr_Header]. intros r Hr. apply (server_keeps ns db0 r Ho).
  by rewrite Hr.
Qed.
Lemma with_job_keeps I call k : (forall s, maintains I (k s)) -> maintains (W := W) I (with_job call k).
Proof. intros Hk. unfold with_job. destruct (RequireString call "id"); [apply Hk | apply keeps_answer]. Qed.

(** C9: an agent behind the proxy stays in the namespace of the key of the proxy:
    whatever tool it calls with whatever arguments, the rows of all other
    namespaces are left as they were. *)
Theorem proxy_tenant_isolation ns db0 name h call w :
  own_token ns db0 -> registerProxyTools base apiKey name = Some h ->
  db_good (quarantine ns db0) w -> db_good (quarantine ns db0) (exec (h call) w).
Proof.
  intros Ho Hh. revert w. enough (maintains (quarantine ns db0) (h call)) by done. revert Hh.
  unfold registerProxyTools. cbn [List.find fst]. repeat (case_match; [intros [= <-] |]); [.. | done].
  all: unfold proxyHandler, proxy_list_jobs, proxy_get, proxy_update_job, proxy_job, doJSON, doGet.
  all: try (apply with_job_keeps; intros s).
  all: by apply doRequest_keeps.
Qed.
End isolation.

(** ** A concrete proxy

    In front of the server of [ApiProps], over the loopback client. *)
Module Sim.
Export McpProps.Sim.
#[export] Instance form_binding : ParamBinding := {|
  bind_path_uuid := bind_path_uuid (ParamBinding := sim_binding);
  bind_int n q := match (ParseQuery q).1 !! n with None => Ok None | Some _ => Err (BindFormat (EOther "not a number")) end;
  bind_bool n q :=
    match (ParseQuery q).1 !! n ≫= head with
    | None => Ok None
    | Some s => if String.eqb s "true" then Ok (Some true) else if String.eqb s "false" then Ok (Some false)
                else Err (BindFormat (EOther "not a flag"))
    end;
  bind_string n q := Ok ((ParseQuery q).1 !! n ≫= head);
  bind_strings n q := Ok ((ParseQuery q).1 !! n);
  bind_uuid _ _ := Ok None; bind_time _ _ := Ok None |}.
#[export] Instance form_binding_reads : FormBinding.
Proof.
  split; cbn [bind_int bind_bool bind_string bind_strings form_binding]; intros n q; intros; try (destruct b);
    repeat match goal with E : _ !! _ = _ |- _ => rewrite E; clear E end; reflexivity.
Qed.
#[export] Instance sim_numbers : NumberText := {| number_json _ := "0"; number_v _ := "0" |}.
#[export] Instance sim_indent : JsonIndent := {| json_Indent _ := None |}.

Definition site : string := "http://cron.example".
Definition ctx : context := as_tenant "a".
(** A call through the proxy, behind the authentication, and what it says. *)
Definition through (name : string) (args : gmap string argument) : tool_result :=
  match proxied (W := server) svc true ctx site "cron.example" "192.0.2.1:4711" token name with
  | Some h => eval (h args) fresh
  | None => ToolPanic
  end.
Definition on (id : string) : CallToolRequest (McpLibrary := sim_library) := {[ "id" := AString id ]}.
Example through_ex : map (fun c => text_of (through c.1 c.2))
  [("delete-job", on "102"); ("delete-job", on "105"); ("delete-job", on "x y"); ("pause-job", on "102/x"); ("get-job", ∅);
   ("list-jobs", {[ "name" := AString "nightly backup" ]})]%string =
  ["Operation completed successfully.";
   "error: API error (HTTP 404): {" +:+ json_string "error" +:+ ":{" +:+ json_string "code" +:+ ":" +:+ json_string "job_not_found" +:+ "," +:+
     json_string "message" +:+ ":" +:+ json_string "job not found" +:+ "}}" +:+ nl;
   "error: API error (HTTP 400): Invalid format for parameter id: not a number" +:+ nl;
   "error: API error (HTTP 404): 404 page not found" +:+ nl;
   "error: Missing required parameter: id";
   "error: API error (HTTP 400): 400 Bad Request"]%string.
Proof. vm_compute. reflexivity. Qed.

(** The whole server, reached over the loopback. *)
Definition whole : Handler server := ApiProps.rootHandler svc true hs "" "".
Definition wire : HttpClient server := loopback site "cron.example" "192.0.2.1:4711" whole.
#[export] Instance wire_bearing : Bearing server wire whole.
Proof.
  intros I cr Hs. cbn [client_Do wire loopback]. destruct (request_at _ _ _ _) as [r|e] eqn:Er; [| apply keeps_answer].
  case_match; [apply keeps_answer |]. apply preserves_fmap, Hs. unfold request_at in Er. repeat case_match; simplify_eq. done.
Qed.
Lemma keys_of_a : map_Forall (fun _ k => k_Namespace k = "a"%string) (api_keys (db_of with_key)).
Proof. apply (bool_decide_unpack _). vm_compute. exact Logic.I. Qed.
Lemma own_key : own_token "" token "a" (db_of with_key).
Proof. split; [| done]. intros i k Hk _. exact (keys_of_a i k Hk). Qed.
End Sim.
Import Sim.

Lemma proxy_refines_service_witness :
  exists h, proxied (W := server) svc true Sim.ctx site "cron.example" "192.0.2.1:4711" token "pause-job" = Some h /\
  exec (h (on "102")) fresh = exec (serve svc Sim.ctx (RPauseJob 102)) fresh.
Proof.
  assert (Hs : spelled Sim.ctx "cron.example" "192.0.2.1:4711" token "pause-job" (on "102") = Some (OpPauseJob 102)) by (vm_compute; reflexivity).
  destruct (proxy_refines_service svc true Sim.ctx site "cron.example" "192.0.2.1:4711" token "pause-job" (on "102")
    (OpPauseJob 102) fresh Hs) as (h & Hh & E & _).
  exists h. split; [exact Hh | exact E].
Defined.
Lemma proxy_tenant_isolation_witness :
  exists h, registerProxyTools (HttpClient0 := wire) site token "delete-job" = Some h /\
  text_of (eval (h (on "102")) fresh) = "Operation completed successfully."%string /\
  undisturbed "a" (db_of with_key) (pg_db (db_get (exec (h (on "102")) fresh))).
Proof.
  eexists. split; [reflexivity |]. split; [vm_compute; reflexivity |].
  exact (q_und _ _ _ (proj1 (proxy_tenant_isolation svc true hs "" "" site token "a" (db_of with_key) "delete-job" _ (on "102") fresh
    own_key eq_refl with_key_good))).
Defined.
