(* ===== verification/Webadmin.v ===== *)
(** * The admin pages: [internal/webadmin]

    Sessions ([auth.go]), signing in and first-time setup ([auth_handlers.go]),
    forms ([forms.go]), pages and actions on jobs ([job_handlers.go]), the router
    with its protections ([handler.go]), and how [cmd/cronlite/main.go] mounts it.
    The templates, [uuid.Parse] and the file of styles are parameters; a template
    is given the fields of its [pageData] that were set, in order. A failure of a
    template is logged only; log output is not modelled. *)
From S2P Require Import Prelude GoStrings GoTime GoUrl Float64 Domain Runtime Http HttpServer Cron WebhookURL Middleware.
From S2P Require ApiServer Service Config.
Import ApiServer(Lit, Id, segment, path_segments, match_segments).
Local Open Scope cron_scope.

Definition sessionCookieName : string := "cronlite_admin_session".
Definition publicCSRFCookieName : string := "cronlite_admin_public_csrf".
Definition maxAdminRequestBodySize : Z := Z.shiftl 1 20.
Definition errUnauthenticated : err := EUnauthenticated.

Class AdminSessionRepository (W : Type) : Type := {
  sessions_CreateAdminSession : AdminSession -> st W (result err unit);
  sessions_GetAdminSession : string -> time -> st W (result err (AdminSession * APIKey));
  sessions_RefreshAdminSession : string -> time -> time -> st W (result err unit);
  sessions_DeleteAdminSession : string -> st W (result err unit);
}.

(** ** Forms: [forms.go] *)
Record jobFormValues : Type := mkForm {
  f_Name : string;
  f_CronExpression : string;
  f_Timezone : string;
  f_WebhookURL : string;
  f_TimeoutSeconds : string;
  f_Tags : string;
}.
Definition zero_form : jobFormValues := mkForm "" "" "" "" "" "".

(** The lines from [lineNumber] on, with the keys met before. *)
Fixpoint parse_tag_lines (lineNumber : Z) (seen : gset string) (lines : list string) : result err (list Tag) :=
  match lines with
  | [] => Ok []
  | line :: rest =>
      let line := TrimSpace line in
      if String.eqb line "" then parse_tag_lines (lineNumber + 1) seen rest else
      let '(key, value, ok) := match Cut line "=" with Some (k, v) => (k, v, true) | None => (line, "", false) end in
      let key := TrimSpace key in
      let value := TrimSpace value in
      if negb ok || String.eqb key "" || String.eqb value "" then
        Err (EOther ("tag line " +:+ Itoa (lineNumber + 1) +:+ " must use key=value"))
      else if bool_decide (key ∈ seen) then Err (EOther ("duplicate tag key " +:+ Config.Quote key))
      else
        match parse_tag_lines (lineNumber + 1) ({[key]} ∪ seen) rest with
        | Ok tags => Ok ({| t_Key := key; t_Value := value |} :: tags)
        | Err e => Err e
        end
  end.
Definition newline : ascii := of_byte 10.
Definition parseTags (raw : string) : result err (list Tag) := parse_tag_lines 0 ∅ (Split raw newline).

(** [tagsText] of [handler.go]. *)
Definition tagsText (tags : list Tag) : string :=
  Join (map (fun t => t_Key t +:+ "=" +:+ t_Value t) tags) (String newline EmptyString).

Section form.
  Context `{!FormReader}.

(** The values are given with an error too. [parsed]: the form was read before. *)
Definition parseCommonJobForm (parsed : bool) (r : http_request) : jobFormValues * result err (duration * list Tag) :=
  match ParseForm parsed r with
  | Err _ => (zero_form, Err (EOther "invalid form submission"))
  | Ok _ =>
      let values := {|
        f_Name := TrimSpace (FormValue r "name"); f_CronExpression := TrimSpace (FormValue r "cron_expression");
        f_Timezone := TrimSpace (FormValue r "timezone"); f_WebhookURL := TrimSpace (FormValue r "webhook_url");
        f_TimeoutSeconds := TrimSpace (FormValue r "timeout_seconds"); f_Tags := FormValue r "tags" |} in
      (values,
       if String.eqb (f_Name values) "" || String.eqb (f_CronExpression values) "" || String.eqb (f_Timezone values) "" ||
          String.eqb (f_WebhookURL values) ""
       then Err (EOther "name, cron expression, timezone, and webhook URL are required")
       else match Atoi (f_TimeoutSeconds values) with
            | None => Err (EOther "timeout must be between 1 and 60 seconds")
            | Some seconds =>
                if (seconds <? 1)%Z || (60 <? seconds)%Z then Err (EOther "timeout must be between 1 and 60 seconds")
                else match parseTags (f_Tags values) with
                     | Err e => Err e
                     | Ok tags => Ok (wrap64 (seconds * Second), tags)
                     end
            end)
  end.

Definition parseCreateJobForm (parsed : bool) (r : http_request) : jobFormValues * result err Service.CreateJobInput :=
  let '(values, common) := parseCommonJobForm parsed r in
  (values,
   match common with
   | Err e => Err e
   | Ok (timeout, tags) => Ok {|
       Service.ci_Name := f_Name values; Service.ci_CronExpression := f_CronExpression values;
       Service.ci_Timezone := f_Timezone values; Service.ci_WebhookURL := f_WebhookURL values;
       Service.ci_Secret := FormValue r "webhook_secret"; Service.ci_Timeout := timeout; Service.ci_Tags := tags |}
   end).

Definition parseUpdateJobForm (parsed : bool) (r : http_request) : jobFormValues * result err Service.UpdateJobInput :=
  let '(values, common) := parseCommonJobForm parsed r in
  (values,
   match common with
   | Err e => Err e
   | Ok (timeout, tags) =>
       let secret := FormValue r "webhook_secret" in
       let clearSecret := String.eqb (FormValue r "clear_webhook_secret") "true" in
       if clearSecret && negb (String.eqb secret "") then Err (EOther "choose either a new secret or clear secret")
       else Ok {|
         Service.ui_Name := Some (f_Name values); Service.ui_CronExpression := Some (f_CronExpression values);
         Service.ui_Timezone := Some (f_Timezone values); Service.ui_WebhookURL := Some (f_WebhookURL values);
         Service.ui_Secret := if clearSecret then Some "" else if negb (String.eqb secret "") then Some secret else None;
         Service.ui_Timeout := Some timeout; Service.ui_Tags := Some tags |}
   end).
End form.

(** ** Pages: [pageData] *)
Inductive page_field : Type :=
| PTitle (s : string) | PNamespace (s : string) | PCSRFToken (s : string) | PNotice (s : string) | PError (s : string)
| PAPIKey (s : string) | PJobs (l : list JobWithSchedule) | PJob (j : Job) | PJobID (i : uuid) | PSchedule (s : Schedule)
| PTags (l : list Tag) | PExecutions (l : list Execution) | PExecution (e : Execution) | PAttempts (l : list DeliveryAttempt)
| PNextRuns (l : list time) | PForm (f : jobFormValues) | PFormName (s : string) | PEdit (b : bool) | PEnabledFilter (s : string)
| PExecutionStatusFilter (s : string) | PTriggerTypeFilter (s : string) | PPage (n : Z) | PPreviousURL (s : string)
| PNextURL (s : string) | PSetupAuthenticated (b : bool).
Definition pageData : Type := list page_field.

Class AdminAssets : Type := {
  ExecuteTemplate : string -> pageData -> string;
  admin_css : string;
  uuid_Parse : string -> result err uuid;
}.

(** ** Sessions: [auth.go] *)
Record sessionManager : Type := newSessionManager {
  m_idleTTL : duration;
  m_absoluteTTL : duration;
  m_cookieSecure : bool;
}.
Record authState : Type := mkAuth { a_Session : AdminSession; a_Key : APIKey }.

(** The tokens are compared without regard to time. *)
Definition validateCSRF (expected submitted : string) : bool :=
  if String.eqb expected "" || String.eqb submitted "" || negb (String.length expected =? String.length submitted)%nat then false
  else ConstantTimeCompare expected submitted.
Definition constantTimeEqual (expected actual : string) : bool :=
  if String.eqb expected "" || String.eqb actual "" || negb (String.length expected =? String.length actual)%nat then false
  else ConstantTimeCompare expected actual.

(** [int(math.Ceil(f))]. *)
Definition ceil_int `{!FloatConversion} (f : float64) : Z :=
  let n := to_int unspecified f in
  match SpecFloat.SFcompare (of_int n) f with Some Lt => (n + 1)%Z | _ => n end.
Definition newSessionCookie `{!FloatConversion} (rawToken : string) (now expiresAt : time) (secure : bool) : Cookie :=
  let maxAge := ceil_int (Seconds (time_sub expiresAt now)) in
  {| ck_Name := sessionCookieName; ck_Value := rawToken; ck_Path := "/admin"; ck_Expires := expiresAt;
     ck_MaxAge := if (maxAge <? 1)%Z then 1%Z else maxAge; ck_HttpOnly := true; ck_Secure := secure; ck_SameSiteStrict := true |}.
(** A cookie that the browser drops. *)
Definition cleared_cookie (name : string) (secure : bool) : Cookie :=
  {| ck_Name := name; ck_Value := ""; ck_Path := "/admin"; ck_Expires := (unix_epoch + Second)%Z; ck_MaxAge := -1;
     ck_HttpOnly := true; ck_Secure := secure; ck_SameSiteStrict := true |}.

Section admin.
  Context {W : Type} `{!Service.JobRepository W, !Service.ExecutionRepository W, !Service.TagRepository W,
    !Service.DeliveryAttemptRepository W, !Service.APIKeyRepository W, !Service.Random W, !Runtime W,
    !EventEmitter W, !CronLibrary, !NetLibrary, !FloatConversion, !KeyRepository W, !AdminSessionRepository W,
    !AdminAssets, !FormReader}.
  Variables (w : ResponseWriter W).

Definition randomToken : st W (result err string) :=
  try raw := Service.rand_Read 32 catch e => mret (Err e) in mret (Ok (hex_encode raw)).

Definition clearSessionCookie (secure : bool) : st W unit := SetCookie w (cleared_cookie sessionCookieName secure).

(** *** [sessionManager] *)
Section sessions.
  Variable m : sessionManager.

(** The session of the cookie, when there is one with a value, is deleted. *)
Definition drop_session (r : http_request) : st W (result err unit) :=
  match request_cookie r sessionCookieName with
  | Some v => if String.eqb v "" then mret (Ok tt) else sessions_DeleteAdminSession (Service.HashToken v)
  | None => mret (Ok tt)
  end.

Definition sessions_login (r : http_request) (plaintextAPIKey : string) : st W (result err APIKey) :=
  try key := GetKeyByTokenHash (Service.HashToken plaintextAPIKey) catch e =>
    mret (Err (if errors_Is e (EDomain ErrAPIKeyNotFound) then errUnauthenticated else e)) in
  if negb (k_Enabled key) then mret (Err errUnauthenticated) else
  try _ := drop_session r catch e => mret (Err e) in
  try rawSession := randomToken catch e => mret (Err e) in
  try csrfToken := randomToken catch e => mret (Err e) in
  time_Now ≫= fun now =>
  let expiresAt := time_add now (m_idleTTL m) in
  let session := {|
    as_TokenHash := Service.HashToken rawSession; as_APIKeyID := k_ID key; as_CSRFToken := csrfToken;
    as_CreatedAt := now; as_LastSeenAt := now; as_ExpiresAt := expiresAt;
    as_AbsoluteExpiresAt := time_add now (m_absoluteTTL m) |} in
  try _ := sessions_CreateAdminSession session catch e => mret (Err e) in
  SetCookie w (newSessionCookie rawSession now expiresAt (m_cookieSecure m)) ≫= fun _ =>
  mret (Ok key).

Definition refreshed (now expiresAt : time) (s : AdminSession) : AdminSession :=
  {| as_TokenHash := as_TokenHash s; as_APIKeyID := as_APIKeyID s; as_CSRFToken := as_CSRFToken s;
     as_CreatedAt := as_CreatedAt s; as_LastSeenAt := now; as_ExpiresAt := expiresAt;
     as_AbsoluteExpiresAt := as_AbsoluteExpiresAt s |}.
(** The idle time starts anew, within the life of the session. *)
Definition next_expiry (now : time) (s : AdminSession) : time :=
  let expiresAt := time_add now (m_idleTTL m) in
  if Before (as_AbsoluteExpiresAt s) expiresAt then as_AbsoluteExpiresAt s else expiresAt.

Definition authenticate (r : http_request) : st W (result err authState) :=
  match request_cookie r sessionCookieName with
  | None => mret (Err errUnauthenticated)
  | Some v =>
      if String.eqb v "" then mret (Err errUnauthenticated) else
      time_Now ≫= fun now =>
      let tokenHash := Service.HashToken v in
      try (session, key) := sessions_GetAdminSession tokenHash now catch e =>
        (if errors_Is e (EDomain ErrAdminSessionNotFound)
         then clearSessionCookie (m_cookieSecure m) ≫= fun _ => mret (Err errUnauthenticated)
         else mret (Err e)) in
      if (time_sub (as_ExpiresAt session) now <=? Z.quot (m_idleTTL m) 2)%Z then
        let expiresAt := next_expiry now session in
        try _ := sessions_RefreshAdminSession tokenHash now expiresAt catch e =>
          (clearSessionCookie (m_cookieSecure m) ≫= fun _ => mret (Err errUnauthenticated)) in
        SetCookie w (newSessionCookie v now expiresAt (m_cookieSecure m)) ≫= fun _ =>
        mret (Ok {| a_Session := refreshed now expiresAt session; a_Key := key |})
      else mret (Ok {| a_Session := session; a_Key := key |})
  end.

Definition sessions_logout (r : http_request) : st W (result err unit) :=
  try _ := drop_session r catch e => mret (Err e) in
  clearSessionCookie (m_cookieSecure m) ≫= fun _ => mret (Ok tt).
End sessions.

(** ** The handler: [handler.go] *)
Record admin : Type := mkAdmin {
  h_service : Service.JobService;
  h_sessions : sessionManager;
  h_bootstrapToken : string;
  h_cookieSecure : bool;
}.

Definition noticeText (code : string) : string :=
  if String.eqb code "created" then "Job created."
  else if String.eqb code "updated" then "Job updated."
  else if String.eqb code "deleted" then "Job deleted."
  else if String.eqb code "paused" then "Job paused."
  else if String.eqb code "resumed" then "Job resumed."
  else if String.eqb code "triggered" then "Execution queued."
  else "".
Definition isUserError (e : err) : bool :=
  let isErr d := errors_Is e (EDomain d) in
  isErr ErrInvalidCronExpression || isErr ErrInvalidTimezone || isErr ErrInvalidWebhookURL || isErr ErrJobDisabled.
Definition userErrorText (e : err) : string :=
  let isErr d := errors_Is e (EDomain d) in
  if isErr ErrInvalidCronExpression then "The cron expression is invalid."
  else if isErr ErrInvalidTimezone then "The timezone is invalid."
  else if isErr ErrInvalidWebhookURL then "The webhook URL is invalid."
  else if isErr ErrJobDisabled then "Resume this job before triggering it."
  else "The action could not be completed.".

Definition positivePage (raw : string) : Z :=
  match Atoi raw with Some page => if (page <? 1)%Z then 1%Z else page | None => 1%Z end.
Definition withPage (r : http_request) (page : Z) : string :=
  q_Path r +:+ "?" +:+ Encode (values_Set "page" (Itoa page) (Query r)).
Definition paginationURLs (r : http_request) (page : Z) (hasNext : bool) : string * string :=
  (if (1 <? page)%Z then withPage r (page - 1) else "", if hasNext then withPage r (wrap64 (page + 1)) else "").

Definition render (name : string) (data : pageData) : st W unit :=
  Header_Set w "Content-Type" "text/html; charset=utf-8" ≫= fun _ => Write w (ExecuteTemplate name data).
Definition renderStatus (name : string) (data : pageData) (status : Z) : st W unit :=
  Header_Set w "Content-Type" "text/html; charset=utf-8" ≫= fun _ => WriteHeader w status ≫= fun _ => render name data.
Definition internalError (e : err) : st W unit :=
  randomToken ≫= fun t =>
  let id := match t with Ok s => take_bytes 24 s | Err _ => "unavailable" end in
  renderStatus "error" [PTitle "Something went wrong"; PError id] 500.
Definition handleServiceError (e : err) : st W unit :=
  if errors_Is e (EDomain ErrJobNotFound) || errors_Is e (EDomain ErrExecutionNotFound)
  then renderStatus "error" [PTitle "Not found"; PError "The requested item does not exist."] 404
  else if isUserError e then renderStatus "error" [PTitle "Action unavailable"; PError (userErrorText e)] 409
  else internalError e.

(** The path value, and what goes on with it. *)
Definition pathUUID (raw : string) (k : uuid -> st W unit) : st W unit :=
  match uuid_Parse raw with Ok i => k i | Err _ => NotFound w end.

Section handler.
  Variable h : admin.

Definition issuePublicCSRF : st W string :=
  try token := randomToken catch e => mret "" in
  SetCookie w {| ck_Name := publicCSRFCookieName; ck_Value := token; ck_Path := "/admin"; ck_Expires := 0; ck_MaxAge := 0;
                 ck_HttpOnly := true; ck_Secure := h_cookieSecure h; ck_SameSiteStrict := true |} ≫= fun _ =>
  mret token.
Definition validPublicCSRF (r : http_request) : bool :=
  match request_cookie r publicCSRFCookieName with
  | Some v => validateCSRF v (FormValue r "csrf_token")
  | None => false
  end.
Definition clearPublicCSRF : st W unit := SetCookie w (cleared_cookie publicCSRFCookieName (h_cookieSecure h)).

Definition renderPublicForm (name : string) (data : pageData) : st W unit :=
  issuePublicCSRF ≫= fun token =>
  Header_Set w "Cache-Control" "no-store" ≫= fun _ =>
  render name (data ++ [PCSRFToken token]).

(** What goes on with the session, and with the request in its namespace. *)
Definition requireAuth (r : http_request) (k : authState -> http_request -> st W unit) : st W unit :=
  authenticate (h_sessions h) r ≫= fun a =>
  match a with
  | Err e => if errors_Is e errUnauthenticated then Redirect w r "/admin/login" 303 else internalError e
  | Ok auth => k auth (WithContext (NamespaceToContext (q_Context r) (k_Namespace (a_Key auth))) r)
  end.
Definition requireMutation (r : http_request) (k : authState -> http_request -> st W unit) : st W unit :=
  requireAuth r (fun auth r =>
  if negb (validateCSRF (as_CSRFToken (a_Session auth)) (FormValue r "csrf_token"))
  then reply w (http_Error "invalid CSRF token" 403)
  else k auth r).
Definition authPage (auth : authState) (title : string) : pageData :=
  [PTitle title; PNamespace (k_Namespace (a_Key auth)); PCSRFToken (as_CSRFToken (a_Session auth))].

(** *** Signing in, setup, signing out: [auth_handlers.go] *)
Definition loginPage (r : http_request) : st W unit :=
  try hasKeys := Service.HasAnyAPIKeys catch e => internalError e in
  if negb hasKeys then Redirect w r "/admin/setup" 303 else
  authenticate (h_sessions h) r ≫= fun a =>
  match a with
  | Ok _ => Redirect w r "/admin/jobs" 303
  | Err _ => renderPublicForm "login" [PTitle "Sign in"]
  end.

(** A public form again, with an error. *)
Definition refuse (name title message : string) (status : Z) : st W unit :=
  issuePublicCSRF ≫= fun token => renderStatus name [PTitle title; PError message; PCSRFToken token] status.

Definition login (r : http_request) : st W unit :=
  if negb (validPublicCSRF r) then refuse "login" "Sign in" "The form expired. Please try again." 403 else
  try _ := sessions_login (h_sessions h) r (FormValue r "api_key") catch e =>
    (if errors_Is e errUnauthenticated then refuse "login" "Sign in" "Invalid API key." 401 else internalError e) in
  clearPublicCSRF ≫= fun _ =>
  Redirect w r "/admin/jobs" 303.

Definition setupPage (r : http_request) : st W unit :=
  try hasKeys := Service.HasAnyAPIKeys catch e => internalError e in
  if hasKeys : bool then Redirect w r "/admin/login" 303 else
  renderPublicForm "setup" (PTitle "Set up CronLite" ::
    (if String.eqb (h_bootstrapToken h) "" then [PError "Set ADMIN_BOOTSTRAP_TOKEN and restart CronLite before continuing."] else [])).

Definition setup (r : http_request) : st W unit :=
  try hasKeys := Service.HasAnyAPIKeys catch e => internalError e in
  if hasKeys : bool then Redirect w r "/admin/login" 303 else
  if negb (validPublicCSRF r) then refuse "setup" "Set up CronLite" "The form expired. Please try again." 403 else
  if String.eqb (h_bootstrapToken h) "" || negb (constantTimeEqual (h_bootstrapToken h) (FormValue r "bootstrap_token"))
  then refuse "setup" "Set up CronLite" "Invalid installation token." 401 else
  let namespace := TrimSpace (FormValue r "namespace") in
  let label := TrimSpace (FormValue r "label") in
  if String.eqb namespace "" || String.eqb label ""
  then refuse "setup" "Set up CronLite" "Namespace and key label are required." 422 else
  try result := Service.BootstrapFirstAPIKey namespace label catch e =>
    (if errors_Is e (EDomain ErrBootstrapAlreadyCompleted) then Redirect w r "/admin/login" 303 else internalError e) in
  sessions_login (h_sessions h) r (Service.kr_PlaintextToken result) ≫= fun signed_in =>
  clearPublicCSRF ≫= fun _ =>
  Header_Set w "Cache-Control" "no-store" ≫= fun _ =>
  renderStatus "setup_complete"
    [PTitle "Setup complete"; PNamespace (k_Namespace (Service.kr_Key result)); PAPIKey (Service.kr_PlaintextToken result);
     match signed_in with
     | Ok _ => PSetupAuthenticated true
     | Err _ => PNotice "Automatic sign-in was unavailable. Save this key, then sign in with it."
     end] 200.

Definition logout (r : http_request) : st W unit :=
  requireAuth r (fun auth r =>
  if negb (validateCSRF (as_CSRFToken (a_Session auth)) (FormValue r "csrf_token"))
  then reply w (http_Error "invalid CSRF token" 403) else
  try _ := sessions_logout (h_sessions h) r catch e => internalError e in
  Header_Set w "Clear-Site-Data" (quote +:+ "cache" +:+ quote) ≫= fun _ =>
  Redirect w r "/admin/login" 303).

(** *** Jobs and executions: [job_handlers.go] *)
Definition pageSize : nat := 25.

Definition jobsPage (r : http_request) : st W unit :=
  requireAuth r (fun auth r =>
  let q := values_Get (Query r) in
  let page := positivePage (q "page") in
  let filter := {|
    jf_Namespace := k_Namespace (a_Key auth); jf_Tags := [];
    jf_Enabled := if String.eqb (q "enabled") "true" then Some true else if String.eqb (q "enabled") "false" then Some false else None;
    jf_Name := TrimSpace (q "name");
    jf_ListParams := {| lp_Limit := Z.of_nat pageSize + 1; lp_Offset := wrap64 ((page - 1) * Z.of_nat pageSize) |} |} in
  try jobs := Service.ListJobsWithSchedules (q_Context r) filter catch e => internalError e in
  let hasNext := (pageSize <? length jobs)%nat in
  let '(previous, next) := paginationURLs r page hasNext in
  render "jobs" (authPage auth "Jobs" ++
    [PJobs (if hasNext then take pageSize jobs else jobs); PPage page; PFormName (jf_Name filter); PEnabledFilter (q "enabled");
     PNotice (noticeText (q "notice")); PPreviousURL previous; PNextURL next])).

Definition createJobPage (r : http_request) : st W unit :=
  requireAuth r (fun auth r =>
  render "job_form" (authPage auth "Create job" ++ [PForm (mkForm "" "" "UTC" "" "30" "")])).

Definition job_path (i : uuid) (notice : string) : string := "/admin/jobs/" +:+ uuid_String i +:+ "?notice=" +:+ notice.

Definition createJob (r : http_request) : st W unit :=
  requireMutation r (fun auth r =>
  let '(values, input) := parseCreateJobForm true r in
  let again message := renderStatus "job_form" (authPage auth "Create job" ++ [PForm values; PError message]) 422 in
  match input with
  | Err e => again (Error e)
  | Ok input =>
      try (job, _) := Service.CreateJob (q_Context r) input catch e =>
        (if isUserError e then again (userErrorText e) else internalError e) in
      Redirect w r (job_path (j_ID job) "created") 303
  end).

Definition jobPage (r : http_request) (raw : string) : st W unit :=
  requireAuth r (fun auth r =>
  pathUUID raw (fun i =>
  try (job, schedule, tags, _) := Service.GetJob (q_Context r) i catch e => handleServiceError e in
  let q := values_Get (Query r) in
  let page := positivePage (q "page") in
  let given v := if String.eqb v "" then None else Some v in
  let filter := {|
    ef_JobID := i; ef_Namespace := k_Namespace (a_Key auth); ef_Status := given (q "status"); ef_TriggerType := given (q "trigger_type");
    ef_Since := None; ef_Until := None;
    ef_ListParams := {| lp_Limit := 26; lp_Offset := wrap64 ((page - 1) * 25) |} |} in
  try executions := Service.ListExecutions (q_Context r) filter catch e => internalError e in
  Service.GetNextRunTime (q_Context r) i ≫= fun next =>
  match (match next with
         | Ok (_, runs, _) => Ok runs
         | Err e => if errors_Is e (EDomain ErrJobDisabled) then Ok [] else Err e
         end) with
  | Err e => internalError e
  | Ok nextRuns =>
      let more := (25 <? length executions)%nat in
      render "job_detail" (authPage auth (j_Name job) ++
        [PJob job; PSchedule schedule; PTags tags; PNotice (noticeText (q "notice")); PNextRuns nextRuns;
         PExecutionStatusFilter (q "status"); PTriggerTypeFilter (q "trigger_type")] ++
        (if more then [PNextURL (withPage r (wrap64 (page + 1)))] else []) ++
        (if (1 <? page)%Z then [PPreviousURL (withPage r (page - 1))] else []) ++
        [PExecutions (if more then take 25 executions else executions)])
  end)).

(** The form of a job as it is. *)
Definition form_of (job : Job) (schedule : Schedule) (tags : list Tag) : jobFormValues := {|
  f_Name := j_Name job; f_CronExpression := s_CronExpression schedule; f_Timezone := s_Timezone schedule;
  f_WebhookURL := d_WebhookURL (j_Delivery job);
  f_TimeoutSeconds := Itoa (to_int unspecified (Seconds (d_Timeout (j_Delivery job)))); f_Tags := tagsText tags |}.
Definition editJobPage (r : http_request) (raw : string) : st W unit :=
  requireAuth r (fun auth r =>
  pathUUID raw (fun i =>
  try (job, schedule, tags, _) := Service.GetJob (q_Context r) i catch e => handleServiceError e in
  render "job_form" (authPage auth ("Edit " +:+ j_Name job) ++ [PJob job; PEdit true; PForm (form_of job schedule tags)]))).

Definition editJob (r : http_request) (raw : string) : st W unit :=
  requireMutation r (fun auth r =>
  pathUUID raw (fun i =>
  let '(values, input) := parseUpdateJobForm true r in
  let again message :=
    renderStatus "job_form" (authPage auth "Edit job" ++ [PJobID i; PEdit true; PForm values; PError message]) 422 in
  match input with
  | Err e => again (Error e)
  | Ok input =>
      try _ := Service.UpdateJob (q_Context r) i input catch e =>
        (if isUserError e then again (userErrorText e) else handleServiceError e) in
      Redirect w r (job_path i "updated") 303
  end)).

Definition deleteJobPage (r : http_request) (raw : string) : st W unit :=
  requireAuth r (fun auth r =>
  pathUUID raw (fun i =>
  try (job, schedule, _, _) := Service.GetJob (q_Context r) i catch e => handleServiceError e in
  render "delete_job" (authPage auth ("Delete " +:+ j_Name job) ++ [PJob job; PSchedule schedule]))).

Definition deleteJob (r : http_request) (raw : string) : st W unit :=
  requireMutation r (fun _ r =>
  pathUUID raw (fun i =>
  try _ := Service.DeleteJob (q_Context r) i catch e => handleServiceError e in
  Redirect w r "/admin/jobs?notice=deleted" 303)).

Definition jobAction {A} (notice : string) (action : context -> uuid -> st W (result err A)) (r : http_request) (raw : string) : st W unit :=
  requireMutation r (fun _ r =>
  pathUUID raw (fun i =>
  try _ := action (q_Context r) i catch e => handleServiceError e in
  Redirect w r (job_path i notice) 303)).
Definition pauseJob : http_request -> string -> st W unit := jobAction "paused" Service.PauseJob.
Definition resumeJob : http_request -> string -> st W unit := jobAction "resumed" Service.ResumeJob.
Definition triggerJob : http_request -> string -> st W unit := jobAction "triggered" (Service.TriggerNow (h_service h)).

Definition executionPage (r : http_request) (raw : string) : st W unit :=
  requireAuth r (fun auth r =>
  pathUUID raw (fun i =>
  try (execution, attempts) := Service.GetExecution (q_Context r) i catch e => handleServiceError e in
  render "execution" (authPage auth ("Execution " +:+ uuid_String (e_ID execution)) ++ [PExecution execution; PAttempts attempts]))).

(** *** The router *)
Definition serveCSS (_ : http_request) : st W unit :=
  Header_Set w "Content-Type" "text/css; charset=utf-8" ≫= fun _ =>
  Header_Set w "Cache-Control" "public, max-age=86400" ≫= fun _ =>
  Write w admin_css.
Definition adminRoot (r : http_request) : st W unit :=
  if negb (String.eqb (q_Path r) "/admin") && negb (String.eqb (q_Path r) "/admin/") then NotFound w
  else Redirect w r "/admin/jobs" 307.

Inductive page : Type := Plain (f : http_request -> st W unit) | WithId (f : http_request -> string -> st W unit).

(** The patterns; where two of them match, the more specific one comes first. The
    pattern ["GET /admin/"], which every path below fits, is apart. *)
Definition routes : list (string * list segment * page) :=
  let a l := Lit "admin" :: l in [
  ("GET", a [Lit "assets"; Lit "admin.css"], Plain serveCSS);
  ("GET", a [Lit "login"], Plain loginPage);
  ("POST", a [Lit "login"], Plain login);
  ("GET", a [Lit "setup"], Plain setupPage);
  ("POST", a [Lit "setup"], Plain setup);
  ("POST", a [Lit "logout"], Plain logout);
  ("GET", a [Lit "jobs"], Plain jobsPage);
  ("GET", a [Lit "jobs"; Lit "new"], Plain createJobPage);
  ("POST", a [Lit "jobs"; Lit "new"], Plain createJob);
  ("GET", a [Lit "jobs"; Id], WithId jobPage);
  ("GET", a [Lit "jobs"; Id; Lit "edit"], WithId editJobPage);
  ("POST", a [Lit "jobs"; Id; Lit "edit"], WithId editJob);
  ("GET", a [Lit "jobs"; Id; Lit "delete"], WithId deleteJobPage);
  ("POST", a [Lit "jobs"; Id; Lit "delete"], WithId deleteJob);
  ("POST", a [Lit "jobs"; Id; Lit "pause"], WithId pauseJob);
  ("POST", a [Lit "jobs"; Id; Lit "resume"], WithId resumeJob);
  ("POST", a [Lit "jobs"; Id; Lit "trigger"], WithId triggerJob);
  ("GET", a [Lit "executions"; Id], WithId executionPage);
  ("GET", [Lit "admin"], Plain adminRoot)
].
Definition fits (path : string) (pat : list segment) : option string :=
  match path_segments path with Some segs => match_segments pat segs "" | None => None end.
Definition serves (pattern method : string) : bool :=
  String.eqb pattern method || (String.eqb pattern "GET" && String.eqb method "HEAD").
Fixpoint find_page (l : list (string * list segment * page)) (method path : string) : option (page * string) :=
  match l with
  | [] => None
  | (m, pat, p) :: l' =>
      match fits path pat with
      | Some id => if serves m method then Some (p, id) else find_page l' method path
      | None => find_page l' method path
      end
  end.
(** The methods that the patterns for a path have; every path below [/admin/] fits
    a pattern for GET. *)
Definition allowed (path : string) : string :=
  let fitting := List.filter (fun p => bool_decide (is_Some (fits path p.1.2))) routes in
  if bool_decide ("POST" ∈ map (fun p => p.1.1) fitting) then "GET, HEAD, POST" else "GET, HEAD".
Definition mux (r : http_request) : st W unit :=
  match find_page routes (q_Method r) (q_Path r) with
  | Some (Plain f, _) => f r
  | Some (WithId f, id) => f r id
  | None =>
      if negb (String.eqb (q_Path r) "/admin" || HasPrefix (q_Path r) "/admin/") then NotFound w
      else if serves "GET" (q_Method r) then adminRoot r
      else reply w (with_headers [("Allow", allowed (q_Path r))] (http_Error "Method Not Allowed" 405))
  end.

(** *** What stands in front *)
Definition limitAdminFormBodies (next : http_request -> st W unit) (r : http_request) : st W unit :=
  if String.eqb (q_Method r) "POST" && (maxAdminRequestBodySize <? Z.of_nat (String.length (default "" (q_Body r))))%Z
  then reply w (http_Error "request body too large" 413)
  else next r.

Definition security_headers (secure : bool) : list (string * string) :=
  [("Content-Security-Policy", "default-src 'self'; script-src 'none'; style-src 'self'; img-src 'self'; font-src 'self'; connect-src 'none'; object-src 'none'; base-uri 'none'; form-action 'self'; frame-ancestors 'none'");
   ("X-Content-Type-Options", "nosniff"); ("Referrer-Policy", "no-referrer"); ("X-Frame-Options", "DENY");
   ("Permissions-Policy", "camera=(), microphone=(), geolocation=()"); ("Cross-Origin-Opener-Policy", "same-origin");
   ("Cross-Origin-Resource-Policy", "same-origin")] ++
  (if secure then [("Strict-Transport-Security", "max-age=31536000")] else []) ++
  [("Cache-Control", "no-store")].
(** Around a handler that answers. *)
Definition SecurityHeaders (next : Handler W) (secure : bool) : Handler W := fun r =>
  with_headers (security_headers secure) <$> next r.

Definition protected : Handler W :=
  SecurityHeaders (ServeHTTP w (crossOriginHandler w (limitAdminFormBodies mux))) (h_cookieSecure h).
End handler.

(** The configuration of [NewHandler], whose service, sessions and keys are given. *)
Record settings : Type := mkSettings {
  g_Service : Service.JobService;
  g_BootstrapToken : string;
  g_SessionTTL : duration;
  g_SessionAbsoluteTTL : duration;
  g_CookieSecure : bool;
}.
Definition NewHandler (cfg : settings) : result err (Handler W) :=
  if (g_SessionTTL cfg <=? 0)%Z then Err (EOther "webadmin session TTL must be positive")
  else if (g_SessionAbsoluteTTL cfg <=? 0)%Z then Err (EOther "webadmin absolute session TTL must be positive")
  else if (g_SessionAbsoluteTTL cfg <? g_SessionTTL cfg)%Z then
    Err (EOther "webadmin absolute session TTL must be at least the idle session TTL")
  else Ok (protected {|
    h_service := g_Service cfg;
    h_sessions := newSessionManager (g_SessionTTL cfg) (g_SessionAbsoluteTTL cfg) (g_CookieSecure cfg);
    h_bootstrapToken := g_BootstrapToken cfg; h_cookieSecure := g_CookieSecure cfg |}).

(** *** [cmd/cronlite/main.go] *)
Definition newWebAdminConfig (cfg : Config.Config) (jobService : Service.JobService) : settings := {|
  g_Service := jobService; g_BootstrapToken := Config.AdminBootstrapToken cfg; g_SessionTTL := Config.AdminSessionTTL cfg;
  g_SessionAbsoluteTTL := Config.AdminSessionAbsoluteTTL cfg; g_CookieSecure := Config.AdminCookieSecure cfg |}.
(** What [registerAdminRoutes] mounts at [/admin] and below. *)
Definition adminMount (limiter : cell W ipRateLimiter) (handler : Handler W) (secure : bool) : Handler W :=
  SecurityHeaders (RateLimitMiddleware limiter handler) secure.
Definition adminHandler (limiter : cell W ipRateLimiter) (cfg : Config.Config) (jobService : Service.JobService) : result err (Handler W) :=
  match NewHandler (newWebAdminConfig cfg jobService) with
  | Err e => Err e
  | Ok handler => Ok (adminMount limiter handler (Config.AdminCookieSecure cfg))
  end.
End admin.
