(* ===== verification/WebadminForms.v ===== *)
(** * Forms and links of the admin pages

    A job that is edited without a change keeps its data: the form shows it, the
    browser sends it back, and the parser reads it again. The links between pages
    keep the filters. *)
From S2P Require Import Prelude GoStrings GoUrl Float64 Domain Runtime Http HttpServer Cron WebhookURL Middleware Webadmin.
From S2P Require Service.
Local Open Scope cron_scope.

(** ** Trimming *)
Definition carriage_return : ascii := of_byte 13.

Lemma trim_left_length s : trim_left s = s \/ String.length (trim_left s) < String.length s.
Proof. induction s as [|c s IH]; [by left |]. cbn. case_match; [right | by left]. destruct IH as [->|]; lia. Qed.
Lemma trim_right_length s : String.length (trim_right s) <= String.length s.
Proof. induction s as [|c s IH]; [done |]. cbn. destruct (trim_right s); [case_match |]; cbn in *; lia. Qed.
Lemma trimmed_both s : TrimSpace s = s -> trim_left s = s /\ trim_right s = s.
Proof.
  unfold TrimSpace. intros E. destruct (trim_left_length s) as [El|Hl]; [by rewrite El in E |].
  pose proof (trim_right_length (trim_left s)). rewrite E in *. lia.
Qed.
Lemma trim_left_app s t : trim_left s = s -> s <> EmptyString -> trim_left (s +:+ t) = s +:+ t.
Proof.
  destruct s as [|c s]; [done |]. intros E _. rewrite str_app_cons. cbn in E |- *. destruct (is_space c); [| done].
  destruct (trim_left_length s) as [El|Hl]; [rewrite El in E | rewrite E in Hl; cbn in Hl; lia].
  apply (f_equal String.length) in E. cbn in E. lia.
Qed.
Lemma trim_right_app s t : trim_right t = t -> t <> EmptyString -> trim_right (s +:+ t) = s +:+ t.
Proof.
  intros E Ht. induction s as [|c s IH]; [by rewrite str_app_nil_l |]. rewrite str_app_cons. cbn. rewrite IH.
  destruct (s +:+ t) eqn:Est; [| done]. destruct s; [by rewrite str_app_nil_l in Est | done].
Qed.
Lemma trim_right_space s c : is_space c = true -> trim_right (s +:+ String c EmptyString) = trim_right s.
Proof.
  intros Hc. induction s as [|a s IH]; [rewrite str_app_nil_l; cbn; by rewrite Hc |]. rewrite str_app_cons. cbn. by rewrite IH.
Qed.

Lemma trim_right_idemp s : trim_right (trim_right s) = trim_right s.
Proof.
  induction s as [|c s IH]; [done |]. cbn. destruct (trim_right s) as [|d t] eqn:E.
  - destruct (is_space c) eqn:Ec; [done |]. cbn. by rewrite Ec.
  - cbn in IH |- *. by rewrite IH.
Qed.
Lemma trim_left_idemp s : trim_left (trim_left s) = trim_left s.
Proof. induction s as [|c s IH]; [done |]. cbn. destruct (is_space c) eqn:Ec; [done |]. cbn. by rewrite Ec. Qed.
Lemma trim_left_right s : trim_left s = s -> trim_left (trim_right s) = trim_right s.
Proof.
  destruct s as [|c s]; [done |]. cbn. destruct (is_space c) eqn:Ec.
  - intros E. destruct (trim_left_length s) as [El|Hl]; [rewrite El in E | rewrite E in Hl; cbn in Hl; lia].
    apply (f_equal String.length) in E. cbn in E. lia.
  - intros _. destruct (trim_right s); cbn; by rewrite Ec.
Qed.
Lemma TrimSpace_idemp s : TrimSpace (TrimSpace s) = TrimSpace s.
Proof. unfold TrimSpace. by rewrite trim_left_right, trim_right_idemp by apply trim_left_idemp. Qed.
Lemma TrimSpace_lacks c s : lacks c s = true -> lacks c (TrimSpace s) = true.
Proof.
  intros Hs. unfold TrimSpace. assert (Hl : lacks c (trim_left s) = true).
  { induction s as [|a s IH]; [done |]. cbn in *. destruct (is_space a); [| done]. by apply andb_true_iff in Hs as [_ Hs]; auto. }
  revert Hl. generalize (trim_left s) as t. clear. intros t. induction t as [|a t IH]; [done |]. cbn.
  intros [Ha Ht]%andb_true_iff. specialize (IH Ht). destruct (trim_right t).
  - destruct (is_space a); cbn; [done | by rewrite Ha].
  - cbn. by rewrite Ha.
Qed.

(** ** The tags of a form *)
Definition tag_line (t : Tag) : string := t_Key t +:+ "=" +:+ t_Value t.
(** Tags that the lines of a form can spell. *)
Record clean_tag (t : Tag) : Prop := {
  ct_key : t_Key t <> ""%string /\ TrimSpace (t_Key t) = t_Key t /\ lacks "=" (t_Key t) = true /\ lacks newline (t_Key t) = true;
  ct_value : t_Value t <> ""%string /\ TrimSpace (t_Value t) = t_Value t /\ lacks newline (t_Value t) = true;
}.

Lemma tag_line_trimmed t s : clean_tag t -> s = ""%string \/ s = String carriage_return "" -> TrimSpace (tag_line t +:+ s) = tag_line t.
Proof.
  intros [(K1 & K2 & _) (V1 & V2 & _)] Hs. apply trimmed_both in K2 as [K2 _], V2 as [_ V2]. unfold TrimSpace.
  assert (El : trim_left (tag_line t) = tag_line t) by by apply trim_left_app.
  assert (Er : trim_right (tag_line t) = tag_line t) by (unfold tag_line; rewrite <- str_app_assoc; by apply trim_right_app).
  assert (Hne : tag_line t <> ""%string) by (unfold tag_line; by destruct (t_Key t)).
  rewrite trim_left_app by done. destruct Hs as [->| ->]; [by rewrite str_app_nil_r | by rewrite trim_right_space].
Qed.

Lemma parse_lines (tags : list Tag) : forall n seen lines,
  Forall2 (fun t line => clean_tag t /\ TrimSpace line = tag_line t) tags lines ->
  NoDup (t_Key <$> tags) -> (forall t, t ∈ tags -> t_Key t ∉ seen) ->
  parse_tag_lines n seen lines = Ok tags.
Proof.
  induction tags as [|t tags IH]; intros n seen lines Hl Hnd Hs; inversion Hl as [|? line ? rest [Ht Hline] Hrest]; subst; [done |].
  cbn [parse_tag_lines]. rewrite Hline. pose proof Ht as [(K1 & K2 & K3 & K4) (V1 & V2 & V3)].
  assert (Hne : String.eqb (tag_line t) "" = false).
  { apply String.eqb_neq. unfold tag_line. by destruct (t_Key t). }
  rewrite Hne. unfold tag_line at 1. change ("=" +:+ t_Value t) with (String "=" (t_Value t)). rewrite Cut_app by done.
  rewrite K2, V2. apply String.eqb_neq in K1 as ->, V1 as ->. cbn [negb orb].
  cbn [fmap list_fmap] in Hnd. apply NoDup_cons in Hnd as [Hn Hnd].
  rewrite bool_decide_false by (apply Hs; by left).
  rewrite (IH _ _ _ Hrest Hnd); [by destruct t |].
  intros t' Ht'. rewrite not_elem_of_union, not_elem_of_singleton. split; [| apply Hs; by right].
  intros E. apply Hn. rewrite <- E. by apply list_elem_of_fmap_2.
Qed.

Lemma Split_pieces c s : Forall (fun p => lacks c p = true) (Split s c).
Proof.
  induction s as [|a s IH]; [by repeat constructor |]. rewrite Split_cons. case_decide as Ha; [by constructor |].
  destruct IH as [|p ps Hp Hps]; (constructor; [| done]); cbn; rewrite bool_decide_true by done; [done | exact Hp].
Qed.
(** What the lines of a form spell is always of that form. *)
Lemma parse_lines_clean lines : forall n seen tags,
  Forall (fun p => lacks newline p = true) lines -> parse_tag_lines n seen lines = Ok tags ->
  Forall clean_tag tags /\ NoDup (t_Key <$> tags) /\ Forall (fun t => t_Key t ∉ seen) tags.
Proof.
  induction lines as [|line lines IH]; intros n seen tags Hn E; cbn [parse_tag_lines] in E.
  { injection E as <-. split_and!; constructor. }
  apply Forall_cons in Hn as [Hline Hn]. destruct (String.eqb _ "") in E; [by eapply IH |].
  apply TrimSpace_lacks in Hline. destruct (Cut (TrimSpace line) "=") as [[k v]|] eqn:Ec; [| done].
  apply Cut_Some in Ec as [Ec Hk]. rewrite Ec, lacks_app in Hline. apply andb_true_iff in Hline as [Hkn Hvn].
  cbn [negb orb] in E. destruct (String.eqb (TrimSpace k) "") eqn:Ek; [done |]. destruct (String.eqb (TrimSpace v) "") eqn:Ev; [done |].
  apply String.eqb_neq in Ek, Ev. case_bool_decide as Hseen; [done |]. cbn [orb] in E.
  destruct (parse_tag_lines _ _ lines) as [tags'|] eqn:Et; [| done]. injection E as <-.
  destruct (IH _ _ _ Hn Et) as (H1 & H2 & H3). rewrite Forall_forall in H3. split_and!.
  - constructor; [| done]. cbn in Hvn. split; cbn [t_Key t_Value]; rewrite TrimSpace_idemp; split_and!; try done; apply TrimSpace_lacks; done.
  - cbn. constructor; [| done]. intros (t & E & Ht)%list_elem_of_fmap. apply (H3 t Ht). rewrite <- E. set_solver.
  - constructor; [done |]. apply Forall_forall. intros t Ht Hin. apply (H3 t Ht). set_solver.
Qed.
Lemma parseTags_clean raw tags : parseTags raw = Ok tags -> Forall clean_tag tags /\ NoDup (t_Key <$> tags).
Proof. intros E. by destruct (parse_lines_clean _ _ _ _ (Split_pieces _ _) E) as (? & ? & _). Qed.

(** What a browser makes of the line ends of a text. *)
Fixpoint crlf (s : string) : string :=
  match s with
  | EmptyString => EmptyString
  | String c s' => if decide (c = newline) then String carriage_return (String newline (crlf s')) else String c (crlf s')
  end.
Fixpoint with_cr (l : list string) : list string :=
  match l with
  | [] => []
  | [s] => [s]
  | s :: l' => (s +:+ String carriage_return "") :: with_cr l'
  end.

Lemma crlf_cons c s : crlf (String c s) =
  if decide (c = newline) then String carriage_return (String newline (crlf s)) else String c (crlf s).
Proof. done. Qed.
Lemma crlf_app s t : crlf (s +:+ t) = crlf s +:+ crlf t.
Proof. induction s as [|c s IH]; [done |]. rewrite str_app_cons, !crlf_cons, IH. by case_decide. Qed.
Lemma crlf_lacks s : lacks newline s = true -> crlf s = s.
Proof.
  induction s as [|c s IH]; [done |]. intros [Hc%bool_decide_eq_true Hs]%andb_true_iff. by rewrite crlf_cons, decide_False, IH.
Qed.
Lemma Split_crlf l : l <> [] -> Forall (fun s => lacks newline s = true) l ->
  Split (crlf (Join l (String newline ""))) newline = with_cr l.
Proof.
  intros Hne Hl. induction Hl as [|s l Hs Hl IH]; [done |]. destruct l as [|s' l].
  - cbn [Join with_cr]. rewrite crlf_lacks by done. by apply Split_lacks.
  - change (Join (s :: s' :: l) _) with (s +:+ String newline (Join (s' :: l) (String newline ""))).
    rewrite crlf_app, crlf_lacks by done.
    rewrite crlf_cons, decide_True by done. set (rest := crlf _).
    change (String carriage_return (String newline rest)) with (String carriage_return "" +:+ String newline rest).
    rewrite <- str_app_assoc. unfold rest.
    rewrite Split_app, IH; [done .. |]. by rewrite lacks_app, Hs.
Qed.

(** The text of tags is read back, as it is and as a browser sends it. *)
Lemma parse_tagsText tags : Forall clean_tag tags -> NoDup (t_Key <$> tags) -> parseTags (crlf (tagsText tags)) = Ok tags.
Proof.
  intros Ht Hnd. unfold parseTags, tagsText. destruct tags as [|t0 tags0]; [done |]. set (tags := t0 :: tags0) in *.
  rewrite Split_crlf; [| done |].
  - apply parse_lines; [| done | intros; apply not_elem_of_empty]. clear Hnd. fold tag_line. clearbody tags. clear t0 tags0.
    induction Ht as [|t tags Ht Hts IH]; [constructor |]. destruct tags as [|t' tags].
    + constructor; [| constructor]. split; [done |]. rewrite <- (str_app_nil_r (tag_line t)) at 1. by apply tag_line_trimmed; [| left].
    + constructor; [split; [done | apply tag_line_trimmed; [done | by right]] | exact IH].
  - apply Forall_map. eapply Forall_impl; [exact Ht |]. intros t [(K1 & K2 & K3 & K4) (V1 & V2 & V3)].
    change "="%string with (String "=" ""). by rewrite !lacks_app, K4, V3.
Qed.

(** ** Numbers *)
Lemma digits_val_cons acc c s : is_digit c = true -> digits_val acc (String c s) = digits_val (10 * acc + digit_val c) s.
Proof. intros Hc. cbn. by rewrite Hc. Qed.
Lemma pretty_char_digit n : (n < 10)%N -> is_digit (pretty_N_char n) = true /\ digit_val (pretty_N_char n) = Z.of_N n.
Proof.
  by apply (below_all (fun n => is_digit (pretty_N_char n) = true /\ digit_val (pretty_N_char n) = Z.of_N n) 10).
Qed.
Lemma digits_val_go n : forall s, digits_val 0 (pretty_N_go n s) = digits_val (Z.of_N n) s.
Proof.
  induction (N.lt_wf_0 n) as [n _ IH]. intros s. destruct (decide (n = 0)%N) as [->|Hn]; [by rewrite pretty_N_go_0 |].
  rewrite pretty_N_go_step by lia. rewrite IH by (apply N.div_lt; lia).
  destruct (pretty_char_digit (n mod 10)%N) as [Hd Hv]; [by apply N.mod_upper_bound |].
  rewrite digits_val_cons, Hv by done. f_equal. rewrite N2Z.inj_div, N2Z.inj_mod. symmetry. by apply Z.div_mod.
Qed.
Lemma pretty_go_head n s : (0 < n)%N -> exists c t, pretty_N_go n s = String c t /\ is_digit c = true.
Proof.
  revert s. induction (N.lt_wf_0 n) as [n _ IH]. intros s Hn. rewrite pretty_N_go_step by lia.
  destruct (pretty_char_digit (n mod 10)%N) as [Hd _]; [by apply N.mod_upper_bound |].
  destruct (decide (n / 10 = 0)%N) as [->|Hq]; [rewrite pretty_N_go_0; eauto |]. apply IH; [apply N.div_lt; lia | by apply N.neq_0_lt_0].
Qed.
Lemma Atoi_Itoa n : (0 < n <= int64_max)%Z -> Atoi (Itoa n) = Some n.
Proof.
  intros Hn. destruct n as [|p|p]; try lia.
  assert (E : Itoa (Z.pos p) = pretty_N_go (N.pos p) "") by done.
  destruct (pretty_go_head (N.pos p) "" eq_refl) as (c & t & Et & Hc).
  pose proof (digits_val_go (N.pos p) "") as Hd. rewrite Et in E, Hd. rewrite E. change (digits_val (Z.of_N (N.pos p)) "") with (Some (Z.pos p)) in Hd.
  unfold Atoi. rewrite decide_False by (by intros ->). rewrite decide_False by (by intros ->). rewrite Hd.
  replace (in_int64b (Z.pos p)) with true; [done |]. symmetry. unfold in_int64b, int64_min, int64_max in *. lia.
Qed.

(** ** Editing *)
Section editing.
  Context `{!FormReader, !FloatConversion}.

(** What a browser sends for the form of a job that is not changed. *)
Definition submitted (csrf : string) (f : jobFormValues) : gmap string (list string) :=
  list_to_map [("csrf_token", [csrf]); ("name", [f_Name f]); ("cron_expression", [f_CronExpression f]); ("timezone", [f_Timezone f]);
    ("webhook_url", [f_WebhookURL f]); ("webhook_secret", [""]); ("timeout_seconds", [f_TimeoutSeconds f]); ("tags", [crlf (f_Tags f)])].
(** An update that gives every field but the secret, which stays. *)
Definition unchanged (job : Job) (schedule : Schedule) (tags : list Tag) : Service.UpdateJobInput := {|
  Service.ui_Name := Some (j_Name job); Service.ui_CronExpression := Some (s_CronExpression schedule);
  Service.ui_Timezone := Some (s_Timezone schedule); Service.ui_WebhookURL := Some (d_WebhookURL (j_Delivery job));
  Service.ui_Secret := None; Service.ui_Timeout := Some (d_Timeout (j_Delivery job)); Service.ui_Tags := Some tags |}.
(** Jobs that the form can spell. *)
Record editable (job : Job) (schedule : Schedule) (tags : list Tag) : Prop := {
  ed_texts : Forall (fun s => s <> ""%string /\ TrimSpace s = s)
    [j_Name job; s_CronExpression schedule; s_Timezone schedule; d_WebhookURL (j_Delivery job)];
  ed_timeout : exists n, (1 <= n <= 60)%Z /\ d_Timeout (j_Delivery job) = (n * Second)%Z;
  ed_tags : Forall clean_tag tags;
  ed_keys : NoDup (t_Key <$> tags);
}.
Definition url_encoded : string := "application/x-www-form-urlencoded".

Lemma form_submitted r m : q_Method r = "POST"%string -> q_RawQuery r = ""%string -> Get r "Content-Type" = url_encoded ->
  (forall body, multipart_values url_encoded body = ∅) -> m <> ∅ -> map_Forall (fun _ vs => vs <> []) m ->
  q_Body r = Some (Encode m) -> Form r = m.
Proof.
  intros Hm Hq Hc Hmp Hne Hvs Hb. unfold Form, append_values, parsePostForm, Query. rewrite Hm, Hq, Hc, Hb, Hmp.
  change (bool_decide _ && _) with true. cbn [default id]. rewrite parse_encode by done. cbn [fst].
  change ((ParseQuery "").1) with (∅ : gmap string (list string)). by rewrite !(right_id_L ∅ (union_with _)).
Qed.

(** The whole seconds of a time limit, as text and back. *)
Lemma timeout_text n : (1 <= n <= 60)%Z -> Atoi (TrimSpace (Itoa (to_int unspecified (Seconds (n * Second))))) = Some n.
Proof.
  intros Hn. assert (Hin : n ∈ seqZ 1 60) by (apply elem_of_seqZ; lia).
  assert (Hall : Forall (fun n => Atoi (TrimSpace (Itoa (to_int unspecified (Seconds (n * Second))))) = Some n) (seqZ 1 60)).
  { apply (bool_decide_unpack _). vm_compute. exact I. }
  by apply (proj1 (Forall_forall _ _) Hall).
Qed.

(** The values of the form, by their names. *)
Lemma submitted_values csrf f :
  let v := values_Get (submitted csrf f) in
  v "csrf_token" = csrf /\ v "name" = f_Name f /\ v "cron_expression" = f_CronExpression f /\ v "timezone" = f_Timezone f /\
  v "webhook_url" = f_WebhookURL f /\ v "webhook_secret" = ""%string /\ v "timeout_seconds" = f_TimeoutSeconds f /\
  v "tags" = crlf (f_Tags f) /\ v "clear_webhook_secret" = ""%string.
Proof. by split_and!. Qed.
Lemma submitted_full csrf f : submitted csrf f <> ∅ /\ map_Forall (fun _ vs => vs <> []) (submitted csrf f).
Proof.
  split.
  - intros E. apply (f_equal (fun m => m !! "csrf_token"%string)) in E. vm_compute in E. discriminate.
  - unfold submitted. cbn [list_to_map foldr uncurry]. repeat (apply map_Forall_insert_2; [done |]). apply map_Forall_empty.
Qed.

End editing.

(** ** Links *)
Lemma ParseQuery_full q : map_Forall (fun _ vs => vs <> []) (ParseQuery q).1.
Proof.
  unfold ParseQuery. assert (H0 : map_Forall (fun _ vs => vs <> []) ((∅ : gmap string (list string), true)).1) by apply map_Forall_empty.
  revert H0. generalize ((∅ : gmap string (list string), true)) as st. induction (Split q "&") as [|p l IH]; intros st Hst; [done |].
  cbn [fold_left]. apply IH. unfold parse_step. destruct (parse_pair p) as [[k v]|ok]; [| done]. cbn [fst]. unfold add_value.
  apply map_Forall_insert_2; [| done]. by destruct (default _ _).
Qed.
Lemma str_app_inj a b c : a +:+ b = a +:+ c -> b = c.
Proof. induction a as [|x a IH]; [done |]. rewrite !str_app_cons. intros [= E]. by apply IH. Qed.

(** A link to another page of a list keeps the filters: the query that it
    carries asks for that page, and has every other parameter of the request as it
    was. *)
Lemma page_links_keep_filters (r r' : http_request) (n : Z) :
  (1 <= n <= int64_max)%Z -> withPage r n = q_Path r +:+ "?" +:+ q_RawQuery r' ->
  positivePage (values_Get (Query r') "page") = n /\
  (forall k, k <> "page"%string -> Query r' !! k = Query r !! k).
Proof.
  intros Hn E. unfold withPage in E. apply str_app_inj, str_app_inj in E. unfold Query at 1 2. rewrite <- E.
  assert (Hne : values_Set "page" (Itoa n) (Query r) <> ∅) by apply insert_non_empty.
  rewrite parse_encode; [| done | by apply map_Forall_insert_2; [| apply ParseQuery_full]]. cbn [fst]. split.
  - unfold values_Get, values_Set. rewrite lookup_insert_eq. cbn [mbind option_bind head default id].
    unfold positivePage. rewrite Atoi_Itoa by lia. destruct (Z.ltb_spec n 1); lia.
  - intros k Hk. unfold values_Set. by rewrite lookup_insert_ne.
Qed.

(** ** A concrete form *)
Module Sim.
#[export] Instance sim_forms : FormReader := {| multipart_values _ _ := ∅ |}.
#[export] Existing Instance Middleware.Sim.amd64.
Definition a_job : Job := {|
  j_ID := 7; j_Namespace := "a"; j_Name := "daily report"; j_Enabled := true; j_ScheduleID := 8;
  j_Delivery := mkDeliveryConfig DeliveryTypeWebhook "https://example.com/?a=1&b=2" "secret" (30 * Second);
  j_Analytics := mkAnalyticsConfig false 0; j_CreatedAt := 0; j_UpdatedAt := 0 |}.
Definition a_schedule : Schedule := mkSchedule 8 "0 9 * * *" "UTC" 0 0.
Definition a_tags : list Tag := [{| t_Key := "team"; t_Value := "ops = dev" |}; {| t_Key := "100%"; t_Value := "+1" |}].
Definition posted : http_request :=
  mkHttpRequest "POST" "/admin/jobs/7/edit" "" "" "" [("Content-Type", url_encoded)]
    (Some (Encode (submitted "t" (form_of a_job a_schedule a_tags)))) None Background.
Example posted_ex : q_Body posted =
  Some ("cron_expression=0+9+%2A+%2A+%2A&csrf_token=t&name=daily+report&tags=team%3Dops+%3D+dev%0D%0A100%25%3D%2B1&timeout_seconds=30&"
        +:+ "timezone=UTC&webhook_secret=&webhook_url=https%3A%2F%2Fexample.com%2F%3Fa%3D1%26b%3D2").
Proof. vm_compute. reflexivity. Qed.
Lemma a_job_editable : editable a_job a_schedule a_tags.
Proof.
  split.
  - by repeat (constructor; [by vm_compute |]).
  - exists 30%Z. split; [lia | reflexivity].
  - repeat (constructor; [split; by split_and! |]). constructor.
  - apply (bool_decide_unpack _). vm_compute. exact I.
Qed.
Definition second_page (q : string) : http_request := mkHttpRequest "GET" "/admin/jobs" q "" "" [] None None Background.
End Sim.
Import Sim.

Lemma page_links_keep_filters_witness :
  let next := withPage (second_page "name=a+b&page=2&enabled=true") 3 in
  next = "/admin/jobs?enabled=true&name=a+b&page=3" /\
  positivePage (values_Get (Query (second_page "enabled=true&name=a+b&page=3")) "page") = 3%Z /\
  Query (second_page "enabled=true&name=a+b&page=3") !! "name" = Some ["a b"].
Proof.
  assert (E : withPage (second_page "name=a+b&page=2&enabled=true") 3 = "/admin/jobs?enabled=true&name=a+b&page=3") by (vm_compute; reflexivity).
  split; [exact E |].
  destruct (page_links_keep_filters (second_page "name=a+b&page=2&enabled=true") (second_page "enabled=true&name=a+b&page=3") 3) as [Hp Hk];
    [unfold int64_max; lia | exact E |].
  split; [exact Hp |]. rewrite (Hk "name"%string) by done. vm_compute. reflexivity.
Defined.
