(* ===== verification/WebadminProps.v ===== *)
(** * What the admin pages can do to the database

    The pages and actions of [Webadmin] on the store: an admin stays in the
    namespace of the key that the session was opened with, and nothing but
    sessions changes without a session and its token. *)
From S2P Require Import Prelude GoStrings GoTime GoUrl Float64 Domain Runtime Http HttpServer Cron WebhookURL Middleware.
From S2P Require Import Pg Store StoreTheory Wiring Tenancy ServiceTheory ServiceProps Transport Webadmin.
From S2P Require ApiServer ApiProps Service Config.
Import ApiServer(Lit, Id, segment, path_segments, match_segments).
Local Open Scope cron_scope.

(** The store keeps the sessions. *)
#[export] Instance session_store {W} `{!Database W, !Postgres} : AdminSessionRepository W := {|
  sessions_CreateAdminSession s := lift (CreateAdminSession s);
  sessions_GetAdminSession h t := lift (GetAdminSession h t);
  sessions_RefreshAdminSession h t u := lift (RefreshAdminSession h t u);
  sessions_DeleteAdminSession h := lift (DeleteAdminSession h) |}.

(** ** Sessions in the namespace of their key *)
Section own.
  Context `{!Postgres} (ns : Namespace) (db0 : DB).

(** No session of another namespace has the hash. *)
Definition own_session (h : string) : Prop :=
  forall s k, admin_sessions db0 !! h = Some s -> api_keys db0 !! as_APIKeyID s = Some k -> k_Namespace k = ns.

Lemma own_session_seen db h s k :
  quarantine ns db0 db -> admin_sessions db !! h = Some s -> api_keys db !! as_APIKeyID s = Some k -> k_Namespace k = ns ->
  own_session h.
Proof.
  intros [_ _ Hu] Hs Hk Hns s0 k0 Hs0 Hk0. apply dec_stable. intros Hne.
  apply (und_session _ _ _ Hu h s0 k0 Hk0 Hne) in Hs0. apply (und_key _ _ _ Hu) in Hk0; [| done]. congruence.
Qed.

(** Sessions that change under such a hash are no session of another namespace. *)
Lemma q_put_sessions db (t : gmap string AdminSession) h :
  quarantine ns db0 db -> own_session h -> wf_db (set_sessions t db) ->
  (forall h', h' <> h -> t !! h' = admin_sessions db !! h') ->
  (forall s, t !! h = Some s -> exists s0, admin_sessions db !! h = Some s0 /\ as_APIKeyID s = as_APIKeyID s0) ->
  quarantine ns db0 (set_sessions t db).
Proof.
  intros [Hwf [Ht1 Ht2] [H1 H2 H3 H4 H5 H6 H7]] Ho Hwf' Hne Hh. split; [done | by split |]. split; cbn; try done.
  intros h' s k Hk Hns. destruct (decide (h' = h)) as [->|Hd]; [| rewrite (Hne _ Hd); by eapply H7].
  split; intros Hs.
  - by destruct (Hns (Ho _ _ Hs Hk)).
  - destruct (Hh _ Hs) as (s0 & Hs0 & E). rewrite E in Hk. apply (H7 h s0 k Hk Hns) in Hs0.
    by destruct (Hns (Ho _ _ Hs0 Hk)).
Qed.

Lemma q_refresh_session t u h : own_session h -> tx_inv (quarantine ns db0) (queryRefreshAdminSession t u h).
Proof.
  intros Ho v db a db' Hq E. pose proof (wf_refresh_session t u h v db a db' (q_wf _ _ _ Hq) E) as Hwf.
  revert E. unfold queryRefreshAdminSession. destruct (admin_sessions db !! h) as [s|] eqn:Hs; [case_decide |]; intros [= _ <-]; try done.
  apply (q_put_sessions db _ h); [done .. | |].
  - intros h' Hne. by rewrite lookup_insert_ne.
  - intros s'. rewrite lookup_insert_eq. intros [= <-]. by exists s.
Qed.
Lemma q_delete_session h : own_session h -> tx_inv (quarantine ns db0) (queryDeleteAdminSession h).
Proof.
  intros Ho v db a db' Hq E. pose proof (wf_delete_session h v db a db' (q_wf _ _ _ Hq) E) as Hwf.
  revert E. unfold queryDeleteAdminSession. intros [= _ <-]. apply (q_put_sessions db _ h); [done .. | |].
  - intros h' Hne. by rewrite lookup_delete_ne.
  - intros s'. by rewrite lookup_delete_eq.
Qed.
End own.

(** A session that the store hands out is one of the database, with its key. *)
Lemma get_session_seen `{!Postgres} I h t p s k :
  good I p -> eval (GetAdminSession h t) p = Ok (s, k) ->
  exists db, I db /\ admin_sessions db !! h = Some s /\ api_keys db !! as_APIKeyID s = Some k /\ k_Enabled k = true /\
    (pg_ts t < as_ExpiresAt s)%Z.
Proof.
  intros Hg. unfold GetAdminSession, eval. rewrite run_tx_fst.
  destruct (run_tx_answer I (one_row (queryGetAdminSession h t)) p Hg) as [[e ->]|(a & v & db & db' & HI & E & ->)].
  - unfold no_rows_as. by repeat case_match.
  - intros [= ->]. exists db. split; [done |]. apply one_row_inv in E as [rest E].
    unfold queryGetAdminSession, query in E. injection E as E _.
    destruct (admin_sessions db !! h) as [s0|] eqn:Hs; [| done]. cbn in E.
    destruct (api_keys db !! as_APIKeyID s0) as [k0|] eqn:Hk; [| done]. cbn in E.
    case_decide as Hd; [| done]. injection E as -> -> _. tauto.
Qed.

(** ** What every page does *)
Create HintDb page.

Section pages.
  Context {W : Type} `{!Database W, !Postgres, !Runtime W, !EventEmitter W, !Service.Random W, !CronLibrary, !NetLibrary,
    !Quiet W, !FloatConversion, !AdminAssets, !FormReader}.
  Variables (rw : cell W writer) (Hrw : beside rw).

Lemma outcome_then I {A B} (m : st W A) (f : A -> st W B) P Q w :
  outcome I P m w -> (forall a w', P a -> outcome I Q (f a) w') -> outcome I Q (m ≫= f) w.
Proof.
  intros Hm Hf Hw. destruct (Hm Hw) as [Hg HP]. pose proof (Hf (eval m w) (exec m w) HP Hg) as Hq.
  unfold exec, eval, mbind, st_bind in *. by destruct (m w).
Qed.

(** Answering touches the response only. *)
Lemma keeps_writes I f : maintains I (writes rw f).
Proof. by apply keeps_cell. Qed.
Lemma keeps_when I b (m : st W unit) : maintains I m -> maintains I (when b m).
Proof. intros Hm. destruct b; [done | apply keeps_answer]. Qed.
Lemma keeps_rand I n : maintains I (Service.rand_Read n).
Proof. apply keeps_quiet, quiet_rand. Qed.
Lemma keeps_now I : maintains I time_Now.
Proof. apply keeps_quiet, quiet_now. Qed.
Hint Resolve keeps_answer keeps_writes keeps_when keeps_rand keeps_now : page.

(** Follows the program; what is left are calls of the service and sessions. *)
Ltac pages := repeat first
  [ solve [auto 2 with page] | apply keeps_when | apply keeps_bind; [| intros ?] | case_match ].

Lemma keeps_SetCookie I c : maintains I (SetCookie rw c).
Proof. apply keeps_writes. Qed.
Lemma keeps_Header_Set I n v : maintains I (Header_Set rw n v).
Proof. apply keeps_writes. Qed.
Lemma keeps_Write I t : maintains I (Write rw t).
Proof. unfold Write, WriteHeader. pages. Qed.
Hint Resolve keeps_SetCookie keeps_Header_Set keeps_Write : page.
Lemma keeps_reply I p : maintains I (reply rw p).
Proof. unfold reply, WriteHeader. pages. Qed.
Lemma keeps_Redirect I r url code : maintains I (Redirect rw r url code).
Proof. unfold Redirect, WriteHeader. pages. Qed.
Lemma keeps_render I name data : maintains I (render rw name data).
Proof. unfold render. pages. Qed.
Lemma keeps_randomToken I : maintains (W := W) I randomToken.
Proof. unfold randomToken. pages. Qed.
Hint Resolve keeps_reply keeps_Redirect keeps_render keeps_randomToken : page.
Lemma keeps_renderStatus I name data code : maintains I (renderStatus rw name data code).
Proof. unfold renderStatus, WriteHeader. pages. Qed.
Hint Resolve keeps_renderStatus : page.
Lemma keeps_internalError I e : maintains I (internalError rw e).
Proof. unfold internalError. pages. Qed.
Hint Resolve keeps_internalError : page.
Lemma keeps_handleServiceError I e : maintains I (handleServiceError rw e).
Proof. unfold handleServiceError. pages. Qed.
Lemma keeps_pathUUID I raw k : (forall i, maintains I (k i)) -> maintains I (pathUUID rw raw k).
Proof. intros Hk. unfold pathUUID, NotFound. pages. Qed.

Hint Resolve keeps_handleServiceError keeps_pathUUID : page.

(** *** Reading operations *)
Ltac reads := repeat first
  [ solve [auto 2 with page]
  | apply lift_maintains; try apply fmap_keeps; apply run_tx_keeps; solve [tx_read]
  | apply keeps_bind; [| intros ?] | case_match ].

Lemma keeps_HasAnyAPIKeys I : maintains (W := W) I Service.HasAnyAPIKeys.
Proof. unfold Service.HasAnyAPIKeys. reads. Qed.
Lemma keeps_GetJob I ctx i : maintains (W := W) I (Service.GetJob ctx i).
Proof. unfold Service.GetJob. reads. Qed.
Lemma keeps_ListJobsWithSchedules I ctx f : maintains (W := W) I (Service.ListJobsWithSchedules ctx f).
Proof. unfold Service.ListJobsWithSchedules. reads. Qed.
Lemma keeps_ListExecutions I ctx f : maintains (W := W) I (Service.ListExecutions ctx f).
Proof. unfold Service.ListExecutions. reads. Qed.
Lemma keeps_GetNextRunTime I ctx i : maintains (W := W) I (Service.GetNextRunTime ctx i).
Proof. unfold Service.GetNextRunTime. reads. Qed.
Lemma keeps_GetExecution I ctx i : maintains (W := W) I (Service.GetExecution ctx i).
Proof. unfold Service.GetExecution. reads. Qed.
Lemma keeps_GetKeyByTokenHash I t : maintains (W := W) I (Middleware.GetKeyByTokenHash t).
Proof. cbn. reads. Qed.
Hint Resolve keeps_HasAnyAPIKeys keeps_GetJob keeps_ListJobsWithSchedules keeps_ListExecutions keeps_GetNextRunTime
  keeps_GetExecution keeps_GetKeyByTokenHash : page.

(** *** Sessions *)
Definition cookie_hash (r : http_request) : option string :=
  match request_cookie r sessionCookieName with
  | Some v => if String.eqb v "" then None else Some (Service.HashToken v)
  | None => None
  end.
(** The session that the cookie of a request names at a time. *)
Definition session_at (r : http_request) (now : time) (w : W) : result err (AdminSession * APIKey) :=
  match cookie_hash r with
  | Some h => eval (GetAdminSession h now) (db_get w)
  | None => Err errUnauthenticated
  end.
Lemma session_at_db r now w w' : db_get w' = db_get w -> session_at r now w' = session_at r now w.
Proof. intros E. unfold session_at. by rewrite E. Qed.

(** What a request may be let in with. *)
Definition admits (r : http_request) (w : W) (auth : authState) : Prop :=
  exists now s, session_at r now w = Ok (s, a_Key auth) /\ as_CSRFToken (a_Session auth) = as_CSRFToken s.

Lemma authenticate_outcome I m r w :
  (forall h, cookie_hash r = Some h -> forall t u, tx_inv I (queryRefreshAdminSession t u h)) ->
  outcome I (fun a => match a with Ok auth => admits r w auth | Err _ => True end) (authenticate rw m r) w.
Proof.
  intros Href. unfold authenticate.
  assert (Hsess : forall now, session_at r now w = match cookie_hash r with
    | Some h => eval (GetAdminSession h now) (db_get w) | None => Err errUnauthenticated end) by done.
  unfold cookie_hash in *.
  destruct (request_cookie r sessionCookieName) as [v|]; [| by apply outcome_ret].
  destruct (String.eqb v ""); [by apply outcome_ret |].
  apply outcome_quiet; [apply quiet_now |]. intros now w' E. cbv zeta.
  apply outcome_bind; [apply lift_maintains, fmap_keeps, run_tx_keeps; tx_read |].
  cbn [sessions_GetAdminSession session_store]. rewrite eval_lift, E, <- (Hsess now).
  destruct (session_at r now w) as [[s k]|e] eqn:Es.
  2: { case_match; [| by apply outcome_ret]. eapply outcome_then; [apply outcome_maintains, keeps_SetCookie |]. by intros; apply outcome_ret. }
  assert (Ha : forall s', as_CSRFToken s' = as_CSRFToken s -> admits r w {| a_Session := s'; a_Key := k |}).
  { intros s' Ht. by exists now, s. }
  case_match; [| by apply outcome_ret, Ha].
  eapply outcome_then; [apply outcome_maintains, lift_maintains, fmap_keeps, run_tx_keeps; by eapply Href |].
  intros [[]|e] w'' _; (eapply outcome_then; [apply outcome_maintains, keeps_SetCookie |]); intros [] w3 _; apply outcome_ret; [| done].
  by apply Ha.
Qed.

Section handlers.
  Variables (h : admin) (I : DB -> Prop) (r : http_request) (w : W).
Notation all := (fun _ : unit => True).

(** A page behind the session. *)
Lemma requireAuth_outcome k :
  (forall x, cookie_hash r = Some x -> forall t u, tx_inv I (queryRefreshAdminSession t u x)) ->
  (forall auth w', admits r w auth ->
     outcome I all (k auth (WithContext (NamespaceToContext (q_Context r) (k_Namespace (a_Key auth))) r)) w') ->
  outcome I all (requireAuth rw h r k) w.
Proof.
  intros Href Hk. unfold requireAuth. eapply outcome_then; [by apply authenticate_outcome |].
  intros [auth|e] w' Ha; [by apply Hk |]. case_match; apply outcome_maintains; auto with page.
Qed.
(** An action behind the session and its token. *)
Lemma requireMutation_outcome k :
  (forall x, cookie_hash r = Some x -> forall t u, tx_inv I (queryRefreshAdminSession t u x)) ->
  (forall auth w', admits r w auth -> validateCSRF (as_CSRFToken (a_Session auth)) (FormValue r "csrf_token") = true ->
     outcome I all (k auth (WithContext (NamespaceToContext (q_Context r) (k_Namespace (a_Key auth))) r)) w') ->
  outcome I all (requireMutation rw h r k) w.
Proof.
  intros Href Hk. apply requireAuth_outcome; [done |]. intros auth w' Ha.
  destruct (validateCSRF _ _) eqn:Ec; cbn [negb]; [| apply outcome_maintains; auto with page].
  apply Hk; [done |]. exact Ec.
Qed.

(** *** What a request may do

    A property of the database that the session of the cookie may refresh, the
    actions of its namespace with its token may change, and so on. *)
Definition token_given (auth : authState) : Prop :=
  admits r w auth /\ q_Method r = "POST"%string /\ validateCSRF (as_CSRFToken (a_Session auth)) (FormValue r "csrf_token") = true.
Record grants : Prop := {
  gr_refresh x : cookie_hash r = Some x -> forall t u, tx_inv I (queryRefreshAdminSession t u x);
  gr_act auth ctx q : token_given auth -> NamespaceFromContext ctx = k_Namespace (a_Key auth) ->
    acting ctx q = NamespaceFromContext ctx -> maintains (W := W) I (serve (h_service h) ctx q);
  gr_logout auth x : token_given auth -> cookie_hash r = Some x -> tx_inv I (queryDeleteAdminSession x);
  gr_login : q_Method r = "POST"%string -> q_Path r = "/admin/login"%string -> maintains I (login rw h r);
  gr_setup : q_Method r = "POST"%string -> q_Path r = "/admin/setup"%string -> maintains I (setup rw h r);
}.

Lemma served_keeps {A} ctx q (f : A -> answer) (m : st W (result err A)) :
  maintains I (serve (h_service h) ctx q) -> serve (h_service h) ctx q = answers f m -> maintains I m.
Proof. intros Hq E w' Hw. specialize (Hq w' Hw). rewrite E in Hq. unfold answers, exec, fmap, st_fmap in *. by destruct (m w'). Qed.

Hypothesis Hgr : grants.

Lemma read_page k : (forall auth r', maintains I (k auth r')) -> outcome I all (requireAuth rw h r k) w.
Proof. intros Hk. apply requireAuth_outcome; [apply (gr_refresh Hgr) |]. intros auth w' _. by apply outcome_maintains. Qed.
Lemma action_page k : q_Method r = "POST"%string ->
  (forall auth, token_given auth -> maintains I (k auth (WithContext (NamespaceToContext (q_Context r) (k_Namespace (a_Key auth))) r))) ->
  outcome I all (requireMutation rw h r k) w.
Proof.
  intros Hp Hk. apply requireMutation_outcome; [apply (gr_refresh Hgr) |]. intros auth w' Ha Hc. apply outcome_maintains, Hk. by split_and!.
Qed.
(** An action of the service for the session. *)
Lemma act_keeps {A} auth q (f : A -> answer) (m : st W (result err A)) :
  let ctx := NamespaceToContext (q_Context r) (k_Namespace (a_Key auth)) in
  token_given auth -> serve (h_service h) ctx q = answers f m -> acting ctx q = NamespaceFromContext ctx -> maintains I m.
Proof. intros ctx Ht E Ha. eapply served_keeps; [| exact E]. by eapply (gr_act Hgr). Qed.

Lemma jobAction_keeps {A} notice (f : A -> answer) (action : context -> uuid -> st W (result err A)) q raw :
  q_Method r = "POST"%string ->
  (forall ctx i, serve (h_service h) ctx (q i) = answers f (action ctx i)) -> (forall ctx i, acting ctx (q i) = NamespaceFromContext ctx) ->
  outcome I all (jobAction rw h notice action r raw) w.
Proof.
  intros Hp E Ha. apply action_page; [done |]. intros auth Ht. apply keeps_pathUUID. intros i.
  apply keeps_bind; [eapply act_keeps; [exact Ht | apply E | apply Ha] |]. intros [x|e]; auto with page.
Qed.

Ltac answers_of := intros ?; pages.

(** *** The pages, one by one *)
Lemma createJob_keeps : q_Method r = "POST"%string -> outcome I all (createJob rw h r) w.
Proof.
  intros Hp. apply action_page; [done |]. intros auth Ht. destruct (parseCreateJobForm _ _) as [values [input|e]]; [| cbv beta iota zeta; apply keeps_renderStatus].
  apply keeps_bind; [by eapply (act_keeps auth (RCreateJob input)) | answers_of].
Qed.
Lemma editJob_keeps raw : q_Method r = "POST"%string -> outcome I all (editJob rw h r raw) w.
Proof.
  intros Hp. apply action_page; [done |]. intros auth Ht. apply keeps_pathUUID. intros i.
  destruct (parseUpdateJobForm _ _) as [values [input|e]]; [| cbv beta iota zeta; apply keeps_renderStatus].
  apply keeps_bind; [by eapply (act_keeps auth (RUpdateJob i input)) | answers_of].
Qed.
Lemma deleteJob_keeps raw : q_Method r = "POST"%string -> outcome I all (deleteJob rw h r raw) w.
Proof.
  intros Hp. apply action_page; [done |]. intros auth Ht. apply keeps_pathUUID. intros i.
  apply keeps_bind; [by eapply (act_keeps auth (RDeleteJob i)) | answers_of].
Qed.
Lemma drop_session_keeps : (forall x, cookie_hash r = Some x -> tx_inv I (queryDeleteAdminSession x)) -> maintains (W := W) I (drop_session r).
Proof.
  unfold drop_session, cookie_hash. intros Hd. destruct (request_cookie _ _) as [v|]; [| auto with page].
  destruct (String.eqb v ""); [auto with page |]. apply lift_maintains, run_tx_keeps. by apply Hd.
Qed.
Lemma logout_keeps : q_Method r = "POST"%string -> outcome I all (logout rw h r) w.
Proof.
  intros Hp. apply action_page; [done |]. intros auth Ht. unfold sessions_logout, clearSessionCookie.
  apply keeps_bind; [| answers_of].
  apply keeps_bind; [| answers_of].
  apply drop_session_keeps. intros x Hx. eapply (gr_logout Hgr); done.
Qed.
Lemma loginPage_keeps : outcome I all (loginPage rw h r) w.
Proof.
  unfold loginPage. eapply outcome_then; [apply outcome_maintains, keeps_HasAnyAPIKeys |].
  intros [[]|e] w' _; cbn [negb]; [| apply outcome_maintains; pages ..].
  eapply outcome_then; [apply authenticate_outcome, (gr_refresh Hgr) |].
  intros a w'' _. apply outcome_maintains. unfold renderPublicForm, issuePublicCSRF. pages.
Qed.

Definition run_page (p : page) (id : string) : st W unit := match p with Plain f => f r | WithId f => f r id end.

Lemma exact_path (pat : list string) id : pat <> [] -> fits (q_Path r) (map Lit pat) = Some id ->
  q_Path r = ("/" +:+ Join pat "/")%string.
Proof.
  intros Hne. unfold fits. destruct (path_segments (q_Path r)) as [segs|] eqn:Es; [| done]. intros Hm.
  assert (segs = pat) as ->.
  { clear Es Hne. revert segs id Hm. generalize "" as x. induction pat as [|a pat IH]; intros x [|b segs] id Hm; cbn in Hm; try done.
    destruct (String.eqb_spec a b) as [->|]; [| done]. f_equal. by eapply IH. }
  unfold path_segments in Es. destruct (q_Path r) as [|c p]; [done |]. case_decide as Hc; [| done]. injection Es as Es. subst c.
  rewrite <- Es, Join_Split. done.
Qed.
Lemma serves_post method : serves "POST" method = true -> method = "POST"%string.
Proof. unfold serves. intros [Hs%String.eqb_eq|Hs]%orb_true_iff; done. Qed.

(** Any page, for a method and a path that it is for. *)
Lemma page_keeps m pat p id : (m, pat, p) ∈ routes rw h -> fits (q_Path r) pat = Some id -> serves m (q_Method r) = true ->
  outcome I all (run_page p id) w.
Proof.
  intros Hp Hf Hm. unfold routes in Hp. rewrite !elem_of_cons, elem_of_nil in Hp.
  repeat (destruct Hp as [[= -> -> ->]|Hp]); [.. | done]; try (apply serves_post in Hm); cbn [run_page].
  - apply outcome_maintains. unfold serveCSS. pages.
  - apply loginPage_keeps.
  - apply (exact_path ["admin"; "login"]) in Hf; [| done]. by apply outcome_maintains, (gr_login Hgr).
  - apply outcome_maintains. unfold setupPage, renderPublicForm, issuePublicCSRF. pages.
  - apply (exact_path ["admin"; "setup"]) in Hf; [| done]. by apply outcome_maintains, (gr_setup Hgr).
  - by apply logout_keeps.
  - apply read_page. intros auth r'. pages.
  - apply read_page. intros auth r'. pages.
  - by apply createJob_keeps.
  - apply read_page. intros auth r'. apply keeps_pathUUID. intros i. pages.
  - apply read_page. intros auth r'. apply keeps_pathUUID. intros i. pages.
  - by apply editJob_keeps.
  - apply read_page. intros auth r'. apply keeps_pathUUID. intros i. pages.
  - by apply deleteJob_keeps.
  - by apply (jobAction_keeps _ (fun j => mkAnswer [j] [] []) _ RPauseJob).
  - by apply (jobAction_keeps _ (fun j => mkAnswer [j] [] []) _ RResumeJob).
  - by apply (jobAction_keeps _ (fun e => mkAnswer [] [e] []) _ RTriggerNow).
  - apply read_page. intros auth r'. apply keeps_pathUUID. intros i. pages.
  - apply outcome_maintains. unfold adminRoot, NotFound. pages.
Qed.
End handlers.

(** *** The handler as it is mounted *)
Lemma find_page_in (l : list (string * list segment * page (W := W))) method path p id : find_page l method path = Some (p, id) ->
  exists m pat, (m, pat, p) ∈ l /\ fits path pat = Some id /\ serves m method = true.
Proof.
  induction l as [|[[m pat] q] l IH]; [done |]. cbn [find_page]. intros E.
  assert (Hl : find_page l method path = Some (p, id) -> exists m' pat', (m', pat', p) ∈ (m, pat, q) :: l /\
    fits path pat' = Some id /\ serves m' method = true).
  { intros (m' & pat' & ? & ? & ?)%IH. exists m', pat'. split_and!; [by right | done | done]. }
  destruct (fits path pat) as [x|] eqn:Ef; [| auto]. destruct (serves m method) eqn:Es; [| auto].
  injection E as <- <-. exists m, pat. split_and!; [by left | done | done].
Qed.
Lemma mux_keeps h I r w : grants h I r w -> outcome I (fun _ => True) (mux rw h r) w.
Proof.
  intros Hg. unfold mux. destruct (find_page _ _ _) as [[p id]|] eqn:E.
  - apply find_page_in in E as (m & pat & Hp & Hf & Hm). pose proof (page_keeps h I r w Hg m pat p id Hp Hf Hm) as Hk. by destruct p.
  - apply outcome_maintains. unfold adminRoot, NotFound. pages.
Qed.

Lemma mount_keeps (limiter : cell W ipRateLimiter) h I r secure w :
  beside limiter -> (forall w', db_get w' = db_get w -> cross_origin r = Ok tt -> grants h I r w') ->
  outcome I (fun _ => True) (adminMount limiter (protected rw h) secure r) w.
Proof.
  intros Hl Hg. unfold adminMount, SecurityHeaders. apply outcome_fmap. apply ip_limit_outcome; [done | done |].
  intros w' E. unfold protected, SecurityHeaders. apply outcome_fmap. unfold ServeHTTP.
  apply outcome_quiet; [by apply cell_quiet |]. intros _ w'' E'. rewrite E in E'.
  eapply outcome_then; [| intros [] w3 _; by apply outcome_maintains, keeps_quiet].
  unfold crossOriginHandler. destruct (cross_origin r) as [[]|e] eqn:Ec; [| apply outcome_maintains; auto with page].
  unfold limitAdminFormBodies. case_match; [apply outcome_maintains; auto with page |]. by apply mux_keeps, Hg.
Qed.

(** ** Isolation *)

(** C6: an admin stays in the namespace of the key that the session was opened
    with: whatever page or action is asked for, other than to sign in or set up,
    a cookie that is not that of a session of another namespace leaves the rows of
    all other namespaces as they were, sessions included. *)
Theorem admin_tenant_isolation (limiter : cell W ipRateLimiter) h r secure ns db0 w :
  beside limiter ->
  (forall x, cookie_hash r = Some x -> own_session ns db0 x) ->
  (q_Method r = "POST"%string -> q_Path r ∉ ["/admin/login"; "/admin/setup"]%string) ->
  db_good (quarantine ns db0) w -> db_good (quarantine ns db0) (exec (adminMount limiter (protected rw h) secure r) w).
Proof.
  intros Hl Ho Hpath Hw. apply (mount_keeps limiter h (quarantine ns db0) r secure w); [done | | done].
  intros w' E _. assert (Hw' : db_good (quarantine ns db0) w') by (unfold db_good; by rewrite E).
  split.
  - intros x Hx t u. by apply q_refresh_session, Ho.
  - intros auth ctx q ((now & s & Hs & _) & _) En Ea.
    assert (NamespaceFromContext ctx = ns) as <-.
    { rewrite En. unfold session_at in Hs. destruct (cookie_hash r) as [x|] eqn:Hx; [| done].
      destruct (get_session_seen _ _ _ _ _ _ Hw' Hs) as (db & [_ _ Hu] & Hrow & Hk & _).
      apply dec_stable. intros Hne. apply (und_key _ _ _ Hu) in Hk; [| done].
      apply (und_session _ _ _ Hu x s (a_Key auth) Hk Hne) in Hrow. by apply Hne, (Ho x eq_refl s). }
    rewrite <- Ea. intros w0 Hw0. by apply (serve_safe (h_service h) db0 ctx q w0 Hw0).
  - intros auth x _ Hx. by apply q_delete_session, Ho.
  - intros Hm E'. exfalso. apply (Hpath Hm). rewrite E'. by left.
  - intros Hm E'. exfalso. apply (Hpath Hm). rewrite E'. right. by left.
Qed.

(** ** What changes, and by whom

    Nothing but sessions changes without a token that was given out. *)
Definition blind_to_sessions (I : DB -> Prop) : Prop := forall db t, I db -> I (set_sessions t db).

Lemma blind_tx I : blind_to_sessions I ->
  (forall s t, tx_inv I (queryInsertAdminSession s t)) /\ (forall t u x, tx_inv I (queryRefreshAdminSession t u x)) /\
  (forall x, tx_inv I (queryDeleteAdminSession x)).
Proof.
  intros Hb. split_and!; intros; intros v db a db' HI E.
  - unfold queryInsertAdminSession in E. cbv zeta in E. repeat (case_match || case_decide); try done. injection E as _ <-. by apply Hb.
  - unfold queryRefreshAdminSession in E. repeat (case_match || case_decide); injection E as _ <-; try done. by apply Hb.
  - unfold queryDeleteAdminSession in E. injection E as _ <-. by apply Hb.
Qed.
Lemma keeps_issue I h : maintains I (issuePublicCSRF rw h).
Proof. unfold issuePublicCSRF. pages. Qed.
Lemma keeps_refuse I h name title message code : maintains I (refuse rw h name title message code).
Proof. unfold refuse, issuePublicCSRF. pages. Qed.
Hint Resolve keeps_refuse : page.

Lemma sessions_login_blind I m r apiKey : blind_to_sessions I -> maintains I (sessions_login rw m r apiKey).
Proof.
  intros (Hi & _ & Hd)%blind_tx. unfold sessions_login, drop_session. pages.
  - apply lift_maintains, run_tx_keeps, Hd.
  - apply lift_maintains, run_tx_keeps, Hi.
Qed.
Lemma login_blind I h r : blind_to_sessions I -> maintains I (login rw h r).
Proof.
  intros Hb. unfold login, clearPublicCSRF. case_match; [auto with page |].
  apply keeps_bind; [by apply sessions_login_blind | intros x; pages].
Qed.

(** Whoever may change more: a session with its token, or the first setup. *)
Definition authorised (h : admin) (r : http_request) (w : W) : Prop :=
  q_Method r = "POST"%string /\ cross_origin r = Ok tt /\
  ((exists auth, admits r w auth /\ validateCSRF (as_CSRFToken (a_Session auth)) (FormValue r "csrf_token") = true) \/
   (q_Path r = "/admin/setup"%string /\ validPublicCSRF r = true /\ h_bootstrapToken h <> ""%string /\
    constantTimeEqual (h_bootstrapToken h) (FormValue r "bootstrap_token") = true)).

Lemma setup_refused I h r :
  ~ (validPublicCSRF r = true /\ h_bootstrapToken h <> ""%string /\
     constantTimeEqual (h_bootstrapToken h) (FormValue r "bootstrap_token") = true) -> maintains I (setup rw h r).
Proof.
  intros Hn. unfold setup. apply keeps_bind; [auto with page |]. intros [[]|e]; [auto with page | | auto with page].
  destruct (validPublicCSRF r) eqn:Ev; cbn [negb]; [| auto with page].
  destruct (String.eqb_spec (h_bootstrapToken h) ""); cbn [orb]; [auto with page |].
  destruct (constantTimeEqual _ _) eqn:Ec; cbn [negb]; [| auto with page]. by destruct Hn.
Qed.

(** What requests without authority keep. *)
Lemma admin_guarded (limiter : cell W ipRateLimiter) h r secure I w :
  beside limiter -> blind_to_sessions I -> ~ authorised h r w ->
  db_good I w -> db_good I (exec (adminMount limiter (protected rw h) secure r) w).
Proof.
  intros Hl Hb Hn Hw. apply (mount_keeps limiter h I r secure w); [done | | done]. intros w' E Hc.
  assert (Hno : forall auth, ~ token_given r w' auth).
  { intros auth (Ha & Hp & Ht). apply Hn. split_and!; [done | done | left]. exists auth. split; [| done].
    destruct Ha as (now & s & Hs & ?). exists now, s. by rewrite <- (session_at_db r now w w' E). }
  pose proof (blind_tx I Hb) as (Hi & Hr & Hd). split; [intros; apply Hr | | intros; apply Hd | |].
  - intros auth ctx q Ht. by destruct (Hno auth).
  - intros _ _. by apply login_blind.
  - intros Hm Hp. apply setup_refused. intros Ha. apply Hn. split_and!; [done | done | right]. by destruct_and! Ha.
Qed.

(** C7: nothing but sessions changes, unless the request is a POST that no other
    site made, with a session and the token of its forms, or the setup with the
    installation token: every other request, signing in and failed attempts
    included, keeps every property of jobs, executions and keys. *)
Theorem admin_changes_authorised (limiter : cell W ipRateLimiter) h r secure I w :
  beside limiter -> blind_to_sessions I -> ~ authorised h r w ->
  db_good I w -> db_good I (exec (adminMount limiter (protected rw h) secure r) w).
Proof. exact (admin_guarded limiter h r secure I w). Qed.
End pages.

(** ** A concrete site

    The world of [ServiceProps], in which tenant [a] has a key, with a response
    and a rate limiter beside it. Identifiers in paths are numbers; a page is the
    name of its template. *)
Module Sim.
Export ServiceProps.Sim.
Record site : Type := mkSite { si_base : world; si_writer : writer; si_ip : ipRateLimiter }.
Definition set_base (b : world) (s : site) : site := mkSite b (si_writer s) (si_ip s).
Definition on_base {A} (m : st world A) : st site A := fun s => let '(a, b) := m (si_base s) in (a, set_base b s).

#[export] Instance site_db : Database site := {|
  db_get s := db_get (si_base s); db_put p s := set_base (db_put p (si_base s)) s;
  db_get_put _ _ := eq_refl; db_put_get s := match s with mkSite (mkWorld _ _ _) _ _ => eq_refl end;
  db_put_put _ _ _ := eq_refl |}.
#[export] Instance site_runtime : Runtime site := {|
  time_Now := on_base time_Now; uuid_New := on_base uuid_New; uuid_String := uuid_String (W := world);
  ctx_Err := mret None; wait _ := mret None |}.
#[export] Instance site_emitter : EventEmitter site := {| Emit ev := on_base (Emit ev) |}.
#[export] Instance site_random : Service.Random site := {| Service.rand_Read n := on_base (Service.rand_Read n) |}.
#[export] Instance site_quiet : Quiet site.
Proof. by split. Qed.
#[export] Instance site_assets : AdminAssets := {|
  ExecuteTemplate name _ := name; admin_css := "css";
  uuid_Parse s := match Config.parseInt s with Some n => Ok (Z.to_N n) | None => Err (EOther "not a number") end |}.
#[export] Instance site_forms : FormReader := {| multipart_values _ _ := ∅ |}.
#[export] Existing Instance Middleware.Sim.amd64.

Definition response : cell site writer := {| c_get := si_writer; c_set b s := mkSite (si_base s) b (si_ip s) |}.
Definition ips : cell site ipRateLimiter := {| c_get := si_ip; c_set l s := mkSite (si_base s) (si_writer s) l |}.
Definition admin_a : admin := {|
  h_service := svc; h_sessions := newSessionManager (30 * Minute) (12 * Hour) true; h_bootstrapToken := "install"; h_cookieSecure := true |}.
Definition serve_admin (r : http_request) : st site http_response := adminMount ips (protected response admin_a) true r.

Import ApiProps.Sim(with_key, token).
Definition fresh : site := mkSite with_key new_writer (newIPRateLimiter 100 0).
Definition ask (method path cookie body : string) : http_request :=
  {| q_Method := method; q_Path := path; q_RawQuery := ""; q_RemoteAddr := "192.0.2.1:4711"; q_Host := "cron.example";
     q_Header := [("Cookie", cookie); ("Content-Type", "application/x-www-form-urlencoded"); ("Sec-Fetch-Site", "same-origin")];
     q_Body := Some body; q_BodyLimit := None; q_Context := Background |}.
Definition signing_in : http_request :=
  ask "POST" "/admin/login" "cronlite_admin_public_csrf=x" ("csrf_token=x&api_key=" +:+ QueryEscape token).
Definition signed_in : site := exec (serve_admin signing_in) fresh.
(** The cookie of the session, and the token of its forms. *)
Definition session_cookie : string := "cronlite_admin_session=" +:+ hex_encode (repeat 10%Z 32).
Definition form_token : string := "csrf_token=" +:+ hex_encode (repeat 11%Z 32).
Definition delete_job (id cookie body : string) : http_request := ask "POST" ("/admin/jobs/" +:+ id +:+ "/delete") cookie body.

Example page_statuses :
  map (fun r => p_Status (eval (serve_admin r) signed_in))
    [delete_job "102" session_cookie form_token; delete_job "105" session_cookie form_token; delete_job "x" session_cookie form_token;
     delete_job "102" session_cookie "csrf_token=guess"; delete_job "102" "" form_token; ask "GET" "/admin/jobs/102" session_cookie "";
     ask "GET" "/admin/jobs" "" ""; ask "PUT" "/admin/jobs" "" ""; ask "GET" "/admin/nothing" "" ""; ask "HEAD" "/admin" "" "";
     ask "GET" "/admin/login" "" ""; ask "GET" "/admin/setup" "" ""; ask "POST" "/admin/setup" "cronlite_admin_public_csrf=x" "csrf_token=x"] =
  [303; 404; 404; 403; 303; 200; 303; 405; 404; 307; 200; 303; 303]%Z.
Proof. vm_compute. reflexivity. Qed.

Definition signed_db : DB := db_of (si_base signed_in).
Lemma signed_tables :
  schedules signed_db = schedules (db_of with_key) /\ jobs signed_db = jobs (db_of with_key) /\
  executions signed_db = executions (db_of with_key) /\ delivery_attempts signed_db = delivery_attempts (db_of with_key) /\
  tags signed_db = tags (db_of with_key) /\ api_keys signed_db = api_keys (db_of with_key).
Proof. split_and!; vm_compute; reflexivity. Qed.
Lemma site_good I s db : (forall n db, io_others (pg_ios (w_pg (si_base s)) n) db = db) -> db_of (si_base s) = db -> I db -> db_good I s.
Proof. intros Ho E HI. subst db. split; [done |]. intros n db Hdb. by rewrite Ho. Qed.
Lemma signed_base : db_of (si_base signed_in) = signed_db.
Proof. unfold signed_db. reflexivity. Qed.
Lemma signed_in_keeps I : I signed_db -> db_good I signed_in.
Proof. intros HI. eapply site_good; [intros n db; vm_compute; reflexivity | apply signed_base | exact HI]. Qed.
#[local] Existing Instance ApiProps.Sim.server_db.
Lemma server_whole ns db0 (s : ApiProps.Sim.server) : db_good (quarantine ns db0) s ->
  wf_db (db_of (ApiProps.Sim.sv_base s)) /\ tenancy (db_of (ApiProps.Sim.sv_base s)).
Proof. intros [[Hwf Ht _] _]. by split. Qed.
Lemma key_whole : wf_db (db_of with_key) /\ tenancy (db_of with_key).
Proof.
  assert (E : ApiProps.Sim.sv_base ApiProps.Sim.fresh = with_key) by reflexivity.
  rewrite <- E. eapply server_whole. exact ApiProps.Sim.with_key_good.
Qed.

(** A database with other sessions. *)
Lemma wf_same_tables db db' :
  schedules db' = schedules db /\ jobs db' = jobs db /\ executions db' = executions db /\
  delivery_attempts db' = delivery_attempts db /\ tags db' = tags db /\ api_keys db' = api_keys db ->
  map_Forall (fun h s => as_TokenHash s = h /\ is_Some (api_keys db' !! as_APIKeyID s) /\
    (as_ExpiresAt s <= as_AbsoluteExpiresAt s)%Z) (admin_sessions db') ->
  wf_db db -> tenancy db -> wf_db db' /\ tenancy db'.
Proof.
  intros (E1 & E2 & E3 & E4 & E5 & E6) Hs [] []. rewrite E6 in Hs. split; split; rewrite ?E1, ?E2, ?E3, ?E4, ?E5, ?E6; done.
Qed.
Lemma signed_sessions : map_Forall (fun h s => as_TokenHash s = h /\ is_Some (api_keys signed_db !! as_APIKeyID s) /\
    (as_ExpiresAt s <= as_AbsoluteExpiresAt s)%Z) (admin_sessions signed_db).
Proof. apply (bool_decide_unpack _). vm_compute. exact Logic.I. Qed.
Lemma signed_whole : wf_db signed_db /\ tenancy signed_db.
Proof. destruct key_whole as [Hwf Ht]. exact (wf_same_tables _ _ signed_tables signed_sessions Hwf Ht). Qed.
Lemma signed_in_good : db_good (quarantine "a" signed_db) signed_in.
Proof.
  destruct signed_whole as [Hwf Ht]. by apply signed_in_keeps, quarantine_refl.
Qed.
Definition session_hash : string := "2db6b2a7b2fbb5fbf2ea7fcbacb5e1645fb6bf3c0d606ce5b88a23533b32d4b8".
Lemma session_owner :
  admin_sessions signed_db !! session_hash ≫= (fun s => k_Namespace <$> api_keys signed_db !! as_APIKeyID s) = Some "a"%string.
Proof. vm_compute. reflexivity. Qed.
Lemma session_token : as_CSRFToken <$> admin_sessions signed_db !! session_hash = Some (hex_encode (repeat 11%Z 32)).
Proof. vm_compute. reflexivity. Qed.
Lemma signed_in_still : db_good (fun db => admin_sessions db = admin_sessions signed_db) signed_in.
Proof. by apply (signed_in_keeps (fun db => admin_sessions db = admin_sessions signed_db)). Qed.
Lemma signed_in_jobs : db_good (fun db => jobs db = jobs signed_db) signed_in.
Proof. by apply signed_in_keeps. Qed.
End Sim.
Import Sim.

Lemma cookie_owned ns db r h : cookie_hash r = Some h ->
  admin_sessions db !! h ≫= (fun s => k_Namespace <$> api_keys db !! as_APIKeyID s) = Some ns ->
  forall x, cookie_hash r = Some x -> own_session ns db x.
Proof.
  intros -> E x [= <-] s k Hs Hk. rewrite Hs in E. cbn [mbind option_bind] in E. rewrite Hk in E. by injection E.
Qed.
Lemma good_now I (s : site) : db_good I s -> I (pg_db (db_get s)).
Proof. by intros []. Qed.
Lemma response_beside : beside response.
Proof. by intros s w. Qed.
Lemma ips_beside : beside ips.
Proof. by intros s w. Qed.

Lemma admin_tenant_isolation_witness :
  let run := adminMount ips (protected response admin_a) true (delete_job "102" session_cookie form_token) in
  p_Status (eval run signed_in) = 303%Z /\ undisturbed "a" signed_db (pg_db (db_get (exec run signed_in))).
Proof.
  assert (Hc : forall x, cookie_hash (delete_job "102" session_cookie form_token) = Some x -> own_session "a" signed_db x).
  { apply (cookie_owned _ _ _ session_hash); [vm_compute; reflexivity | exact session_owner]. }
  assert (Hp : q_Path (delete_job "102" session_cookie form_token) ∉ ["/admin/login"; "/admin/setup"]%string).
  { rewrite !elem_of_cons, elem_of_nil. intros [E|[E|[]]]; vm_compute in E; discriminate. }
  split; [vm_compute; reflexivity |].
  exact (q_und _ _ _ (good_now _ _ (admin_tenant_isolation response response_beside ips admin_a (delete_job "102" session_cookie form_token)
    true "a" signed_db signed_in ips_beside Hc (fun _ => Hp) signed_in_good))).
Defined.

(** The cookie without the token of the forms. *)
Lemma forged_not_authorised h r (w : site) db x tok :
  db_good (fun d => admin_sessions d = admin_sessions db) w -> cookie_hash r = Some x ->
  as_CSRFToken <$> admin_sessions db !! x = Some tok -> validateCSRF tok (FormValue r "csrf_token") = false ->
  q_Path r <> "/admin/setup"%string -> ~ authorised h r w.
Proof.
  intros Hw Hx Ht Hv Hp (_ & _ & [(auth & (now & s & Hs & Et) & Hv') | (E & _)]); [| done].
  unfold session_at in Hs. rewrite Hx in Hs.
  destruct (get_session_seen _ _ _ _ _ _ Hw Hs) as (db' & Edb & Hrow & _).
  rewrite Edb in Hrow. rewrite Hrow in Ht. injection Ht as Ht. rewrite Et, Ht in Hv'. congruence.
Qed.
Lemma admin_changes_authorised_witness :
  let forged := delete_job "102" session_cookie "csrf_token=guess" in
  let run := adminMount ips (protected response admin_a) true forged in
  p_Status (eval run signed_in) = 403%Z /\ jobs (pg_db (db_get (exec run signed_in))) = jobs signed_db.
Proof.
  assert (Hb : blind_to_sessions (fun db => jobs db = jobs signed_db)) by (intros db t E; exact E).
  assert (Hf : ~ authorised admin_a (delete_job "102" session_cookie "csrf_token=guess") signed_in).
  { apply (forged_not_authorised _ _ _ _ session_hash (hex_encode (repeat 11%Z 32)) signed_in_still); [vm_compute; reflexivity | apply session_token | |].
    - vm_compute. reflexivity.
    - intros E. vm_compute in E. discriminate. }
  split; [vm_compute; reflexivity |].
  exact (good_now (fun db => jobs db = jobs signed_db) _ (admin_changes_authorised response response_beside ips admin_a (delete_job "102" session_cookie "csrf_token=guess")
    true (fun db => jobs db = jobs signed_db) signed_in ips_beside Hb Hf signed_in_jobs)).
Defined.
