(* ===== verification/WebadminSession.v ===== *)
(** * Sessions of the admin pages, from signing in to the next request

    The cookie that signing in sets lets later requests in, with the key that
    was given and the token of the new session, and renews the session, until one
    of its ends. *)
From S2P Require Import Prelude GoStrings GoTime GoUrl Float64 Domain Runtime Http HttpServer Cron WebhookURL Middleware.
From S2P Require Import Pg Store StoreTheory StoreProps Wiring Tenancy ServiceTheory ServiceProps ServiceOps Transport Webadmin WebadminForms WebadminProps.
From S2P Require Service Webhook.
Local Open Scope cron_scope.

(** ** Tokens in cookies *)
Definition plain (c : ascii) : bool := is_digit c || ((97 <=? byte_of c)%Z && (byte_of c <=? 102)%Z).

Lemma hex_digit_plain n : (0 <= n < 16)%Z -> plain (hex_digit n) = true.
Proof.
  intros Hn. assert (Hin : n ∈ seqZ 0 16) by (apply elem_of_seqZ; lia).
  assert (Hall : Forall (fun n => plain (hex_digit n) = true) (seqZ 0 16)) by (apply (bool_decide_unpack _); vm_compute; exact Logic.I).
  by apply (proj1 (Forall_forall _ _) Hall).
Qed.
Lemma hex_plain bs : Forall (fun b => 0 <= b < 256)%Z bs -> str_forall plain (hex_encode bs) = true.
Proof.
  induction 1 as [|b bs Hb _ IH]; [done |]. cbn [hex_encode str_forall].
  rewrite !hex_digit_plain; [done | apply Z.mod_pos_bound; lia |].
  split; [apply Z.div_pos; lia | apply Z.div_lt_upper_bound; lia].
Qed.

(** Plain text has nothing that a cookie reader stops at. *)
Lemma plain_byte c : plain c = true -> is_space c = false /\ valid_value_byte c = true /\ c <> ";"%char /\ c <> "="%char /\ c <> of_byte 34.
Proof. destruct c as [[] [] [] [] [] [] [] []]; try discriminate; intros _; vm_compute; by split_and!. Qed.
Lemma plain_lacks c s : c = ";"%char \/ c = "="%char -> str_forall plain s = true -> lacks c s = true.
Proof.
  intros Hc. induction s as [|a s IH]; [done |]. cbn. intros [(_ & _ & H1 & H2 & _)%plain_byte Hs]%andb_true_iff.
  rewrite IH, andb_true_r by done. apply bool_decide_eq_true. destruct Hc; congruence.
Qed.
Lemma plain_trim s : str_forall plain s = true -> trim_right s = s.
Proof.
  induction s as [|a s IH]; [done |]. cbn. intros [(Ha & _)%plain_byte Hs]%andb_true_iff. rewrite IH, Ha by done. by destruct s.
Qed.
Lemma plain_valid s : str_forall plain s = true -> str_forall valid_value_byte s = true.
Proof. induction s as [|a s IH]; [done |]. cbn. intros [(_ & -> & _)%plain_byte Hs]%andb_true_iff. by apply IH. Qed.

(** A browser with one cookie sends it back as it was set. *)
Lemma cookie_sent_back r raw : str_forall plain raw = true -> raw <> ""%string ->
  Get r "Cookie" = sessionCookieName +:+ "=" +:+ raw -> request_cookie r sessionCookieName = Some raw.
Proof.
  intros Hp Hne E. unfold request_cookie. rewrite E.
  assert (El : lacks ";" (sessionCookieName +:+ "=" +:+ raw) = true) by (rewrite !lacks_app; by rewrite (plain_lacks ";"%char raw) by auto).
  rewrite Split_lacks by done. cbn [omap list_omap]. unfold cookie_part.
  assert (Et : TrimSpace (sessionCookieName +:+ "=" +:+ raw) = sessionCookieName +:+ "=" +:+ raw).
  { unfold TrimSpace. rewrite trim_left_app by done. rewrite <- str_app_assoc. apply trim_right_app; [by apply plain_trim | done]. }
  rewrite Et. change (String.eqb (sessionCookieName +:+ "=" +:+ raw) "") with false. cbv iota.
  change ("=" +:+ raw) with (String "=" raw). rewrite Cut_app by done. cbn [default id].
  change (String.eqb (TrimSpace sessionCookieName) sessionCookieName) with true. cbv iota.
  unfold parseCookieValue.
  assert (Hq : HasPrefix raw quote = false).
  { destruct raw as [|c t]; [done |]. cbn in Hp. apply andb_true_iff in Hp as [(_ & _ & _ & _ & Hc)%plain_byte _].
    apply not_true_iff_false. intros [u Hu]%HasPrefix_spec. unfold quote in Hu. rewrite str_app_cons in Hu. by injection Hu. }
  rewrite Hq, andb_false_r. cbn [andb]. by rewrite plain_valid.
Qed.

(** ** Signing in *)
Section session.
  Context {W : Type} `{!Database W, !Postgres, !Runtime W, !EventEmitter W, !Service.Random W, !CronLibrary, !NetLibrary,
    !Quiet W, !FloatConversion, !AdminAssets, !FormReader}.
  Variables (rw : cell W writer) (m : sessionManager).
  Context (Hrw : beside rw) `{!CellLaws rw}.
  (** [crypto/rand] fills the buffer with bytes. *)
  Hypothesis rand_bytes : forall n w bs, eval (Service.rand_Read n) w = Ok bs -> length bs = n /\ Forall (fun b => 0 <= b < 256)%Z bs.

Lemma try_ok {A B} (p : st W (result err A)) (k : A -> st W (result err B)) (h : err -> st W (result err B)) w b w' :
  (forall e w1, eval (h e) w1 <> Ok b) ->
  (p ≫= fun r => match r with Ok a => k a | Err e => h e end) w = (Ok b, w') ->
  exists a w1, p w = (Ok a, w1) /\ k a w1 = (Ok b, w').
Proof.
  intros Hh. unfold mbind, st_bind. destruct (p w) as [[a|e] w1]; [eauto |]. intros E. exfalso. apply (Hh e w1). unfold eval. by rewrite E.
Qed.
Lemma randomToken_run (w : W) t w' : randomToken w = (Ok t, w') -> str_forall plain t = true /\ String.length t = 64 /\ db_get w' = db_get w.
Proof.
  intros E. apply try_ok in E as (bs & w1 & Er & [= <- <-]); [| done].
  destruct (rand_bytes 32 w bs) as [Hl Hb]; [unfold eval; by rewrite Er |].
  pose proof (quiet_rand 32 w) as Hq. unfold exec in Hq. rewrite Er in Hq. split_and!; [by apply hex_plain | | exact Hq].
  by rewrite Webhook.hex_encode_length, Hl.
Qed.

(** The row of a session that is opened. *)
Definition opened_session (raw csrf : string) (key : uuid) (opened : time) : AdminSession := {|
  as_TokenHash := Service.HashToken raw; as_APIKeyID := key; as_CSRFToken := csrf; as_CreatedAt := pg_ts opened;
  as_LastSeenAt := pg_ts opened; as_ExpiresAt := pg_ts (time_add opened (m_idleTTL m));
  as_AbsoluteExpiresAt := pg_ts (time_add opened (m_absoluteTTL m)) |}.

Lemma login_run r apiKey (w : W) key w' : sessions_login rw m r apiKey w = (Ok key, w') ->
  exists raw csrf opened,
    str_forall plain raw = true /\ raw <> ""%string /\
    last (wr_Header (c_get rw w')) = Some ("Set-Cookie"%string,
      cookie_String (newSessionCookie raw opened (time_add opened (m_idleTTL m)) (m_cookieSecure m))) /\
    admin_sessions (pg_db (db_get w')) !! Service.HashToken raw = Some (opened_session raw csrf (k_ID key) opened).
Proof.
  unfold sessions_login. intros E. apply try_ok in E as (k & w1 & _ & E); [| done].
  destruct (negb (k_Enabled k)); [done |]. apply try_ok in E as ([] & w2 & _ & E); [| done].
  apply try_ok in E as (raw & w3 & (Hraw & Hlen & _)%randomToken_run & E); [| done].
  apply try_ok in E as (csrf & w4 & _ & E); [| done].
  unfold mbind at 1, st_bind in E. destruct (time_Now w4) as [opened w5]. cbv zeta in E.
  apply try_ok in E as ([] & w6 & Ec & E); [| done].
  unfold mbind, st_bind, SetCookie, Header_Set, writes, on_cell in E. injection E as <- <-.
  exists raw, csrf, opened. split_and!; [done | by intros -> | |].
  - rewrite c_get_set. cbn [wr_Header]. by rewrite last_snoc.
  - rewrite Hrw. apply lift_run in Ec. unfold CreateAdminSession in Ec. apply run_tx_went_through in Ec as [Eq _].
    unfold queryInsertAdminSession in Eq. cbv zeta in Eq. case_decide; [| done]. repeat case_match; try done.
    injection Eq as <-. cbn. by rewrite lookup_insert_eq.
Qed.

(** *** The server between requests

    A server that answers, and that nobody else uses. *)
Definition quiet_server (p : pg) : Prop := forall n, io_fault (pg_ios p n) = None /\ forall db, io_others (pg_ios p n) db = db.
Lemma quiet_next p db : quiet_server p -> quiet_server {| pg_db := db; pg_ios := stl (pg_ios p) |}.
Proof. intros Hp n. apply (Hp (S n)). Qed.
Lemma quiet_seen p : quiet_server p -> calm p /\ seen p = pg_db p.
Proof. intros Hp. destruct (Hp 0) as [Hf Ho]. split; [exact Hf | apply Ho]. Qed.

(** Neither end of the session has come, and its key is enabled. *)
Definition live (now : time) (s : AdminSession) (k : APIKey) : Prop :=
  (pg_ts now < as_ExpiresAt s)%Z /\ (pg_ts now < as_AbsoluteExpiresAt s)%Z /\ k_Enabled k = true.
#[export] Instance live_dec now s k : Decision (live now s k) := _.

Lemma get_session_quiet p h now s k : quiet_server p ->
  admin_sessions (pg_db p) !! h = Some s -> api_keys (pg_db p) !! as_APIKeyID s = Some k ->
  GetAdminSession h now p =
    (if decide (live now s k) then Ok (s, k) else Err (EDomain ErrAdminSessionNotFound), {| pg_db := pg_db p; pg_ios := stl (pg_ios p) |}).
Proof.
  intros Hp Hs Hk. destruct (quiet_seen p Hp) as [Hcalm Hseen]. unfold GetAdminSession. rewrite run_tx_fmap.
  assert (Eb : forall f : APIKey -> option (AdminSession * APIKey), Some k ≫= f = f k) by done.
  assert (Eq : queryGetAdminSession h now (env_of p) (seen p) = Ok (if decide (live now s k) then [(s, k)] else [], seen p)).
  { unfold queryGetAdminSession, query. rewrite Hseen, Hs. cbn [mbind option_bind]. rewrite Hk, Eb.
    destruct (decide (live now s k)) as [Hl|Hl]; unfold live in Hl; [by rewrite decide_True | by rewrite decide_False]. }
  case_decide.
  - erewrite run_tx_Ok; [| exact Hcalm | by eapply one_row_some]. by rewrite Hseen.
  - erewrite run_tx_Err; [| exact Hcalm | by eapply one_row_none]. by rewrite Hseen.
Qed.
Lemma refresh_quiet p h now expires s k : quiet_server p -> admin_sessions (pg_db p) !! h = Some s -> live now s k ->
  RefreshAdminSession h now expires p = (Ok tt,
    {| pg_db := set_sessions (<[h := refreshed (pg_ts now) (Z.min (pg_ts expires) (as_AbsoluteExpiresAt s)) s]> (admin_sessions (pg_db p))) (pg_db p);
       pg_ios := stl (pg_ios p) |}).
Proof.
  intros Hp Hs (L1 & L2 & _). destruct (quiet_seen p Hp) as [Hcalm Hseen]. unfold RefreshAdminSession. rewrite run_tx_fmap.
  erewrite run_tx_Ok; [| exact Hcalm | unfold queryRefreshAdminSession; rewrite Hseen, Hs, decide_True by done; reflexivity]. reflexivity.
Qed.
Lemma lift_step {A} (p : st pg A) (w : W) a q : p (db_get w) = (a, q) -> lift p w = (a, db_put q w).
Proof. intros E. unfold lift, eval, exec. by rewrite E. Qed.
Lemma SetCookie_step (c : Cookie) (w : W) : exists w', SetCookie rw c w = (tt, w') /\ db_get w' = db_get w /\
  last (wr_Header (c_get rw w')) = Some ("Set-Cookie"%string, cookie_String c).
Proof.
  unfold SetCookie, Header_Set, writes, on_cell. eexists. split; [reflexivity |]. split; [apply Hrw |].
  rewrite c_get_set. cbn [wr_Header]. by rewrite last_snoc.
Qed.

(** What a request with the token of a session makes of it. *)
Definition shown (raw : string) (now : time) (s : AdminSession) (k : APIKey) (a : result err authState)
    (stored : option AdminSession) (headers : list (string * string)) : Prop :=
  if decide (live now s k) then
    if (time_sub (as_ExpiresAt s) now <=? Z.quot (m_idleTTL m) 2)%Z then
      let until := next_expiry m now s in
      a = Ok {| a_Session := refreshed now until s; a_Key := k |} /\
      stored = Some (refreshed (pg_ts now) (Z.min (pg_ts until) (as_AbsoluteExpiresAt s)) s) /\
      last headers = Some ("Set-Cookie"%string, cookie_String (newSessionCookie raw now until (m_cookieSecure m)))
    else a = Ok {| a_Session := s; a_Key := k |} /\ stored = Some s
  else a = Err errUnauthenticated /\ stored = Some s /\
    last headers = Some ("Set-Cookie"%string, cookie_String (cleared_cookie sessionCookieName (m_cookieSecure m))).

Lemma authenticate_shown r raw s k (w : W) : str_forall plain raw = true -> raw <> ""%string ->
  Get r "Cookie" = sessionCookieName +:+ "=" +:+ raw -> quiet_server (db_get w) ->
  admin_sessions (pg_db (db_get w)) !! Service.HashToken raw = Some s -> api_keys (pg_db (db_get w)) !! as_APIKeyID s = Some k ->
  let w' := exec (authenticate rw m r) w in
  shown raw (eval time_Now w) s k (eval (authenticate rw m r) w) (admin_sessions (pg_db (db_get w')) !! Service.HashToken raw)
    (wr_Header (c_get rw w')).
Proof.
  intros Hp Hne Hr Hq Hs Hk. unfold shown, authenticate. rewrite (cookie_sent_back r raw) by done.
  apply String.eqb_neq in Hne as ->. unfold eval, exec, mbind, st_bind.
  pose proof (quiet_now w) as Hn. unfold exec in Hn. destruct (time_Now w) as [now w1]. cbn [fst snd] in *. rewrite <- Hn in Hq, Hs, Hk.
  cbn [sessions_GetAdminSession sessions_RefreshAdminSession session_store].
  rewrite (lift_step _ w1 _ _ (get_session_quiet _ _ now s k Hq Hs Hk)). set (p := mkPg _ _).
  case_decide as Hlive; cbn [fst snd].
  - destruct (_ <=? _)%Z.
    + assert (Hq2 : quiet_server (db_get (db_put p w1))) by (rewrite db_get_put; by apply quiet_next).
      assert (Hs2 : admin_sessions (pg_db (db_get (db_put p w1))) !! Service.HashToken raw = Some s) by by rewrite db_get_put.
      rewrite (lift_step _ _ _ _ (refresh_quiet _ _ now (next_expiry m now s) s k Hq2 Hs2 Hlive)).
      set (w2 := db_put _ (db_put p w1)).
      destruct (SetCookie_step (newSessionCookie raw now (next_expiry m now s) (m_cookieSecure m)) w2) as (w3 & -> & Hdb & Hlast).
      cbn [fst snd mret st_ret]. rewrite Hdb. unfold w2. rewrite db_get_put. cbn. rewrite lookup_insert_eq. by split_and!.
    + cbn. rewrite db_get_put. by split.
  - change (errors_Is _ _) with true. cbv iota. unfold clearSessionCookie.
    destruct (SetCookie_step (cleared_cookie sessionCookieName (m_cookieSecure m)) (db_put p w1)) as (w3 & -> & Hdb & Hlast).
    cbn [fst snd mret st_ret]. rewrite Hdb, db_get_put. by split_and!.
Qed.

(** The session as it was opened, but for the times that a renewal changes; its life
    does not grow. *)
Definition renewed (s0 s : AdminSession) : Prop :=
  as_TokenHash s = as_TokenHash s0 /\ as_APIKeyID s = as_APIKeyID s0 /\ as_CSRFToken s = as_CSRFToken s0 /\
  as_CreatedAt s = as_CreatedAt s0 /\ as_AbsoluteExpiresAt s = as_AbsoluteExpiresAt s0.

(** C32: a session lasts from signing in to the first of its ends. Signing in sets
    a cookie and stores a session of the key. Whenever a request comes later with that
    cookie, on a server that answers and is not changed meanwhile, and finds the
    session, as opened or as earlier requests have renewed it, it is let in, with
    the key that was given and the token of the session's forms, exactly while both ends are
    to come and the key is enabled. When half of the idle time is over, the
    session is renewed: it is kept until the idle time has passed again, but never
    beyond its second end, and the browser gets the cookie again. Otherwise the session
    stays as it is; and a request that is refused is told to drop the cookie. In
    every case the session that is left is one that the next request finds. *)
Theorem session_roundtrip r apiKey (w : W) key w' :
  sessions_login rw m r apiKey w = (Ok key, w') ->
  exists raw csrf opened,
    last (wr_Header (c_get rw w')) = Some ("Set-Cookie"%string,
      cookie_String (newSessionCookie raw opened (time_add opened (m_idleTTL m)) (m_cookieSecure m))) /\
    let session := opened_session raw csrf (k_ID key) opened in
    let stored w := admin_sessions (pg_db (db_get w)) !! Service.HashToken raw in
    stored w' = Some session /\
    forall r1 s k (w1 : W), Get r1 "Cookie" = sessionCookieName +:+ "=" +:+ raw -> quiet_server (db_get w1) ->
      stored w1 = Some s -> renewed session s -> api_keys (pg_db (db_get w1)) !! k_ID key = Some k ->
      let now := eval time_Now w1 in
      let answer := eval (authenticate rw m r1) w1 in
      let w2 := exec (authenticate rw m r1) w1 in
      let until := next_expiry m now s in
      if decide ((pg_ts now < as_ExpiresAt s)%Z /\ (pg_ts now < as_AbsoluteExpiresAt session)%Z /\ k_Enabled k = true) then
        (exists s1, answer = Ok {| a_Session := s1; a_Key := k |} /\ as_CSRFToken s1 = csrf) /\
        if (time_sub (as_ExpiresAt s) now <=? Z.quot (m_idleTTL m) 2)%Z then
          (exists s2, stored w2 = Some s2 /\ renewed session s2 /\ as_LastSeenAt s2 = pg_ts now /\
             as_ExpiresAt s2 = Z.min (pg_ts until) (as_AbsoluteExpiresAt session)) /\
          until = Z.min (time_add now (m_idleTTL m)) (as_AbsoluteExpiresAt session) /\
          last (wr_Header (c_get rw w2)) = Some ("Set-Cookie"%string, cookie_String (newSessionCookie raw now until (m_cookieSecure m)))
        else stored w2 = Some s
      else answer = Err errUnauthenticated /\ stored w2 = Some s /\
        last (wr_Header (c_get rw w2)) = Some ("Set-Cookie"%string, cookie_String (cleared_cookie sessionCookieName (m_cookieSecure m))).
Proof.
  intros (raw & csrf & opened & Hp & Hne & Hc & Hs)%login_run. exists raw, csrf, opened. split; [exact Hc |].
  cbv zeta. split; [exact Hs |]. intros r1 s k w1 Hr Hq Hrow (R1 & R2 & R3 & R4 & R5) Hk.
  change (k_ID key) with (as_APIKeyID (opened_session raw csrf (k_ID key) opened)) in Hk. rewrite <- R2 in Hk.
  pose proof (authenticate_shown r1 raw s k w1 Hp Hne Hr Hq Hrow Hk) as Hsh. unfold shown in Hsh. rewrite <- R5.
  destruct (decide (live (eval time_Now w1) s k)) as [Hl|Hl]; unfold live in Hl;
    [rewrite decide_True by exact Hl | rewrite decide_False by exact Hl; exact Hsh]. destruct (_ <=? _)%Z.
  - destruct Hsh as (Ha & Hst & Hck). split; [eexists; split; [exact Ha | exact R3] |]. split; [eexists; split; [exact Hst | by split_and!] |].
    split; [| exact Hck]. unfold next_expiry, Before. destruct (Z.ltb_spec (as_AbsoluteExpiresAt s) (time_add (eval time_Now w1) (m_idleTTL m))); lia.
  - destruct Hsh as [Ha Hst]. split; [| exact Hst]. eexists. by split; [exact Ha |].
Qed.
End session.

(** ** A concrete sign-in *)
Import WebadminProps.Sim.
Definition manager : sessionManager := h_sessions admin_a.
Definition key_of_a : APIKey :=
  match eval (sessions_login response manager signing_in ApiProps.Sim.token) fresh with Ok k => k | Err _ => mkAPIKey Nil "" "" "" false 0 None end.

Lemma sim_rand_bytes n (w : site) bs : eval (Service.rand_Read n) w = Ok bs -> length bs = n /\ Forall (fun b => 0 <= b < 256)%Z bs.
Proof.
  destruct w as [[p k ev] b l]. cbn. intros [= <-]. split; [apply repeat_length |].
  apply Forall_forall. intros x Hx%list_elem_of_In%repeat_spec. subst x. by apply Z.mod_pos_bound.
Qed.
Lemma only_row (t : gmap string AdminSession) (P : AdminSession -> bool) h s :
  match map_to_list t with [(_, s0)] => P s0 | _ => false end = true -> t !! h = Some s -> P s = true.
Proof.
  intros E Hs%elem_of_map_to_list. destruct (map_to_list t) as [|[h0 s0] [|]]; try done.
  apply list_elem_of_singleton in Hs. by injection Hs as _ ->.
Qed.
#[export] Instance response_laws : CellLaws response.
Proof. split; [done | by intros []]. Qed.

(** The same site [n] seconds later. *)
Definition later (n : N) (s : site) : site :=
  set_base {| w_pg := w_pg (si_base s); w_n := (w_n (si_base s) + n)%N; w_events := w_events (si_base s) |} s.
(** A page right after signing in, one after twenty minutes, which renews the session,
    and one after half an hour, when the session has ended. *)
Lemma session_roundtrip_witness :
  let w' := exec (sessions_login response manager signing_in ApiProps.Sim.token) fresh in
  exists raw, let page w := authenticate response manager (ask "GET" "/admin/jobs" (sessionCookieName +:+ "=" +:+ raw) "") w in
    (exists s, eval page w' = Ok {| a_Session := s; a_Key := key_of_a |}) /\
    (exists s, eval page (later 1200 w') = Ok {| a_Session := s; a_Key := key_of_a |}) /\
    eval page (later 1800 w') = Err errUnauthenticated.
Proof.
  set (w' := exec (sessions_login response manager signing_in ApiProps.Sim.token) fresh).
  assert (E : sessions_login response manager signing_in ApiProps.Sim.token fresh = (Ok key_of_a, w')) by (vm_compute; reflexivity).
  destruct (session_roundtrip response manager response_beside sim_rand_bytes signing_in ApiProps.Sim.token fresh key_of_a w' E)
    as (raw & csrf & opened & _ & Hrow & Hnext).
  set (ends n s0 := bool_decide ((pg_ts (eval time_Now (later n w')) < as_ExpiresAt s0)%Z /\
    (pg_ts (eval time_Now (later n w')) < as_AbsoluteExpiresAt s0)%Z /\ k_Enabled key_of_a = true)).
  assert (Hl : ends 0%N (opened_session manager raw csrf (k_ID key_of_a) opened) &&
    ends 1200%N (opened_session manager raw csrf (k_ID key_of_a) opened) && negb (ends 1800%N (opened_session manager raw csrf (k_ID key_of_a) opened)) = true).
  { refine (only_row (admin_sessions (pg_db (db_get w'))) (fun s0 => ends 0%N s0 && ends 1200%N s0 && negb (ends 1800%N s0)) _ _ _ Hrow).
    vm_compute. reflexivity. }
  apply andb_true_iff in Hl as [[L0%bool_decide_eq_true L1%bool_decide_eq_true]%andb_true_iff L2%negb_true_iff%bool_decide_eq_false].
  assert (Hq : forall n, quiet_server (db_get (later n w'))) by (intros n k; vm_compute; by split).
  assert (Hk : forall n, api_keys (pg_db (db_get (later n w'))) !! k_ID key_of_a = Some key_of_a) by (intros n; vm_compute; reflexivity).
  assert (H0 : later 0%N w' = w') by (vm_compute; reflexivity).
  pose proof (fun n => Hnext (ask "GET" "/admin/jobs" (sessionCookieName +:+ "=" +:+ raw) "") _ key_of_a (later n w') eq_refl (Hq n) Hrow
    (conj eq_refl (conj eq_refl (conj eq_refl (conj eq_refl eq_refl)))) (Hk n)) as H. exists raw. cbv zeta in H |- *. split_and!.
  - specialize (H 0%N). rewrite decide_True in H by exact L0. destruct H as [(s1 & Ha & _) _]. rewrite H0 in Ha. by exists s1.
  - specialize (H 1200%N). rewrite decide_True in H by exact L1. destruct H as [(s1 & Ha & _) _]. by exists s1.
  - specialize (H 1800%N). rewrite decide_False in H by exact L2. apply H.
Defined.
