(* ===== verification/Site.v ===== *)
(** * The HTTP server of [runServe]: [cmd/cronlite/main.go]

    The handlers of the transports and of the metrics page, and the multiplexer in
    front of them. The page of the metrics library is a parameter. Patterns are
    clean paths: a METRICS_PATH with a method, a host or wildcards is left out. *)
From S2P Require Import Prelude GoStrings Domain Runtime Http HttpServer Cron WebhookURL Float64 Middleware Api ApiServer Mcp Webadmin.
From S2P Require Service Config ApiProps.
Local Open Scope cron_scope.

(** [promhttp.Handler]. *)
Class MetricsPage (W : Type) : Type := { promhttp : Handler W }.

(** ** The multiplexer of [net/http]

    A pattern that ends in a slash stands for all paths below it; the longest
    pattern that fits is taken. A path that fits such a pattern but for its slash
    is redirected, unless it is a pattern itself. Registering a pattern twice, or
    one without a slash, is a panic. *)
Definition fits_pattern (pattern path : string) : bool :=
  if HasSuffix pattern "/" then HasPrefix path pattern else String.eqb pattern path.
Definition longer {A} (p : string * A) (best : option (string * A)) : option (string * A) :=
  match best with
  | Some q => if (String.length p.1 <? String.length q.1)%nat then best else Some p
  | None => Some p
  end.
Definition mux_handler {A} (l : list (string * A)) (path : string) : option A :=
  snd <$> foldr longer None (List.filter (fun p => fits_pattern p.1 path) l).
Definition moved (r : http_request) : http_response :=
  let url := q_Path r +:+ "/" +:+ (if String.eqb (q_RawQuery r) "" then "" else "?" +:+ q_RawQuery r) in
  {| p_Status := 301;
     p_Header := ("Location", url) :: (if bool_decide (q_Method r ∈ ["GET"; "HEAD"]) then [("Content-Type", "text/html; charset=utf-8")] else []);
     p_Body := if String.eqb (q_Method r) "GET"
               then "<a href=" +:+ quote +:+ htmlEscape url +:+ quote +:+ ">Moved Permanently</a>." +:+ Json.nl +:+ Json.nl else "" |}.
Definition ServeMux {W} (l : list (string * Handler W)) : Handler W := fun r =>
  let registered p := bool_decide (p ∈ l.*1) in
  if negb (registered (q_Path r)) && registered (q_Path r +:+ "/") then mret (moved r)
  else match mux_handler l (q_Path r) with
       | Some h => h r
       | None => mret (http_Error "404 page not found" 404)
       end.
Definition mux_registers (patterns : list string) : bool :=
  bool_decide (NoDup patterns) && forallb (fun p => Contains p "/") patterns.

Section site.
  Context {W : Type} `{!Service.JobRepository W, !Service.ExecutionRepository W, !Service.TagRepository W,
    !Service.DeliveryAttemptRepository W, !Service.APIKeyRepository W, !Service.Random W, !Runtime W,
    !EventEmitter W, !CronLibrary, !NetLibrary, !MapOrder, !HealthChecker W, !ParamBinding, !BodyDecoder, !TimeEncoding,
    !KeyRepository W, !FloatConversion, !McpLibrary, !StreamableServer W, !AdminAssets, !AdminSessionRepository W, !FormReader, !MetricsPage W}.

(** What the middlewares close over: every transport has limiters of its own. *)
Record site_state : Type := mkSiteState {
  ss_api : ApiProps.http_state W;
  ss_mcp_warned : cell W Z;
  ss_mcp_ns : cell W namespaceRateLimiter;
  ss_mcp_ip : cell W ipRateLimiter;
  ss_admin_ip : cell W ipRateLimiter;
  ss_metrics_dirty : cell W (gset uuid);
  ss_metrics_warned : cell W Z;
  ss_writer : cell W writer;
}.
Variables (cfg : Config.Config) (ss : site_state).

(** The service emits itself in channel mode only. *)
Definition jobService : Service.JobService :=
  if String.eqb (Config.DispatchMode cfg) "channel" then Service.WithEmitter Service.NewJobService else Service.NewJobService.

Definition newMetricsHandler (fallbackKey : string) (public : bool) : Handler W :=
  if public then promhttp else MultiKeyAuthMiddleware (ss_metrics_dirty ss) (ss_metrics_warned ss) fallbackKey promhttp.

Definition site_root : Handler W :=
  ApiProps.rootHandler jobService true (ss_api ss) (Config.CORSOrigins cfg) (Config.APIKey cfg).
Definition site_mcp : Handler W :=
  mcpHandler jobService (ss_mcp_warned ss) (ss_mcp_ns ss) (Config.APIKey cfg) (ss_mcp_ip ss).
(** [registerAdminRoutes]. *)
Definition registerAdminRoutes (handler : Handler W) : list (string * Handler W) :=
  if Config.AdminEnabled cfg then [("/admin", handler); ("/admin/", handler)] else [].

(** The handlers of [httpMux], or why the admin pages could not be set up. *)
Definition httpMux : result err (list (string * Handler W)) :=
  let metrics := if Config.MetricsEnabled cfg
    then [(Config.MetricsPath cfg, newMetricsHandler (Config.APIKey cfg) (Config.MetricsPublic cfg))] else [] in
  let rest := [("/mcp", site_mcp); ("/", site_root)] in
  if Config.AdminEnabled cfg then
    match adminHandler (ss_writer ss) (ss_admin_ip ss) cfg jobService with
    | Err e => Err e
    | Ok handler => Ok (metrics ++ registerAdminRoutes handler ++ rest)
    end
  else Ok (metrics ++ rest).
End site.
Arguments site_state : clear implicits.

Example mux_ex : map (mux_handler [("/metrics", 1); ("/admin", 2); ("/admin/", 3); ("/mcp", 4); ("/", 5)])
  ["/metrics"; "/metrics/x"; "/admin"; "/admin/jobs"; "/mcp"; "/mcp/x"; "/jobs"; "/"] =
  [Some 1; Some 5; Some 2; Some 3; Some 4; Some 5; Some 5; Some 5].
Proof. vm_compute. reflexivity. Qed.
Example mux_conflict : mux_registers ["/mcp"; "/admin"; "/admin/"; "/mcp"; "/"] = false.
Proof. vm_compute. reflexivity. Qed.
