(* ===== verification/SiteProps.v ===== *)
(** * What a request to the server can change

    The handlers of all transports behind the multiplexer, on the store. *)
From S2P Require Import Prelude GoStrings Domain Runtime Http HttpServer Cron WebhookURL Float64 Middleware Api ApiServer Mcp Webadmin Site.
From S2P Require Import Pg Store StoreTheory Wiring Tenancy ServiceTheory ServiceProps Transport WebadminProps.
From S2P Require Service Config ApiProps McpProps.
Local Open Scope cron_scope.

(** ** The multiplexer *)
Lemma longer_spec {A} (l : list (string * A)) p : foldr longer None l = Some p ->
  p ∈ l /\ forall q, q ∈ l -> (String.length q.1 <= String.length p.1)%nat.
Proof.
  revert p. induction l as [|x l IH]; [done |]. intros p. cbn [foldr]. unfold longer at 1.
  destruct (foldr longer None l) as [q|] eqn:E.
  - destruct (IH q eq_refl) as [Hq Hmax]. destruct (Nat.ltb_spec (String.length x.1) (String.length q.1)); intros [= <-].
    + split; [by right |]. intros y [->|Hy]%elem_of_cons; [lia | by apply Hmax].
    + split; [by left |]. intros y [->|Hy]%elem_of_cons; [done |]. specialize (Hmax y Hy). lia.
  - intros [= <-]. split; [by left |]. intros y [->|Hy]%elem_of_cons; [done |]. exfalso.
    destruct l as [|z l]; [by apply elem_of_nil in Hy |]. cbn [foldr] in E. unfold longer at 1 in E. by repeat case_match.
Qed.
Lemma mux_handler_spec {A} (l : list (string * A)) path h : mux_handler l path = Some h ->
  exists p, (p, h) ∈ l /\ fits_pattern p path = true /\
    forall q g, (q, g) ∈ l -> fits_pattern q path = true -> (String.length q <= String.length p)%nat.
Proof.
  unfold mux_handler. intros E. apply fmap_Some in E as ([p h'] & E & ->). apply longer_spec in E as [Hin Hmax].
  apply list_elem_of_In, filter_In in Hin as [Hin Hf]. exists p. split_and!; [by apply list_elem_of_In | done |].
  intros q g Hq Hfq. apply (Hmax (q, g)). apply list_elem_of_In, filter_In. split; [by apply list_elem_of_In | done].
Qed.
Lemma mux_outcome {W} `{!Database W} I (l : list (string * Handler W)) r w :
  (forall p h, (p, h) ∈ l -> fits_pattern p (q_Path r) = true ->
    (forall q g, (q, g) ∈ l -> fits_pattern q (q_Path r) = true -> (String.length q <= String.length p)%nat) ->
    db_good I w -> db_good I (exec (h r) w)) ->
  db_good I w -> db_good I (exec (ServeMux l r) w).
Proof.
  intros Hh Hw. unfold ServeMux. case_match; [done |]. destruct (mux_handler l (q_Path r)) as [h|] eqn:E; [| done].
  apply mux_handler_spec in E as (p & Hin & Hf & Hmax). eauto.
Qed.

(** The path of the admin pages. *)
Definition in_admin (cfg : Config.Config) (r : http_request) : bool :=
  Config.AdminEnabled cfg && (String.eqb (q_Path r) "/admin" || HasPrefix (q_Path r) "/admin/").

Section isolation.
  Context {W : Type} `{!Database W, !Postgres, !Runtime W, !EventEmitter W, !Service.Random W, !CronLibrary, !NetLibrary,
    !Quiet W, !MapOrder, !HealthChecker W, !ParamBinding, !BodyDecoder, !TimeEncoding, !FloatConversion,
    !McpLibrary, !StreamableServer W, !McpProps.Confined W, !AdminAssets, !FormReader, !MetricsPage W}.
  Variables (cfg : Config.Config) (ss : site_state W).

(** The state of the middlewares is not in the database, and the page of the
    metrics reads no more than they do. *)
Class SiteApart : Prop := {
  apart_api :: ApiProps.HttpApart W (ss_api ss);
  apart_mcp_warned : beside (ss_mcp_warned ss);
  apart_mcp_ns : beside (ss_mcp_ns ss);
  apart_mcp_ip : beside (ss_mcp_ip ss);
  apart_admin_ip : beside (ss_admin_ip ss);
  apart_metrics_dirty : beside (ss_metrics_dirty ss);
  apart_metrics_warned : beside (ss_metrics_warned ss);
  apart_writer : beside (ss_writer ss);
  metrics_apart r w : db_get (exec (promhttp r) w) = db_get w;
}.
Context `{!SiteApart}.

Lemma metrics_keeps I key public r : maintains I (newMetricsHandler ss key public r).
Proof.
  assert (Hp : forall r, maintains I (promhttp r)) by (intros r0; apply keeps_quiet, metrics_apart).
  unfold newMetricsHandler. destruct public; [apply Hp |]. unfold MultiKeyAuthMiddleware.
  case_match; [apply Hp |]. case_match; [apply keeps_answer |]. cbv zeta.
  assert (Hf : maintains I (if negb (String.eqb key "") && ConstantTimeCompare (TrimPrefix (Get r "Authorization") "Bearer ") key
    then legacy_warning (ss_metrics_warned ss) ≫= fun _ => promhttp (WithContext (NamespaceToContext (q_Context r) "default") r)
    else mret Middleware.unauthorized)).
  { case_match; [| apply keeps_answer]. apply keeps_bind; [| intros []; apply Hp].
    apply keeps_quiet. intros w. apply warning_quiet, apart_metrics_warned. }
  apply keeps_bind; [apply keeps_GetKeyByTokenHash |]. intros [k|e]; [| done]. destruct (k_Enabled k); [| done].
  apply keeps_bind; [apply keeps_cell, apart_metrics_dirty |]. intros []. apply Hp.
Qed.

(** The admin whose pages are mounted. *)
Definition site_admin : admin := {|
  h_service := jobService cfg;
  h_sessions := newSessionManager (Config.AdminSessionTTL cfg) (Config.AdminSessionAbsoluteTTL cfg) (Config.AdminCookieSecure cfg);
  h_bootstrapToken := Config.AdminBootstrapToken cfg; h_cookieSecure := Config.AdminCookieSecure cfg |}.
Lemma adminHandler_Ok limiter h : adminHandler (ss_writer ss) limiter cfg (jobService cfg) = Ok h ->
  h = adminMount limiter (protected (ss_writer ss) site_admin) (Config.AdminCookieSecure cfg).
Proof. unfold adminHandler, NewHandler. intros E. by repeat case_match; simplify_eq. Qed.

(** What is registered, by its pattern. *)
Lemma registered l p h : httpMux cfg ss = Ok l -> (p, h) ∈ l ->
  h = newMetricsHandler ss (Config.APIKey cfg) (Config.MetricsPublic cfg) \/
  (Config.AdminEnabled cfg = true /\ p ∈ ["/admin"; "/admin/"]%string /\
   h = adminMount (ss_admin_ip ss) (protected (ss_writer ss) site_admin) (Config.AdminCookieSecure cfg)) \/
  (p = "/mcp"%string /\ h = site_mcp cfg ss) \/ (p = "/"%string /\ h = site_root cfg ss).
Proof.
  unfold httpMux, registerAdminRoutes. intros El Hin.
  assert (Hm : (p, h) ∈ (if Config.MetricsEnabled cfg then [(Config.MetricsPath cfg, newMetricsHandler ss (Config.APIKey cfg) (Config.MetricsPublic cfg))] else []) ->
    h = newMetricsHandler ss (Config.APIKey cfg) (Config.MetricsPublic cfg)).
  { destruct (Config.MetricsEnabled cfg); rewrite ?elem_of_cons, elem_of_nil; [| done]. by intros [[= _ ->]|[]]. }
  destruct (Config.AdminEnabled cfg).
  - destruct (adminHandler _ _ _ _) as [ah|] eqn:Ea; [| done]. apply adminHandler_Ok in Ea. injection El as <-.
    apply elem_of_app in Hin as [Hin | Hin]; [left; by apply Hm |].
    cbn [app] in Hin. rewrite !elem_of_cons, elem_of_nil in Hin.
    destruct Hin as [[= -> ->]|[[= -> ->]|[[= -> ->]|[[= -> ->]|[]]]]]; subst.
    + right; left. split_and!; [done | by left | done].
    + right; left. split_and!; [done | by right; left | done].
    + right; right; by left.
    + right; right; by right.
  - injection El as <-. apply elem_of_app in Hin as [Hin | Hin]; [left; by apply Hm |].
    rewrite !elem_of_cons, elem_of_nil in Hin. destruct Hin as [[= -> ->]|[[= -> ->]|[]]]; right; right; [by left | by right].
Qed.
(** Below [/admin] the pattern for everything else is not taken. *)
Lemma admin_registered l r p : httpMux cfg ss = Ok l -> in_admin cfg r = true -> p = "/"%string ->
  exists q g, (q, g) ∈ l /\ fits_pattern q (q_Path r) = true /\ (String.length p < String.length q)%nat.
Proof.
  unfold httpMux, in_admin, registerAdminRoutes. intros El Hr ->. apply andb_true_iff in Hr as [Ha Hp]. rewrite Ha in El.
  destruct (adminHandler _ _ _ _) as [ah|]; [| done]. injection El as <-.
  apply orb_true_iff in Hp as [->%String.eqb_eq | Hp].
  - exists "/admin"%string, ah. split_and!; [| reflexivity | cbn; lia]. apply elem_of_app. right. by left.
  - exists "/admin/"%string, ah. split_and!; [| exact Hp | cbn; lia]. apply elem_of_app. right. right. by left.
Qed.
Lemma outside_admin r p : in_admin cfg r = false -> Config.AdminEnabled cfg = true -> p ∈ ["/admin"; "/admin/"]%string ->
  fits_pattern p (q_Path r) = false.
Proof.
  unfold in_admin. intros Hr Ha Hp. rewrite Ha in Hr. apply orb_false_iff in Hr as [Ho Hb].
  rewrite !elem_of_cons, elem_of_nil in Hp. destruct Hp as [->|[->|[]]]; [| exact Hb].
  change (String.eqb "/admin" (q_Path r) = false). by rewrite String.eqb_sym.
Qed.

(** C3: the whole server. Outside the admin pages a request with the key of a
    namespace leaves the rows of the other namespaces as they were, and one without
    a valid key keeps every property of the database; on the admin pages a request
    that is not authorised changes nothing but sessions. *)
Theorem site_isolation l r w :
  httpMux cfg ss = Ok l ->
  let run := ServeMux l r in
  if in_admin cfg r then
    forall I, blind_to_sessions I -> ~ authorised site_admin r w -> db_good I w -> db_good I (exec run w)
  else match namespace_of (Config.APIKey cfg) r w with
  | Some ns => forall db0, db_good (quarantine ns db0) w -> db_good (quarantine ns db0) (exec run w)
  | None => forall I, db_good I w -> db_good I (exec run w)
  end.
Proof.
  intros El run. unfold run. destruct (in_admin cfg r) eqn:Er.
  - intros I Hb Hn. apply mux_outcome. intros p h Hin Hf Hmax Hw.
    destruct (registered l p h El Hin) as [-> | [(_ & _ & ->) | [(-> & ->) | (-> & ->)]]].
    + by apply metrics_keeps.
    + by apply admin_guarded; [apply apart_writer | apply apart_admin_ip | | |].
    + exfalso. unfold in_admin in Er. apply andb_true_iff in Er as [_ Ep]. unfold fits_pattern in Hf.
      vm_compute (HasSuffix "/mcp" "/") in Hf. apply String.eqb_eq in Hf. rewrite <- Hf in Ep. done.
    + destruct (admin_registered l r "/" El Er eq_refl) as (q & g & Hq & Hfq & Hlen). specialize (Hmax q g Hq Hfq). lia.
  - assert (Hall : forall I, maintains I (newMetricsHandler ss (Config.APIKey cfg) (Config.MetricsPublic cfg) r) ->
      (db_good I w -> db_good I (exec (site_mcp cfg ss r) w)) -> (db_good I w -> db_good I (exec (site_root cfg ss r) w)) ->
      db_good I w -> db_good I (exec (ServeMux l r) w)).
    { intros I Hm Hmcp Hroot. apply mux_outcome. intros p h Hin Hf _.
      destruct (registered l p h El Hin) as [-> | [(Ha & Hp & ->) | [(-> & ->) | (-> & ->)]]]; [| | done | done].
      - apply Hm.
      - by rewrite (outside_admin r p Er Ha Hp) in Hf. }
    pose proof (McpProps.mcp_isolated (jobService cfg) (ss_mcp_warned ss) (ss_mcp_ns ss) (ss_mcp_ip ss) (Config.APIKey cfg) r w
      apart_mcp_warned apart_mcp_ns apart_mcp_ip) as Hmcp. cbv zeta in Hmcp.
    pose proof (ApiProps.http_isolated (jobService cfg) true (ss_api ss) (Config.CORSOrigins cfg) (Config.APIKey cfg) r w) as Hroot. cbv zeta in Hroot.
    destruct (namespace_of (Config.APIKey cfg) r w) as [ns|].
    + intros db0. apply Hall; [apply metrics_keeps | apply Hmcp |]. destruct (exempt (q_Path r)); [apply Hroot | apply Hroot].
    + intros I. apply Hall; [apply metrics_keeps | apply Hmcp |].
      destruct (exempt (q_Path r)); [apply Hroot | apply Hroot].
Qed.
End isolation.

(** ** A concrete server

    That of [ApiProps] with the state of the other transports beside it; the
    protocol is that of [McpProps], the pages are those of [WebadminProps]. *)
Module Sim.
Export McpProps.Sim.
#[export] Existing Instance WebadminProps.Sim.site_assets.
#[export] Existing Instance WebadminProps.Sim.site_forms.
Record host : Type := mkHost {
  ho_server : server; ho_writer : writer; ho_admin_ip : ipRateLimiter; ho_mcp : Z * ipRateLimiter * namespaceRateLimiter; ho_metrics : gset uuid * Z }.
Definition set_server (s : server) (h : host) : host := mkHost s (ho_writer h) (ho_admin_ip h) (ho_mcp h) (ho_metrics h).
Definition set_mcp m (h : host) : host := mkHost (ho_server h) (ho_writer h) (ho_admin_ip h) m (ho_metrics h).
Definition set_metrics m (h : host) : host := mkHost (ho_server h) (ho_writer h) (ho_admin_ip h) (ho_mcp h) m.
Definition on_server {A} (m : st server A) : st host A := fun h => let '(a, s) := m (ho_server h) in (a, set_server s h).
#[export] Instance host_db : Database host := {|
  db_get h := db_get (ho_server h); db_put p h := set_server (db_put p (ho_server h)) h;
  db_get_put _ _ := eq_refl; db_put_get h := match h with mkHost (mkServer (mkWorld _ _ _) _ _ _ _) _ _ _ _ => eq_refl end;
  db_put_put _ _ _ := eq_refl |}.
#[export] Instance host_runtime : Runtime host := {|
  time_Now := on_server time_Now; uuid_New := on_server uuid_New; uuid_String := uuid_String (W := server);
  ctx_Err := mret None; wait _ := mret None |}.
#[export] Instance host_emitter : EventEmitter host := {| Emit ev := on_server (Emit ev) |}.
#[export] Instance host_random : Service.Random host := {| Service.rand_Read n := on_server (Service.rand_Read n) |}.
#[export] Instance host_quiet : Quiet host.
Proof. by split. Qed.
#[export] Instance host_health : HealthChecker host := {| PingContext := mret (Ok tt) |}.
#[export] Instance host_page : MetricsPage host := {| promhttp _ := mret {| p_Status := 200; p_Header := []; p_Body := "metrics" |} |}.

(** A cell of the server in the host. *)
Definition inner {S} (c : cell server S) : cell host S := {|
  c_get h := c_get c (ho_server h); c_set s h := set_server (c_set c s (ho_server h)) h |}.
Definition state : site_state host := {|
  ss_api := {| ApiProps.hs_dirty := inner (ApiProps.hs_dirty hs); ApiProps.hs_warned := inner (ApiProps.hs_warned hs);
               ApiProps.hs_ip := inner (ApiProps.hs_ip hs); ApiProps.hs_ns := inner (ApiProps.hs_ns hs) |};
  ss_mcp_warned := {| c_get h := (ho_mcp h).1.1; c_set s h := set_mcp (s, (ho_mcp h).1.2, (ho_mcp h).2) h |};
  ss_mcp_ns := {| c_get h := (ho_mcp h).2; c_set s h := set_mcp ((ho_mcp h).1, s) h |};
  ss_mcp_ip := {| c_get h := (ho_mcp h).1.2; c_set s h := set_mcp ((ho_mcp h).1.1, s, (ho_mcp h).2) h |};
  ss_admin_ip := {| c_get := ho_admin_ip; c_set s h := mkHost (ho_server h) (ho_writer h) s (ho_mcp h) (ho_metrics h) |};
  ss_metrics_dirty := {| c_get h := (ho_metrics h).1; c_set s h := set_metrics (s, (ho_metrics h).2) h |};
  ss_metrics_warned := {| c_get h := (ho_metrics h).2; c_set s h := set_metrics ((ho_metrics h).1, s) h |};
  ss_writer := {| c_get := ho_writer; c_set s h := mkHost (ho_server h) s (ho_admin_ip h) (ho_mcp h) (ho_metrics h) |} |}.
#[export] Instance state_apart : SiteApart state.
Proof. split; [split |..]; first [intros ? ?; reflexivity | intros ?; reflexivity]. Qed.

(** The default configuration with the admin pages, and the server that it makes. *)
Definition cfg : Config.Config := Config.Load (fun name =>
  if String.eqb name "ADMIN_ENABLED" then "true" else if String.eqb name "METRICS_ENABLED" then "true" else "").
Definition idle : host := mkHost fresh new_writer (newIPRateLimiter 10 0) (0%Z, newIPRateLimiter 10 0, newNamespaceRateLimiter 100) (∅, 0%Z).
Definition answer (r : http_request) : option Z :=
  match httpMux cfg state with Ok l => Some (p_Status (eval (ServeMux l r) idle)) | Err _ => None end.
Example answers : map answer
  [call "DELETE" "/jobs/102" token; call "DELETE" "/jobs/102" "guess"; call "GET" "/metrics" "guess"; call "GET" "/metrics" token;
   agent_call "delete-job" "102" token; agent_call "delete-job" "102" "guess"; call "GET" "/admin/jobs" token; call "GET" "/admin/login" "";
   call "GET" "/mcp/x" "guess"; call "GET" "/health" ""] =
  [Some 204; Some 401; Some 401; Some 200; Some 200; Some 401; Some 303; Some 200; Some 404; Some 200]%Z.
Proof. vm_compute. reflexivity. Qed.

Lemma served : is_ok (httpMux cfg state) = true.
Proof. vm_compute. reflexivity. Qed.
Lemma idle_good I : I (db_of with_key) -> db_good I idle.
Proof. intros HI. eapply (calm_good I with_key); [intros n db; vm_compute; reflexivity | exact HI]. Qed.
Lemma idle_quarantine : db_good (quarantine "a" (db_of with_key)) idle.
Proof. exact with_key_good. Qed.
Lemma host_now I (h : host) : db_good I h -> I (pg_db (db_get h)).
Proof. by intros []. Qed.
End Sim.
Import Sim.

Lemma site_isolation_witness : exists l, httpMux cfg state = Ok l /\
  undisturbed "a" (db_of with_key) (pg_db (db_get (exec (ServeMux l (call "DELETE" "/jobs/102" token)) idle))) /\
  jobs (pg_db (db_get (exec (ServeMux l (agent_call "delete-job" "102" "guess")) idle))) = jobs (db_of with_key).
Proof.
  pose proof served as Hs. destruct (httpMux cfg state) as [l|] eqn:El; [| discriminate Hs]. clear Hs. exists l. split; [done |].
  assert (E : namespace_of (Config.APIKey cfg) (call "DELETE" "/jobs/102" token) idle = Some "a"%string) by (vm_compute; reflexivity).
  assert (E' : namespace_of (Config.APIKey cfg) (agent_call "delete-job" "102" "guess") idle = None) by (vm_compute; reflexivity).
  assert (F : in_admin cfg (call "DELETE" "/jobs/102" token) = false) by (vm_compute; reflexivity).
  assert (F' : in_admin cfg (agent_call "delete-job" "102" "guess") = false) by (vm_compute; reflexivity).
  pose proof (site_isolation cfg state l (call "DELETE" "/jobs/102" token) idle El) as Hgood.
  pose proof (site_isolation cfg state l (agent_call "delete-job" "102" "guess") idle El) as Hbad.
  cbv zeta in *. rewrite F, E in Hgood. rewrite F', E' in Hbad. split.
  - exact (q_und _ _ _ (host_now _ _ (Hgood _ idle_quarantine))).
  - exact (host_now (fun db => jobs db = jobs (db_of with_key)) _ (Hbad _ (idle_good (fun db => jobs db = jobs (db_of with_key)) eq_refl))).
Defined.
