(* ===== verification/Serve.v ===== *)
(** * The commands: [cmd/cronlite/main.go]

    [main] with its commands, and the life of [cronlite serve]: what is set up from
    the configuration, what runs, and in which order it stops. The operating
    system, the driver of the database and the goroutines are the class [Process];
    the text of the usage and plain log lines are left out, warnings are not. *)
From S2P Require Import Prelude GoStrings Domain Runtime Trace Site.
From S2P Require Config Scheduler Dispatcher CircuitBreaker Reconciler EventBus Service.
Local Open Scope cron_scope.

(** ** Exit codes *)
Definition exitSuccess : Z := 0.
Definition exitRuntimeError : Z := 1.
Definition exitInvalidConfig : Z := 2.
Inductive exit : Type := Exit (code : Z) | Panic (msg : string).

(** ** Warnings at the start: [logConfigWarnings] *)
Inductive warning : Type :=
| ChannelWithoutReconciler
| DbWithoutReconciler
| NoReconciler
| NoMetrics
| SingleInstance
| SingleWorker
| UnsafeRequeueThreshold (threshold : duration)
| UnencryptedDatabase.
Definition logConfigWarnings (cfg : Config.Config) : list warning :=
  let mode m := String.eqb (Config.DispatchMode cfg) m in
  let note (b : bool) (x : warning) := if b then [x] else [] in
  note (mode "channel" && negb (Config.ReconcileEnabled cfg)) ChannelWithoutReconciler ++
  note (mode "db" && negb (Config.ReconcileEnabled cfg)) DbWithoutReconciler ++
  note (negb (Config.ReconcileEnabled cfg)) NoReconciler ++
  note (negb (Config.MetricsEnabled cfg)) NoMetrics ++
  note (mode "channel") SingleInstance ++
  note (mode "db" && (Config.DispatcherWorkers cfg =? 1)%Z) SingleWorker ++
  note (String.eqb (Config.Environment cfg) "benchmark" && (0 <? Config.ReconcileRequeueThreshold cfg)%Z &&
        (Config.ReconcileRequeueThreshold cfg <? Dispatcher.MaxRetryDuration)%Z)
    (UnsafeRequeueThreshold (Config.ReconcileRequeueThreshold cfg)) ++
  note (Contains (Config.DatabaseURL cfg) "sslmode=disable") UnencryptedDatabase.

(** ** What runs *)
Definition httpReadHeaderTimeout : duration := 5 * Second.
Definition httpReadTimeout : duration := 30 * Second.
Definition httpIdleTimeout : duration := 60 * Second.
Record http_server : Type := mkHttpServer {
  hsv_Addr : string; hsv_ReadHeaderTimeout : duration; hsv_ReadTimeout : duration; hsv_IdleTimeout : duration; hsv_WriteTimeout : duration }.
Definition newHTTPServer (addr : string) : http_server :=
  {| hsv_Addr := addr; hsv_ReadHeaderTimeout := httpReadHeaderTimeout; hsv_ReadTimeout := httpReadTimeout;
     hsv_IdleTimeout := httpIdleTimeout; hsv_WriteTimeout := 0 |}.

(** Where the dispatcher takes its work from. *)
Inductive dispatch_source : Type :=
| FromBus (bus : EventBus.EventBus)
| FromDatabase (pollInterval : duration) (workers : Z).
(** The duties of a leader are those of [Leader], with this scheduler and this
    reconciler. *)
Record leader_duties : Type := mkDuties { ld_scheduler : Scheduler.Scheduler; ld_reconciler : option Reconciler.Reconciler }.
Inductive activity : Type :=
| Listening (s : http_server) (patterns : list string)
| Dispatching (d : Dispatcher.Dispatcher) (breaker : option CircuitBreaker.CircuitBreaker) (source : dispatch_source)
| Scheduling (s : Scheduler.Scheduler)
| Reconciling (r : Reconciler.Reconciler)
| Electing (lockKey : Z) (retry heartbeat : duration) (metrics : bool) (duties : leader_duties)
(** [flushLoop] of the [lastUsedTracker] of an authentication middleware, that of
    the REST API or that of the metrics *)
| Tracking (of_metrics : bool).
Inductive kind : Type := KHTTP | KDispatcher | KScheduler | KReconciler | KElector | KTracker | KMetricsTracker.
#[export] Instance kind_eq_dec : EqDecision kind.
Proof. solve_decision. Defined.
Definition kind_of (a : activity) : kind :=
  match a with
  | Listening _ _ => KHTTP | Dispatching _ _ _ => KDispatcher | Scheduling _ => KScheduler | Reconciling _ => KReconciler
  | Electing _ _ _ _ _ => KElector | Tracking of_metrics => if of_metrics then KMetricsTracker else KTracker
  end.

Section components.
  Variable cfg : Config.Config.
Definition with_metrics {A} (f : A -> A) (a : A) : A := if Config.MetricsEnabled cfg then f a else a.
Definition make_bus : EventBus.EventBus :=
  EventBus.NewEventBus (Z.to_nat (Config.EventBusBufferSize cfg)) (if Config.MetricsEnabled cfg then [EventBus.WithMetrics] else []).
Definition make_scheduler : Scheduler.Scheduler :=
  with_metrics Scheduler.WithMetrics (Scheduler.New
    {| Scheduler.TickInterval := Config.TickInterval cfg; Scheduler.MaxFiresPerTick := Config.MaxFiresPerTick cfg |}).
Definition make_breaker : option CircuitBreaker.CircuitBreaker :=
  if (0 <? Config.CircuitBreakerThreshold cfg)%Z
  then Some (CircuitBreaker.New (Config.CircuitBreakerThreshold cfg) (Config.CircuitBreakerCooldown cfg)) else None.
Definition make_dispatcher : Dispatcher.Dispatcher :=
  let disp := with_metrics Dispatcher.WithMetrics (Dispatcher.WithDrainTimeout Dispatcher.New (Config.DispatcherDrainTimeout cfg)) in
  let disp := if String.eqb (Config.RedisAddr cfg) "" then disp else Dispatcher.WithAnalytics disp in
  match make_breaker with Some _ => Dispatcher.WithCircuitBreaker disp | None => disp end.
Definition make_reconciler : option Reconciler.Reconciler :=
  if Config.ReconcileEnabled cfg then
    Some (with_metrics Reconciler.WithMetrics (Reconciler.New
      {| Reconciler.Interval := Config.ReconcileInterval cfg; Reconciler.Threshold := Config.ReconcileThreshold cfg;
         Reconciler.RequeueThreshold := Config.ReconcileRequeueThreshold cfg; Reconciler.BatchSize := Config.ReconcileBatchSize cfg |}))
  else None.
Definition db_mode : bool := String.eqb (Config.DispatchMode cfg) "db".
End components.

(** ** The process *)
Inductive action : Type :=
| Usage
| Out (s : string)
| ErrOut (s : string)
| Warn (x : warning)
| OpenDB (url : string)
| SetPool (maxOpen maxIdle : Z) (lifetime idleTime : duration)
| CloseDB
| Go (a : activity)
| CancelApp             (* [cancelApp]: the end of [appCtx], the context of the trackers *)
| Cancel (k : kind)
| Join (k : kind)       (* waits until the goroutine has returned *)
| AwaitSignal
| ShutdownHTTP (timeout : duration) (r : result err unit).
Class Process (W : Type) : Type := {
  act : action -> st W unit;
  sql_Open : string -> st W (result err unit);
  db_Ping : st W (result err unit);
  db_QueryRow : string -> st W (result err (option string));   (* [None] is [sql.ErrNoRows] *)
  http_Shutdown : duration -> st W (result err unit);
}.
(** The record of what was done; asking the database is not in it. *)
Class ProcessLog (W : Type) `{!Process W} : Type := {
  p_log : W -> list action;
  log_act a w : p_log (exec (act a) w) = p_log w ++ [a];
  log_Open url w : p_log (exec (sql_Open url) w) = p_log w ++ [OpenDB url];
  log_Ping w : p_log (exec db_Ping w) = p_log w;
  log_QueryRow q w : p_log (exec (db_QueryRow q) w) = p_log w;
  log_Shutdown d w : p_log (exec (http_Shutdown d) w) = p_log w ++ [ShutdownHTTP d (eval (http_Shutdown d) w)];
}.

Section commands.
  Context {W : Type} `{!Process W}.
  Variables (version commit : string) (getenv : string -> string).
  (* the patterns of [Site.httpMux], or why the admin pages could not be set up *)
  Variable handlers : Config.Config -> result err (list string).

Definition fail (code : Z) (msg : string) : st W exit := act (ErrOut (msg +:+ Json.nl)) ≫= fun _ => mret (Exit code).
Fixpoint acts (l : list action) : st W unit := match l with [] => mret tt | a :: l' => act a ≫= fun _ => acts l' end.

Definition claimed_at_query : string :=
  "SELECT column_name FROM information_schema.columns WHERE table_schema='public' AND table_name='executions' AND column_name='claimed_at'".
Definition probeClaimedAtColumn : st W (result err unit) :=
  (fun r => match r with
            | Ok (Some _) => Ok tt
            | Ok None => Err (EOther "column 'claimed_at' not found on 'executions' table — apply migration 003_add_claimed_at.sql")
            | Err e => Err e
            end) <$> db_QueryRow claimed_at_query.

(** What is started in a mode, and the function [shutdown] that stops it. *)
Definition started (cfg : Config.Config) : list activity :=
  if db_mode cfg then
    [Electing (Config.LeaderLockKey cfg) (Config.LeaderRetryInterval cfg) (Config.LeaderHeartbeatInterval cfg) (Config.MetricsEnabled cfg)
      {| ld_scheduler := make_scheduler cfg; ld_reconciler := make_reconciler cfg |}]
  else Scheduling (make_scheduler cfg) :: match make_reconciler cfg with Some r => [Reconciling r] | None => [] end.
Definition shutdown (cfg : Config.Config) : list action :=
  flat_map (fun a => [Cancel (kind_of a); Join (kind_of a)]) (started cfg).
Definition dispatching (cfg : Config.Config) : activity :=
  Dispatching (make_dispatcher cfg) (make_breaker cfg)
    (if db_mode cfg then FromDatabase (Config.DBPollInterval cfg) (Config.DispatcherWorkers cfg) else FromBus (make_bus cfg)).

(** From the HTTP server to the signal and back. *)
Definition serve_until_signal (cfg : Config.Config) (patterns : list string) : st W exit :=
  act (Go (Listening (newHTTPServer (Config.HTTPAddr cfg)) patterns)) ≫= fun _ =>
  act (Go (dispatching cfg)) ≫= fun _ =>
  acts (map Go (started cfg)) ≫= fun _ =>
  act AwaitSignal ≫= fun _ =>
  acts (shutdown cfg) ≫= fun _ =>
  acts [Cancel KDispatcher; Join KDispatcher] ≫= fun _ =>
  http_Shutdown (Config.HTTPShutdownTimeout cfg) ≫= fun _ =>
  mret (Exit exitSuccess).
(** The trackers that the middlewares start when they are built, for the REST API
    and for metrics that need a key. *)
Definition trackers (cfg : Config.Config) : list activity :=
  Tracking false :: if Config.MetricsEnabled cfg && negb (Config.MetricsPublic cfg) then [Tracking true] else [].
(** [defer cancelApp()]; a panic runs it too. *)
Definition with_app_context (m : st W exit) : st W exit := m ≫= fun e => act CancelApp ≫= fun _ => mret e.
(** With an open database, which is closed on every way out. *)
Definition serve_with_db (cfg : Config.Config) : st W exit :=
  act (SetPool (Config.DBMaxOpenConns cfg) (Config.DBMaxIdleConns cfg) (Config.DBConnMaxLifetime cfg) (Config.DBConnMaxIdleTime cfg)) ≫= fun _ =>
  try _ := db_Ping catch e => fail exitRuntimeError ("failed to connect to database: " +:+ Error e) in
  try _ := (if db_mode cfg then probeClaimedAtColumn else mret (Ok tt)) catch e =>
    fail exitInvalidConfig ("DISPATCH_MODE=db migration probe failed: " +:+ Error e) in
  with_app_context (
    acts (map Go (trackers cfg)) ≫= fun _ =>
    match handlers cfg with
    | Err e => fail exitRuntimeError ("failed to initialize admin UI: " +:+ Error e)
    | Ok patterns =>
        if mux_registers patterns then serve_until_signal cfg patterns
        else mret (Panic "http: invalid or conflicting pattern")
    end).
Definition closing (m : st W exit) : st W exit := m ≫= fun e => act CloseDB ≫= fun _ => mret e.

Definition runServe (args : list string) : st W exit :=
  if existsb (fun a => String.eqb a "--help" || String.eqb a "-h") args then act Usage ≫= fun _ => mret (Exit exitSuccess) else
  let cfg := Config.Load getenv in
  match Config.Validate cfg with
  | [] =>
      acts (map Warn (logConfigWarnings cfg)) ≫= fun _ =>
      try _ := sql_Open (Config.DatabaseURL cfg) catch e => fail exitRuntimeError ("failed to open database: " +:+ Error e) in
      closing (serve_with_db cfg)
  | errors => fail exitInvalidConfig ("configuration error: " +:+ Config.errors_Error errors)
  end.

Definition runValidate : st W exit :=
  match Config.Validate (Config.Load getenv) with
  | [] => act (Out ("configuration valid" +:+ Json.nl)) ≫= fun _ => mret (Exit exitSuccess)
  | errors => fail exitInvalidConfig (Config.errors_Error errors)
  end.
Definition runConfig : st W exit :=
  act (Out (Config.MaskedJSON (Config.Load getenv) +:+ Json.nl)) ≫= fun _ => mret (Exit exitSuccess).
Definition runVersion : st W exit :=
  act (Out ("cronlite version " +:+ version +:+ " (commit: " +:+ commit +:+ ")" +:+ Json.nl)) ≫= fun _ => mret (Exit exitSuccess).

Section create_key.
  Context `{!Service.APIKeyRepository W, !Service.Random W, !Runtime W}.
Definition key_text (r : Service.CreateAPIKeyResult) : string :=
  let line name v := "  " +:+ name +:+ v +:+ Json.nl in
  "API Key created:" +:+ Json.nl +:+ line "ID:        " (uuid_String (k_ID (Service.kr_Key r))) +:+
  line "Namespace: " (k_Namespace (Service.kr_Key r)) +:+ line "Label:     " (k_Label (Service.kr_Key r)) +:+
  line "Token:     " (Service.kr_PlaintextToken r) +:+ Json.nl +:+ "Save this token — it cannot be retrieved again." +:+ Json.nl.
Definition runCreateKey (args : list string) : st W exit :=
  match args with
  | [namespace; label] =>
      let cfg := Config.Load getenv in
      try _ := sql_Open (Config.DatabaseURL cfg) catch e => fail exitRuntimeError ("failed to open database: " +:+ Error e) in
      closing (
        try _ := db_Ping catch e => fail exitRuntimeError ("failed to connect to database: " +:+ Error e) in
        try result := Service.CreateAPIKey (NamespaceToContext Background namespace) {| Service.ki_Label := label |} catch e =>
          fail exitRuntimeError ("failed to create API key: " +:+ Error e) in
        act (Out (key_text result)) ≫= fun _ => mret (Exit exitSuccess))
  | _ => fail exitRuntimeError "usage: cronlite create-key <namespace> <label>"
  end.

(** [os.Args] without the name of the program. *)
Definition main (args : list string) : st W exit :=
  match args with
  | [] => act Usage ≫= fun _ => mret (Exit exitRuntimeError)
  | cmd :: rest =>
      if String.eqb cmd "serve" then runServe rest
      else if String.eqb cmd "validate" then runValidate
      else if String.eqb cmd "config" then runConfig
      else if String.eqb cmd "version" then runVersion
      else if String.eqb cmd "create-key" then runCreateKey rest
      else if existsb (String.eqb cmd) ["--help"; "-h"; "help"] then act Usage ≫= fun _ => mret (Exit exitSuccess)
      else act (ErrOut ("unknown command: " +:+ cmd +:+ Json.nl)) ≫= fun _ => act Usage ≫= fun _ => mret (Exit exitRuntimeError)
  end.
End create_key.
End commands.

(** ** The order of starting and stopping

    What may be done while some activities run: none is started twice; a goroutine
    is waited for only when it runs and has been told to stop; beside the trackers,
    which nobody waits for, the dispatcher is told to stop only when nothing but the
    HTTP server runs, and the HTTP server is shut down only when nothing else runs;
    a shutdown that fails leaves it with requests that it still serves; the context
    of the trackers ends after that. The database is closed only when all that runs
    has been told to stop. *)
Record status : Type := mkStatus { su_live : list kind; su_cancelled : list kind }.
Definition idle : status := mkStatus [] [].
Definition is_tracker (k : kind) : Prop := k = KTracker \/ k = KMetricsTracker.
#[export] Instance is_tracker_dec k : Decision (is_tracker k) := _.
(** What runs and is waited for. *)
Definition awaited (s : status) : list kind := filter (fun k => ~ is_tracker k) (su_live s).
Definition told (k : list kind) (s : status) : status := mkStatus (su_live s) (k ++ su_cancelled s).
Definition stop_kind (k : kind) (s : status) : status := mkStatus (filter (fun x => x <> k) (su_live s)) (su_cancelled s).
Definition advance (a : action) (s : status) : option status :=
  match a with
  | Go x => if decide (kind_of x ∈ su_live s) then None else Some (mkStatus (su_live s ++ [kind_of x]) (su_cancelled s))
  | Cancel k => if decide (is_tracker k \/ k = KHTTP \/ k = KDispatcher /\ awaited s <> [KHTTP; KDispatcher]) then None else Some (told [k] s)
  | Join k => if decide (k ∈ su_live s /\ k ∈ su_cancelled s) then Some (stop_kind k s) else None
  | ShutdownHTTP _ r =>
      if decide (awaited s = [KHTTP]) then Some (if is_ok r then stop_kind KHTTP s else told [KHTTP] s) else None
  | CancelApp => if decide (Forall (fun k => k ∈ su_cancelled s) (awaited s)) then Some (told [KTracker; KMetricsTracker] s) else None
  | CloseDB => if decide (Forall (fun k => k ∈ su_cancelled s) (su_live s)) then Some s else None
  | _ => Some s
  end.
Fixpoint advances (l : list action) (s : status) : option status :=
  match l with [] => Some s | a :: l' => advance a s ≫= advances l' end.
Definition started_in (a : action) : option activity := match a with Go x => Some x | _ => None end.
Definition shut_down (a : action) : option (result err unit) := match a with ShutdownHTTP _ r => Some r | _ => None end.

Section lifecycle.
  Context {W : Type} `{!Process W, !ProcessLog W}.
  Variables (getenv : string -> string) (handlers : Config.Config -> result err (list string)).

Lemma logs_act {B} a (f : unit -> st W B) Q : logs p_log (f tt) (fun l b => Q (a :: l) b) -> logs p_log (act a ≫= f) Q.
Proof. intros Hf. apply (logs_step _ _ (fun _ => [a])); [intros w; apply log_act | by intros []]. Qed.
Lemma logs_acts {B} l (f : unit -> st W B) : forall Q, logs p_log (f tt) (fun l' b => Q (l ++ l') b) -> logs p_log (acts l ≫= f) Q.
Proof.
  induction l as [|a l IH]; intros Q Hf; [exact Hf |].
  intros w. destruct (logs_act a (fun _ => acts l ≫= f) Q (IH (fun l' b => Q (a :: l') b) Hf) w) as (l' & Hl & HQ). exists l'.
  unfold exec, eval, mbind, st_bind in *. cbn [acts] in *. unfold mbind, st_bind in *. destruct (act a w) as [[] w']. by destruct (acts l w') as [[] w''].
Qed.
Lemma advances_app l1 l2 s : advances (l1 ++ l2) s = advances l1 s ≫= advances l2.
Proof.
  revert s. induction l1 as [|a l1 IH]; intros s; [done |]. cbn [app advances]. destruct (advance a s) as [s'|]; [apply IH | done].
Qed.
Lemma advances_warn ws s : advances (map Warn ws) s = Some s.
Proof. induction ws as [|x ws IH]; [done | exact IH]. Qed.
Lemma pick_warn ws : pick started_in (map Warn ws) = [].
Proof. by apply pick_nil; intros a (x & <- & _)%list_elem_of_In%in_map_iff. Qed.

(** The trace from the start of the server to its shutdown is in order, in each of
    the modes. *)
Definition life (cfg : Config.Config) (patterns : list string) (r : result err unit) : list action :=
  [Go (Listening (newHTTPServer (Config.HTTPAddr cfg)) patterns); Go (dispatching cfg)] ++ map Go (started cfg) ++ [AwaitSignal] ++
  shutdown cfg ++ [Cancel KDispatcher; Join KDispatcher; ShutdownHTTP (Config.HTTPShutdownTimeout cfg) r].
Definition serving (cfg : Config.Config) (patterns : list string) : list activity :=
  Listening (newHTTPServer (Config.HTTPAddr cfg)) patterns :: dispatching cfg :: started cfg.
(** What still runs at the end, told to stop: the trackers, and requests that were
    not answered in time. *)
Definition left_over (cfg : Config.Config) (rs : list (result err unit)) : list kind :=
  map kind_of (trackers cfg) ++ if forallb is_ok rs then [] else [KHTTP].
Lemma life_in_order cfg patterns r : exists s,
  advances (map Go (trackers cfg) ++ life cfg patterns r ++ [CancelApp]) idle = Some s /\
  su_live s = left_over cfg [r] /\ Forall (fun k => k ∈ su_cancelled s) (su_live s).
Proof.
  unfold left_over, life, shutdown, started, trackers.
  destruct (db_mode cfg), (Config.MetricsEnabled cfg && _), (make_reconciler cfg), r;
    (eexists; split; [vm_compute; reflexivity |]; split; [reflexivity |]; apply (bool_decide_eq_true_1 _); reflexivity).
Qed.
Lemma life_starts cfg patterns r : pick started_in (life cfg patterns r) = serving cfg patterns /\ pick shut_down (life cfg patterns r) = [r].
Proof.
  unfold serving, life, shutdown, started. destruct (db_mode cfg); [split; reflexivity |]. destruct (make_reconciler cfg); split; reflexivity.
Qed.
Lemma pick_go l : pick started_in (map Go l) = l /\ pick shut_down (map Go l) = [].
Proof. induction l as [|x l [IH1 IH2]]; [done |]. cbn. by rewrite IH1. Qed.

(** What a run of [serve] may have done when it ends, after the warnings: either it
    failed before anything but the trackers was started, or it ended as it should. *)
Definition ended (cfg : Config.Config) (l : list action) (e : exit) : Prop :=
  exists s, advances l idle = Some s /\ Forall (fun k => k ∈ su_cancelled s) (su_live s) /\
  (e <> Exit exitSuccess /\ su_live s = map kind_of (pick started_in l) /\ pick started_in l ∈ [[]; trackers cfg] \/
   e = Exit exitSuccess /\ su_live s = left_over cfg (pick shut_down l) /\
     exists patterns, handlers cfg = Ok patterns /\ pick started_in l = trackers cfg ++ serving cfg patterns).

Lemma logs_fail {B} code msg (f : exit -> st W B) Q :
  logs p_log (f (Exit code)) (fun l b => Q (ErrOut (msg +:+ Json.nl) :: l) b) -> logs p_log (fail code msg ≫= f) Q.
Proof.
  intros Hf. unfold fail. intros w. destruct (logs_act (ErrOut (msg +:+ Json.nl)) (fun _ => f (Exit code)) Q Hf w) as (l & Hl & HQ).
  exists l. unfold exec, eval, mbind, st_bind in *. by destruct (act _ w).
Qed.
Lemma logs_quiet {A B} (m : st W A) (f : A -> st W B) Q : (forall w, p_log (exec m w) = p_log w) ->
  (forall a, logs p_log (f a) Q) -> logs p_log (m ≫= f) Q.
Proof. apply logs_silent. Qed.
Lemma probe_quiet w : p_log (exec probeClaimedAtColumn w) = p_log w.
Proof.
  unfold probeClaimedAtColumn. pose proof (log_QueryRow claimed_at_query w) as E. unfold exec, fmap, st_fmap in *.
  by destruct (db_QueryRow claimed_at_query w).
Qed.

Lemma logs_closing (m : st W exit) P : logs p_log m P -> logs p_log (closing m) (fun l e => exists l0, l = l0 ++ [CloseDB] /\ P l0 e).
Proof.
  intros Hm. apply logs_bind. eapply logs_conseq; [exact Hm |]. intros l0 e HP. apply logs_act, logs_ret. by exists l0.
Qed.
Lemma serve_life cfg patterns : logs p_log (serve_until_signal cfg patterns) (fun l e =>
  exists r, l = life cfg patterns r /\ e = Exit exitSuccess).
Proof.
  unfold serve_until_signal, life. apply logs_act, logs_act, logs_acts, logs_act, logs_acts, logs_acts.
  apply (logs_step _ _ (fun r => [ShutdownHTTP (Config.HTTPShutdownTimeout cfg) r])); [apply log_Shutdown |].
  intros r. apply logs_ret. by exists r.
Qed.

(** The end before the server starts, with the trackers or without. *)
Lemma ended_early cfg l e (b : bool) : e <> Exit exitSuccess -> pick started_in l = [] -> (forall s, advances l s = Some s) ->
  ended cfg ((if b then map Go (trackers cfg) else []) ++ l ++ if b then [CancelApp] else []) e.
Proof.
  intros He Hp Hl. unfold ended. rewrite !pick_app, Hp. destruct b.
  - exists (told [KTracker; KMetricsTracker] (mkStatus (map kind_of (trackers cfg)) [])). rewrite (proj1 (pick_go _)). cbn [app pick started_in].
    rewrite app_nil_r. assert (Hf : Forall (fun k => k ∈ [KTracker; KMetricsTracker]) (map kind_of (trackers cfg))).
    { unfold trackers. case_match; apply (bool_decide_eq_true_1 _); reflexivity. }
    split; [| split; [exact Hf | left; split_and!; [done | done | right; by left]]].
    assert (E : advances (map Go (trackers cfg)) idle = Some (mkStatus (map kind_of (trackers cfg)) [])) by (unfold trackers; by case_match).
    rewrite advances_app, E. cbn [mbind option_bind]. rewrite advances_app, Hl. unfold trackers. by case_match.
  - exists idle. cbn [app pick]. rewrite !app_nil_r. split; [apply Hl |]. split; [done |]. left. split_and!; [done | done | by left].
Qed.
(** Actions that change nothing of what runs. *)
Lemma ended_cons cfg a l e : (forall s, advance a s = Some s) -> started_in a = None -> shut_down a = None -> ended cfg l e -> ended cfg (a :: l) e.
Proof. intros Ha H1 H2 (s & Hs & H). exists s. cbn [advances pick]. rewrite Ha, H1, H2. by split. Qed.
Lemma ended_closed cfg l e : ended cfg l e -> ended cfg (l ++ [CloseDB]) e.
Proof.
  intros (s & Hs & Hf & H). exists s. rewrite advances_app, Hs, !pick_app. cbn [mbind option_bind advances advance pick started_in shut_down].
  rewrite decide_True by done. cbn. rewrite !app_nil_r. by split_and!.
Qed.
Lemma serve_ends cfg : logs p_log (serve_with_db handlers cfg) (ended cfg).
Proof.
  unfold serve_with_db. apply logs_act. apply logs_quiet; [apply log_Ping |]. intros [[]|e].
  2: { apply logs_act, logs_ret. by apply (ended_early cfg [SetPool _ _ _ _; ErrOut _] _ false). }
  apply logs_quiet; [intros w; destruct (db_mode cfg); [apply probe_quiet | done] |]. intros [[]|e].
  2: { apply logs_act, logs_ret. by apply (ended_early cfg [SetPool _ _ _ _; ErrOut _] _ false). }
  eapply logs_conseq with (P := ended cfg); [| intros l e He; by apply ended_cons].
  unfold with_app_context. apply logs_bind, logs_acts. destruct (handlers cfg) as [patterns|e] eqn:Eh.
  2: { apply logs_act, logs_ret, logs_act, logs_ret. rewrite <- app_assoc. by apply (ended_early cfg [ErrOut _] _ true). }
  case_match.
  - eapply logs_conseq; [apply serve_life |]. intros l e (r & -> & ->). apply logs_act, logs_ret.
    destruct (life_in_order cfg patterns r) as (s & Hs & Hl & Hf), (life_starts cfg patterns r) as [E1 E2], (pick_go (trackers cfg)) as [E3 E4].
    exists s. rewrite <- app_assoc. split; [exact Hs |]. split; [exact Hf |]. right. split; [done |].
    rewrite !pick_app, E1, E2, E3, E4. cbn [pick shut_down started_in app]. split; [by rewrite Hl |]. exists patterns. split; [done |].
    by rewrite !app_nil_r.
  - apply logs_ret, logs_act, logs_ret. rewrite <- app_assoc. by apply (ended_early cfg [] _ true).
Qed.

Definition asks_help (args : list string) : bool := existsb (fun a => String.eqb a "--help" || String.eqb a "-h") args.
Definition in_vain (l : list action) : Prop := exists url msg, l = [OpenDB url; ErrOut msg].

End lifecycle.

(** ** A concrete process

    A process in memory; the database answers or not, and has the column or not. *)
Module Sim.
Record machine : Type := mkMachine { m_log : list action; m_reachable : bool; m_column : bool }.
Definition note (a : action) : st machine unit := fun m => (tt, mkMachine (m_log m ++ [a]) (m_reachable m) (m_column m)).
#[export] Instance machine_process : Process machine := {|
  act := note;
  sql_Open url := note (OpenDB url) ≫= fun _ => mret (Ok tt);
  db_Ping := gets (fun m => if m_reachable m then Ok tt else Err (EOther "connection refused"));
  db_QueryRow _ := gets (fun m => Ok (if m_column m then Some "claimed_at" else None));
  http_Shutdown d := note (ShutdownHTTP d (Ok tt)) ≫= fun _ => mret (Ok tt) |}.
#[export] Instance machine_log : ProcessLog machine.
Proof. refine {| p_log := m_log |}; done. Defined.

Definition environment (mode path : string) (name : string) : string :=
  if String.eqb name "DATABASE_URL" then "postgres://db/cron" else if String.eqb name "DISPATCH_MODE" then mode
  else if String.eqb name "METRICS_PATH" then path else if String.eqb name "METRICS_ENABLED" then "true"
  else if String.eqb name "RECONCILE_ENABLED" then "true" else "".
Definition patterns (cfg : Config.Config) : result err (list string) := Ok [Config.MetricsPath cfg; "/mcp"; "/"]%string.
Definition serve (mode path : string) (m : machine) : exit * machine := runServe (environment mode path) patterns [] m.
Definition kinds (l : list action) : list kind := kind_of <$> pick started_in l.
Definition outcome (p : exit * machine) : exit * list kind := (p.1, kinds (m_log p.2)).
Definition up : machine := mkMachine [] true true.

Example outcomes :
  map outcome [serve "channel" "" up; serve "db" "" up; serve "db" "" (mkMachine [] true false); serve "db" "" (mkMachine [] false true);
               serve "queue" "" up; serve "channel" "/mcp" up] =
  [(Exit 0, [KTracker; KMetricsTracker; KHTTP; KDispatcher; KScheduler; KReconciler]);
   (Exit 0, [KTracker; KMetricsTracker; KHTTP; KDispatcher; KElector]);
   (Exit 2, []); (Exit 1, []); (Exit 2, []); (Panic "http: invalid or conflicting pattern", [KTracker; KMetricsTracker])].
Proof. vm_compute. reflexivity. Qed.
End Sim.
