(* ===== verification/Leader.v ===== *)
(** * Leader election: [internal/leaderelection/leader.go] and [leaderRuntime]

    The instances of the service compete for one advisory lock of PostgreSQL; the
    one that has it runs the scheduler and the reconciler. What happens between
    two points where goroutines, the server or the network can interfere is one
    step. A [system] is the lock, the sessions of the server, and the instances;
    an [event] says who makes the next step and how the choices that the program
    does not control come out; [step] is partial, so that a run is a sequence of
    events, and every interleaving is one. *)
From S2P Require Import Prelude Domain.
Local Open Scope string_scope.

(** ** The server

    The sessions that are open, with the instance at the other end, and the one
    that holds the lock. [pg_try_advisory_lock] gives the lock to the session that
    has it already; nothing but the end of the session gives it up. *)
Definition session := N.
Record server : Type := mkServer {
  sv_sessions : gmap session nat;
  sv_holder : option session;
  sv_next : session;
}.
Definition open_session (i : nat) (s : server) : session * server :=
  (sv_next s, {| sv_sessions := <[sv_next s := i]> (sv_sessions s); sv_holder := sv_holder s; sv_next := N.succ (sv_next s) |}).
Definition end_session (c : session) (s : server) : server :=
  {| sv_sessions := delete c (sv_sessions s);
     sv_holder := if decide (sv_holder s = Some c) then None else sv_holder s; sv_next := sv_next s |}.
Definition try_advisory_lock (c : session) (s : server) : bool * server :=
  match sv_holder s with
  | Some c' => (bool_decide (c' = c), s)
  | None => (true, {| sv_sessions := sv_sessions s; sv_holder := Some c; sv_next := sv_next s |})
  end.

(** ** The leader's duties: [leaderRuntime]

    A goroutine that runs a duty has the context of the term it was started for,
    and a cancel function of its own, named by its number. *)
Inductive duty_kind : Type := SchedulerDuty | ReconcilerDuty.
Record duty : Type := mkDuty { du_kind : duty_kind; du_id : nat; du_term : nat; du_cancelled : bool }.
Record leaderRuntime : Type := mkRuntime {
  lr_ReconcileEnabled : bool;
  lr_running : bool;
  lr_cancelScheduler : option nat;
  lr_cancelReconciler : option nat;
  lr_wg : list duty;
  lr_fresh : nat;
}.
Definition spawn (k : duty_kind) (term : nat) (lr : leaderRuntime) : leaderRuntime :=
  let id := lr_fresh lr in
  {| lr_ReconcileEnabled := lr_ReconcileEnabled lr; lr_running := lr_running lr;
     lr_cancelScheduler := match k with SchedulerDuty => Some id | ReconcilerDuty => lr_cancelScheduler lr end;
     lr_cancelReconciler := match k with SchedulerDuty => lr_cancelReconciler lr | ReconcilerDuty => Some id end;
     lr_wg := lr_wg lr ++ [mkDuty k id term false]; lr_fresh := S id |}.
Definition set_running (b : bool) (lr : leaderRuntime) : leaderRuntime :=
  {| lr_ReconcileEnabled := lr_ReconcileEnabled lr; lr_running := b; lr_cancelScheduler := lr_cancelScheduler lr;
     lr_cancelReconciler := lr_cancelReconciler lr; lr_wg := lr_wg lr; lr_fresh := lr_fresh lr |}.
Definition set_wg (l : list duty) (lr : leaderRuntime) : leaderRuntime :=
  {| lr_ReconcileEnabled := lr_ReconcileEnabled lr; lr_running := lr_running lr; lr_cancelScheduler := lr_cancelScheduler lr;
     lr_cancelReconciler := lr_cancelReconciler lr; lr_wg := l; lr_fresh := lr_fresh lr |}.

Definition start (term : nat) (lr : leaderRuntime) : leaderRuntime :=
  if lr_running lr then lr else
  let lr := spawn SchedulerDuty term lr in
  let lr := if lr_ReconcileEnabled lr then spawn ReconcilerDuty term lr else lr in
  set_running true lr.

Definition cancel (id : option nat) (d : duty) : duty :=
  {| du_kind := du_kind d; du_id := du_id d; du_term := du_term d;
     du_cancelled := du_cancelled d || bool_decide (id = Some (du_id d)) |}.
(** [stop] up to the wait; [None] where it returns at once. *)
Definition stop (lr : leaderRuntime) : option leaderRuntime :=
  if lr_running lr then
    Some (set_running false
      (set_wg (map (fun d => cancel (lr_cancelReconciler lr) (cancel (lr_cancelScheduler lr) d)) (lr_wg lr)) lr))
  else None.

(** ** The elector

    Where [Run] is: before an attempt; in [runOnce] with a connection; in
    [holdLock]; in [onDemoted], waiting for the duties to end; returned. *)
Inductive phase : Type :=
| Waiting
| Connected (c : session)
| Holding (c : session)
| Demoting (c : session) (reason : string)
| Stopped.
Inductive leader_metric : Type := LeaderStatusChanged (isLeader : bool) | LeaderAcquired | LeaderLost (reason : string).

(** [in_leaderCtx] says that the context of the current term is not cancelled by
    the elector, [in_ctx] the same of the context of [Run], its parent;
    [in_pending] are the terms whose [onElected] goroutine has not run yet. *)
Record instance : Type := mkInstance {
  in_phase : phase;
  in_pool : gset session;
  in_ctx : bool;
  in_term : nat;
  in_leaderCtx : bool;
  in_pending : list nat;
  in_runtime : leaderRuntime;
  in_metrics : list leader_metric;
}.
Definition set_phase (p : phase) (x : instance) : instance :=
  mkInstance p (in_pool x) (in_ctx x) (in_term x) (in_leaderCtx x) (in_pending x) (in_runtime x) (in_metrics x).
Definition set_pool (l : gset session) (x : instance) : instance :=
  mkInstance (in_phase x) l (in_ctx x) (in_term x) (in_leaderCtx x) (in_pending x) (in_runtime x) (in_metrics x).
Definition set_runtime (r : leaderRuntime) (x : instance) : instance :=
  mkInstance (in_phase x) (in_pool x) (in_ctx x) (in_term x) (in_leaderCtx x) (in_pending x) r (in_metrics x).
Definition set_pending (l : list nat) (x : instance) : instance :=
  mkInstance (in_phase x) (in_pool x) (in_ctx x) (in_term x) (in_leaderCtx x) l (in_runtime x) (in_metrics x).
Definition cancel_ctx (x : instance) : instance :=
  mkInstance (in_phase x) (in_pool x) false (in_term x) (in_leaderCtx x) (in_pending x) (in_runtime x) (in_metrics x).
Definition cancelLeader (x : instance) : instance :=
  mkInstance (in_phase x) (in_pool x) (in_ctx x) (in_term x) false (in_pending x) (in_runtime x) (in_metrics x).
Definition observe (l : list leader_metric) (x : instance) : instance :=
  mkInstance (in_phase x) (in_pool x) (in_ctx x) (in_term x) (in_leaderCtx x) (in_pending x) (in_runtime x) (in_metrics x ++ l).

(** The lock is ours: a context for the new term, and [go onElected]. *)
Definition elected (c : session) (x : instance) : instance :=
  let n := S (in_term x) in
  mkInstance (Holding c) (in_pool x) (in_ctx x) n true (in_pending x ++ [n]) (in_runtime x)
    (in_metrics x ++ [LeaderStatusChanged true; LeaderAcquired]).
(** The end of [runOnce] after [onDemoted]. *)
Definition demoted (reason : string) (x : instance) : instance :=
  observe [LeaderStatusChanged false; LeaderLost reason] (set_phase Waiting x).

Record system : Type := mkSystem { sys_server : server; sys_instances : gmap nat instance }.

(** [conn.Close]: the connection goes back to the pool, its session and the lock
    with it, unless the driver found it broken or the pool is full. *)
Definition close_conn (c : session) (discard : bool) (x : instance) (s : server) : instance * server :=
  if discard then (x, end_session c s) else (set_pool ({[c]} ∪ in_pool x) x, s).

(** *** Events *)
Inductive event : Type :=
| EOpen (i : nat)                                (* the pool opens a connection *)
| EConnFails (i : nat)                           (* [db.Conn] fails or times out *)
| EConn (i : nat) (c : session)                  (* [db.Conn] takes a connection *)
| EQueryFails (i : nat) (discard : bool)         (* the lock query fails *)
| ETryLock (i : nat) (discard : bool)            (* the lock query is answered *)
| EOnElected (i : nat) (n : nat)                 (* the [onElected] goroutine of a term runs *)
| EHeartbeatFails (i : nat) (discard : bool)     (* a ping fails *)
| EHoldStops (i : nat) (discard : bool)          (* [holdLock] sees the cancelled context *)
| EStopped (i : nat) (discard : bool)            (* [stop] has waited for the duties *)
| EDutyEnds (i : nat) (id : nat)                 (* a duty sees its cancelled context *)
| EShutdown (i : nat)                            (* the context of [Run] is cancelled *)
| EReturn (i : nat)                              (* [Run] returns *)
| EPoolCloses (i : nat) (c : session)            (* an idle connection is closed *)
| ESessionDies (c : session)                     (* the server loses a client *)
| ECrash (i : nat).                              (* the process is gone *)

(** The context of a duty is cancelled: its own, that of its term, or that of [Run]. *)
Definition duty_live (x : instance) (d : duty) : Prop :=
  du_cancelled d = false /\ du_term d = in_term x /\ in_leaderCtx x = true /\ in_ctx x = true.
#[export] Instance duty_live_dec x d : Decision (duty_live x d) := _.

(** [cancelLeader], then [onDemoted] up to its wait, for the reason that
    [holdLock] gave. *)
Definition hold_ends (c : session) (reason : string) (discard : bool) (x : instance) (s : server) : instance * server :=
  let x := cancelLeader x in
  match stop (in_runtime x) with
  | Some lr => (set_phase (Demoting c reason) (set_runtime lr x), s)
  | None => close_conn c discard (demoted reason x) s
  end.

(** One step of one instance; [None] where it is not possible. *)
Definition instance_step (e : event) (i : nat) (x : instance) (s : server) : option (instance * server) :=
  match e, in_phase x with
  | EOpen _, Stopped => None
  | EOpen _, _ => let '(c, s) := open_session i s in Some (set_pool ({[c]} ∪ in_pool x) x, s)
  | EConnFails _, Waiting => if in_ctx x then Some (observe [LeaderLost "error"] x, s) else None
  | EConn _ c, Waiting =>
      if in_ctx x && bool_decide (c ∈ in_pool x)
      then Some (set_phase (Connected c) (set_pool (in_pool x ∖ {[c]}) x), s) else None
  | EQueryFails _ discard, Connected c => Some (close_conn c discard (observe [LeaderLost "error"] (set_phase Waiting x)) s)
  | ETryLock _ discard, Connected c =>
      if bool_decide (is_Some (sv_sessions s !! c)) then
        match try_advisory_lock c s with
        | (true, s) => Some (elected c x, s)
        | (false, s) => Some (close_conn c discard (set_phase Waiting x) s)
        end
      else None
  | EOnElected _ n, _ =>
      if bool_decide (n ∈ in_pending x)
      then Some (set_runtime (start n (in_runtime x)) (set_pending (filter (fun m => m <> n) (in_pending x)) x), s) else None
  | EHeartbeatFails _ discard, Holding c =>
      Some (hold_ends c (if in_ctx x then "conn_lost" else "shutdown") discard x s)
  | EHoldStops _ discard, Holding c => if in_ctx x then None else Some (hold_ends c "shutdown" discard x s)
  | EStopped _ discard, Demoting c reason =>
      if bool_decide (lr_wg (in_runtime x) = []) then Some (close_conn c discard (demoted reason x) s) else None
  | EDutyEnds _ id, _ =>
      if bool_decide (Exists (fun d => du_id d = id /\ ~ duty_live x d) (lr_wg (in_runtime x)))
      then Some (set_runtime (set_wg (filter (fun d => du_id d <> id) (lr_wg (in_runtime x))) (in_runtime x)) x, s) else None
  | EShutdown _, _ => Some (cancel_ctx x, s)
  | EReturn _, Waiting => if in_ctx x then None else Some (set_phase Stopped x, s)
  | EPoolCloses _ c, _ =>
      if bool_decide (c ∈ in_pool x) then Some (set_pool (in_pool x ∖ {[c]}) x, end_session c s) else None
  | ECrash _, _ =>
      Some (mkInstance Stopped ∅ false (in_term x) false [] (set_wg [] (in_runtime x)) (in_metrics x), s)
  | _, _ => None
  end.
Definition actor (e : event) : option nat :=
  match e with
  | EOpen i | EConnFails i | EConn i _ | EQueryFails i _ | ETryLock i _ | EOnElected i _ | EHeartbeatFails i _
  | EHoldStops i _ | EStopped i _ | EDutyEnds i _ | EShutdown i | EReturn i | EPoolCloses i _ | ECrash i => Some i
  | ESessionDies _ => None
  end.
Definition step (e : event) (s : system) : option system :=
  match e, actor e with
  | ESessionDies c, _ => Some (mkSystem (end_session c (sys_server s)) (sys_instances s))
  | _, Some i =>
      match sys_instances s !! i with
      | Some x =>
          match instance_step e i x (sys_server s) with
          | Some (x', sv) => Some (mkSystem sv (<[i := x']> (sys_instances s)))
          | None => None
          end
      | None => None
      end
  | _, None => None
  end.
Fixpoint run (l : list event) (s : system) : option system :=
  match l with
  | [] => Some s
  | e :: l' => match step e s with Some s' => run l' s' | None => None end
  end.

(** [n] instances that have just called [Run], and a server without sessions. *)
Definition fresh_instance (reconcile : bool) : instance :=
  mkInstance Waiting ∅ true 0 false [] (mkRuntime reconcile false None None [] 0) [].
Definition init (reconcile : bool) (n : nat) : system :=
  mkSystem (mkServer ∅ None 0%N) (list_to_map (map (fun i => (i, fresh_instance reconcile)) (seq 0 n))).

Inductive reachable (s0 : system) : system -> Prop :=
| reachable_refl : reachable s0 s0
| reachable_step e s s' : reachable s0 s -> step e s = Some s' -> reachable s0 s'.

(** ** Invariants

    A session belongs to the instance that opened it; the session of a leader has
    the lock for as long as the server keeps it; and the context of a term is open
    while the lock is held, and not longer. *)
Definition phase_session (p : phase) : option session :=
  match p with Connected c | Holding c | Demoting c _ => Some c | Waiting | Stopped => None end.
Definition leads (p : phase) (c : session) : Prop := p = Holding c \/ exists r, p = Demoting c r.
Definition owned (i : nat) (c : session) (sv : server) : Prop :=
  (c < sv_next sv)%N /\ (sv_sessions sv !! c = None \/ sv_sessions sv !! c = Some i).
Record server_ok (sv : server) : Prop := {
  so_next c : is_Some (sv_sessions sv !! c) -> (c < sv_next sv)%N;
  so_holder c : sv_holder sv = Some c -> is_Some (sv_sessions sv !! c);
}.
Record instance_ok (sv : server) (i : nat) (x : instance) : Prop := {
  io_pool c : c ∈ in_pool x -> owned i c sv;
  io_phase c : phase_session (in_phase x) = Some c -> owned i c sv;
  io_lock c : leads (in_phase x) c -> is_Some (sv_sessions sv !! c) -> sv_holder sv = Some c;
  io_ctx : in_leaderCtx x = true -> exists c, in_phase x = Holding c;
}.
Record system_ok (s : system) : Prop := {
  ok_server : server_ok (sys_server s);
  ok_instances i x : sys_instances s !! i = Some x -> instance_ok (sys_server s) i x;
}.

(** What the operations of the server leave of it. *)
Lemma owned_open i j c sv : owned i c sv -> owned i c (open_session j sv).2.
Proof.
  intros [Hlt Hc]. unfold owned. cbn. rewrite lookup_insert_ne by lia. split; [lia | done].
Qed.
Lemma owned_end i c c' sv : owned i c sv -> owned i c (end_session c' sv).
Proof.
  intros [Hlt Hc]. split; [done |]. cbn. destruct (decide (c' = c)) as [->|]; [left; apply lookup_delete_eq |].
  by rewrite lookup_delete_ne.
Qed.
Lemma open_ok i sv : server_ok sv -> server_ok (open_session i sv).2.
Proof.
  intros [Hn Hh]. split; cbn; intros c.
  - destruct (decide (c = sv_next sv)) as [->|]; [lia |]. rewrite lookup_insert_ne by done. intros H. apply Hn in H. lia.
  - intros Hc. destruct (decide (c = sv_next sv)) as [->|]; [by rewrite lookup_insert_eq |]. rewrite lookup_insert_ne by done. auto.
Qed.
Lemma end_ok c sv : server_ok sv -> server_ok (end_session c sv).
Proof.
  intros [Hn Hh]. split; cbn; intros c'.
  - intros [i Hi]. apply lookup_delete_Some in Hi as [_ Hi]. eauto.
  - case_decide as E; [done |]. intros Hc. rewrite lookup_delete_ne by congruence. auto.
Qed.

Section frames.
  Variables (i : nat) (x : instance) (sv : server).
  Hypothesis Hx : instance_ok sv i x.

Lemma frame_open j : instance_ok (open_session j sv).2 i x.
Proof.
  destruct Hx as [H1 H2 H3 H4]. split; [auto using owned_open .. | | done].
  intros c Hl. assert (Hc : phase_session (in_phase x) = Some c) by (by destruct Hl as [->|[r ->]]).
  destruct (H2 c Hc) as [Hlt _]. cbn. rewrite lookup_insert_ne by lia. auto.
Qed.
Lemma frame_end c : instance_ok (end_session c sv) i x.
Proof.
  destruct Hx as [H1 H2 H3 H4]. split; [auto using owned_end .. | | done].
  intros c' Hl [j Hj]. cbn in *. apply lookup_delete_Some in Hj as [Hne Hj].
  rewrite (H3 c' Hl) by done. by rewrite decide_False by congruence.
Qed.
Lemma frame_lock c : sv_holder sv = None -> instance_ok (mkServer (sv_sessions sv) (Some c) (sv_next sv)) i x.
Proof.
  intros Hn. destruct Hx as [H1 H2 H3 H4]. split; [done .. | | done]. intros c' Hl Hc. cbn in *.
  apply H3 in Hl; [congruence | done].
Qed.
End frames.

(** What a step does to the server: nothing, or one of these operations. *)
Inductive server_step (i : nat) (sv : server) : server -> Prop :=
| server_same : server_step i sv sv
| server_open : server_step i sv (open_session i sv).2
| server_end c : server_step i sv (end_session c sv)
| server_lock c : sv_holder sv = None -> is_Some (sv_sessions sv !! c) ->
    server_step i sv (mkServer (sv_sessions sv) (Some c) (sv_next sv)).
Lemma server_step_ok i sv sv' : server_step i sv sv' -> server_ok sv -> server_ok sv'.
Proof.
  intros [] Hs; [done | by apply open_ok | by apply end_ok |]. destruct Hs as [Hn Hh].
  split; cbn; [done |]. by intros c' [= <-].
Qed.
Lemma server_step_frame i sv sv' j y : server_step i sv sv' -> instance_ok sv j y -> instance_ok sv' j y.
Proof. intros [] Hy; [done | by apply frame_open | by apply frame_end | by apply frame_lock]. Qed.

(** Instances that differ in what the invariant does not look at, or that have
    left the lead. *)
Lemma same_phase_ok sv i x y :
  instance_ok sv i x -> (forall c, c ∈ in_pool y -> owned i c sv) -> in_phase y = in_phase x ->
  in_leaderCtx y = in_leaderCtx x -> instance_ok sv i y.
Proof. intros [H1 H2 H3 H4] Hp E E'. split; rewrite ?E, ?E'; auto. Qed.
Lemma follower_ok sv i y :
  (forall c, c ∈ in_pool y -> owned i c sv) -> (forall c, phase_session (in_phase y) = Some c -> owned i c sv) ->
  (forall c, ~ leads (in_phase y) c) -> in_leaderCtx y = false -> instance_ok sv i y.
Proof. intros Hp Hs Hl Hc. split; [done | done | intros c H; by apply Hl in H | congruence]. Qed.
Lemma follower_ctx sv i x : instance_ok sv i x -> (forall c, in_phase x <> Holding c) -> in_leaderCtx x = false.
Proof. intros Hx Hp. destruct (in_leaderCtx x) eqn:E; [| done]. destruct (io_ctx _ _ _ Hx E) as [c Hc]. by apply Hp in Hc. Qed.
Lemma pool_owned sv i x c : instance_ok sv i x -> owned i c sv -> forall c', c' ∈ {[c]} ∪ in_pool x -> owned i c' sv.
Proof. intros Hx Hc c' [->%elem_of_singleton|H]%elem_of_union; [done | by eapply io_pool]. Qed.

Lemma close_ok i c discard y sv y' sv' :
  close_conn c discard y sv = (y', sv') -> instance_ok sv i y -> owned i c sv -> server_step i sv sv' /\ instance_ok sv' i y'.
Proof.
  unfold close_conn. destruct discard; intros [= <- <-] Hy Hc.
  - split; [constructor | by apply frame_end].
  - split; [constructor |]. eapply same_phase_ok; [done | | done | done]. by apply pool_owned.
Qed.
Lemma demoted_ok sv i x c reason : instance_ok sv i x -> leads (in_phase x) c -> instance_ok sv i (demoted reason (cancelLeader x)).
Proof. intros Hx _. apply follower_ok; cbn; [apply Hx | done | by intros ? [|[]] | done]. Qed.
Lemma hold_ends_ok i c reason discard x sv x' sv' :
  hold_ends c reason discard x sv = (x', sv') -> in_phase x = Holding c -> instance_ok sv i x ->
  server_step i sv sv' /\ instance_ok sv' i x'.
Proof.
  unfold hold_ends. intros E Hp Hx. assert (Hc : owned i c sv) by (apply (io_phase _ _ _ Hx); by rewrite Hp).
  destruct (stop _) as [lr|].
  - injection E as <- <-. split; [constructor |]. split; cbn; [apply Hx | by intros ? [= <-] | | done].
    intros c' [?|[r [= <- <-]]] Ha; [done |]. apply (io_lock _ _ _ Hx); [| done]. left. done.
  - eapply close_ok; [exact E | | exact Hc]. eapply demoted_ok; [done | left; exact Hp].
Qed.

Lemma opened_owned sv i x : instance_ok sv i x ->
  forall c, c ∈ {[sv_next sv]} ∪ in_pool x -> owned i c (open_session i sv).2.
Proof.
  intros Hx c [->%elem_of_singleton|H]%elem_of_union; [| by apply owned_open, (io_pool _ _ _ Hx)].
  split; cbn; [lia | right; apply lookup_insert_eq].
Qed.
Lemma instance_step_ok e i x sv x' sv' :
  instance_step e i x sv = Some (x', sv') -> server_ok sv -> instance_ok sv i x ->
  server_step i sv sv' /\ instance_ok sv' i x'.
Proof.
  intros E Hs Hx.
  assert (Hf : (forall c, in_phase x <> Holding c) -> in_leaderCtx x = false) by (by apply (follower_ctx sv i)).
  assert (Hown : forall c, phase_session (in_phase x) = Some c -> owned i c sv) by apply Hx.
  destruct e; cbn [instance_step] in E; destruct (in_phase x) as [|k|k|k why|] eqn:Hp; cbn in E; try done.
  all: repeat match type of E with (if ?b then _ else _) = _ => destruct b eqn:? end; try done.
  all: try (injection E as <- <-).
  all: try (split; [constructor | by eapply same_phase_ok; [exact Hx | apply Hx | ..]]).
  all: try (split; [exact (server_open i sv) | eapply same_phase_ok; [by apply (frame_open i x sv Hx i) | by apply opened_owned | done | done]]).
  all: try (split; [constructor | eapply same_phase_ok; [by apply (frame_end i x sv Hx) | | done | done];
      intros c' [Hc' _]%elem_of_difference; apply owned_end, (io_pool _ _ _ Hx _ Hc')]).
  all: try (split; [constructor | by apply follower_ok; [done || apply Hx | done | intros ? [|[]] | done || apply Hf]]).
  all: try injection E as E.
  all: try (eapply hold_ends_ok; [exact E | exact Hp | exact Hx]).
  - split; [constructor |]. apply andb_true_iff in Heqb as [_ Hc%bool_decide_eq_true].
    apply follower_ok; cbn; [intros c' [Hc' _]%elem_of_difference; by apply Hx | intros ? [= <-]; by apply Hx | by intros ? [|[]] | by apply Hf].
  - eapply close_ok; [exact E | apply follower_ok; cbn; [apply Hx | done | by intros ? [|[]] | by apply Hf] | by apply Hown].
  - apply bool_decide_eq_true in Heqb. unfold try_advisory_lock in E. destruct (sv_holder sv) as [c'|] eqn:Hh.
    + destruct (bool_decide_reflect (c' = k)) as [->|].
      * injection E as <- <-. split; [constructor |]. split; cbn; [apply Hx | by intros ? [= <-]; apply Hown | | by eexists].
        intros c [[= <-]|[]] _; done.
      * injection E as E. eapply close_ok; [exact E | apply follower_ok; cbn; [apply Hx | done | by intros ? [|[]] | by apply Hf] | by apply Hown].
    + injection E as <- <-. split; [by constructor |]. pose proof (frame_lock i x sv Hx k Hh) as Hx'.
      split; cbn; [apply Hx' | by intros ? [= <-]; apply Hown | | by eexists]. by intros c [[= <-]|[]] _.
  - eapply close_ok; [exact E | apply follower_ok; cbn; [apply Hx | done | by intros ? [|[]] | by apply Hf] | by apply Hown].
Qed.

Lemma init_ok b n : system_ok (init b n).
Proof.
  assert (Hx : forall i x, list_to_map (M := gmap nat instance) (map (fun i => (i, fresh_instance b)) (seq 0 n)) !! i = Some x ->
    x = fresh_instance b).
  { intros i x H. apply elem_of_list_to_map_2 in H. by apply list_elem_of_fmap in H as (k & [= -> ->] & _). }
  split; [split; cbn; [intros c [? H]; by rewrite lookup_empty in H | done] |].
  intros i x ->%Hx. split; cbn; [by intros c ?%elem_of_empty | done | by intros c [|[]] | done].
Qed.
Lemma step_ok e s s' : step e s = Some s' -> system_ok s -> system_ok s'.
Proof.
  intros E [Hs Hx].
  assert (Hd : forall c, system_ok (mkSystem (end_session c (sys_server s)) (sys_instances s))).
  { intros c. split; cbn; [by apply end_ok | intros i x Hi; by apply frame_end, Hx]. }
  unfold step in E. destruct (actor e) as [i|] eqn:Ha; [| by destruct e; try done; injection E as <-].
  assert (E' : match sys_instances s !! i with
    | Some x => match instance_step e i x (sys_server s) with
                | Some (x', sv) => Some (mkSystem sv (<[i := x']> (sys_instances s))) | None => None end
    | None => None end = Some s') by (destruct e; simplify_eq/=; exact E).
  clear E. destruct (sys_instances s !! i) as [x|] eqn:Hi; [| done].
  destruct (instance_step e i x _) as [[x' sv]|] eqn:Ei; [| done]. injection E' as <-.
  destruct (instance_step_ok _ _ _ _ _ _ Ei Hs (Hx _ _ Hi)) as [Hsv Hx'].
  split; cbn; [by eapply server_step_ok |]. intros j y. destruct (decide (i = j)) as [<-|Hne].
  - rewrite lookup_insert_eq. by intros [= <-].
  - rewrite lookup_insert_ne by done. intros Hj. by eapply server_step_frame, Hx.
Qed.
Lemma reachable_ok s0 s : reachable s0 s -> system_ok s0 -> system_ok s.
Proof. induction 1 as [|e s s' _ IH E]; [done | intros H0; eapply step_ok; eauto]. Qed.
Lemma run_reachable l s0 s s' : reachable s0 s -> run l s = Some s' -> reachable s0 s'.
Proof.
  revert s. induction l as [|e l IH]; intros s Hr; cbn; [by intros [= <-] |].
  destruct (step e s) as [s1|] eqn:E; [| done]. apply IH. by eapply reachable_step.
Qed.

(** ** Properties

    An instance is on duty when a duty of it runs whose context is not cancelled;
    it is linked when the server still has the session of its elector. *)
Definition on_duty (s : system) (i : nat) : Prop :=
  exists x d, sys_instances s !! i = Some x /\ d ∈ lr_wg (in_runtime x) /\ duty_live x d.
Definition linked (s : system) (i : nat) : Prop :=
  exists x c, sys_instances s !! i = Some x /\ phase_session (in_phase x) = Some c /\ is_Some (sv_sessions (sys_server s) !! c).

(** C17: there is one leader: in every state that any number of instances can
    reach, in any interleaving and with any failures, an instance on duty is one
    that holds the lock in its own view, and of the instances on duty at most one
    still has its session with the server. *)
Theorem single_leader (b : bool) (n : nat) (s : system) :
  reachable (init b n) s ->
  (forall i, on_duty s i -> exists x c, sys_instances s !! i = Some x /\ in_phase x = Holding c) /\
  (forall i j, on_duty s i -> on_duty s j -> linked s i -> linked s j -> i = j).
Proof.
  intros [_ Hx]%reachable_ok; [| apply init_ok].
  assert (Hd : forall i, on_duty s i -> exists x c, sys_instances s !! i = Some x /\ in_phase x = Holding c).
  { intros i (x & d & Hi & _ & _ & _ & Hc & _). destruct (io_ctx _ _ _ (Hx _ _ Hi) Hc) as [c Hp]. by exists x, c. }
  split; [done |]. intros i j Hi Hj (x & c & Ex & Hc & Hl) (y & c' & Ey & Hc' & Hl').
  apply Hd in Hi as (x' & k & Ex' & Hp). apply Hd in Hj as (y' & k' & Ey' & Hp').
  assert (x' = x) as -> by congruence. assert (y' = y) as -> by congruence. rewrite Hp in Hc. rewrite Hp' in Hc'. injection Hc as ->. injection Hc' as ->.
  pose proof (io_lock _ _ _ (Hx _ _ Ex) c ltac:(by left) Hl) as H1.
  pose proof (io_lock _ _ _ (Hx _ _ Ey) c' ltac:(by left) Hl') as H2. rewrite H1 in H2. injection H2 as ->.
  destruct (io_phase _ _ _ (Hx _ _ Ex) c') as [_ [H|H]]; [by rewrite Hp | by rewrite H in Hl; destruct Hl |].
  destruct (io_phase _ _ _ (Hx _ _ Ey) c') as [_ [H'|H']]; [by rewrite Hp' | by rewrite H' in Hl; destruct Hl |].
  congruence.
Qed.

Lemma step_at e i x sv m : actor e = Some i -> m !! i = Some x ->
  step e (mkSystem sv m) = match instance_step e i x sv with
    | Some (x', sv') => Some (mkSystem sv' (<[i := x']> m)) | None => None end.
Proof. intros Ha Hi. unfold step. destruct e; simplify_eq/=; by rewrite Hi. Qed.
Lemma run_at e i x x' sv sv' m l : actor e = Some i -> m !! i = Some x -> instance_step e i x sv = Some (x', sv') ->
  run (e :: l) (mkSystem sv m) = run l (mkSystem sv' (<[i := x']> m)).
Proof. intros Ha Hi E. cbn [run]. by rewrite (step_at e i x sv m Ha Hi), E. Qed.

(** The end of the session that has the lock, and then an attempt of instance
    [i], over a new connection, up to its first term. *)
Definition takeover (i : nat) (s : system) : list event :=
  match sv_holder (sys_server s) with Some c => [ESessionDies c] | None => [] end ++
  [EOpen i; EConn i (sv_next (sys_server s)); ETryLock i false;
   EOnElected i (match sys_instances s !! i with Some x => S (in_term x) | None => 0 end)].

(** An instance that holds the lock and has marked its duties as running, and none
    is. *)
Definition idle_instance (x : instance) : Prop :=
  (exists c, in_phase x = Holding c) /\ lr_running (in_runtime x) = true /\
  Forall (fun d => ~ duty_live x d) (lr_wg (in_runtime x)).
Definition idle_leader (s : system) (i : nat) : Prop :=
  exists x, sys_instances s !! i = Some x /\ idle_instance x.
(** The events that end a term of an instance. *)
Definition ends_term (i : nat) (e : event) : bool :=
  match e with EHeartbeatFails j _ | EHoldStops j _ | ECrash j => bool_decide (i = j) | _ => false end.

(** *** Terms

    A duty, and a start that is still to come, are of a term that has begun. *)
Definition terms_ok (x : instance) : Prop :=
  Forall (fun d => du_term d <= in_term x) (lr_wg (in_runtime x)) /\ Forall (fun n => n <= in_term x) (in_pending x).

Lemma start_terms n m lr : n <= m -> Forall (fun d => du_term d <= m) (lr_wg lr) -> Forall (fun d => du_term d <= m) (lr_wg (start n lr)).
Proof.
  intros Hn Hd. unfold start. destruct (lr_running lr); [done |]. destruct (lr_ReconcileEnabled lr) eqn:E; cbn; rewrite E; cbn;
    repeat (apply Forall_app; split); try done; by repeat constructor.
Qed.
Lemma stop_terms m lr lr' : stop lr = Some lr' -> Forall (fun d => du_term d <= m) (lr_wg lr) -> Forall (fun d => du_term d <= m) (lr_wg lr').
Proof.
  unfold stop. destruct (lr_running lr); [| done]. intros [= <-] Hd. cbn. apply Forall_map. eapply Forall_impl; [exact Hd | done].
Qed.
Lemma terms_same x y : terms_ok x -> in_term y = in_term x -> lr_wg (in_runtime y) = lr_wg (in_runtime x) -> in_pending y = in_pending x -> terms_ok y.
Proof. unfold terms_ok. by intros Hx -> -> ->. Qed.
Lemma close_terms c discard x s x' s' : close_conn c discard x s = (x', s') -> terms_ok x -> terms_ok x'.
Proof. unfold close_conn. by destruct discard; intros [= <- _]. Qed.
Lemma hold_ends_terms c reason discard x s x' s' : hold_ends c reason discard x s = (x', s') -> terms_ok x -> terms_ok x'.
Proof.
  unfold hold_ends. intros E Hx. destruct (stop _) as [lr|] eqn:Es; [| by eapply close_terms; [exact E | by eapply terms_same]].
  injection E as <- _. destruct Hx as [Hd Hp]. split; [| exact Hp]. by eapply stop_terms.
Qed.
Lemma filter_kept {A} (P Q : A -> Prop) `{!forall a, Decision (P a)} (l : list A) : Forall Q l -> Forall Q (filter P l).
Proof. rewrite !Forall_forall. intros HQ a [_ Ha]%list_elem_of_filter. by apply HQ. Qed.
Lemma elected_terms n x : n ∈ in_pending x -> terms_ok x ->
  terms_ok (set_runtime (start n (in_runtime x)) (set_pending (filter (fun m => m <> n) (in_pending x)) x)).
Proof.
  intros Hn [Hd Hp]. split; cbn; [| by apply filter_kept]. apply start_terms; [| done]. by apply (proj1 (Forall_forall _ _) Hp).
Qed.
Lemma ended_terms id x : terms_ok x ->
  terms_ok (set_runtime (set_wg (filter (fun d => du_id d <> id) (lr_wg (in_runtime x))) (in_runtime x)) x).
Proof. intros [Hd Hp]. split; cbn; [by apply filter_kept | done]. Qed.
Lemma instance_terms e i x s x' s' : instance_step e i x s = Some (x', s') -> terms_ok x -> terms_ok x'.
Proof.
  intros E Hx. pose proof Hx as [Hd Hp]. destruct e; cbn [instance_step] in E; destruct (in_phase x) as [|k|k|k why|]; cbn in E; try done.
  all: repeat match type of E with (if ?b then _ else _) = _ => destruct b eqn:? end; try done.
  all: try (injection E as <- <-).
  all: try (by apply (terms_same x)).
  all: try (by eapply hold_ends_terms; [injection E as E; exact E |]).
  all: try (by eapply close_terms; [injection E as E; exact E | apply (terms_same x)]).
  all: try (by split).
  all: try by apply ended_terms.
  all: try (apply elected_terms; [by eapply bool_decide_eq_true_1 | done]).
  destruct (try_advisory_lock _ _) as [[] s1].
  - injection E as <- _. split; cbn; [eapply Forall_impl; [exact Hd | cbn; lia] |].
    apply Forall_app. split; [eapply Forall_impl; [exact Hp | cbn; lia] | by repeat constructor].
  - injection E as E. by eapply close_terms; [exact E | apply (terms_same x)].
Qed.
Lemma step_terms e s s' : step e s = Some s' -> map_Forall (fun _ => terms_ok) (sys_instances s) -> map_Forall (fun _ => terms_ok) (sys_instances s').
Proof.
  destruct s as [sv m]. intros E Hm. destruct (actor e) as [i|] eqn:Ha; [| by destruct e; simplify_eq/=].
  destruct (m !! i) as [x|] eqn:Hi; [| by destruct e; simplify_eq/=; rewrite Hi in E].
  rewrite (step_at e i x sv m Ha Hi) in E. destruct (instance_step e i x sv) as [[x' sv']|] eqn:Ei; [| done].
  injection E as <-. cbn. apply map_Forall_insert_2; [| done]. eapply instance_terms; [exact Ei |]. by apply (Hm i).
Qed.
Lemma reachable_terms b n s i x : reachable (init b n) s -> sys_instances s !! i = Some x -> terms_ok x.
Proof.
  intros Hr. revert i x. change (map_Forall (fun _ => terms_ok) (sys_instances s)).
  induction Hr as [|e s s' _ IH E]; [| by eapply step_terms].
  cbn. intros i x Hi. apply elem_of_list_to_map_2 in Hi. apply list_elem_of_fmap in Hi as (k & [= -> ->] & _). by split.
Qed.

(** A takeover by an instance that waits, with the instance that it leaves. *)
Lemma takeover_runs (b : bool) (n : nat) (s : system) (i : nat) (x : instance) :
  reachable (init b n) s -> sys_instances s !! i = Some x -> in_phase x = Waiting -> in_ctx x = true ->
  exists s' x' c, run (takeover i s) s = Some s' /\ sys_instances s' !! i = Some x' /\
    in_phase x' = Holding c /\ is_Some (sv_sessions (sys_server s') !! c) /\
    in_term x' = S (in_term x) /\ in_leaderCtx x' = true /\ in_ctx x' = true /\
    in_runtime x' = start (S (in_term x)) (in_runtime x).
Proof.
  intros [Hs Hx]%reachable_ok Hi Hp Hc; [| apply init_ok].
  set (c := sv_next (sys_server s)). set (sv := match sv_holder (sys_server s) with Some c0 => end_session c0 (sys_server s) | None => sys_server s end).
  assert (Hsv : sv_next sv = c /\ sv_holder sv = None).
  { unfold sv, c. destruct (sv_holder (sys_server s)) eqn:E; [| done]. cbn. by rewrite E, decide_True. }
  destruct Hsv as [Hn Hh].
  assert (E1 : forall l, run (match sv_holder (sys_server s) with Some c0 => [ESessionDies c0] | None => [] end ++ l) s =
    run l (mkSystem sv (sys_instances s))).
  { intros l. unfold sv. destruct (sv_holder (sys_server s)); [done | by destruct s]. }
  unfold takeover. rewrite E1, Hi.
  set (x1 := set_pool ({[c]} ∪ in_pool x) x). set (sv1 := (open_session i sv).2).
  set (x2 := set_phase (Connected c) (set_pool (in_pool x1 ∖ {[c]}) x1)).
  set (x3 := elected c x2). set (sv3 := mkServer (sv_sessions sv1) (Some c) (sv_next sv1)).
  erewrite (run_at _ i x x1 sv sv1); [| done | done |].
  2: { cbn. by rewrite Hp, Hn. }
  erewrite (run_at _ i x1 x2 sv1 sv1); [| done | by rewrite lookup_insert_eq |].
  2: { cbn. rewrite Hp, Hc, bool_decide_eq_true_2 by set_solver. done. }
  erewrite (run_at _ i x2 x3 sv1 sv3); [| done | by rewrite lookup_insert_eq |].
  2: { unfold sv3, sv1. cbn. rewrite Hn, lookup_insert_eq, bool_decide_eq_true_2 by by eexists. unfold try_advisory_lock. cbn. rewrite Hh. cbn. rewrite ?Hn. reflexivity. }
  erewrite (run_at _ i x3 _ sv3 sv3); [| done | by rewrite lookup_insert_eq |].
  2: { cbn. rewrite bool_decide_eq_true_2 by set_solver. done. }
  eexists _, _, c. split; [reflexivity |]. split; [cbn; by rewrite lookup_insert_eq |]. cbn. rewrite Hn, lookup_insert_eq.
  by split_and!.
Qed.
Lemma duty_started n lr : lr_running lr = false -> exists d, d ∈ lr_wg (start n lr) /\ du_term d = n /\ du_cancelled d = false.
Proof.
  intros Hr. unfold start. rewrite Hr. exists (mkDuty SchedulerDuty (lr_fresh lr) n false). split; [| done].
  cbn. destruct (lr_ReconcileEnabled lr); cbn; rewrite !elem_of_app, !list_elem_of_singleton; auto.
Qed.
Lemma start_running n lr : lr_running (start n lr) = true.
Proof. unfold start. destruct (lr_running lr) eqn:E; done. Qed.

(** A takeover while the duties are marked as running. *)
Lemma takeover_idles (b : bool) (n : nat) (s : system) (i : nat) (x : instance) :
  reachable (init b n) s -> sys_instances s !! i = Some x -> in_phase x = Waiting -> in_ctx x = true ->
  lr_running (in_runtime x) = true -> exists s', run (takeover i s) s = Some s' /\ idle_leader s' i.
Proof.
  intros Hr Hi Hp Hc Hrun. destruct (takeover_runs b n s i x Hr Hi Hp Hc) as (s' & x' & c & E & Hi' & Hp' & _ & Ht & _ & _ & Hrt).
  exists s'. split; [exact E |]. exists x'. split; [done |]. split; [by exists c |]. rewrite Hrt. split; [apply start_running |].
  unfold start. rewrite Hrun. destruct (reachable_terms b n s i x Hr Hi) as [Hd _].
  eapply Forall_impl; [exact Hd |]. intros d Hle (_ & Hterm & _). cbn in Hle. lia.
Qed.

(** C18: the lead can always be taken over: from every state that can be reached,
    once the session that has the lock ends, the next attempt of any instance that
    waits gives it the lock, over a session that the server has. It is then on duty,
    unless its duties are marked as running from an earlier term, of which none can
    still be at work: then it leads without any. *)
Theorem leader_failover (b : bool) (n : nat) (s : system) (i : nat) (x : instance) :
  reachable (init b n) s ->
  sys_instances s !! i = Some x -> in_phase x = Waiting -> in_ctx x = true ->
  exists s', run (takeover i s) s = Some s' /\ linked s' i /\
    (exists x' c, sys_instances s' !! i = Some x' /\ in_phase x' = Holding c /\ in_term x' = S (in_term x)) /\
    if lr_running (in_runtime x) then idle_leader s' i else on_duty s' i.
Proof.
  intros Hr Hi Hp Hc. destruct (takeover_runs b n s i x Hr Hi Hp Hc) as (s' & x' & c & E & Hi' & Hp' & Hl & Ht & Hlc & Hcx & Hrt).
  exists s'. split; [exact E |]. split; [exists x', c; by rewrite Hp' |]. split; [by exists x', c |].
  destruct (lr_running (in_runtime x)) eqn:Hrun.
  - destruct (takeover_idles b n s i x Hr Hi Hp Hc Hrun) as (s2 & E2 & Hidle). by assert (s2 = s') as -> by congruence.
  - destruct (duty_started (S (in_term x)) (in_runtime x) Hrun) as (d & Hin & Hdt & Hdc).
    exists x', d. rewrite Hrt. split_and!; [done | done |]. unfold duty_live. by rewrite Hdt, Ht.
Qed.

Lemma idle_step e i x sv x' sv' : idle_instance x -> actor e = Some i -> ends_term i e = false ->
  instance_step e i x sv = Some (x', sv') -> idle_instance x'.
Proof.
  intros ([c Hp] & Hr & Hd) Ha He E. unfold idle_instance.
  destruct e; cbn in Ha; try done; injection Ha as ->; cbn in He, E; try (by rewrite bool_decide_eq_true_2 in He);
    rewrite ?Hp in E; try done.
  all: repeat match type of E with (if ?b then _ else _) = _ => destruct b; [| done] end; injection E as <- <-; cbn.
  all: try (unfold start; rewrite Hr); split_and!; try done; try by eexists.
  - apply Forall_forall. intros d [_ Hin]%list_elem_of_filter. rewrite Forall_forall in Hd. by apply Hd.
  - eapply Forall_impl; [exact Hd |]. intros d Hn (H1 & H2 & H3 & H4). done.
Qed.
Lemma idle_run i l s s' : (exists x, sys_instances s !! i = Some x /\ idle_instance x) ->
  Forall (fun e => ends_term i e = false) l -> run l s = Some s' -> exists x, sys_instances s' !! i = Some x /\ idle_instance x.
Proof.
  intros Hs Hl. revert s Hs. induction Hl as [|e l He _ IH]; intros [sv m] (x & Hi & Hx) E; [injection E as <-; by exists x |].
  cbn [run] in E. destruct (step e _) as [s1|] eqn:Es; [| done]. apply (IH s1); [| done].
  destruct (actor e) as [j|] eqn:Ha; [| by destruct e; simplify_eq/=; exists x].
  destruct (m !! j) as [y|] eqn:Hj; [| by destruct e; simplify_eq/=; rewrite Hj in Es].
  rewrite (step_at e j y sv m Ha Hj) in Es. destruct (instance_step e j y sv) as [[y' sv']|] eqn:Ei; [| done].
  injection Es as <-. cbn in *. destruct (decide (j = i)) as [->|Hne].
  - rewrite lookup_insert_eq. eexists. split; [reflexivity |]. eapply idle_step; [| exact Ha | exact He | exact Ei]. congruence.
  - rewrite lookup_insert_ne by done. by exists x.
Qed.

(** C40: a leader can be idle for its whole term. Whenever an instance waits and the
    goroutine of [onElected] of one of its terms, which are over, has not run yet,
    the following may happen: the goroutine runs now, so that it marks the duties as
    running although their context is cancelled, and then the instance takes over.
    It holds the lock, and none of its duties is at work, neither then nor after
    anything that may happen but the end of that term: no start, no election and no
    failure of another instance brings its scheduler and reconciler back. *)
Theorem stale_start_idles_leader (b : bool) (k : nat) (s : system) (i n : nat) (x : instance) :
  reachable (init b k) s -> sys_instances s !! i = Some x -> in_phase x = Waiting -> in_ctx x = true -> n ∈ in_pending x ->
  exists s1, run (EOnElected i n :: takeover i s) s = Some s1 /\ idle_leader s1 i /\
    forall l s', Forall (fun e => ends_term i e = false) l -> run l s1 = Some s' -> idle_leader s' i /\ ~ on_duty s' i.
Proof.
  intros Hr Hi Hp Hc Hn. set (y := set_runtime (start n (in_runtime x)) (set_pending (filter (fun m => m <> n) (in_pending x)) x)).
  set (s0 := mkSystem (sys_server s) (<[i := y]> (sys_instances s))).
  assert (E0 : step (EOnElected i n) s = Some s0).
  { destruct s as [sv m]. rewrite (step_at (EOnElected i n) i x sv m eq_refl Hi). cbn. rewrite bool_decide_eq_true_2 by done. done. }
  assert (Hi0 : sys_instances s0 !! i = Some y) by apply lookup_insert_eq.
  assert (Et : takeover i s = takeover i s0) by (unfold takeover; by rewrite Hi, Hi0).
  destruct (takeover_idles b k s0 i y) as (s1 & E1 & Hidle).
  - by eapply reachable_step.
  - exact Hi0.
  - exact Hp.
  - exact Hc.
  - apply start_running.
  - exists s1. cbn [run]. rewrite E0, Et. split; [exact E1 |]. split; [exact Hidle |]. intros l s' Hl E.
    pose proof (idle_run i l s1 s' Hidle Hl E) as Hi'. split; [exact Hi' |].
    destruct Hi' as (z & Hz & _ & _ & Hd). intros (w & d & Hw & Hin & Hlive).
    assert (w = z) as -> by congruence. rewrite Forall_forall in Hd. by apply (Hd d).
Qed.

(** ** Runs of two instances *)
Module Sim.
Definition s0 : system := init true 2.
Definition go (l : list event) : system := default s0 (run l s0).
(** The first is elected and starts its duties. *)
Definition elect0 : list event := [EOpen 0; EConn 0 0%N; ETryLock 0 false].
Definition leading : system := go (elect0 ++ [EOnElected 0 1]).
(** Its session dies before it has noticed; the second takes over. *)
Definition overlap : list event := elect0 ++ [EOnElected 0 1; ESessionDies 0%N; EOpen 1; EConn 1 1%N; ETryLock 1 false; EOnElected 1 1].
(** Its first [onElected] runs when the second term has begun already. *)
Definition stale_start : list event :=
  elect0 ++ [EHeartbeatFails 0 true; EOpen 0; EOnElected 0 1; EDutyEnds 0 0; EDutyEnds 0 1; EConn 0 1%N; ETryLock 0 false; EOnElected 0 2].
Definition duties (s : system) (i : nat) : list bool :=
  match sys_instances s !! i with
  | Some x => map (fun d => bool_decide (duty_live x d)) (lr_wg (in_runtime x)) | None => [] end.

Example overlap_ex : (run overlap s0 <> None) /\ duties (go overlap) 0 = [true; true] /\ duties (go overlap) 1 = [true; true].
Proof. split; [by vm_compute | by vm_compute]. Qed.
Example stale_ex : (run stale_start s0 <> None) /\ duties (go stale_start) 0 = [].
Proof. split; by vm_compute. Qed.
(** The lock outlives the term: the connection is back in the pool with it, and
    nobody can be elected, not even over another connection of the same instance. *)
Example lock_kept : let s := go (elect0 ++ [EHeartbeatFails 0 false; EOpen 0; EConn 0 1%N; ETryLock 0 true; EOpen 1; EConn 1 2%N; ETryLock 1 true]) in
  map (fun p => in_phase p.2) (map_to_list (sys_instances s)) = [Waiting; Waiting] /\ sv_holder (sys_server s) = Some 0%N.
Proof. by vm_compute. Qed.

Lemma go_reachable l : run l s0 <> None -> reachable s0 (go l).
Proof. intros H. unfold go. destruct (run l s0) eqn:E; [| done]. by eapply run_reachable; [constructor |]. Qed.
End Sim.

Lemma single_leader_witness :
  linked Sim.leading 0 /\ on_duty Sim.leading 0 /\ (forall j, on_duty Sim.leading j -> linked Sim.leading j -> j = 0).
Proof.
  assert (Hr : reachable (init true 2) Sim.leading) by (apply Sim.go_reachable; by vm_compute).
  assert (Hl : linked Sim.leading 0) by (eexists _, 0%N; split; [vm_compute; reflexivity | split; [reflexivity | by eexists]]).
  assert (Hd : on_duty Sim.leading 0).
  { eexists _, (mkDuty SchedulerDuty 0 1 false). split; [vm_compute; reflexivity |]. split; [left | by vm_compute]. }
  split; [exact Hl |]. split; [exact Hd |]. intros j Hj Hlj. exact (proj2 (single_leader true 2 Sim.leading Hr) j 0 Hj Hd Hlj Hl).
Defined.

Lemma leader_failover_witness :
  exists s', run (takeover 1 Sim.leading) Sim.leading = Some s' /\ linked s' 1 /\
    (exists x' c, sys_instances s' !! 1 = Some x' /\ in_phase x' = Holding c /\ in_term x' = 1) /\ on_duty s' 1.
Proof.
  apply (leader_failover true 2 Sim.leading 1 (set_pool ∅ (fresh_instance true)));
    [apply Sim.go_reachable; by vm_compute | vm_compute; reflexivity | reflexivity ..].
Defined.

(** The first term of the first instance ends before its goroutine runs. *)
Definition interrupted : system := Sim.go (Sim.elect0 ++ [EHeartbeatFails 0 true]).
Definition later : list event := [EOpen 0; EOpen 1; EConn 1 3%N; ETryLock 1 true].
Lemma stale_start_idles_leader_witness :
  exists s1, run (EOnElected 0 1 :: takeover 0 interrupted) interrupted = Some s1 /\ idle_leader s1 0 /\
    exists s', run later s1 = Some s' /\ idle_leader s' 0 /\ ~ on_duty s' 0.
Proof.
  destruct (stale_start_idles_leader true 2 interrupted 0 1 (default (fresh_instance true) (sys_instances interrupted !! 0))) as (s1 & E & Hi & Hl).
  - apply Sim.go_reachable. by vm_compute.
  - vm_compute. reflexivity.
  - vm_compute. reflexivity.
  - vm_compute. reflexivity.
  - vm_compute. left.
  - exists s1. split; [exact E |]. split; [exact Hi |].
    assert (Hrun : exists s', run later s1 = Some s') by (vm_compute in E; injection E as <-; eexists; vm_compute; reflexivity).
    destruct Hrun as [s' Es]. exists s'. split; [exact Es |]. apply (Hl later); [| exact Es].
    repeat (apply Forall_cons; split; [reflexivity |]). by apply Forall_nil.
Defined.
