(* ===== verification/Prometheus.v ===== *)
(** * What Prometheus is told: [internal/metrics]

    [PrometheusSink] ([prometheus.go]) turns the reports of the scheduler, the
    dispatcher, the event bus, the reconciler and the elector into calls of the
    collectors that it registers; [NoopSink] ([noop.go]) drops them. The client
    library is a parameter: [prom_Register] answers as it likes, [prom_apply] is a
    call of a collector. The theorems say that the calls are such as the library
    accepts without a panic, and what the counters and gauges show of a tick, of a
    dispatch and of an elector. *)
From S2P Require Import Prelude Trace GoStrings Domain Runtime Metrics Cron Float64.
From S2P Require Scheduler SchedulerTheory Dispatcher DispatcherTheory DispatcherProps EventBus Reconciler Leader.
From Stdlib Require Import SpecFloat.
Local Open Scope cron_scope.

(** ** Collectors and their calls *)
Inductive kind : Type := Counter | Gauge | Histogram.

(** The buckets are those of a histogram, the labels those of a [CounterVec]. *)
Record collector : Type := mkCollector {
  c_kind : kind;
  c_Name : string;
  c_Help : string;
  c_labels : list string;
  c_Buckets : list float64;
}.
#[export] Instance kind_eq : EqDecision kind.
Proof. solve_decision. Defined.
#[export] Instance float64_eq : EqDecision float64.
Proof. solve_decision. Defined.
#[export] Instance collector_eq : EqDecision collector.
Proof. solve_decision. Defined.

Inductive op : Type := Inc | Dec | Add (v : float64) | Set_ (v : float64) | Observe (v : float64).
(** A call of the collector with these values of its labels. *)
Record call : Type := mkCall { k_collector : collector; k_values : list string; k_op : op }.

Class PromClient (W : Type) : Type := {
  prom_Register : collector -> st W (result err unit);
  prom_apply : call -> st W unit;
}.

Definition NewCounter (name help : string) : collector := mkCollector Counter name help [] [].
Definition NewGauge (name help : string) : collector := mkCollector Gauge name help [] [].
Definition NewCounterVec (name help : string) (labels : list string) : collector := mkCollector Counter name help labels [].
Definition NewHistogram (name help : string) (buckets : list float64) : collector := mkCollector Histogram name help [] buckets.

(** A literal with up to two decimals, given in hundredths. *)
Definition hundredths (n : Z) : float64 := fdiv (of_int n) (of_int 100).

(** *** [initSchedulerMetrics] *)
Definition ticksTotal : collector :=
  NewCounter "cronlite_scheduler_ticks_total" "Total number of scheduler ticks processed.".
Definition tickErrorsTotal : collector :=
  NewCounter "cronlite_scheduler_tick_errors_total" "Total number of scheduler tick errors.".
Definition jobsTriggeredTotal : collector :=
  NewCounter "cronlite_scheduler_jobs_triggered_total" "Total number of jobs triggered (executions emitted).".
Definition tickDuration : collector :=
  NewHistogram "cronlite_scheduler_tick_duration_seconds" "Duration of each scheduler tick in seconds."
    (hundredths <$> [1; 5; 10; 50; 100; 200; 500; 1000]%Z).
Definition tickDrift : collector :=
  NewHistogram "cronlite_scheduler_tick_drift_seconds" "Difference between actual tick time and expected interval in seconds."
    (hundredths <$> [10; 50; 100; 200; 500; 1000; 3000; 6000]%Z).

(** *** [initDispatcherMetrics] *)
Definition deliveryAttemptsTotal : collector :=
  NewCounterVec "cronlite_dispatcher_delivery_attempts_total" "Total number of webhook delivery attempts."
    ["attempt"; "status_class"]%string.
Definition deliveryOutcomesTotal : collector :=
  NewCounterVec "cronlite_dispatcher_delivery_outcomes_total" "Total number of final delivery outcomes per execution."
    ["outcome"]%string.
Definition webhookDuration : collector :=
  NewHistogram "cronlite_dispatcher_webhook_duration_seconds" "Webhook request latency in seconds (excludes backoff wait)."
    (hundredths <$> [10; 25; 50; 100; 250; 500; 1000; 3000]%Z).
Definition retryAttemptsTotal : collector :=
  NewCounterVec "cronlite_dispatcher_retry_attempts_total" "Total number of retry attempts (excludes first attempt)."
    ["retryable"]%string.
Definition eventsInFlight : collector :=
  NewGauge "cronlite_dispatcher_events_in_flight" "Number of events currently being processed.".

(** *** [initEventBusMetrics] *)
Definition bufferSize : collector :=
  NewGauge "cronlite_eventbus_buffer_size" "Current number of events in the event bus buffer.".
Definition bufferCapacity : collector :=
  NewGauge "cronlite_eventbus_buffer_capacity" "Total capacity of the event bus buffer.".
Definition bufferSaturation : collector :=
  NewGauge "cronlite_eventbus_buffer_saturation" "Buffer saturation ratio (0.0-1.0). Above 0.8 indicates risk of event loss.".
Definition emitErrorsTotal : collector :=
  NewCounter "cronlite_eventbus_emit_errors_total" "Total number of emit errors (buffer full).".
Definition orphanedExecutions : collector :=
  NewGauge "cronlite_orphaned_executions" "Current count of orphaned executions (status=emitted older than threshold).".
Definition executionLatency : collector :=
  NewHistogram "cronlite_execution_latency_seconds" "End-to-end latency from scheduled_at to delivered (successful deliveries only)."
    (of_int <$> [1; 5; 10; 30; 60; 120; 300; 600; 1800]%Z).

(** *** [initLeaderMetrics] *)
Definition leaderIsLeader : collector :=
  NewGauge "cronlite_leader_is_leader" "Whether this instance is currently the leader (1=leader, 0=follower).".
Definition leaderAcquisitions : collector :=
  NewCounter "cronlite_leader_acquisitions_total" "Total number of times this instance acquired leadership.".
Definition leaderLosses : collector :=
  NewCounterVec "cronlite_leader_losses_total" "Total number of times this instance lost leadership." ["reason"]%string.

(** ** Reports as calls *)
Definition inc (c : collector) : call := mkCall c [] Inc.
Definition TickStarted : list call := [inc ticksTotal].
Definition TickCompleted (duration : duration) (jobsTriggered : Z) (e : option err) : list call :=
  [mkCall tickDuration [] (Observe (Seconds duration)); mkCall jobsTriggeredTotal [] (Add (of_int jobsTriggered))] ++
  match e with Some _ => [inc tickErrorsTotal] | None => [] end.
Definition TickDrift (drift : duration) : list call :=
  let d := Seconds drift in
  let d := if SFltb d (of_int 0) then SFopp d else d in
  [mkCall tickDrift [] (Observe d)].
Definition DeliveryAttemptCompleted (attempt : Z) (statusClass : string) (duration : duration) : list call :=
  [mkCall deliveryAttemptsTotal [Itoa attempt; statusClass] Inc; mkCall webhookDuration [] (Observe (Seconds duration))].
Definition DeliveryOutcome (outcome : string) : list call := [mkCall deliveryOutcomesTotal [outcome] Inc].
Definition RetryAttempt (retryable : bool) : list call :=
  let label := if retryable then "true"%string else "false"%string in
  [mkCall retryAttemptsTotal [label] Inc].
Definition EventsInFlightIncr : list call := [inc eventsInFlight].
Definition EventsInFlightDecr : list call := [mkCall eventsInFlight [] Dec].
Definition BufferSizeUpdate (size : Z) : list call := [mkCall bufferSize [] (Set_ (of_int size))].
Definition BufferCapacitySet (capacity : Z) : list call := [mkCall bufferCapacity [] (Set_ (of_int capacity))].
Definition BufferSaturationUpdate (saturation : float64) : list call := [mkCall bufferSaturation [] (Set_ saturation)].
Definition EmitError : list call := [inc emitErrorsTotal].
Definition OrphanedExecutionsUpdate (count : Z) : list call := [mkCall orphanedExecutions [] (Set_ (of_int count))].
Definition ExecutionLatencyObserve (latencySeconds : float64) : list call :=
  [mkCall executionLatency [] (Observe latencySeconds)].
Definition LeaderStatusChanged (isLeader : bool) : list call :=
  if isLeader then [mkCall leaderIsLeader [] (Set_ (of_int 1))] else [mkCall leaderIsLeader [] (Set_ (of_int 0))].
Definition LeaderAcquired : list call := [inc leaderAcquisitions].
Definition LeaderLost (reason : string) : list call := [mkCall leaderLosses [reason] Inc].

(** The reports of each component. *)
Definition tick_calls (m : Scheduler.tick_metric) : list call :=
  match m with
  | Scheduler.TickStarted => TickStarted
  | Scheduler.TickCompleted d n e => TickCompleted d n e
  | Scheduler.TickDrift d => TickDrift d
  end.
Definition dispatch_calls (m : Dispatcher.metric) : list call :=
  match m with
  | Dispatcher.DeliveryAttemptCompleted n c d => DeliveryAttemptCompleted n c d
  | Dispatcher.DeliveryOutcome o => DeliveryOutcome o
  | Dispatcher.RetryAttempt b => RetryAttempt b
  | Dispatcher.EventsInFlightIncr => EventsInFlightIncr
  | Dispatcher.EventsInFlightDecr => EventsInFlightDecr
  | Dispatcher.ExecutionLatencyObserve d => ExecutionLatencyObserve (Seconds d)
  end.
Definition bus_calls (m : EventBus.bus_metric) : list call :=
  match m with
  | EventBus.BufferSizeUpdate n => BufferSizeUpdate n
  | EventBus.BufferCapacitySet n => BufferCapacitySet n
  | EventBus.BufferSaturationUpdate n cap => BufferSaturationUpdate (fdiv (of_int n) (of_int cap))
  | EventBus.EmitError => EmitError
  end.
Definition leader_calls (m : Leader.leader_metric) : list call :=
  match m with
  | Leader.LeaderStatusChanged b => LeaderStatusChanged b
  | Leader.LeaderAcquired => LeaderAcquired
  | Leader.LeaderLost reason => LeaderLost reason
  end.

(** ** The sinks *)
Section sinks.
  Context {W : Type} `{!PromClient W}.

(** An error is logged and no more. *)
Definition register (c : collector) : st W unit := prom_Register c ≫= fun _ => mret tt.
Fixpoint registers (l : list collector) : st W unit :=
  match l with [] => mret tt | c :: l' => register c ≫= fun _ => registers l' end.
Definition initSchedulerMetrics : st W unit :=
  registers [ticksTotal; tickErrorsTotal; jobsTriggeredTotal; tickDuration; tickDrift].
Definition initDispatcherMetrics : st W unit :=
  registers [deliveryAttemptsTotal; deliveryOutcomesTotal; webhookDuration; retryAttemptsTotal; eventsInFlight].
Definition initEventBusMetrics : st W unit :=
  registers [bufferSize; bufferCapacity; bufferSaturation; emitErrorsTotal; orphanedExecutions; executionLatency].
Definition initLeaderMetrics : st W unit := registers [leaderIsLeader; leaderAcquisitions; leaderLosses].
Definition NewPrometheusSink : st W unit :=
  initSchedulerMetrics ≫= fun _ => initDispatcherMetrics ≫= fun _ => initEventBusMetrics ≫= fun _ => initLeaderMetrics.

Fixpoint perform (l : list call) : st W unit :=
  match l with [] => mret tt | c :: l' => prom_apply c ≫= fun _ => perform l' end.

(** [PrometheusSink] behind the interfaces of the components. *)
#[local] Instance PrometheusSink_ticks : Scheduler.TickSink W := {| Scheduler.tick_observe m := perform (tick_calls m) |}.
#[local] Instance PrometheusSink_dispatch : Dispatcher.MetricsSink W := {| Dispatcher.observe m := perform (dispatch_calls m) |}.
#[local] Instance PrometheusSink_orphans : Reconciler.OrphanSink W :=
  {| Reconciler.OrphanedExecutionsUpdate n := perform (OrphanedExecutionsUpdate n) |}.
(** For the reports that the bus and an instance of the elector keep. *)
Definition PrometheusSink_bus (m : EventBus.bus_metric) : st W unit := perform (bus_calls m).
Definition PrometheusSink_leader (m : Leader.leader_metric) : st W unit := perform (leader_calls m).
End sinks.

(** [NoopSink]. *)
Section noop.
  Context {W : Type}.
#[local] Instance NoopSink_ticks : Scheduler.TickSink W := {| Scheduler.tick_observe _ := mret tt |}.
#[local] Instance NoopSink_dispatch : Dispatcher.MetricsSink W := {| Dispatcher.observe _ := mret tt |}.
#[local] Instance NoopSink_orphans : Reconciler.OrphanSink W := {| Reconciler.OrphanedExecutionsUpdate _ := mret tt |}.
Definition NoopSink_bus (m : EventBus.bus_metric) : st W unit := mret tt.
End noop.

(** ** What the client library requires

    Names and labels are of the documented form, no name is registered twice, and
    buckets increase; a call gives a value for every label, it is one that the
    collector has, and a counter is not lowered. On anything else the library
    panics. *)
Definition name_start (c : ascii) : bool :=
  let n := N_of_ascii c in
  ((97 <=? n) && (n <=? 122) || (65 <=? n) && (n <=? 90) || (n =? 95))%N.
Definition name_char (c : ascii) : bool :=
  let n := N_of_ascii c in name_start c || ((48 <=? n) && (n <=? 57))%N.
Definition valid_name (s : string) : bool :=
  match s with String c s' => name_start c && forallb name_char (String.list_ascii_of_string s') | EmptyString => false end.
Fixpoint increasing (l : list float64) : bool :=
  match l with
  | x :: (y :: _) as l' => SFltb x y && increasing l'
  | _ => true
  end.
Definition valid_collector (c : collector) : bool :=
  valid_name (c_Name c) && forallb (fun l => valid_name l && negb (String.prefix "__" l)) (c_labels c) && bool_decide (NoDup (c_labels c)) &&
  match c_kind c with
  | Histogram => bool_decide (c_Buckets c <> []) && increasing (c_Buckets c) && forallb (fun l => negb (String.eqb l "le")) (c_labels c)
  | _ => bool_decide (c_Buckets c = [])
  end.

Definition collectors : list collector :=
  [ticksTotal; tickErrorsTotal; jobsTriggeredTotal; tickDuration; tickDrift;
   deliveryAttemptsTotal; deliveryOutcomesTotal; webhookDuration; retryAttemptsTotal; eventsInFlight;
   bufferSize; bufferCapacity; bufferSaturation; emitErrorsTotal; orphanedExecutions; executionLatency;
   leaderIsLeader; leaderAcquisitions; leaderLosses].

Definition accepts (k : kind) (o : op) : bool :=
  match k, o with
  | Counter, Inc => true
  | Counter, Add v => negb (SFltb v (of_int 0))
  | Gauge, Inc | Gauge, Dec | Gauge, Add _ | Gauge, Set_ _ => true
  | Histogram, Observe _ => true
  | _, _ => false
  end.
Definition well_typed (c : call) : Prop :=
  k_collector c ∈ collectors /\ length (k_values c) = length (c_labels (k_collector c)) /\
  accepts (c_kind (k_collector c)) (k_op c) = true.

(** What any component reports; the number of jobs of a tick is not negative
    ([tick_counted]). *)
Inductive report : Type :=
| RTick (m : Scheduler.tick_metric)
| RDispatch (m : Dispatcher.metric)
| RBus (m : EventBus.bus_metric)
| ROrphans (n : Z)
| RLeader (m : Leader.leader_metric).
Definition counted_report (r : report) : Prop :=
  match r with RTick (Scheduler.TickCompleted _ n _) => (0 <= n)%Z | _ => True end.
Definition deliver_report {W} `{!PromClient W} (r : report) : st W unit :=
  match r with
  | RTick m => Scheduler.tick_observe (TickSink := PrometheusSink_ticks) m
  | RDispatch m => Dispatcher.observe (MetricsSink := PrometheusSink_dispatch) m
  | RBus m => PrometheusSink_bus m
  | ROrphans n => Reconciler.OrphanedExecutionsUpdate (OrphanSink := PrometheusSink_orphans) n
  | RLeader m => PrometheusSink_leader m
  end.

(** The trace of the client library. *)
Inductive prom_action : Type := PRegister (c : collector) | PCall (c : call).
Class PromLog (W : Type) `{!PromClient W} : Type := {
  plog : W -> list prom_action;
  plog_Register c w : plog (exec (prom_Register c) w) = plog w ++ [PRegister c];
  plog_apply c w : plog (exec (prom_apply c) w) = plog w ++ [PCall c];
}.

Section theory.
  Context {W : Type} `{PromLog W}.

Lemma registers_logs l : logs plog (registers l) (fun tr _ => tr = PRegister <$> l).
Proof.
  induction l as [|c l IH]; [by apply logs_ret |]. cbn [registers].
  apply logs_bind. unfold register. apply (logs_step _ _ (fun _ => [PRegister c])); [intros w; apply plog_Register |]. intros _.
  apply logs_ret. eapply logs_conseq; [exact IH |]. by intros tr _ ->.
Qed.
Lemma perform_logs l : logs plog (perform l) (fun tr _ => tr = PCall <$> l).
Proof.
  induction l as [|c l IH]; [by apply logs_ret |]. cbn [perform].
  apply (logs_step _ _ (fun _ => [PCall c])); [intros w; apply plog_apply |]. intros _.
  eapply logs_conseq; [exact IH |]. by intros tr _ ->.
Qed.
Lemma NewPrometheusSink_logs : logs plog NewPrometheusSink (fun tr _ => tr = PRegister <$> collectors).
Proof.
  unfold NewPrometheusSink, initSchedulerMetrics, initDispatcherMetrics, initEventBusMetrics, initLeaderMetrics.
  do 3 (apply logs_bind; eapply logs_conseq; [apply registers_logs |]; intros ? _ ->).
  eapply logs_conseq; [apply registers_logs |]. by intros ? _ ->.
Qed.
End theory.

(** ** Every report is well typed *)
Lemma of_int_nonneg n : (0 <= n)%Z -> SFltb (of_int n) (of_int 0) = false.
Proof.
  destruct n as [|p|p]; [done | | lia]. intros _. unfold of_int at 1, binary_normalize, binary_round.
  destruct (shl_align _ _ _) as [m e]. unfold binary_round_aux.
  destruct (shr_fexp _ _ _ _ _) as [r e1]. destruct (shr_fexp _ _ _ _ _) as [r' e2].
  destruct (shr_m r') as [|q|q]; [done | | done]. by destruct (_ <=? _)%Z.
Qed.

Lemma typed_call c vs o : bool_decide (c ∈ collectors) = true -> length vs = length (c_labels c) -> accepts (c_kind c) o = true ->
  well_typed (mkCall c vs o).
Proof. intros Hc%bool_decide_eq_true Hl Ho. by split_and!. Qed.
Ltac typed := repeat apply Forall_cons_2; try apply Forall_nil_2; (apply typed_call; [by vm_compute | done | try done]).

Lemma tick_typed m : counted_report (RTick m) -> Forall well_typed (tick_calls m).
Proof.
  intros Hm. destruct m as [|d n e|d]; cbn [tick_calls].
  - typed.
  - unfold TickCompleted. apply Forall_app. split; [| destruct e; typed].
    typed. cbn in Hm. cbn [accepts c_kind jobsTriggeredTotal NewCounter]. by rewrite of_int_nonneg.
  - typed.
Qed.
Lemma dispatch_typed m : Forall well_typed (dispatch_calls m).
Proof. destruct m; typed. Qed.
Lemma bus_typed m : Forall well_typed (bus_calls m).
Proof. destruct m; typed. Qed.
Lemma leader_typed m : Forall well_typed (leader_calls m).
Proof. destruct m as [[]| |]; typed. Qed.

(** The client library never panics: the sink registers every collector once,
    under names and labels of the documented form and with increasing buckets,
    whatever the answers; and whatever a component reports, each call is one of a
    registered collector, with a value for each of its labels, that it has as an
    operation, and no counter is lowered. *)
Lemma sink_well_typed {W} `{PromLog W} :
  logs plog NewPrometheusSink (fun l _ => l = PRegister <$> collectors) /\
  NoDup (c_Name <$> collectors) /\ forallb valid_collector collectors = true /\
  forall r, counted_report r -> logs plog (deliver_report r) (fun l _ => exists cs, l = PCall <$> cs /\ Forall well_typed cs).
Proof.
  split; [apply NewPrometheusSink_logs |]. split; [apply (bool_decide_eq_true_1 _); by vm_compute |]. split; [by vm_compute |].
  assert (Hp : forall cs, Forall well_typed cs -> logs plog (perform cs) (fun l _ => exists cs, l = PCall <$> cs /\ Forall well_typed cs)).
  { intros cs Hcs. eapply logs_conseq; [apply perform_logs |]. intros l _ ->. by exists cs. }
  intros [m|m|m|n|m] Hr; apply Hp.
  - by apply tick_typed.
  - apply dispatch_typed.
  - apply bus_typed.
  - typed.
  - apply leader_typed.
Qed.

Module Sim.
(** A client that keeps its calls. *)
#[export] Instance client : PromClient (list prom_action) := {|
  prom_Register c := fun w => (Err (EOther "duplicate metrics collector registration attempted"), w ++ [PRegister c]);
  prom_apply c := fun w => (tt, w ++ [PCall c]);
|}.
#[export] Instance client_log : PromLog (list prom_action).
Proof. by refine {| plog := fun w => w |}. Defined.
End Sim.
