(* ===== verification/PrometheusProps.v ===== *)
(** * What the metrics show

    The calls that the Prometheus client gets for the reports of a tick, of a
    dispatch and of an elector, and how they count what happened. *)
From S2P Require Import Prelude Trace GoStrings Domain Runtime Cron SchedulerTheory Float64 Prometheus.
From S2P Require Scheduler SchedulerProps Dispatcher DispatcherTheory DispatcherProps Leader.
Local Open Scope cron_scope.

(** ** A tick *)

(** The activations of a tick that count as triggered: those whose event was
    emitted, and those whose execution was there already. *)
Definition triggered (a : sched_action) : option unit :=
  match a with
  | SEmit _ (Ok _) => Some tt
  | SInsert _ (Err e) => if errors_Is e (EDomain ErrDuplicateExecution) then Some tt else None
  | _ => None
  end.
Definition ticked (a : sched_action) : option Scheduler.tick_metric :=
  match a with STick m => Some m | _ => None end.
Definition triggers (l : list sched_action) : Z := Z.of_nat (length (pick triggered l)).
Lemma triggers_app l1 l2 : triggers (l1 ++ l2) = (triggers l1 + triggers l2)%Z.
Proof. unfold triggers. rewrite pick_app, length_app. lia. Qed.

Section tick.
  Context {W : Type} `{!CronLibrary} `{SchedLog W}.
  Variable s : Scheduler.Scheduler.

(** Nothing is reported, and [n] activations are triggered. *)
Definition counts (l : list sched_action) (n : Z) : Prop := pick ticked l = [] /\ triggers l = n.
Lemma counts_app l1 l2 n1 n2 : counts l1 n1 -> counts l2 n2 -> counts (l1 ++ l2) (n1 + n2).
Proof. intros [E1 <-] [E2 <-]. split; [by rewrite pick_app, E1, E2 | apply triggers_app]. Qed.
Lemma counts_nil : counts [] 0.
Proof. done. Qed.

Lemma emitExecution_counts job t now :
  logs slog (Scheduler.emitExecution job t now) (fun l r => counts l (if is_ok r then 1 else 0)).
Proof.
  unfold Scheduler.emitExecution. apply logs_silent; [apply slog_uuid |]. intros i.
  eapply (logs_step _ _ (fun r => [SInsert _ r])); [intros w; apply slog_Insert |]. intros [[]|e].
  - eapply (logs_step _ _ (fun r => [SEmit _ r])); [intros w; apply slog_Emit |]. intros [[]|e]; by apply logs_ret.
  - destruct (errors_Is e (EDomain ErrDuplicateExecution)) eqn:E; apply logs_ret; (split; [done |]);
      unfold triggers; cbn; by rewrite E.
Qed.

Lemma fire_loop_counts n next job now : forall t result,
  logs slog (Scheduler.fire_loop n next job now t result) (fun l r =>
    counts l (Scheduler.pr_triggered r.1 - Scheduler.pr_triggered result)).
Proof.
  induction n as [|n IH]; intros t result; cbn [Scheduler.fire_loop]; [by apply logs_ret; rewrite Z.sub_diag |].
  destruct (After t now); [by apply logs_ret; rewrite Z.sub_diag |].
  apply logs_bind. eapply logs_conseq; [apply emitExecution_counts |]. intros l1 r H1. cbv zeta.
  eapply logs_conseq; [apply IH |]. intros l2 r2 H2. cbn [Scheduler.pr_triggered] in H2.
  pose proof (counts_app _ _ _ _ H1 H2) as Hc. eapply eq_ind; [exact Hc | destruct (is_ok r); lia].
Qed.

Lemma windowStart_counts jws lastTick now : logs slog (Scheduler.windowStart s jws lastTick now) (fun l _ => counts l 0).
Proof.
  unfold Scheduler.windowStart. destruct (negb (IsZero lastTick)); [by apply logs_ret |].
  destruct Scheduler.GetLastScheduledExecution as [f|] eqn:E; [| by apply logs_ret].
  eapply (logs_step _ _ (fun r => [SLast _ r])); [intros w; by apply slog_Last |]. intros [found|e]; by apply logs_ret.
Qed.

Lemma processJob_counts jws lastTick now :
  logs slog (Scheduler.processJobWithProgress s jws lastTick now) (fun l r => counts l (Scheduler.pr_triggered r.1)).
Proof.
  unfold Scheduler.processJobWithProgress. apply logs_bind. eapply logs_conseq; [apply windowStart_counts |]. intros l0 ws Hws. cbv zeta.
  destruct (LoadLocation _); [| by apply logs_ret; rewrite app_nil_r].
  destruct (Parse _ _); [| by apply logs_ret; rewrite app_nil_r].
  apply logs_bind. eapply logs_conseq; [apply fire_loop_counts |]. intros l1 [r t] H1. apply logs_ret.
  rewrite app_nil_r. cbn in H1 |- *. rewrite Z.sub_0_r in H1. by apply (counts_app _ _ 0).
Qed.

Lemma process_page_counts jobs now : forall n upto,
  logs slog (Scheduler.process_page s jobs now n upto) (fun l r => counts l (r.1 - n)).
Proof.
  induction jobs as [|jws jobs IH]; intros n upto; cbn [Scheduler.process_page]; [by apply logs_ret; rewrite Z.sub_diag |].
  apply logs_bind. eapply logs_conseq; [apply processJob_counts |]. intros l1 [res e] H1.
  eapply logs_conseq; [apply IH |]. intros l2 r H2. pose proof (counts_app _ _ _ _ H1 H2) as Hc.
  eapply eq_ind; [exact Hc | cbn; lia].
Qed.

Lemma process_pages_counts fuel now : forall afterID n upto,
  logs slog (Scheduler.process_pages s fuel now afterID n upto) (fun l r =>
    forall m x, r = Some (m, x) -> counts l (m - n)).
Proof.
  induction fuel as [|fuel IH]; intros afterID n upto; cbn [Scheduler.process_pages]; [by apply logs_ret |].
  eapply (logs_step _ _ (fun r => [SGet _ _ r])); [intros w; apply slog_Get |].
  intros [jobs|e]; [| by apply logs_ret; intros m x [= -> _]; rewrite Z.sub_diag].
  apply logs_bind. eapply logs_conseq; [apply process_page_counts |]. intros l1 [n1 upto1] H1. cbn [fst] in H1.
  destruct (_ <? _)%Z.
  - apply logs_ret. intros m x [= -> _]. rewrite app_nil_r. by apply (counts_app [_] _ 0).
  - eapply logs_conseq; [apply IH |]. intros l2 r H2 m x E.
    pose proof (counts_app _ _ _ _ (counts_app [SGet Scheduler.DefaultJobPageSize afterID (Ok jobs)] _ 0 _ counts_nil H1) (H2 m x E)) as Hc.
    cbn [app] in Hc |- *. eapply eq_ind; [exact Hc | lia].
Qed.

Lemma completed_counts {B} start n e (k : unit -> st W B) Q :
  (forall d, logs slog (k tt) (fun l b => Q (STick (Scheduler.TickCompleted d n e) :: l) b)) ->
  logs slog (when true (time_Now ≫= fun t => Scheduler.tick_observe (Scheduler.TickCompleted (time_sub t start) n e)) ≫= k) Q.
Proof.
  intros Hk. apply logs_bind, logs_silent; [apply slog_Now |]. intros t w.
  eexists. split; [apply slog_tick |]. destruct (eval _ _). apply Hk.
Qed.

(** What a tick comes to. *)
Definition tick_shown (n : Z) (d : duration) (ok : bool) : list call :=
  [inc ticksTotal; mkCall tickDuration [] (Observe (Seconds d)); mkCall jobsTriggeredTotal [] (Add (of_int n))] ++
  if ok then [] else [inc tickErrorsTotal].

(** C25: a tick counts once: one more tick, its duration, as many triggered jobs as
    activations whose event was emitted or whose execution was there already, and
    one more error exactly when the jobs of a page could not be read. *)
Theorem tick_counted fuel :
  Scheduler.sc_metrics s = true ->
  logs slog (Scheduler.processTick s fuel) (fun l r => forall x s', r = Some (x, s') ->
    exists d, pick ticked l ≫= tick_calls = tick_shown (triggers l) d (is_ok x)).
Proof.
  intros Hs. unfold Scheduler.processTick. apply record_tick_logs, logs_silent; [apply slog_Now |]. intros start.
  rewrite Hs. apply logs_bind. eapply logs_conseq; [apply process_pages_counts |].
  intros l [[n r]|] Hr; [| by apply logs_ret].
  destruct (Hr n r eq_refl) as [Hn Ht]. clear Hr. rewrite Z.sub_0_r in Ht. subst n.
  destruct r as [last'|e]; apply completed_counts; intros d; apply logs_ret; intros x s' [= <- <-]; exists d;
    cbn [app pick ticked]; rewrite pick_app, Hn; unfold triggers; cbn [pick triggered]; by rewrite pick_app, app_nil_r.
Qed.
End tick.

(** ** A dispatch *)
Import Dispatcher DispatcherTheory DispatcherProps.

Definition measured (a : action) : option metric := match a with AMetric m => Some m | _ => None end.
(** The labels of the calls of a collector, in order. *)
Definition series (c : collector) (l : list call) : list (list string) :=
  omap (fun k => if String.eqb (c_Name (k_collector k)) (c_Name c) then Some (k_values k) else None) l.
Definition shown (c : collector) (l : list action) : list (list string) := series c (pick measured l ≫= dispatch_calls).

(** The same as observations of single actions. *)
Definition attempt_labels (a : action) : option (list string) :=
  match a with AMetric (DeliveryAttemptCompleted n c _) => Some [Itoa n; c] | _ => None end.
Definition outcome_labels (a : action) : option (list string) :=
  match a with AMetric (DeliveryOutcome o) => Some [o] | _ => None end.
Definition retry_labels (a : action) : option (list string) :=
  match a with AMetric (RetryAttempt b) => Some [if b then "true"%string else "false"%string] | _ => None end.
Definition refused (a : action) : option string := match a with AAllow u (Err _) => Some u | _ => None end.

Lemma shown_pick c f l : (forall a, f a = match a with AMetric m => head (series c (dispatch_calls m)) | _ => None end) ->
  (forall m, length (series c (dispatch_calls m)) <= 1) -> shown c l = pick f l.
Proof.
  intros Hf Hone. unfold shown. induction l as [|a l IH]; [done |]. cbn [pick]. rewrite Hf.
  destruct a as [| | | | | | | | |m]; cbn [measured]; try exact IH. cbn [mbind list_bind]. unfold series in *.
  rewrite omap_app, IH. specialize (Hone m). by destruct (omap _ (dispatch_calls m)) as [|? [|]]; cbn in *; try lia.
Qed.
Lemma shown_attempts l : shown deliveryAttemptsTotal l = pick attempt_labels l.
Proof. apply shown_pick; [intros [| | | | | | | | |[]]; done | intros []; cbn; lia]. Qed.
Lemma shown_outcomes l : shown deliveryOutcomesTotal l = pick outcome_labels l.
Proof. apply shown_pick; [intros [| | | | | | | | |[]]; done | intros []; cbn; lia]. Qed.
Lemma shown_retries l : shown retryAttemptsTotal l = pick retry_labels l.
Proof. apply shown_pick; [intros [| | | | | | | | |[]]; done | intros []; cbn; lia]. Qed.

(** The attempts of a list of results, numbered from [n]. *)
Fixpoint attempts_from (n : Z) (rs : list WebhookResult) : list (list string) :=
  match rs with
  | [] => []
  | r :: rs' => [Itoa n; classifyStatusForMetrics (wr_StatusCode r) (wr_Error r)] :: attempts_from (n + 1) rs'
  end.
Definition outcome_of (rs : list WebhookResult) (resolved : bool) : list (list string) :=
  match list.last rs with
  | Some r => if IsSuccess r then [["success"%string]] else if resolved then [["failed"%string]] else []
  | None => []
  end.

Section dispatch.
  Variables (d : Dispatcher) (event : TriggerEvent) (pl : Job -> WebhookPayload).
  Hypothesis Hon : d_metrics d = true.

Lemma mets_on m : mets d m = [AMetric m].
Proof. unfold mets. by rewrite Hon. Qed.

(** What the observations see of the pieces of a trace. *)
Definition sees (l : list action) (att out ret : list (list string)) : Prop :=
  pick attempt_labels l = att /\ pick outcome_labels l = out /\ pick retry_labels l = ret /\ pick refused l = [].
Lemma sees_app l1 l2 a1 o1 r1 a2 o2 r2 : sees l1 a1 o1 r1 -> sees l2 a2 o2 r2 -> sees (l1 ++ l2) (a1 ++ a2) (o1 ++ o2) (r1 ++ r2).
Proof. intros (<- & <- & <- & E) (<- & <- & <- & E'). unfold sees. by rewrite !pick_app, E, E'. Qed.

Lemma delivery_sees job n res l : delivery_trace d event job (pl job) n res l ->
  sees l [[Itoa n; classifyStatusForMetrics (wr_StatusCode res) (wr_Error res)]] [] [].
Proof. intros []. by rewrite mets_on. Qed.
Lemma retry_sees n last r : (1 < n -> IsRetryable last = true)%Z ->
  sees (retry_trace d n last r) [] [] (replicate (length (pick waited (retry_trace d n last r))) ["true"%string]).
Proof.
  intros Hr. destruct (retry_obs d n last r) as (_ & _ & -> & _). unfold retry_trace.
  destruct (Z.ltb_spec 1 n); [| done]. rewrite mets_on. unfold sees. cbn. by rewrite Hr by lia.
Qed.
Lemma success_sees sm : success_metrics d sm -> sees sm [] [["success"%string]] [].
Proof. intros [|]; [congruence | done]. Qed.
Lemma finish_sees status u (b : bool) fin r :
  finish_trace d event status (if b then ASuccess u else AFailure u) fin r -> sees fin [] [] [].
Proof. intros [| |]; [destruct (d_breaker d), b | |]; done. Qed.

(** The attempt loop from attempt [n] on. *)
Lemma loop_sees job n last l x : attempts_trace d event job (pl job) n last l x -> (1 <= n)%Z ->
  (1 < n -> IsRetryable last = true)%Z ->
  sees l (attempts_from n (pick sent l).*2) (outcome_of (pick sent l).*2 false) (replicate (length (pick waited l)) ["true"%string]).
Proof.
  induction 1 as [n last Hn|n last e Hn|n last res l sm fin r Hn Hs Hd Hsm Hfin
    |n last res l Hn Hs Hr Hd|n last res l rest x Hn Hs Hr Hd Hrest IH]; intros Hb Hlast; [done | | | |].
  1: { pose proof (retry_sees n last (Some e) Hlast) as H1. by destruct (retry_obs d n last (Some e)) as (-> & _). }
  all: pose proof (retry_sees n last None Hlast) as H1; destruct (retry_obs d n last None) as (Es & _);
    pose proof (delivery_sees _ _ _ _ Hd) as H2; destruct (delivery_obs _ _ _ _ _ _ _ Hd) as (q & Es1 & _ & _ & Ew1 & _).
  - pose proof (sees_app _ _ _ _ _ _ _ _ (success_sees _ Hsm) (finish_sees _ _ true _ _ Hfin)) as H3.
    destruct (success_metrics_obs _ _ Hsm) as (Es2 & _ & Ew2 & _).
    destruct (finish_obs _ _ _ _ true _ _ Hfin) as (Es3 & _ & Ew3 & _).
    pose proof (sees_app _ _ _ _ _ _ _ _ H1 (sees_app _ _ _ _ _ _ _ _ H2 H3)) as Hall.
    rewrite !pick_app, Es, Es1, Ew1, Es2, Ew2, Es3, Ew3, !app_nil_r. unfold outcome_of. cbn. rewrite Hs.
    cbn [app] in Hall. by rewrite ?app_nil_r in Hall.
  - pose proof (sees_app _ _ _ _ _ _ _ _ H1 H2) as Hall.
    rewrite !pick_app, Es, Es1, Ew1, !app_nil_r. unfold outcome_of. cbn. rewrite Hs. cbn [app] in Hall. by rewrite ?app_nil_r in Hall.
  - pose proof (sees_app _ _ _ _ _ _ _ _ H1 (sees_app _ _ _ _ _ _ _ _ H2 (IH ltac:(lia) ltac:(done)))) as Hall.
    rewrite !pick_app, Es, Es1, Ew1, !length_app, replicate_add. cbn [app length]. cbn [app] in Hall.
    replace (outcome_of _ false) with (outcome_of (pick sent rest).*2 false); [exact Hall |].
    unfold outcome_of. rewrite fmap_cons, last_cons. cbn. destruct (list.last _); [done | by rewrite Hs].
Qed.
End dispatch.

(** The outcome that a dispatch reports: the breaker's refusal, or that of the
    last delivery, if the execution was resolved. *)
Definition outcome_shown (l : list action) : list (list string) :=
  match pick refused l with
  | _ :: _ => [["circuit_open"%string]]
  | [] => outcome_of (pick sent l).*2 (bool_decide (pick updated l <> []))
  end.

Section counted.
  Context {W : Type} `{DispatchLog W}.
  Variable d : Dispatcher.

Lemma outcome_of_last (rs : list WebhookResult) r b : list.last rs = Some r ->
  outcome_of rs b = if IsSuccess r then [["success"%string]] else if b then [["failed"%string]] else [].
Proof. unfold outcome_of. by intros ->. Qed.
Lemma outcome_of_unresolved (rs : list WebhookResult) b : (b = true -> exists r, list.last rs = Some r /\ IsSuccess r = true) ->
  outcome_of rs b = outcome_of rs false.
Proof. unfold outcome_of. destruct b; [| done]. intros Hb. destruct Hb as (r & -> & ->); done. Qed.

Lemma analytics_sees event an c : (forall a, a ∈ an -> a = AAnalytics event c) -> sees an [] [] [] /\ pick sent an = [] /\ pick waited an = [] /\ pick updated an = [].
Proof. intros Han. unfold sees. by rewrite !(pick_analytics event _ an c). Qed.
Lemma allow_sees (b : bool) u : let l := if b then [AAllow u (Ok tt)] else [] in
  sees l [] [] [] /\ pick sent l = [] /\ pick waited l = [] /\ pick updated l = [].
Proof. by destruct b. Qed.

Lemma body_counted event b r : d_metrics d = true -> body_trace d event (payload_of event) b r ->
  pick attempt_labels b = attempts_from 1 (pick sent b).*2 /\ pick outcome_labels b = outcome_shown b /\
  pick retry_labels b = replicate (length (pick waited b)) ["true"%string].
Proof.
  intros Hon [e|job an e Hu Han|job an e Hu Hbr Han|job an al l r' Hu Han Hal Hl
    |job an al l last fin r' Hu Han Hal Hl Hfin]; [done | | | |];
    destruct (analytics_sees event an _ Han) as ((A1 & A2 & A3 & A4) & A5 & A6 & A7); unfold outcome_shown.
  - observe. cbn. by rewrite A1, A2, A3, A4, A5, A6.
  - rewrite (mets_on d Hon). cbn. rewrite !pick_app, A1, A2, A3, A4, A5, A6. done.
  - destruct (allow_sees (d_breaker d) (d_WebhookURL (j_Delivery job))) as ((B1 & B2 & B3 & B4) & B5 & B6 & B7).
    rewrite <- Hal in *. cbn. rewrite !pick_app, A1, A2, A3, A4, A5, A6, A7, B1, B2, B3, B4, B5, B6, B7. cbn [app].
    destruct (loop_sees d event (payload_of event) Hon _ _ _ _ _ Hl ltac:(lia) ltac:(lia)) as (E1 & E2 & E3 & E4).
    rewrite E1, E2, E3, E4. split_and!; try done. symmetry. apply outcome_of_unresolved.
    destruct (loop_outcomes _ _ _ _ _ _ _ _ Hl) as (_ & _ & Hout); [lia | done | lia |].
    destruct Hout as [(? & _)|[(e & _ & Eu & _)|(u & res & Hlast & Hok & _)]]; [done | by rewrite Eu |]. eauto.
  - destruct (allow_sees (d_breaker d) (d_WebhookURL (j_Delivery job))) as ((B1 & B2 & B3 & B4) & B5 & B6 & B7).
    rewrite <- Hal in *. rewrite (mets_on d Hon). cbn. rewrite !pick_app, A1, A2, A3, A4, A5, A6, A7, B1, B2, B3, B4, B5, B6, B7. cbn.
    destruct (finish_sees d event _ _ false _ _ Hfin) as (F1 & F2 & F3 & F4).
    destruct (finish_obs _ _ _ _ false _ _ Hfin) as (F5 & _ & F6 & _ & u & F7 & _).
    destruct (loop_sees d event (payload_of event) Hon _ _ _ _ _ Hl ltac:(lia) ltac:(lia)) as (E1 & E2 & E3 & E4).
    rewrite E1, E2, E3, E4, F1, F2, F3, F4, F5, F6, F7, !app_nil_r. split_and!; try done.
    destruct (loop_outcomes _ _ _ _ _ _ _ _ Hl) as (_ & _ & Hout); [lia | done | lia |].
    destruct Hout as [(_ & _ & ?)|(Eu & _ & Hlast & Hok)]; [lia |]. rewrite Eu. cbn [app].
    rewrite !(outcome_of_last _ _ _ Hlast), Hok. by rewrite bool_decide_eq_true_2.
Qed.

Lemma shown_gauge l : pick gauge l = [] -> shown eventsInFlight l = [].
Proof.
  intros Hl. unfold shown, series. induction l as [|a l IH]; [done |].
  destruct a as [| | | | | | | | |[]]; try exact (IH Hl); done.
Qed.

(** C26: with a metrics sink, a dispatch counts every delivery, with its number and
    the class of its result; every wait as a retry, all under the label [true]; and
    at most one outcome, which is that of the execution; and the gauge of the events
    in flight is raised by its first call, lowered by its last, and not touched in
    between. *)
Theorem dispatch_counted event :
  d_metrics d = true ->
  logs (Dispatch d event) (fun l _ =>
    shown deliveryAttemptsTotal l = attempts_from 1 (pick sent l).*2 /\
    shown retryAttemptsTotal l = replicate (length (pick waited l)) ["true"%string] /\
    shown deliveryOutcomesTotal l = outcome_shown l /\
    exists b, pick measured l ≫= dispatch_calls = inc eventsInFlight :: b ++ [mkCall eventsInFlight [] Dec] /\
      series eventsInFlight b = []).
Proof.
  intros Hon w. destruct (dispatch_gauge_balanced d event w) as (l' & Hl' & Hg).
  destruct (dispatch_logs d event w) as (l & Hl & b & -> & Hb). eexists. split; [exact Hl |].
  rewrite Hl in Hl'. apply app_inv_head in Hl' as <-. rewrite Hon, (mets_on d Hon), (mets_on d Hon) in *.
  destruct (body_counted event b _ Hon Hb) as (E1 & E2 & E3).
  assert (Hgauge : pick gauge b = []).
  { cbn [app pick gauge] in Hg. rewrite pick_app in Hg. cbn in Hg. injection Hg as Hg. by apply (app_inv_tail [(-1)%Z] _ []). }
  rewrite shown_attempts, shown_retries, shown_outcomes. unfold outcome_shown in *.
  cbn [app pick attempt_labels outcome_labels retry_labels refused sent waited updated measured].
  rewrite !pick_app. cbn [pick attempt_labels outcome_labels retry_labels refused sent waited updated measured]. rewrite !app_nil_r.
  split_and!; [done .. |]. exists (pick measured b ≫= dispatch_calls). split; [| by apply shown_gauge].
  cbn. by rewrite bind_app.
Qed.
End counted.

(** ** An elector *)
Import Leader.

(** The value of the gauge, and the increments of a counter under a label. *)
Definition gauge_value (c : collector) (l : list call) : option float64 :=
  list.last (omap (fun k => match k_op k with
    | Set_ v => if String.eqb (c_Name (k_collector k)) (c_Name c) then Some v else None | _ => None end) l).
Definition count_of (c : collector) (values : list string) (l : list call) : nat :=
  length (filter (fun v => v = values) (series c l)).
Definition leading (p : phase) : bool := match p with Holding _ | Demoting _ _ => true | _ => false end.

Lemma gauge_value_app c l1 l2 : gauge_value c (l1 ++ l2) = match gauge_value c l2 with Some v => Some v | None => gauge_value c l1 end.
Proof.
  unfold gauge_value. rewrite omap_app, last_app. done.
Qed.
Lemma count_of_app c vs l1 l2 : count_of c vs (l1 ++ l2) = count_of c vs l1 + count_of c vs l2.
Proof. unfold count_of, series. by rewrite omap_app, filter_app, length_app. Qed.

(** What the calls of an elector show: the gauge, which begins at zero, says whether it leads, and the
    terms that it has begun are those that ended, one way or the other, and the
    present one. *)
Definition elector_shown (lead : bool) (l : list call) : Prop :=
  default (of_int 0) (gauge_value leaderIsLeader l) = of_int (if lead then 1 else 0).
Definition terms_shown (lead : bool) (l : list call) : Prop :=
  count_of leaderAcquisitions [] l =
  count_of leaderLosses ["conn_lost"%string] l + count_of leaderLosses ["shutdown"%string] l + if lead then 1 else 0.

Definition reports_ok (x : instance) : Prop :=
  in_phase x = Stopped \/
  (forall c reason, in_phase x = Demoting c reason -> reason = "conn_lost"%string \/ reason = "shutdown"%string) /\
  elector_shown (leading (in_phase x)) (in_metrics x ≫= leader_calls) /\
  terms_shown (leading (in_phase x)) (in_metrics x ≫= leader_calls).

Ltac count := repeat match goal with |- context [count_of ?c ?v ((?a :: ?l) ≫= leader_calls)] =>
  let n := eval vm_compute in (count_of c v ((a :: l) ≫= leader_calls)) in
  change (count_of c v ((a :: l) ≫= leader_calls)) with n end.
(** What an event adds to the reports. *)
Lemma reports_kept x y : reports_ok x -> in_phase y = in_phase x -> in_metrics y = in_metrics x -> reports_ok y.
Proof. unfold reports_ok. by intros Hx -> ->. Qed.
Lemma reports_same x y : reports_ok x -> leading (in_phase y) = leading (in_phase x) -> in_metrics y = in_metrics x ->
  (forall c reason, in_phase y = Demoting c reason -> reason = "conn_lost"%string \/ reason = "shutdown"%string) ->
  in_phase x <> Stopped -> reports_ok y.
Proof. intros [?|(H1 & H2 & H3)] E1 E2 Hd Hns; [done |]. right. rewrite E1, E2. by split_and!. Qed.
Lemma reports_failed x y : reports_ok x -> leading (in_phase x) = false -> in_phase x <> Stopped -> in_phase y = Waiting ->
  in_metrics y = in_metrics x ++ [Leader.LeaderLost "error"] -> reports_ok y.
Proof.
  intros [?|(H1 & H2 & H3)] E1 Hns Ep E2; [done |]. right. rewrite Ep, E2, bind_app. rewrite E1 in *. split_and!; [done | |].
  - unfold elector_shown in *. by rewrite !gauge_value_app.
  - unfold terms_shown in *. rewrite !count_of_app, H3. count. cbn [leading]. lia.
Qed.
Lemma reports_elected x y : reports_ok x -> leading (in_phase x) = false -> in_phase x <> Stopped -> (exists c, in_phase y = Holding c) ->
  in_metrics y = in_metrics x ++ [Leader.LeaderStatusChanged true; Leader.LeaderAcquired] -> reports_ok y.
Proof.
  intros [?|(H1 & H2 & H3)] E1 Hns [c Ep] E2; [done |]. right. rewrite Ep, E2, bind_app. rewrite E1 in *. split_and!; [done | |].
  - unfold elector_shown. by rewrite gauge_value_app.
  - unfold terms_shown in *. rewrite !count_of_app, H3. count. cbn [leading]. lia.
Qed.
Lemma reports_demoted x y reason : reports_ok x -> leading (in_phase x) = true -> in_phase y = Waiting ->
  reason = "conn_lost"%string \/ reason = "shutdown"%string ->
  in_metrics y = in_metrics x ++ [Leader.LeaderStatusChanged false; Leader.LeaderLost reason] -> reports_ok y.
Proof.
  intros [Es|(H1 & H2 & H3)] E1 Ep Hr E2; [by rewrite Es in E1 |]. right. rewrite Ep, E2, bind_app. rewrite E1 in *. split_and!; [done | |].
  - unfold elector_shown. by rewrite gauge_value_app.
  - unfold terms_shown in *. rewrite !count_of_app, H3. destruct Hr as [-> | ->]; count; cbn [leading]; lia.
Qed.

Lemma close_reports c discard x s x' s' : close_conn c discard x s = (x', s') -> in_phase x' = in_phase x /\ in_metrics x' = in_metrics x.
Proof. unfold close_conn. by destruct discard; intros [= <- _]. Qed.
Lemma hold_ends_reports c reason discard x s x' s' : hold_ends c reason discard x s = (x', s') -> in_phase x = Holding c ->
  reason = "conn_lost"%string \/ reason = "shutdown"%string -> reports_ok x -> reports_ok x'.
Proof.
  unfold hold_ends. intros E Hp Hr Hx. destruct (stop _) as [lr|].
  - injection E as <- _. eapply reports_same; [exact Hx | by rewrite Hp | done | by intros ? ? [= _ <-] | by rewrite Hp].
  - apply close_reports in E as [Ep Em]. eapply reports_demoted; [exact Hx | by rewrite Hp | by rewrite Ep | exact Hr | by rewrite Em].
Qed.

Lemma instance_reports e i x s x' s' : instance_step e i x s = Some (x', s') -> reports_ok x -> reports_ok x'.
Proof.
  intros E Hx. assert (in_phase x' = Stopped \/ in_phase x' <> Stopped) as [|Hns] by (destruct (in_phase x'); auto); [by left |].
  destruct e; cbn [instance_step] in E; destruct (in_phase x) as [|k|k|k why|] eqn:Hp; cbn in E; try done.
  all: repeat match type of E with (if ?b then _ else _) = _ => destruct b eqn:? end; try done.
  all: try (injection E as <- <-).
  all: try (by left).
  all: try (eapply reports_kept; [exact Hx | done | done]).
  all: try (eapply reports_same; [exact Hx | by rewrite Hp | done | done | by rewrite Hp]).
  all: try (eapply reports_failed; [exact Hx | by rewrite Hp | by rewrite Hp | done | done]).
  all: try (eapply hold_ends_reports; [by injection E as E | exact Hp | by destruct (in_ctx x); auto | exact Hx]).
  - injection E as [Ep Em]%close_reports.
    eapply reports_failed; [exact Hx | by rewrite Hp | by rewrite Hp | by rewrite Ep | by rewrite Em].
  - destruct (try_advisory_lock _ _) as [[] s1].
    + injection E as <- _. eapply reports_elected; [exact Hx | by rewrite Hp | by rewrite Hp | by eexists | done].
    + injection E as [Ep Em]%close_reports.
      eapply reports_same; [exact Hx | by rewrite Ep, Hp | by rewrite Em | by rewrite Ep | by rewrite Hp].
  - injection E as [Ep Em]%close_reports.
    assert (Hr : why = "conn_lost"%string \/ why = "shutdown"%string) by (destruct Hx as [?|(Hd & _)]; [congruence | by eapply Hd]).
    eapply reports_demoted; [exact Hx | by rewrite Hp | by rewrite Ep | exact Hr | by rewrite Em].
Qed.

Lemma step_reports e s s' : step e s = Some s' -> map_Forall (fun _ => reports_ok) (sys_instances s) -> map_Forall (fun _ => reports_ok) (sys_instances s').
Proof.
  destruct s as [sv m]. intros E Hm. destruct (actor e) as [i|] eqn:Ha; [| by destruct e; simplify_eq/=].
  destruct (m !! i) as [x|] eqn:Hi; [| by destruct e; simplify_eq/=; rewrite Hi in E].
  rewrite (step_at e i x sv m Ha Hi) in E. destruct (instance_step e i x sv) as [[x' sv']|] eqn:Ei; [| done].
  injection E as <-. cbn. apply map_Forall_insert_2; [| done]. eapply instance_reports; [exact Ei |]. by apply (Hm i).
Qed.
Lemma reachable_reports b n s : reachable (init b n) s -> map_Forall (fun _ => reports_ok) (sys_instances s).
Proof.
  induction 1 as [|e s s' _ IH E]; [| by eapply step_reports].
  cbn. intros i x Hi. apply elem_of_list_to_map_2 in Hi. apply list_elem_of_fmap in Hi as (k & [= -> ->] & _).
  right. by split_and!.
Qed.

Lemma leader_calls_typed l : Forall well_typed (l ≫= leader_calls).
Proof. induction l as [|m l IH]; [constructor |]. cbn. apply Forall_app. split; [apply leader_typed | exact IH]. Qed.

(** C24: in every state that any number of instances can reach, by any
    interleaving of elections, losses of connections and shutdowns, as long as
    [Run] of an instance has not ended, what Prometheus has been told of it is
    right: its gauge says whether it leads, and its counter of acquisitions exceeds
    that of the losses [conn_lost] and [shutdown] together by the term that is
    under way, so that every term ends in exactly one loss; losses labelled [error]
    are attempts that failed and do not count. Each of the calls is one of a
    registered collector, with a value for each of its labels, that the client
    library accepts. *)
Theorem elector_counted (b : bool) (n i : nat) (s : system) (x : instance) :
  reachable (init b n) s -> sys_instances s !! i = Some x -> in_phase x <> Stopped ->
  let lead := leading (in_phase x) in
  let calls := in_metrics x ≫= leader_calls in
  default (of_int 0) (gauge_value leaderIsLeader calls) = of_int (if lead then 1 else 0) /\
  count_of leaderAcquisitions [] calls =
    count_of leaderLosses ["conn_lost"%string] calls + count_of leaderLosses ["shutdown"%string] calls + (if lead then 1 else 0) /\
  Forall well_typed calls.
Proof.
  intros Hr Hi Hp. destruct (reachable_reports b n s Hr i x Hi) as [?|(_ & H1 & H2)]; [done |].
  split; [exact H1 |]. split; [exact H2 | apply leader_calls_typed].
Qed.

(** ** Witnesses *)

(** A job with two activations since the last tick. *)
Section tick_witness.
Import SchedulerProps.Sim.
Lemma tick_counted_witness :
  let w := SchedulerProps.Sim.start [SchedulerProps.Sim.job 1%N "*/5"] (100 * Minute) in
  let s := SchedulerProps.Sim.sched 10 (90 * Minute) in
  Scheduler.sc_metrics s = true /\
  exists l, slog (exec (Scheduler.processTick s 2) w) = slog w ++ l /\ triggers l = 2%Z /\
    exists d, pick ticked l ≫= tick_calls = tick_shown 2 d true.
Proof.
  intros w s. split; [reflexivity |]. destruct (tick_counted s 2 eq_refl w) as (l & Hl & Ht). exists l.
  assert (E : triggers l = 2%Z) by (assert (El : l = slog (exec (Scheduler.processTick s 2) w)) by (rewrite Hl; reflexivity); rewrite El; by vm_compute).
  split; [exact Hl |]. split; [exact E |]. rewrite <- E. apply (Ht (Ok tt) (default s (snd <$> eval (Scheduler.processTick s 2) w))). by vm_compute.
Defined.
End tick_witness.

Section dispatch_witness.
Import DispatcherProps.Sim.
(** Two failures and a success. *)
Lemma dispatch_counted_witness :
  let w := start [status 503; status 503; status 200] in
  d_metrics full = true /\
  exists l, log (exec (Dispatch full event) w) = log w ++ l /\
    shown deliveryAttemptsTotal l = [["1"; "5xx"]; ["2"; "5xx"]; ["3"; "2xx"]]%string /\
    shown retryAttemptsTotal l = [["true"]; ["true"]]%string /\ shown deliveryOutcomesTotal l = [["success"%string]].
Proof.
  intros w. split; [reflexivity |]. destruct (dispatch_counted full event eq_refl w) as (l & Hl & E1 & E2 & E3 & _). exists l.
  split; [exact Hl |]. rewrite E1, E2, E3. assert (El : l = log (exec (Dispatch full event) w)) by (rewrite Hl; reflexivity). rewrite El. clear. vm_compute. split_and!; reflexivity.
Defined.
End dispatch_witness.

(** An instance that leads. *)
Definition leader : instance := default (fresh_instance true) (sys_instances Leader.Sim.leading !! 0).
Lemma elector_counted_witness :
  let lead := leading (in_phase leader) in
  let calls := in_metrics leader ≫= leader_calls in
  lead = true /\
  (default (of_int 0) (gauge_value leaderIsLeader calls) = of_int (if lead then 1 else 0) /\
   count_of leaderAcquisitions [] calls =
     count_of leaderLosses ["conn_lost"%string] calls + count_of leaderLosses ["shutdown"%string] calls + (if lead then 1 else 0) /\
   Forall well_typed calls).
Proof.
  split; [by vm_compute |]. apply (elector_counted true 2 0 Leader.Sim.leading leader).
  - apply Leader.Sim.go_reachable. by vm_compute.
  - by vm_compute.
  - by vm_compute.
Defined.
